(** * A shallow embedding of [mlpnet.py]

    The multi-layer perceptron simulator of [src/mlpnet.py]: layers and
    networks over one flat weight array with numpy views into it, forward
    propagation, the two cost functions with their back-propagated
    gradients, prediction, the finite-difference gradient estimate and the
    splitting of training data.

    Conventions of the embedding.
    - Python floats and numpy [float64] entries are an abstract [Scalar]
      type: the arithmetic operators, the literals the source uses and the
      two library reductions ([np.sum], and the inner product [np.dot]
      performs) are operations of the class, with no law assumed.  Every
      statement therefore holds for IEEE doubles with whatever summation
      order numpy uses, and for exact arithmetic.  Two instances are given:
      primitive binary64 floats and exact rationals.
    - numpy arrays that outlive a call, or are shared (the network's weights,
      the layers' outputs and weight views, arrays owned by the caller) live
      in a heap of array objects: a buffer, an offset, a shape.  Arrays that
      are temporaries of one expression are values.
    - Python exceptions are values of [pyexc]; a method is a function from
      the heap to the new heap and either a result or the exception raised. *)

From Stdlib Require Import ZArith QArith Lia List Bool Permutation String.
From Stdlib Require Import Uint63 Floats.PrimFloat Floats.FloatOps Floats.SpecFloat.
From stdpp Require Import base option list.

Local Open Scope nat_scope.

(* ===================================================================== *)
(** * Exceptions and the error monad *)
(* ===================================================================== *)

(** The exceptions the modelled code can raise.  [OutsideModel] marks the
    places where numpy would go on with arrays of a rank or layout that this
    embedding does not represent (it is never the outcome of a call on the
    arrays the network code creates itself). *)
Inductive pyexc : Type :=
  | MLPError | ValueError | TypeError | IndexError | AttributeError
  | OverflowError | EOFError | OutsideModel.

Inductive res (A : Type) : Type :=
  | Ok (a : A)
  | Raise (e : pyexc).
Arguments Ok {A} a.
Arguments Raise {A} e.

#[global] Instance res_ret : MRet res := fun A a => Ok a.
#[global] Instance res_bind : MBind res :=
  fun A B f m => match m with Ok a => f a | Raise e => Raise e end.
#[global] Instance res_fmap : FMap res :=
  fun A B f m => match m with Ok a => Ok (f a) | Raise e => Raise e end.

(** [for x in items: s = body(x, s)], stopping at the first exception. *)
Fixpoint for_each {X S : Type} (body : X -> S -> res S) (items : list X) (s : S)
  : res S :=
  match items with
  | [] => Ok s
  | x :: rest => s' ← body x s; for_each body rest s'
  end.

(** [enumerate(l, start)] *)
Definition enumerate {X : Type} (start : nat) (l : list X) : list (nat * X) :=
  zip (seq start (length l)) l.

(** [l[i]] for a Python list and a non-negative index. *)
Definition py_index {X : Type} (l : list X) (i : nat) : res X :=
  match l !! i with Some x => Ok x | None => Raise IndexError end.

(** [l[-1]] *)
Definition py_last {X : Type} (l : list X) : res X :=
  match last l with Some x => Ok x | None => Raise IndexError end.

(* ===================================================================== *)
(** * Scalars *)
(* ===================================================================== *)

Class Scalar (R : Type) : Type := {
  of_int : Z -> R;            (** the float of a Python int *)
  lit_half : R;               (** the literal [0.5] *)
  lit_eps : R;                (** the literal [1.0e-4] *)
  fadd : R -> R -> R;
  fsub : R -> R -> R;
  fmul : R -> R -> R;
  fdiv : R -> R -> R;
  fneg : R -> R;              (** unary minus *)
  feqb : R -> R -> bool;      (** [==] *)
  fisnan : R -> bool;         (** [np.isnan] *)
  to_int : R -> res Z;        (** [int(x)]: truncation toward zero *)
  np_sum : list R -> R;       (** [np.sum] of the entries, in row-major order *)
  dot_sum : list R -> R       (** the reduction [np.dot] applies to the products *)
}.

Declare Scope scalar_scope.
Delimit Scope scalar_scope with F.
Infix "+" := fadd : scalar_scope.
Infix "-" := fsub : scalar_scope.
Infix "*" := fmul : scalar_scope.
Infix "/" := fdiv : scalar_scope.

(** The literals [0.0], [1.0] and [2.0] are the floats of 0, 1 and 2. *)
Definition f0 {R} `{Scalar R} : R := of_int 0.
Definition f1 {R} `{Scalar R} : R := of_int 1.
Definition f2 {R} `{Scalar R} : R := of_int 2.

(** ** IEEE binary64, the floats the code runs on *)

(** [int(x)]: the integer part; [nan] raises ValueError and an infinity
    OverflowError. *)
Definition float_to_int (x : float) : res Z :=
  match Prim2SF x with
  | S754_zero _ => Ok 0%Z
  | S754_finite s m e =>
      let v := if (0 <=? e)%Z then (Z.pos m * 2 ^ e)%Z
               else (Z.pos m / 2 ^ (- e))%Z in
      Ok (if s then (- v)%Z else v)
  | S754_nan => Raise ValueError
  | S754_infinity _ => Raise OverflowError
  end.

(** The nearest double of an integer. *)
Definition float_of_int (k : Z) : float :=
  SF2Prim (binary_normalize prec emax k 0 false).

#[global] Instance float_scalar : Scalar float := {|
  of_int := float_of_int;
  lit_half := 0.5%float;
  lit_eps := 0x1.a36e2eb1c432dp-14%float;
  fadd := PrimFloat.add;
  fsub := PrimFloat.sub;
  fmul := PrimFloat.mul;
  fdiv := PrimFloat.div;
  fneg := PrimFloat.opp;
  feqb := PrimFloat.eqb;
  fisnan := PrimFloat.is_nan;
  to_int := float_to_int;
  np_sum := fun l => fold_left PrimFloat.add l 0%float;
  dot_sum := fun l => fold_left PrimFloat.add l 0%float
|}.

(** ** Exact rationals, the arithmetic the formulas are read in *)

#[global] Instance Q_scalar : Scalar Q := {|
  of_int := inject_Z;
  lit_half := (1 # 2)%Q;
  lit_eps := (1 # 10000)%Q;
  fadd := Qplus;
  fsub := Qminus;
  fmul := Qmult;
  fdiv := Qdiv;
  fneg := Qopp;
  feqb := Qeq_bool;
  fisnan := fun _ => false;
  to_int := fun q => Ok (Z.quot (Qnum q) (Z.pos (Qden q)));
  np_sum := fun l => fold_left Qplus l (0 # 1)%Q;
  dot_sum := fun l => fold_left Qplus l (0 # 1)%Q
|}.

(* ===================================================================== *)
(** * Activation functions *)
(* ===================================================================== *)

(** An activation function and its derivative act entry by entry.  The
    sigmoid ([scipy.special.expit]), [np.arctan] and [np.tanh] are library
    functions; the source defines these around them.  [linear_gradient]
    returns the float [1.0], which numpy broadcasts over the array it is
    multiplied with; entry by entry that is the constant function. *)
Section Activations.
Context {R : Type} `{Scalar R}.

Definition sigmoid_gradient (sigmoid : R -> R) (z : R) : R :=
  let g := sigmoid z in (g * (f1 - g))%F.

Definition d_sigmoid (y : R) : R := (y * (f1 - y))%F.

Definition arctan_gradient (z : R) : R := (f1 / (z * z + f1))%F.

Definition tanh_gradient (tanh : R -> R) (z : R) : R :=
  (f1 - tanh z * tanh z)%F.

Definition d_tanh (y : R) : R := (f1 - y * y)%F.

Definition linear (z : R) : R := z.

Definition linear_gradient (z : R) : R := f1.
End Activations.

(* ===================================================================== *)
(** * Array values: vectors and matrices *)
(* ===================================================================== *)

(** A two-dimensional array value: its column count (kept apart, so that a
    matrix with no row still has a shape) and its rows. *)
Record matrix (R : Type) : Type := Mat { ncols : nat; mrows : list (list R) }.
Arguments Mat {R} ncols mrows.
Arguments ncols {R} m.
Arguments mrows {R} m.

Definition nrows {R} (M : matrix R) : nat := length (mrows M).

(** Every row has the declared width. *)
Definition mat_wf {R} (M : matrix R) : Prop :=
  Forall (fun r => length r = ncols M) (mrows M).

(** [M.shape == (r, c)] for a well-formed [M]. *)
Definition has_shape {R} (M : matrix R) (r c : nat) : Prop :=
  nrows M = r /\ ncols M = c /\ mat_wf M.

Section Matrices.
Context {R : Type} `{Scalar R}.

(** [np.ones((m, n))], [np.zeros((m, n))] *)
Definition np_ones (m n : nat) : matrix R := Mat n (replicate m (replicate n f1)).
Definition np_zeros2 (m n : nat) : matrix R := Mat n (replicate m (replicate n f0)).

(** [np.concatenate((A, B), axis=1)] *)
Definition hstack (A B : matrix R) : res (matrix R) :=
  if nrows A =? nrows B
  then Ok (Mat (ncols A + ncols B) (zip_with app (mrows A) (mrows B)))
  else Raise ValueError.

(** [M.T] *)
Definition transpose (M : matrix R) : matrix R :=
  Mat (nrows M) (map (fun j => map (fun r => nth j r f0) (mrows M)) (seq 0 (ncols M))).

(** The inner product of two rows, as [np.dot] forms it. *)
Definition inner (a b : list R) : R := dot_sum (zip_with fmul a b).

(** [np.dot(A, B)] for two-dimensional [A] and [B]. *)
Definition np_dot (A B : matrix R) : res (matrix R) :=
  if ncols A =? nrows B
  then Ok (Mat (ncols B)
             (map (fun a => map (fun b => inner a b) (mrows (transpose B))) (mrows A)))
  else Raise ValueError.

(** [np.dot(W, v)] for a two-dimensional [W] and a one-dimensional [v]. *)
Definition np_dot_mv (W : matrix R) (v : list R) : res (list R) :=
  if ncols W =? length v
  then Ok (map (fun w => inner w v) (mrows W))
  else Raise ValueError.

(** numpy broadcasting of one axis: equal lengths, or one of them 1. *)
Definition bdim (a b : nat) : option nat :=
  if a =? b then Some a
  else if a =? 1 then Some b
  else if b =? 1 then Some a
  else None.

Definition stretch {X : Type} (n : nat) (l : list X) : list X :=
  if length l =? n then l
  else match l with [x] => replicate n x | _ => l end.

Definition broadcast_to (r c : nat) (M : matrix R) : list (list R) :=
  map (stretch c) (stretch r (mrows M)).

(** An entry-wise binary operator on two matrices, with broadcasting. *)
Definition np_binop (f : R -> R -> R) (A B : matrix R) : res (matrix R) :=
  match bdim (nrows A) (nrows B), bdim (ncols A) (ncols B) with
  | Some r, Some c =>
      Ok (Mat c (zip_with (zip_with f) (broadcast_to r c A) (broadcast_to r c B)))
  | _, _ => Raise ValueError
  end.

Definition np_sub := np_binop fsub.
Definition np_add := np_binop fadd.
Definition np_mul := np_binop fmul.

(** A function applied to every entry. *)
Definition mmap (f : R -> R) (M : matrix R) : matrix R :=
  Mat (ncols M) (map (map f) (mrows M)).

(** [M**2] *)
Definition msquare (M : matrix R) : matrix R := mmap (fun x => x * x)%F M.

(** [k*M] and [M/k] for a scalar [k] *)
Definition scale (k : R) (M : matrix R) : matrix R := mmap (fun x => k * x)%F M.
Definition divide (M : matrix R) (k : R) : matrix R := mmap (fun x => x / k)%F M.

(** [M[:, 1:]] *)
Definition drop_col0 (M : matrix R) : matrix R :=
  Mat (ncols M - 1) (map (drop 1) (mrows M)).

(** [M.ravel()]: the entries in row-major order. *)
Definition ravel (M : matrix R) : list R := concat (mrows M).

(** [np.sum(M)] *)
Definition msum (M : matrix R) : R := np_sum (ravel M).

(** A flat list of [r*c] entries seen as [r] rows of [c]. *)
Definition reshape2 (r c : nat) (flat : list R) : matrix R :=
  Mat c (map (fun i => take c (drop (i * c) flat)) (seq 0 r)).
End Matrices.

(* ===================================================================== *)
(** * Numerical estimate of the gradient *)
(* ===================================================================== *)

(** What a cost function returns: the cost alone, or the tuple
    [(cost, gradient)]. *)
Inductive cost_result (R : Type) : Type :=
  | Cost (J : R)
  | CostGrad (J : R) (grad : list R).
Arguments Cost {R} J.
Arguments CostGrad {R} J grad.

(** [if isinstance(loss, tuple): loss = loss[0]] *)
Definition cost_of {R} (l : cost_result R) : R :=
  match l with Cost J => J | CostGrad J _ => J end.

Section NumericalGradient.
Context {R : Type} `{Scalar R}.

(** One turn of [for p in range(n)]; the state is [(numgrad, perturb)]. *)
Definition numgrad_step (J : list R -> res (cost_result R)) (theta : list R)
    (p : nat) (st : list R * list R) : res (list R * list R) :=
  let '(numgrad, perturb) := st in
  let e := lit_eps in
  let perturb := <[p := e]> perturb in
  loss1 ← J (zip_with fsub theta perturb);
  loss2 ← J (zip_with fadd theta perturb);
  let loss1 := cost_of loss1 in
  let loss2 := cost_of loss2 in
  let numgrad := <[p := ((loss2 - loss1) / (f2 * e))%F]> numgrad in
  let perturb := <[p := f0]> perturb in
  Ok (numgrad, perturb).

(** [compute_derivative_numerically(J, theta)] for a one-dimensional
    [theta].  Above 1000 weights the source prints a warning and calls
    [raw_input], which waits for the enter key: [raw_input] is what that
    call does, it returns once a line is read or raises (EOFError when the
    input is closed).  What is printed is not part of the model. *)
Definition compute_derivative_numerically (raw_input : res unit)
    (J : list R -> res (cost_result R)) (theta : list R) : res (list R) :=
  let numgrad := replicate (length theta) f0 in
  let perturb := replicate (length theta) f0 in
  let n := length theta in
  _ ← (if 1000 <? n then raw_input else Ok tt);
  st ← for_each (numgrad_step J theta) (seq 0 n) (numgrad, perturb);
  Ok (fst st).

(** The perturbation vector of turn [p]: [e] at [p], [0.0] elsewhere. *)
Definition unit_perturb (n p : nat) : list R := <[p := lit_eps]> (replicate n f0).

(** The central difference formed at index [p]. *)
Definition central_difference (J : list R -> res (cost_result R))
    (theta : list R) (p : nat) : res R :=
  loss1 ← J (zip_with fsub theta (unit_perturb (length theta) p));
  loss2 ← J (zip_with fadd theta (unit_perturb (length theta) p));
  Ok ((cost_of loss2 - cost_of loss1) / (f2 * lit_eps))%F.
End NumericalGradient.

(* ===================================================================== *)
(** * The heap of numpy arrays *)
(* ===================================================================== *)

(** An array object is a window on a buffer: [nd_base] is the array that owns
    the buffer ([None] when the object owns it itself, as numpy's [.base]),
    [nd_off] the position of its first entry and [nd_shape] its shape; all
    arrays of the program are contiguous and in row-major order.  Assigning to
    [.shape] changes the object, writing through an index changes the buffer,
    and so every view of it. *)
Definition ref := nat.

Record ndarray : Type := NdArray {
  nd_base : option ref;
  nd_buf : nat;
  nd_off : nat;
  nd_shape : list nat
}.

Record heap (R : Type) : Type := Heap {
  bufs : list (list R);
  objs : list ndarray
}.
Arguments Heap {R} bufs objs.
Arguments bufs {R} h.
Arguments objs {R} h.

(** [a.size] *)
Definition size_of (shape : list nat) : nat := fold_right Nat.mul 1 shape.

(** A computation on the heap that returns or raises. *)
Definition M (R A : Type) : Type := heap R -> heap R * res A.

#[global] Instance M_ret {R} : MRet (M R) := fun A a h => (h, Ok a).
#[global] Instance M_bind {R} : MBind (M R) :=
  fun A B f m h =>
    match m h with
    | (h', Ok a) => f a h'
    | (h', Raise e) => (h', Raise e)
    end.

Definition raise {R A} (e : pyexc) : M R A := fun h => (h, Raise e).
Definition lift {R A} (r : res A) : M R A := fun h => (h, r).

(** [try: m except: raise e] *)
Definition try_except {R A} (m : M R A) (e : pyexc) : M R A :=
  fun h =>
    match m h with
    | (h', Raise OutsideModel) => (h', Raise OutsideModel)
    | (h', Raise _) => (h', Raise e)
    | out => out
    end.

Fixpoint for_eachM {R X S : Type} (body : X -> S -> M R S) (items : list X) (s : S)
  : M R S :=
  match items with
  | [] => mret s
  | x :: rest => s' ← body x s; for_eachM body rest s'
  end.

Section Heap.
Context {R : Type} `{Scalar R}.

Definition get_obj (r : ref) : M R ndarray :=
  fun h => (h, match objs h !! r with Some o => Ok o | None => Raise OutsideModel end).

Definition get_shape (r : ref) : M R (list nat) :=
  o ← get_obj r; mret (nd_shape o).

(** A new array that owns its data. *)
Definition new_array (shape : list nat) (data : list R) : M R ref :=
  fun h => (Heap (bufs h ++ [data])
                 (objs h ++ [NdArray None (length (bufs h)) 0 shape]),
            Ok (length (objs h))).

(** [np.zeros(shape)] *)
Definition np_zeros (shape : list nat) : M R ref :=
  new_array shape (replicate (size_of shape) f0).

Definition new_view (o : ndarray) : M R ref :=
  fun h => (Heap (bufs h) (objs h ++ [o]), Ok (length (objs h))).

Definition base_of (r : ref) (o : ndarray) : ref :=
  match nd_base o with Some b => b | None => r end.

(** [a[first:last]] along the first axis, for non-negative bounds
    ([last = None] when it is left out): a view, no copy. *)
Definition slice (r : ref) (first : nat) (last : option nat) : M R ref :=
  o ← get_obj r;
  match nd_shape o with
  | n :: rest =>
      let s := Nat.min first n in
      let e := Nat.min (default n last) n in
      new_view (NdArray (Some (base_of r o)) (nd_buf o)
                        (nd_off o + s * size_of rest) ((e - s) :: rest))
  | [] => raise IndexError
  end.

Definition put_obj (r : ref) (o : ndarray) : M R unit :=
  fun h => (Heap (bufs h) (<[r := o]> (objs h)), Ok tt).

(** [a.shape = shape], in place. *)
Definition set_shape (r : ref) (shape : list nat) : M R unit :=
  o ← get_obj r;
  if size_of shape =? size_of (nd_shape o)
  then put_obj r (NdArray (nd_base o) (nd_buf o) (nd_off o) shape)
  else raise ValueError.

Definition read_buf (o : ndarray) : M R (list R) :=
  fun h => (h, match bufs h !! nd_buf o with
               | Some b => Ok (take (size_of (nd_shape o)) (drop (nd_off o) b))
               | None => Raise OutsideModel
               end).

(** The entries of an array, in row-major order. *)
Definition read_flat (r : ref) : M R (list R) :=
  o ← get_obj r; read_buf o.

(** The value of a one-dimensional array. *)
Definition read1 (r : ref) : M R (list R) :=
  o ← get_obj r;
  match nd_shape o with
  | [_] => read_flat r
  | _ => raise OutsideModel
  end.

(** The value of a two-dimensional array. *)
Definition read2 (r : ref) : M R (matrix R) :=
  o ← get_obj r;
  match nd_shape o with
  | [n; c] => flat ← read_flat r; mret (reshape2 n c flat)
  | _ => raise OutsideModel
  end.

(** Entries [pos], [pos+1], ... of the array [o] overwritten by [vals]. *)
Definition write (o : ndarray) (pos : nat) (vals : list R) : M R unit :=
  fun h =>
    match bufs h !! nd_buf o with
    | Some b =>
        let at_ := nd_off o + pos in
        (Heap (<[nd_buf o := take at_ b ++ vals ++ drop (at_ + length vals) b]> (bufs h))
              (objs h),
         Ok tt)
    | None => (h, Raise OutsideModel)
    end.

(** [a[i] = x] for a one-dimensional [a]. *)
Definition setitem (r : ref) (i : nat) (x : R) : M R unit :=
  o ← get_obj r;
  match nd_shape o with
  | [n] => if i <? n then write o i [x] else raise IndexError
  | _ => raise OutsideModel
  end.

(** [a[i]] for a one-dimensional [a]. *)
Definition getitem (r : ref) (i : nat) : M R R :=
  o ← get_obj r;
  match nd_shape o with
  | [n] =>
      if i <? n
      then b ← read_buf o;
           lift (match b !! i with Some x => Ok x | None => Raise OutsideModel end)
      else raise IndexError
  | _ => raise OutsideModel
  end.

(** [a[first:] = vals] for one-dimensional [a] and [vals]: as many values
    as the slice has entries, or one value for all of them. *)
Definition assign_from (r : ref) (first : nat) (vals : list R) : M R unit :=
  o ← get_obj r;
  match nd_shape o with
  | [n] =>
      let s := Nat.min first n in
      if length vals =? n - s then write o s vals
      else match vals with
           | [v] => write o s (replicate (n - s) v)
           | _ => raise ValueError
           end
  | _ => raise OutsideModel
  end.
End Heap.

(* ===================================================================== *)
(** * Python lists of optional entries *)
(* ===================================================================== *)

(** [l[i] = x] on a Python list. *)
Definition py_setitem {X : Type} (l : list X) (i : nat) (x : X) : res (list X) :=
  if i <? length l then Ok (<[i := x]> l) else Raise IndexError.

(** [l[i]] where the entry is used as an array: a [None] entry raises [e]. *)
Definition item {X : Type} (e : pyexc) (l : list (option X)) (i : nat) : res X :=
  match l !! i with
  | Some (Some x) => Ok x
  | Some None => Raise e
  | None => Raise IndexError
  end.

(** [l[-1]] used as an array. *)
Definition last_item {X : Type} (e : pyexc) (l : list (option X)) : res X :=
  match last l with
  | Some (Some x) => Ok x
  | Some None => Raise e
  | None => Raise IndexError
  end.

(** Calling an activation (or gradient) function on a matrix; calling
    [None] raises TypeError. *)
Definition call {R} (f : option (R -> R)) (Z : matrix R) : res (matrix R) :=
  match f with Some g => Ok (mmap g Z) | None => Raise TypeError end.

(* ===================================================================== *)
(** * class MLPLayer *)
(* ===================================================================== *)

Module MLPLayer.

(** The layer that feeds this one is named by its position in the
    network's list of layers. *)
Record t (R : Type) : Type := Make {
  n_nodes : nat;
  n_outputs : nat;
  outputs : ref;
  input_layer : option nat;
  act_func : option (R -> R);
  grad_func : option (R -> R);
  weights : option ref
}.
Arguments Make {R}.
Arguments n_nodes {R} t.
Arguments n_outputs {R} t.
Arguments outputs {R} t.
Arguments input_layer {R} t.
Arguments act_func {R} t.
Arguments grad_func {R} t.
Arguments weights {R} t.

Section Methods.
Context {R : Type} `{Scalar R}.

(** [MLPLayer.__init__] *)
Definition init (n_nodes : nat) (input_layer : option nat)
    (act_func grad_func : option (R -> R)) : M R (t R) :=
  let n_outputs := n_nodes + 1 in
  outputs ← np_zeros [n_outputs];
  _ ← setitem outputs 0 f1;
  mret (Make n_nodes n_outputs outputs input_layer act_func grad_func None).

(** [layer.weights = w] *)
Definition with_weights (self : t R) (w : ref) : t R :=
  Make (n_nodes self) (n_outputs self) (outputs self) (input_layer self)
       (act_func self) (grad_func self) (Some w).

(** [MLPLayer.calculate_outputs]; [layers] is where [input_layer] is
    looked up. *)
Definition calculate_outputs (layers : list (t R)) (self : t R) : M R unit :=
  match input_layer self with
  | Some p =>
      inp ← lift (match layers !! p with
                  | Some l => Ok l | None => Raise OutsideModel end);
      W ← match weights self with
          | Some w => read2 w
          | None => raise TypeError
          end;
      x ← read1 (outputs inp);
      z ← lift (np_dot_mv W x);
      a ← lift (match act_func self with
                | Some g => Ok (map g z) | None => Raise TypeError end);
      assign_from (outputs self) 1 a
  | None => raise MLPError
  end.
End Methods.
End MLPLayer.

(* ===================================================================== *)
(** * class MLPNetwork *)
(* ===================================================================== *)

(** [act_funcs] and [grad_funcs]: one function for all layers, or a sequence
    of them.  (The default, when the argument is left out, is the one
    function [sigmoid], respectively [sigmoid_gradient].) *)
Inductive funcs (R : Type) : Type :=
  | Callable (f : R -> R)
  | Sequence (l : list (R -> R)).
Arguments Callable {R} f.
Arguments Sequence {R} l.

(** The [cost_function] argument: ['mse'], ['log'], or any other string. *)
Inductive cost_name : Type := NameMse | NameLog | NameOther.

(** The bound method stored in [self.cost_function]. *)
Inductive cost_kind : Type := Mse | Log.

(** A view [grad[first:last]] of a local array with shape [(rows, cols)]. *)
Record block : Type := Block { b_first : nat; b_rows : nat; b_cols : nat }.

(** An array returned to the caller, by its rank. *)
Inductive ndvalue (R : Type) : Type :=
  | Vec (v : list R)
  | Mtx (m : matrix R).
Arguments Vec {R} v.
Arguments Mtx {R} m.

(** An argument passed where an array is expected: a Python sequence of
    floats, a nested sequence of rows, or a numpy array. *)
Inductive py_input (R : Type) : Type :=
  | PyList (l : list R)
  | PyNested (rows : list (list R))
  | NdArr (r : ref).
Arguments PyList {R} l.
Arguments PyNested {R} rows.
Arguments NdArr {R} r.

Module MLPNetwork.

Record t (R : Type) : Type := Make {
  dimensions : list nat;
  n_layers : nat;
  n_inputs : nat;
  n_outputs : nat;
  n_neurons : nat;
  cost_function : cost_kind;
  act_funcs : list (option (R -> R));
  grad_funcs : list (option (R -> R));
  layers : list (MLPLayer.t R);
  n_weights : nat;
  weights : ref;
  inputs : ref;
  outputs : ref
}.
Arguments Make {R}.
Arguments dimensions {R} t.
Arguments n_layers {R} t.
Arguments n_inputs {R} t.
Arguments n_outputs {R} t.
Arguments n_neurons {R} t.
Arguments cost_function {R} t.
Arguments act_funcs {R} t.
Arguments grad_funcs {R} t.
Arguments layers {R} t.
Arguments n_weights {R} t.
Arguments weights {R} t.
Arguments inputs {R} t.
Arguments outputs {R} t.

Section Methods.
Context {R : Type} `{Scalar R}.

(** ** [__init__] *)

(** The two lists [self.act_funcs] and [self.grad_funcs].  With one
    callable [act_funcs], [grad_funcs] is repeated as it is, callable or
    not; an entry that is not callable is kept as [None]. *)
Definition func_lists (n_layers : nat) (act_funcs grad_funcs : funcs R)
  : res (list (option (R -> R)) * list (option (R -> R))) :=
  match act_funcs with
  | Callable f =>
      Ok (None :: replicate (n_layers - 1) (Some f),
          None :: replicate (n_layers - 1)
                    (match grad_funcs with
                     | Callable g => Some g
                     | Sequence _ => None
                     end))
  | Sequence fs =>
      let acts := None :: map Some fs in
      if negb (length acts =? n_layers) then Raise ValueError
      else match grad_funcs with
           | Callable _ => Raise ValueError
           | Sequence gs =>
               let grads := None :: map Some gs in
               if negb (length grads =? n_layers) then Raise ValueError
               else Ok (acts, grads)
           end
  end.

(** One turn of the loop that creates the layers; the state is
    [(self.layers, self.n_weights, previous)]. *)
Definition init_layers_step
    (it : nat * (option (R -> R) * option (R -> R)))
    (st : list (MLPLayer.t R) * nat * option nat)
  : M R (list (MLPLayer.t R) * nat * option nat) :=
  let '(d, (act_func, grad_func)) := it in
  let '(layers, n_weights, previous) := st in
  new_layer ← MLPLayer.init d previous act_func grad_func;
  let layers := layers ++ [new_layer] in
  n_weights ← lift (match previous with
                    | Some p =>
                        prev ← py_index layers p;
                        Ok (n_weights
                            + (MLPLayer.n_outputs new_layer - 1)
                              * MLPLayer.n_outputs prev)
                    | None => Ok n_weights
                    end);
  mret (layers, n_weights, Some (length layers - 1)).

(** One turn of the loop that carves [self.weights]; the state is
    [(self.layers, first, previous)]. *)
Definition init_weights_step (weights : ref) (n_weights : nat)
    (it : nat * MLPLayer.t R)
    (st : list (MLPLayer.t R) * nat * MLPLayer.t R)
  : M R (list (MLPLayer.t R) * nat * MLPLayer.t R) :=
  let '(j, layer) := it in
  let '(layers, first, previous) := st in
  let last := first + MLPLayer.n_outputs previous * (MLPLayer.n_outputs layer - 1) in
  if n_weights <? last then raise MLPError
  else
    w ← slice weights first (Some last);
    let layer := MLPLayer.with_weights layer w in
    _ ← try_except
          (set_shape w [MLPLayer.n_outputs layer - 1; MLPLayer.n_outputs previous])
          MLPError;
    mret (<[j := layer]> layers, last, layer).

Definition init (ndim : list nat) (act_funcs grad_funcs : funcs R)
    (cost_function : cost_name) : M R (t R) :=
  let n_layers := length ndim in
  n_inputs ← lift (py_index ndim 0);
  n_outputs ← lift (py_last ndim);
  let n_neurons := sum_list (drop 1 ndim) in
  kind ← lift (match cost_function with
               | NameMse => Ok Mse
               | NameLog => Ok Log
               | NameOther => Raise MLPError
               end);
  fl ← lift (func_lists n_layers act_funcs grad_funcs);
  st ← for_eachM init_layers_step (zip ndim (zip (fst fl) (snd fl))) ([], 0, None);
  let layers := fst (fst st) in
  let n_weights := snd (fst st) in
  weights ← np_zeros [n_weights];
  previous ← lift (py_index layers 0);
  st ← for_eachM (init_weights_step weights n_weights)
         (enumerate 1 (drop 1 layers)) (layers, 0, previous);
  let layers := fst (fst st) in
  l0 ← lift (py_index layers 0);
  inputs ← slice (MLPLayer.outputs l0) 1 None;
  lN ← lift (py_index layers (n_layers - 1));
  outputs ← slice (MLPLayer.outputs lN) 1 None;
  mret (Make ndim n_layers n_inputs n_outputs n_neurons kind (fst fl) (snd fl)
             layers n_weights weights inputs outputs).

(** ** [initialize_weights], [set_inputs], [set_weights], [feed_forward] *)

(** [initialize_weights(epsilon)]; [rand i] is the [i]-th number that
    [np.random.rand(self.n_weights)] draws. *)
Definition initialize_weights (self : t R) (epsilon : R) (rand : nat -> R) : M R unit :=
  assign_from (weights self) 0
    (map (fun i => ((rand i * f2 - f1) * epsilon)%F) (seq 0 (n_weights self))).

Definition set_inputs (self : t R) (inputs_ : list R) : M R unit :=
  assign_from (inputs self) 0 inputs_.

Definition set_weights (self : t R) (weights_ : list R) : M R unit :=
  assign_from (weights self) 0 weights_.

Definition feed_forward (self : t R) : M R unit :=
  inp ← get_obj (inputs self);
  l0 ← lift (py_index (layers self) 0);
  if negb (bool_decide (nd_base inp = Some (MLPLayer.outputs l0)))
  then raise MLPError
  else
    for_eachM (fun layer (_ : unit) => MLPLayer.calculate_outputs (layers self) layer)
              (drop 1 (layers self)) tt.

(** ** [get_theta] *)

(** One turn of the loop that rolls the supplied weights up; the state
    is [(theta, first)]. *)
Definition get_theta_step (self : t R) (weights_ : ref)
    (it : nat * MLPLayer.t R) (st : list (option ref) * nat)
  : M R (list (option ref) * nat) :=
  let '(j, layer) := it in
  let '(theta, first) := st in
  lw ← lift (match MLPLayer.weights layer with
             | Some w => Ok w | None => Raise AttributeError end);
  lshape ← get_shape lw;
  let last := first + size_of lshape in
  if n_weights self <? last then raise MLPError
  else
    v ← slice weights_ first (Some last);
    let theta := theta ++ [Some v] in
    _ ← try_except (set_shape v lshape) MLPError;
    mret (theta, last).

(** [get_theta(weights)].  When the shape of [weights] is wrong the
    source builds the message of its ValueError by adding a tuple to a
    string, and that addition raises TypeError. *)
Definition get_theta (self : t R) (weights_ : option ref) : M R (list (option ref)) :=
  match weights_ with
  | None => mret (map MLPLayer.weights (layers self))
  | Some w =>
      shape ← get_shape w;
      if negb (bool_decide (shape = [n_weights self])) then raise TypeError
      else
        st ← for_eachM (get_theta_step self w)
               (enumerate 1 (drop 1 (layers self))) ([None], 0);
        mret (fst st)
  end.

(** The blocks of [theta] as values; the input layer's entry is [None]. *)
Fixpoint read_theta (theta : list (option ref)) : M R (list (option (matrix R))) :=
  match theta with
  | [] => mret []
  | None :: rest => vs ← read_theta rest; mret (None :: vs)
  | Some r :: rest => v ← read2 r; vs ← read_theta rest; mret (Some v :: vs)
  end.

(** ** The forward pass of the cost functions *)

(** One turn of the forward loop (the same statements in both cost
    functions); the state is [(A, Z)]. *)
Definition forward_step (self : t R) (m : nat) (theta : list (option (matrix R)))
    (it : nat * MLPLayer.t R)
    (st : list (option (matrix R)) * list (option (matrix R)))
  : res (list (option (matrix R)) * list (option (matrix R))) :=
  let '(j, layer) := it in
  let '(A, Z) := st in
  a_prev ← item TypeError A (j - 1);
  th ← item AttributeError theta j;
  z ← np_dot a_prev (transpose th);
  Z ← py_setitem Z j (Some z);
  g ← call (MLPLayer.act_func layer) z;
  if j =? n_layers self - 1
  then A ← py_setitem A j (Some g); Ok (A, Z)
  else a ← hstack (np_ones m 1) g;
       A ← py_setitem A j (Some a); Ok (A, Z).

(** The lists [A] and [Z] after the forward loop. *)
Definition forward (self : t R) (X : matrix R) (theta : list (option (matrix R)))
  : res (list (option (matrix R)) * list (option (matrix R))) :=
  let m := nrows X in
  let A := replicate (n_layers self) None in
  let Z := replicate (n_layers self) None in
  a0 ← hstack (np_ones m 1) X;
  A ← py_setitem A 0 (Some a0);
  for_each (forward_step self m theta) (enumerate 1 (drop 1 (layers self))) (A, Z).

(** One turn of the regularization loop: [J = J + lambda_param*np.sum(theta[j][:, 1:]**2)/(2.0*m)]. *)
Definition regularize_step (m : nat) (theta : list (option (matrix R)))
    (lambda_param : R) (it : nat * MLPLayer.t R) (J : R) : res R :=
  let '(j, _) := it in
  th ← item TypeError theta j;
  Ok (J + lambda_param * msum (msquare (drop_col0 th)) / (f2 * of_int (Z.of_nat m)))%F.

Definition regularize (self : t R) (m : nat) (theta : list (option (matrix R)))
    (lambda_param : R) (J : R) : res R :=
  if negb (feqb lambda_param f0)
  then for_each (regularize_step m theta lambda_param)
                (enumerate 1 (drop 1 (layers self))) J
  else Ok J.

(** ** The reverse pass *)

(** One turn of the loop that carves [grad] into [theta_grad]; the state
    is [(theta_grad, first, previous)].  [grad] has [n_weights] entries. *)
Definition grad_views_step (self : t R) (it : nat * MLPLayer.t R)
    (st : list (option block) * nat * MLPLayer.t R)
  : res (list (option block) * nat * MLPLayer.t R) :=
  let '(j, layer) := it in
  let '(theta_grad, first, previous) := st in
  let last := first + MLPLayer.n_outputs previous * (MLPLayer.n_outputs layer - 1) in
  if n_weights self <? last then Raise MLPError
  else
    let len := Nat.min last (n_weights self) - Nat.min first (n_weights self) in
    let rows := MLPLayer.n_outputs layer - 1 in
    let cols := MLPLayer.n_outputs previous in
    if negb (rows * cols =? len) then Raise MLPError
    else
      theta_grad ← py_setitem theta_grad j (Some (Block first rows cols));
      Ok (theta_grad, last, layer).

Definition grad_views (self : t R) : res (list (option block)) :=
  let theta_grad := replicate (n_layers self) None in
  previous ← py_index (layers self) 0;
  st ← for_each (grad_views_step self) (enumerate 1 (drop 1 (layers self)))
         (theta_grad, 0, previous);
  Ok (fst (fst st)).

(** One turn of the loop over the hidden layers, [j] going down (the same
    statements in both cost functions). *)
Definition sigma_step (self : t R) (m : nat)
    (theta Z : list (option (matrix R))) (j : nat)
    (sigma : list (option (matrix R))) : res (list (option (matrix R))) :=
  s_next ← item TypeError sigma (j + 1);
  th_next ← item TypeError theta (j + 1);
  d ← np_dot s_next th_next;
  layer_next ← py_index (layers self) (j + 1);
  z ← item ValueError Z j;
  zb ← hstack (np_ones m 1) z;
  g ← call (MLPLayer.grad_func layer_next) zb;
  p ← np_mul d g;
  py_setitem sigma j (Some (drop_col0 p)).

(** [range(self.n_layers - 2, 0, -1)] *)
Definition hidden_down (n_layers : nat) : list nat := rev (seq 1 (n_layers - 2)).

(** [sigma] after the output error is set and propagated back. *)
Definition sigmas (self : t R) (m : nat) (y : matrix R)
    (theta A Z : list (option (matrix R))) : res (list (option (matrix R))) :=
  let sigma := replicate (n_layers self) None in
  a_last ← last_item TypeError A;
  s ← np_sub a_last y;
  sigma ← py_setitem sigma (n_layers self - 1) (Some s);
  for_each (sigma_step self m theta Z) (hidden_down (n_layers self)) sigma.

(** [v[:] = value] for a view [v] of [grad]: [value] has the shape of the
    view, or is broadcast to it. *)
Definition assign_block (grad : list R) (v : block) (value : matrix R)
  : res (list R) :=
  if (bool_decide (nrows value = b_rows v) || bool_decide (nrows value = 1))
     && (bool_decide (ncols value = b_cols v) || bool_decide (ncols value = 1))
  then
    let flat := concat (broadcast_to (b_rows v) (b_cols v) value) in
    Ok (take (b_first v) grad ++ flat
        ++ drop (b_first v + b_rows v * b_cols v) grad)
  else Raise ValueError.

(** [(delta[j] + lambda_param * np.concatenate((zeros, theta[j][:, 1:]), axis=1))/m]
    written through [theta_grad[j]]. *)
Definition store_gradient (m : nat) (theta : list (option (matrix R)))
    (theta_grad : list (option block)) (lambda_param : R) (j : nat)
    (delta_j : matrix R) (grad : list R) : res (list R) :=
  th ← item AttributeError theta j;
  zb ← hstack (np_zeros2 (nrows th) 1) (drop_col0 th);
  s ← np_add delta_j (scale lambda_param zb);
  v ← item TypeError theta_grad j;
  assign_block grad v (divide s (of_int (Z.of_nat m))).

(** One turn of the last loop of [cost_function_log]; the state is
    [(delta, grad)]. *)
Definition delta_step_log (m : nat)
    (theta A sigma : list (option (matrix R))) (theta_grad : list (option block))
    (lambda_param : R) (it : nat * MLPLayer.t R)
    (st : list (option (matrix R)) * list R)
  : res (list (option (matrix R)) * list R) :=
  let '(j, layer) := it in
  let '(delta, grad) := st in
  s ← item AttributeError sigma j;
  a_prev ← item TypeError A (j - 1);
  d ← np_dot (transpose s) a_prev;
  delta ← py_setitem delta j (Some d);
  grad ← store_gradient m theta theta_grad lambda_param j d grad;
  Ok (delta, grad).

(** One turn of the last loop of [cost_function_mse]. *)
Definition delta_step_mse (m : nat)
    (theta A Z sigma : list (option (matrix R))) (theta_grad : list (option block))
    (lambda_param : R) (it : nat * MLPLayer.t R)
    (st : list (option (matrix R)) * list R)
  : res (list (option (matrix R)) * list R) :=
  let '(j, layer) := it in
  let '(delta, grad) := st in
  s ← item TypeError sigma j;
  z ← item TypeError Z j;
  g ← call (MLPLayer.grad_func layer) z;
  p ← np_mul s g;
  a_prev ← item TypeError A (j - 1);
  d ← np_dot (transpose p) a_prev;
  delta ← py_setitem delta j (Some d);
  grad ← store_gradient m theta theta_grad lambda_param j d grad;
  Ok (delta, grad).

(** ** [cost_function_log] and [cost_function_mse] *)

(** [np.sum(-y*np.log(A[-1]) - (1.0 - y)*np.log(1.0 - A[-1]))/m]; the
    logarithm is numpy's. *)
Definition log_cost (ln : R -> R) (m : nat) (a_last y : matrix R) : res R :=
  t1 ← np_mul (mmap fneg y) (mmap ln a_last);
  t2 ← np_mul (mmap (fun x => f1 - x)%F y) (mmap (fun x => ln (f1 - x)%F) a_last);
  d ← np_sub t1 t2;
  Ok (msum d / of_int (Z.of_nat m))%F.

(** The body of [cost_function_log] once [theta] is in hand. *)
Definition cost_log_body (ln : R -> R) (self : t R) (X y : matrix R)
    (theta : list (option (matrix R))) (lambda_param : R) (jac : bool)
  : res (cost_result R) :=
  let m := nrows X in
  AZ ← forward self X theta;
  let A := fst AZ in
  let Z := snd AZ in
  a_last ← last_item TypeError A;
  J ← log_cost ln m a_last y;
  J ← regularize self m theta lambda_param J;
  if negb jac then Ok (Cost J)
  else
    let grad := replicate (n_weights self) f0 in
    let delta := replicate (n_layers self) None in
    theta_grad ← grad_views self;
    sigma ← sigmas self m y theta A Z;
    st ← for_each (delta_step_log m theta A sigma theta_grad lambda_param)
           (enumerate 1 (drop 1 (layers self))) (delta, grad);
    Ok (CostGrad J (snd st)).

(** The body of [cost_function_mse] once [theta] is in hand. *)
Definition cost_mse_body (self : t R) (X y : matrix R)
    (theta : list (option (matrix R))) (lambda_param : R) (jac : bool)
  : res (cost_result R) :=
  let m := nrows X in
  AZ ← forward self X theta;
  let A := fst AZ in
  let Z := snd AZ in
  a_last ← last_item TypeError A;
  d ← np_sub a_last y;
  let J := (lit_half * msum (msquare d) / of_int (Z.of_nat m))%F in
  J ← regularize self m theta lambda_param J;
  if negb jac then Ok (Cost J)
  else
    let grad := replicate (n_weights self) f0 in
    let delta := replicate (n_layers self) None in
    theta_grad ← grad_views self;
    sigma ← sigmas self m y theta A Z;
    st ← for_each (delta_step_mse m theta A Z sigma theta_grad lambda_param)
           (enumerate 1 (drop 1 (layers self))) (delta, grad);
    Ok (CostGrad J (snd st)).

(** [cost_function_log(X, y, weights, lambda_param, jac)].  The blocks of
    [theta] are only read during the call, and nothing is written to the
    buffers they view, so they are read once, when [get_theta] returns.
    [grad] is a fresh array private to the call: it is a list here and
    its views [theta_grad[j]] are ranges of it. *)
Definition cost_function_log (ln : R -> R) (self : t R) (X y : matrix R)
    (weights_ : option ref) (lambda_param : R) (jac : bool) : M R (cost_result R) :=
  theta ← get_theta self weights_;
  theta ← read_theta theta;
  lift (cost_log_body ln self X y theta lambda_param jac).

(** [cost_function_mse(X, y, weights, lambda_param, jac)], modelled as
    [cost_function_log] is. *)
Definition cost_function_mse (self : t R) (X y : matrix R)
    (weights_ : option ref) (lambda_param : R) (jac : bool) : M R (cost_result R) :=
  theta ← get_theta self weights_;
  theta ← read_theta theta;
  lift (cost_mse_body self X y theta lambda_param jac).

(** ** [predict] *)

(** [np.asarray(inputs)]: a numpy array is returned as it is, a sequence
    becomes a new array (the empty nested sequence has shape [(0,)], and
    rows of different lengths are outside the model). *)
Definition np_asarray (inputs_ : py_input R) : M R ref :=
  match inputs_ with
  | NdArr r => mret r
  | PyList l => new_array [length l] l
  | PyNested [] => new_array [0] []
  | PyNested (r0 :: rest) =>
      if forallb (fun r => length r =? length r0) rest
      then new_array [S (length rest); length r0] (concat (r0 :: rest))
      else raise OutsideModel
  end.

(** One turn of the loop of [predict]. *)
Definition predict_step (m : nat) (theta : list (option (matrix R)))
    (it : nat * MLPLayer.t R) (outputs_ : matrix R) : res (matrix R) :=
  let '(j, layer) := it in
  a ← hstack (np_ones m 1) outputs_;
  th ← item AttributeError theta j;
  z ← np_dot a (transpose th);
  call (MLPLayer.act_func layer) z.

(** [predict] from [m = inputs.shape[0]] on, for the array [i] that
    [inputs] is by then. *)
Definition predict_tail (self : t R) (i : ref) (weights_ : option ref) : M R (ndvalue R) :=
  shape ← get_shape i;
  m ← lift (py_index shape 0);
  theta ← get_theta self weights_;
  theta ← read_theta theta;
  outputs_ ← read2 i;
  lift (Mtx <$> for_each (predict_step m theta) (enumerate 1 (drop 1 (layers self))) outputs_).

(** [predict] after [np.asarray]: a one-dimensional array is given the
    shape [(1, n)], in place. *)
Definition predict_on (self : t R) (i : ref) (weights_ : option ref) : M R (ndvalue R) :=
  shape ← get_shape i;
  _ ← match shape with
      | [n] => set_shape i [1; n]
      | _ => mret tt
      end;
  predict_tail self i weights_.

(** [predict(inputs, weights)].  [outputs] is two-dimensional from the first
    statement on, and is returned as it is.  The result is given as a value;
    with a network of one layer it is the array [inputs] itself. *)
Definition predict (self : t R) (inputs_ : py_input R) (weights_ : option ref)
  : M R (ndvalue R) :=
  inputs_ ← np_asarray inputs_;
  predict_on self inputs_ weights_.
End Methods.
End MLPNetwork.

(* ===================================================================== *)
(** * class MLPTrainingData *)
(* ===================================================================== *)

(** [l[start:stop]] for a Python sequence or the rows of an array, with
    integer bounds: a negative bound counts from the end, and both are
    clamped to the length. *)
Definition slice_index (i : Z) (len : nat) : nat :=
  if (i <? 0)%Z then Z.to_nat (Z.max 0 (i + Z.of_nat len))
  else Z.to_nat (Z.min i (Z.of_nat len)).

Definition py_slice {X : Type} (l : list X) (start stop : Z) : list X :=
  let s := slice_index start (length l) in
  let e := slice_index stop (length l) in
  take (e - s) (drop s l).

Module MLPTrainingData.

(** The attributes the constructor sets when it is given [inputs] and
    [outputs]; [subsets], which exists once [split] has run, is returned by
    [split]. *)
Record t (R : Type) : Type := Make {
  name : option string;
  n_in : nat;
  n_out : nat;
  inputs : matrix R;
  outputs : matrix R
}.
Arguments Make {R}.
Arguments name {R} t.
Arguments n_in {R} t.
Arguments n_out {R} t.
Arguments inputs {R} t.
Arguments outputs {R} t.

Section Methods.
Context {R : Type} `{Scalar R}.

(** [np.isnan(M).sum(axis=None) > 0] *)
Definition has_nan (M : matrix R) : bool := existsb fisnan (ravel M).

(** [MLPTrainingData(inputs=inputs, outputs=outputs, name=name)] for
    two-dimensional float arrays, as [split] calls it. *)
Definition init (inputs_ outputs_ : matrix R) (name_ : option string) : res (t R) :=
  if has_nan inputs_ then Raise ValueError
  else if has_nan outputs_ then Raise ValueError
  else Ok (Make name_ (ncols inputs_) (ncols outputs_) inputs_ outputs_).

(** [MLPTrainingData(data=data, ndim=ndim, name=name)], with [scaling]
    left at its default: the constructor given one array whose rows are
    the inputs followed by the outputs.  [np.asarray] makes a
    one-dimensional array of a flat list and of the empty list, and a
    two-dimensional one of a list of rows of one length (rows of different
    lengths, deeper nesting and arrays of the heap are outside the model).
    Returned are [self.data] and the object; [inputs] and [outputs] are the
    column slices [data[:, :n_in]] and [data[:, n_in:n_in + n_out]]. *)
Definition init_from_data (data : py_input R) (ndim : list nat) (name_ : option string)
  : res (matrix R * t R) :=
  n_in_ ← py_index ndim 0;
  n_out_ ← py_last ndim;
  match data with
  | PyList _ => Raise ValueError
  | PyNested [] => Raise ValueError
  | PyNested (r0 :: rest) =>
      if forallb (fun r => length r =? length r0) rest
      then
        let data_ := Mat (length r0) (r0 :: rest) in
        if negb (ncols data_ =? n_in_ + n_out_) then Raise ValueError
        else if has_nan data_ then Raise ValueError
        else
          let inputs_ := Mat (Nat.min n_in_ (ncols data_)) (map (take n_in_) (mrows data_)) in
          let outputs_ :=
            Mat (Nat.min (n_in_ + n_out_) (ncols data_) - Nat.min n_in_ (ncols data_))
                (map (fun r => take (n_in_ + n_out_ - n_in_) (drop n_in_ r)) (mrows data_)) in
          Ok (data_, Make name_ n_in_ n_out_ inputs_ outputs_)
      else Raise OutsideModel
  | NdArr _ => Raise OutsideModel
  end.

(** Python's [sum] of a sequence of floats: it starts from the int 0. *)
Definition py_sum (l : list R) : R := fold_left fadd l (of_int 0).

(** [num.append(int(n*r))] for every ratio. *)
Definition counts (n : nat) (ratios : list R) : res (list Z) :=
  for_each (fun r num => k ← to_int (of_int (Z.of_nat n) * r)%F; Ok (num ++ [k]))
           ratios [].

(** [sum(num)] for Python ints. *)
Definition sum_Z (l : list Z) : Z := fold_left Z.add l 0%Z.

(** [num[-1] = n - sum(num[:-1])] *)
Definition fix_last (n : nat) (num : list Z) : res (list Z) :=
  match num with
  | [] => Raise IndexError
  | _ => let front := removelast num in
         Ok (front ++ [(Z.of_nat n - sum_Z front)%Z])
  end.

(** One turn of the loop that cuts the subsets; the state is
    [(self.subsets, start)]. *)
Definition split_step (inputs_ outputs_ : matrix R) (names : list string)
    (it : nat * Z) (st : list (t R) * Z) : res (list (t R) * Z) :=
  let '(i, r) := it in
  let '(subsets, start) := st in
  let finish := (start + r)%Z in
  let ins := Mat (ncols inputs_) (py_slice (mrows inputs_) start finish) in
  let outs := Mat (ncols outputs_) (py_slice (mrows outputs_) start finish) in
  nm ← py_index names i;
  sub ← init ins outs (Some nm);
  Ok (subsets ++ [sub], finish).

(** [split(ratios, names, shuffle)]; [shuffled] is what
    [np.random.shuffle] makes of the rows it is given.  Returns the
    object with its rows reordered, and [self.subsets]. *)
Definition split (self : t R) (ratios : list R) (names : list string)
    (shuffle : bool) (shuffled : list (list R) -> list (list R))
  : res (t R * list (t R)) :=
  if negb (feqb (py_sum ratios) f1) then Raise ValueError
  else
    let n := nrows (inputs self) in
    let n_in_ := ncols (inputs self) in
    let n_out_ := ncols (outputs self) in
    num ← counts n ratios;
    num ← fix_last n num;
    data ← hstack (outputs self) (inputs self);
    let data := if shuffle then Mat (ncols data) (shuffled (mrows data)) else data in
    let outputs_ := Mat (Nat.min n_out_ (ncols data)) (map (take n_out_) (mrows data)) in
    let inputs_ := Mat (ncols data - n_out_) (map (drop n_out_) (mrows data)) in
    st ← for_each (split_step inputs_ outputs_ names) (enumerate 0 num) ([], 0%Z);
    Ok (Make (name self) (n_in self) (n_out self) inputs_ outputs_, fst st).
End Methods.
End MLPTrainingData.

(* ===================================================================== *)
(** * Networks in use: the calls of a client, the reachable states *)
(* ===================================================================== *)

(** What a client does with a network once it is built.  [predict] and the
    cost functions are called with values; arrays of the client are made by
    [ANewArray]. *)
Inductive action (R : Type) : Type :=
  | ASetWeights (w : list R)
  | ASetInputs (x : list R)
  | AInitializeWeights (epsilon : R) (rand : nat -> R)
  | AFeedForward
  | ACalculateOutputs (j : nat)
  | ANewArray (shape : list nat) (data : list R)
  | AGetTheta (w : option ref)
  | APredict (x : list R) (w : option ref)
  | APredictBatch (x : list (list R)) (w : option ref)
  | ACostMse (X y : matrix R) (w : option ref) (lambda_param : R) (jac : bool)
  | ACostLog (ln : R -> R) (X y : matrix R) (w : option ref) (lambda_param : R) (jac : bool).
Arguments ASetWeights {R} w.
Arguments ASetInputs {R} x.
Arguments AInitializeWeights {R} epsilon rand.
Arguments AFeedForward {R}.
Arguments ACalculateOutputs {R} j.
Arguments ANewArray {R} shape data.
Arguments AGetTheta {R} w.
Arguments APredict {R} x w.
Arguments APredictBatch {R} x w.
Arguments ACostMse {R} X y w lambda_param jac.
Arguments ACostLog {R} ln X y w lambda_param jac.

Section Reachable.
Context {R : Type} `{Scalar R}.

(** The heap after a call, whether it returned or raised. *)
Definition run_action (net : MLPNetwork.t R) (a : action R) (h : heap R) : heap R :=
  match a with
  | ASetWeights w => (MLPNetwork.set_weights net w h).1
  | ASetInputs x => (MLPNetwork.set_inputs net x h).1
  | AInitializeWeights epsilon rand => (MLPNetwork.initialize_weights net epsilon rand h).1
  | AFeedForward => (MLPNetwork.feed_forward net h).1
  | ACalculateOutputs j =>
      match MLPNetwork.layers net !! j with
      | Some l => (MLPLayer.calculate_outputs (MLPNetwork.layers net) l h).1
      | None => h
      end
  | ANewArray shape data => (new_array shape data h).1
  | AGetTheta w => (MLPNetwork.get_theta net w h).1
  | APredict x w => (MLPNetwork.predict net (PyList x) w h).1
  | APredictBatch x w => (MLPNetwork.predict net (PyNested x) w h).1
  | ACostMse X y w lambda_param jac =>
      (MLPNetwork.cost_function_mse net X y w lambda_param jac h).1
  | ACostLog ln X y w lambda_param jac =>
      (MLPNetwork.cost_function_log ln net X y w lambda_param jac h).1
  end.

(** The states of the heap a network built by [MLPNetwork.__init__] can be
    found in. *)
Inductive reachable (net : MLPNetwork.t R) : heap R -> Prop :=
  | reach_init ndim act_funcs grad_funcs cost_function h0 h :
      MLPNetwork.init ndim act_funcs grad_funcs cost_function h0 = (h, Ok net) ->
      reachable net h
  | reach_step a h :
      reachable net h -> reachable net (run_action net a h).

(** ** The layout of the weights *)

(** The sizes of the weight blocks of the layers after one with [prev]
    nodes. *)
Fixpoint block_sizes (prev : nat) (dims : list nat) : list nat :=
  match dims with
  | [] => []
  | d :: rest => d * (prev + 1) :: block_sizes d rest
  end.

(** The blocks of a flat weight vector, in layer order. *)
Fixpoint carve (prev : nat) (dims : list nat) (flat : list R) : list (matrix R) :=
  match dims with
  | [] => []
  | d :: rest =>
      reshape2 d (prev + 1) (take (d * (prev + 1)) flat)
      :: carve d rest (drop (d * (prev + 1)) flat)
  end.

Definition weight_count (ndim : list nat) : nat :=
  match ndim with [] => 0 | d0 :: ds => sum_list (block_sizes d0 ds) end.

Definition blocks (ndim : list nat) (flat : list R) : list (matrix R) :=
  match ndim with [] => [] | d0 :: ds => carve d0 ds flat end.

(** The views of a list, each flattened, one after the other. *)
Fixpoint ravel_views (views : list (option ref)) : M R (list R) :=
  match views with
  | [] => mret []
  | None :: rest => ravel_views rest
  | Some v :: rest => x ← read_flat v; xs ← ravel_views rest; mret (x ++ xs)
  end.

(** ** The invariant of a network *)

(** The outputs array of a layer: an array of its own with [n_nodes + 1]
    entries, the first of them [1.0]. *)
Definition outputs_ok (h : heap R) (wb : nat) (l : MLPLayer.t R) : Prop :=
  MLPLayer.n_outputs l = MLPLayer.n_nodes l + 1 /\
  exists b buf,
    objs h !! MLPLayer.outputs l = Some (NdArray None b 0 [MLPLayer.n_nodes l + 1]) /\
    b <> wb /\
    bufs h !! b = Some buf /\
    length buf = MLPLayer.n_nodes l + 1 /\
    buf !! 0 = Some f1.

(** The weight views of the layers [ls] that follow a layer of [prev]
    nodes: consecutive blocks of the buffer [wb] from [first] on. *)
Fixpoint views_chain (h : heap R) (wref : ref) (wb : nat) (first prev : nat)
    (ls : list (MLPLayer.t R)) : Prop :=
  match ls with
  | [] => True
  | l :: rest =>
      (exists v,
         MLPLayer.weights l = Some v /\
         objs h !! v
         = Some (NdArray (Some wref) wb first [MLPLayer.n_nodes l; prev + 1])) /\
      views_chain h wref wb (first + MLPLayer.n_nodes l * (prev + 1))
                  (MLPLayer.n_nodes l) rest
  end.

(** Layer [i], [i+1], ... are fed by the layer before them and have an
    activation function. *)
Fixpoint links_ok (i : nat) (ls : list (MLPLayer.t R)) : Prop :=
  match ls with
  | [] => True
  | l :: rest =>
      MLPLayer.input_layer l = Some i /\ is_Some (MLPLayer.act_func l) /\
      links_ok (S i) rest
  end.

Definition net_ok_at (wb : nat) (h : heap R) (net : MLPNetwork.t R) : Prop :=
  exists l0 ls,
    MLPNetwork.layers net = l0 :: ls /\
    map MLPLayer.n_nodes (MLPNetwork.layers net) = MLPNetwork.dimensions net /\
    MLPNetwork.n_layers net = length (MLPNetwork.dimensions net) /\
    MLPNetwork.n_inputs net = MLPLayer.n_nodes l0 /\
    last (MLPNetwork.dimensions net) = Some (MLPNetwork.n_outputs net) /\
    MLPNetwork.n_weights net = weight_count (MLPNetwork.dimensions net) /\
    objs h !! MLPNetwork.weights net
    = Some (NdArray None wb 0 [MLPNetwork.n_weights net]) /\
    (exists W, bufs h !! wb = Some W /\ length W = MLPNetwork.n_weights net) /\
    Forall (outputs_ok h wb) (MLPNetwork.layers net) /\
    MLPLayer.weights l0 = None /\
    MLPLayer.input_layer l0 = None /\
    views_chain h (MLPNetwork.weights net) wb 0 (MLPLayer.n_nodes l0) ls /\
    links_ok 0 ls /\
    (exists b0,
       objs h !! MLPLayer.outputs l0
       = Some (NdArray None b0 0 [MLPLayer.n_nodes l0 + 1]) /\
       objs h !! MLPNetwork.inputs net
       = Some (NdArray (Some (MLPLayer.outputs l0)) b0 1 [MLPLayer.n_nodes l0])).

Definition net_ok (h : heap R) (net : MLPNetwork.t R) : Prop :=
  exists wb, net_ok_at wb h net.

(** A heap that went on from another: every array object is there as it
    was, every buffer has the length it had, and every buffer but [wb] the
    first entry it had. *)
Definition evolves (wb : nat) (h h' : heap R) : Prop :=
  (forall r o, objs h !! r = Some o -> objs h' !! r = Some o) /\
  (forall b buf, bufs h !! b = Some buf ->
     exists buf', bufs h' !! b = Some buf' /\ length buf' = length buf /\
                  (b <> wb -> buf' !! 0 = buf !! 0)).

(** What a computation leaves as it was: no buffer is written (buffers are
    only added), no array object disappears, and among the first [n] objects
    only [x] can change. *)
Definition unchanged_below (n : nat) (x : ref) (h h' : heap R) : Prop :=
  (exists bs, bufs h' = bufs h ++ bs) /\
  length (objs h) <= length (objs h') /\
  forall r, r < n -> r <> x -> objs h' !! r = objs h !! r.

(** [m], started with at least [n] objects in the heap, leaves the heap
    [unchanged_below n x], and a value it returns satisfies [Q]. *)
Definition frames (n : nat) (x : ref) {A} (m : M R A) (Q : A -> Prop) : Prop :=
  forall h, n <= length (objs h) ->
    unchanged_below n x h (m h).1 /\ forall a, (m h).2 = Ok a -> Q a.

(** The outputs array of a layer, before the weights exist: as in
    [outputs_ok], with the buffer among the first [nb]. *)
Definition outputs_made (h : heap R) (nb : nat) (l : MLPLayer.t R) : Prop :=
  MLPLayer.n_outputs l = MLPLayer.n_nodes l + 1 /\
  exists b buf,
    objs h !! MLPLayer.outputs l = Some (NdArray None b 0 [MLPLayer.n_nodes l + 1]) /\
    b < nb /\
    bufs h !! b = Some buf /\
    length buf = MLPLayer.n_nodes l + 1 /\
    buf !! 0 = Some f1.

(** ** What construction adds to the heap *)

(** The layers after the input layer, as the first loop of [__init__] makes
    them: layer [p + 1] is fed by layer [p] and its outputs array is object
    [no]. *)
Fixpoint made_layers (p no : nat)
    (items : list (nat * (option (R -> R) * option (R -> R)))) : list (MLPLayer.t R) :=
  match items with
  | [] => []
  | (d, (a, g)) :: rest =>
      MLPLayer.Make d (d + 1) no (Some p) a g None :: made_layers (S p) (S no) rest
  end.

(** Their outputs arrays, each on a buffer of its own, from buffer [nb] on. *)
Fixpoint made_outputs (nb : nat)
    (items : list (nat * (option (R -> R) * option (R -> R)))) : list ndarray :=
  match items with
  | [] => []
  | (d, _) :: rest => NdArray None nb 0 [d + 1] :: made_outputs (S nb) rest
  end.

Definition made_buffers
    (items : list (nat * (option (R -> R) * option (R -> R)))) : list (list R) :=
  map (fun it => f1 :: replicate (fst it) f0) items.

(** The weight views the second loop of [__init__] makes, and the layers
    once they hold them (the view of the first is object [v]). *)
Fixpoint made_views (wref : ref) (wb first prev : nat) (ls : list (MLPLayer.t R))
  : list ndarray :=
  match ls with
  | [] => []
  | l :: rest =>
      NdArray (Some wref) wb first [MLPLayer.n_nodes l; prev + 1]
      :: made_views wref wb (first + MLPLayer.n_nodes l * (prev + 1))
                    (MLPLayer.n_nodes l) rest
  end.

Fixpoint with_views (v : nat) (ls : list (MLPLayer.t R)) : list (MLPLayer.t R) :=
  match ls with
  | [] => []
  | l :: rest => MLPLayer.with_weights l v :: with_views (S v) rest
  end.

(** The arrays [refs] are consecutive blocks of the buffer [b] from [first]
    on, with the shapes of the weight blocks of layers of [dims] nodes that
    follow a layer of [prev] nodes. *)
Fixpoint chain_views (h : heap R) (base : option ref) (b first prev : nat)
    (dims : list nat) (refs : list ref) : Prop :=
  match dims, refs with
  | [], [] => True
  | d :: ds, v :: vs =>
      objs h !! v = Some (NdArray base b first [d; prev + 1]) /\
      chain_views h base b (first + d * (prev + 1)) d ds vs
  | _, _ => False
  end.

(** [m] only reads the heap. *)
Definition reads {A} (m : M R A) : Prop := forall h, (m h).1 = h.
End Reachable.

(* ===================================================================== *)
(** * The formulas of the forward and the reverse pass *)
(* ===================================================================== *)

(** The mathematics the cost functions are meant to compute, written on
    matrices whose shapes fit (no check, no broadcasting), by recursion on
    the list of layers.  A layer is given by its weight block, its
    activation function and the derivative of that function. *)
Section Formulas.
Context {R : Type} `{Scalar R}.

(** A column of [1.0] in front of a matrix. *)
Definition bias_augment (A : matrix R) : matrix R :=
  Mat (1 + ncols A) (map (cons f1) (mrows A)).

(** The product of two matrices. *)
Definition mdot (A B : matrix R) : matrix R :=
  Mat (ncols B) (map (fun a => map (fun b => inner a b) (mrows (transpose B))) (mrows A)).

(** An operator applied entry by entry to two matrices of one shape. *)
Definition mzip (f : R -> R -> R) (A B : matrix R) : matrix R :=
  Mat (ncols A) (zip_with (zip_with f) (mrows A) (mrows B)).

(** A weight block with its bias column (column 0) set to zero. *)
Definition zero_bias_column (W : matrix R) : matrix R :=
  Mat (1 + (ncols W - 1)) (map (fun r => f0 :: drop 1 r) (mrows W)).

(** The function a layer calls; a layer of a constructed network after the
    input layer always has one. *)
Definition fn_of (f : option (R -> R)) : R -> R := default (fun x => x) f.

(** [(Z[j], A[j])] for the layers [j = 1, 2, ...] fed by [A_prev]:
    [Z[j] = A[j-1] . W[j]^T], and [A[j]] is the activation of [Z[j]], with a
    bias column in front except for the last layer. *)
Fixpoint forward_layers (A_prev : matrix R) (ws : list (matrix R * (R -> R)))
  : list (matrix R * matrix R) :=
  match ws with
  | [] => []
  | (W, g) :: rest =>
      let Z := mdot A_prev (transpose W) in
      let G := mmap g Z in
      let A := match rest with [] => G | _ => bias_augment G end in
      (Z, A) :: forward_layers A rest
  end.

(** [A[L-1]]: the activation of the last layer ([A[0]] when there is no
    other layer). *)
Definition final_activation (X : matrix R) (ws : list (matrix R * (R -> R))) : matrix R :=
  default (bias_augment X) (last (map snd (forward_layers (bias_augment X) ws))).

(** The regularization terms, added one layer after the other:
    [lambda * sum(W[:, 1:]^2) / (2 m)] for every weight block [W]. *)
Definition regularized (m : nat) (lambda_param : R) (Ws : list (matrix R)) (J : R) : R :=
  fold_left
    (fun J W => (J + lambda_param * msum (msquare (drop_col0 W))
                     / (f2 * of_int (Z.of_nat m)))%F)
    Ws J.

(** The mean-squared-error cost
    [0.5 * sum((A[L-1] - y)^2) / m], regularized when [lambda] is not [0.0]. *)
Definition mse_cost (X y : matrix R) (ws : list (matrix R * (R -> R))) (lambda_param : R) : R :=
  let m := nrows X in
  let J := (lit_half * msum (msquare (mzip fsub (final_activation X ws) y))
            / of_int (Z.of_nat m))%F in
  if negb (feqb lambda_param f0) then regularized m lambda_param (map fst ws) J else J.

(** The logistic cost
    [sum(-y*log(A[L-1]) - (1.0 - y)*log(1.0 - A[L-1])) / m], regularized
    when [lambda] is not [0.0]; [ln] is numpy's logarithm. *)
Definition log_loss (ln : R -> R) (m : nat) (a y : matrix R) : R :=
  (msum (mzip fsub
           (mzip fmul (mmap fneg y) (mmap ln a))
           (mzip fmul (mmap (fun x => f1 - x) y) (mmap (fun x => ln (f1 - x)) a)))
   / of_int (Z.of_nat m))%F.

Definition logistic_cost (ln : R -> R) (X y : matrix R) (ws : list (matrix R * (R -> R)))
    (lambda_param : R) : R :=
  let m := nrows X in
  let J := log_loss ln m (final_activation X ws) y in
  if negb (feqb lambda_param f0) then regularized m lambda_param (map fst ws) J else J.

(** [sigma[j]] from [sigma[j+1]]:
    [(sigma[j+1] . W[j+1]) * gradient_{j+1}(bias_augment(Z[j]))] without its
    first column. *)
Definition sigma_back (s_next W_next : matrix R) (g_next : R -> R) (Z : matrix R)
  : matrix R :=
  drop_col0 (mzip fmul (mdot s_next W_next) (mmap g_next (bias_augment Z))).

(** [sigma[1], ..., sigma[L-1]], from the output error [sigma[L-1]] and,
    for the hidden layers [j = 1, ..., L-2], [Z[j]] with the weights and the
    derivative of layer [j+1]. *)
Definition sigmas_of (s_last : matrix R)
    (hidden : list (matrix R * (matrix R * (R -> R)))) : list (matrix R) :=
  fold_right
    (fun zw acc => sigma_back (hd s_last acc) (fst (snd zw)) (snd (snd zw)) (fst zw) :: acc)
    [s_last] hidden.

(** [delta[j]]: the one place where the two cost functions differ. *)
Definition delta_of (kind : cost_kind) (s Z A_prev : matrix R) (g' : R -> R) : matrix R :=
  match kind with
  | Log => mdot (transpose s) A_prev
  | Mse => mdot (transpose (mzip fmul s (mmap g' Z))) A_prev
  end.

(** [(delta[j] + lambda * zero_bias_column(W[j])) / m] *)
Definition gradient_block (kind : cost_kind) (lambda_param : R) (m : nat)
    (s Z A_prev W : matrix R) (g' : R -> R) : matrix R :=
  divide (mzip fadd (delta_of kind s Z A_prev g') (scale lambda_param (zero_bias_column W)))
         (of_int (Z.of_nat m)).

Fixpoint gradient_blocks (kind : cost_kind) (lambda_param : R) (m : nat)
    (sigmas Zs As : list (matrix R)) (ws : list (matrix R * (R -> R)))
  : list (matrix R) :=
  match sigmas, Zs, As, ws with
  | s :: sigmas', Z :: Zs', A :: As', (W, g') :: ws' =>
      gradient_block kind lambda_param m s Z A W g'
      :: gradient_blocks kind lambda_param m sigmas' Zs' As' ws'
  | _, _, _, _ => []
  end.

(** The gradient block of every layer after the input layer.  [layers]
    gives, per layer, the weight block, the activation function and its
    derivative. *)
Definition gradient_parts (kind : cost_kind) (X y : matrix R)
    (layers : list (matrix R * (R -> R) * (R -> R))) (lambda_param : R)
  : list (matrix R) :=
  let ws := map fst layers in
  let fl := forward_layers (bias_augment X) ws in
  let Zs := map fst fl in
  let As := bias_augment X :: map snd fl in
  let wg := map (fun l => (fst (fst l), snd l)) layers in
  let sigmas := sigmas_of (mzip fsub (final_activation X ws) y) (zip Zs (drop 1 wg)) in
  gradient_blocks kind lambda_param (nrows X) sigmas Zs As wg.

(** The gradient as a flat vector: the blocks of the layers, each in
    row-major order, one after the other — the layout of the weights. *)
Definition gradient (kind : cost_kind) (X y : matrix R)
    (layers : list (matrix R * (R -> R) * (R -> R))) (lambda_param : R) : list R :=
  concat (map ravel (gradient_parts kind X y layers lambda_param)).

(** What [predict] computes: for every layer after the input layer,
    [activation(bias_augment(outputs) . W^T)]. *)
Definition predicted (X : matrix R) (ws : list (matrix R * (R -> R))) : matrix R :=
  fold_left (fun out wg => mmap (snd wg) (mdot (bias_augment out) (transpose (fst wg)))) ws X.

(** The layers of a network as the formulas take them, for the flat weight
    vector [W]. *)
Definition layers_of (net : MLPNetwork.t R) (W : list R)
  : list (matrix R * (R -> R) * (R -> R)) :=
  zip_with (fun Wj l => (Wj, fn_of (MLPLayer.act_func l), fn_of (MLPLayer.grad_func l)))
           (blocks (MLPNetwork.dimensions net) W) (drop 1 (MLPNetwork.layers net)).

(** The number of columns of [A[L-1]]. *)
Definition final_width (net : MLPNetwork.t R) : nat :=
  match MLPNetwork.dimensions net with
  | [d0] => d0 + 1
  | _ => MLPNetwork.n_outputs net
  end.

(** The flat vector [W] that a [weights] argument stands for: the
    network's own weights when there is none, else a one-dimensional array
    of [n_weights] entries. *)
Inductive weights_arg (h : heap R) (net : MLPNetwork.t R) : option ref -> list R -> Prop :=
  | weights_own W :
      read_flat (MLPNetwork.weights net) h = (h, Ok W) ->
      weights_arg h net None W
  | weights_given w o buf :
      objs h !! w = Some o ->
      nd_shape o = [MLPNetwork.n_weights net] ->
      bufs h !! nd_buf o = Some buf ->
      nd_off o + MLPNetwork.n_weights net <= length buf ->
      weights_arg h net (Some w)
                  (take (MLPNetwork.n_weights net) (drop (nd_off o) buf)).

(** The layers [ls] that follow a layer of [prev] nodes, next to what the
    formulas take for them: the weight block has the layer's shape, the
    activation function is the layer's, and so is the derivative when the
    layer has one. *)
Fixpoint layers_match (prev : nat) (ls : list (MLPLayer.t R))
    (lsp : list (matrix R * (R -> R) * (R -> R))) : Prop :=
  match ls, lsp with
  | [], [] => True
  | l :: ls', (W, g, g') :: lsp' =>
      has_shape W (MLPLayer.n_nodes l) (prev + 1) /\
      MLPLayer.n_outputs l = MLPLayer.n_nodes l + 1 /\
      MLPLayer.act_func l = Some g /\
      fn_of (MLPLayer.grad_func l) = g' /\
      layers_match (MLPLayer.n_nodes l) ls' lsp'
  | _, _ => False
  end.

(** Where the gradient blocks of the layers [dims] lie in the flat
    gradient, from position [first] on. *)
Fixpoint grad_blocks (first prev : nat) (dims : list nat) : list block :=
  match dims with
  | [] => []
  | d :: rest => Block first d (prev + 1) :: grad_blocks (first + d * (prev + 1)) d rest
  end.

(** The rows of an input given as a list: a flat list of numbers is one
    example (one row), a nested list with rows of one length is a batch. *)
Inductive input_rows : py_input R -> matrix R -> Prop :=
  | one_example x : input_rows (PyList x) (Mat (length x) [x])
  | batch_rows r0 rest :
      forallb (fun r => length r =? length r0) rest = true ->
      input_rows (PyNested (r0 :: rest)) (Mat (length r0) (r0 :: rest)).

(** The arrays [As] that feed the layers [ls], the first of which follows
    a layer of [prev] nodes: [m] rows, a bias column and one column per
    node of the layer before. *)
Fixpoint fed (m prev : nat) (ls : list (MLPLayer.t R)) (As : list (matrix R)) : Prop :=
  match ls, As with
  | [], _ => True
  | l :: ls', A :: As' => has_shape A m (prev + 1) /\ fed m (MLPLayer.n_nodes l) ls' As'
  | _ :: _, [] => False
  end.
End Formulas.

(** The rows of a data set as (input row, output row) pairs. *)
Definition paired_rows {R} (s : MLPTrainingData.t R) : list (list R * list R) :=
  zip (mrows (MLPTrainingData.inputs s)) (mrows (MLPTrainingData.outputs s)).

(** No entry is NaN. *)
Definition nan_free {R} `{Scalar R} (rows : list (list R)) : Prop :=
  Forall (Forall (fun x => fisnan x = false)) rows.

(* ===================================================================== *)
(** * Concrete data for the examples *)
(* ===================================================================== *)

(** Eight paired rows: inputs [(k, k + 100)], output [10 k]. *)
Definition rows8_in : list (list float) :=
  map (fun k => [float_of_int k; float_of_int (k + 100)]) [0; 1; 2; 3; 4; 5; 6; 7]%Z.

Definition rows8_out : list (list float) :=
  map (fun k => [float_of_int (k * 10)]) [0; 1; 2; 3; 4; 5; 6; 7]%Z.

Definition data8 : MLPTrainingData.t float :=
  MLPTrainingData.Make None 2 1 (Mat 2 rows8_in) (Mat 1 rows8_out).

Definition names3 : list string := ["Training set"; "Validation set"; "Test set"]%string.

(** A network with two inputs and one output node, built on the empty heap
    with the identity as activation function. *)
Definition built21 : heap float * res (MLPNetwork.t float) :=
  MLPNetwork.init [2; 1] (Callable linear) (Callable linear_gradient) NameMse (Heap [] []).

Definition heap21 : heap float := built21.1.

Definition net21 : MLPNetwork.t float :=
  match built21.2 with
  | Ok net => net
  | Raise _ => MLPNetwork.Make [] 0 0 0 0 Mse [] [] [] 0 0 0 0
  end.

(** The heap after the caller has made [np.array([1., 2., 3.])] (object 6)
    and [np.array([0.5, 2.])] (object 7). *)
Definition heap21_args : heap float :=
  (new_array [2] [0.5; 2]%float
     (new_array [3] [1; 2; 3]%float heap21).1).1.

(** The network after [set_weights([1, 2, 3])], [set_inputs([0.5, 2])] and
    [feed_forward()]. *)
Definition heap21_run : heap float :=
  run_action net21 AFeedForward
    (run_action net21 (ASetInputs [0.5; 2]%float)
       (run_action net21 (ASetWeights [1; 2; 3]%float) heap21)).

(** A network with two inputs, two hidden nodes and one output node, the
    identity as activation function, and the weights set by
    [set_weights]. *)
Definition built221 : heap float * res (MLPNetwork.t float) :=
  MLPNetwork.init [2; 2; 1] (Callable linear) (Callable linear_gradient) NameMse (Heap [] []).

Definition heap221 : heap float := built221.1.

Definition net221 : MLPNetwork.t float :=
  match built221.2 with
  | Ok net => net
  | Raise _ => MLPNetwork.Make [] 0 0 0 0 Mse [] [] [] 0 0 0 0
  end.

Definition weights221 : list float := [1; 2; 3; -1; 0.5; 2; 0.5; 1; -2]%float.

Definition heap221_set : heap float := run_action net221 (ASetWeights weights221) heap221.

(** A batch of two examples and the outputs wanted for them. *)
Definition X221 : matrix float := Mat 2 [[0.5; 2]; [1; -1]]%float.
Definition y221 : matrix float := Mat 1 [[1]; [0]]%float.

(** The same network over the rationals, where arithmetic is exact. *)
Definition built221q : heap Q * res (MLPNetwork.t Q) :=
  MLPNetwork.init [2; 2; 1] (Callable linear) (Callable linear_gradient) NameMse (Heap [] []).

Definition heap221q : heap Q := built221q.1.

Definition net221q : MLPNetwork.t Q :=
  match built221q.2 with
  | Ok net => net
  | Raise _ => MLPNetwork.Make [] 0 0 0 0 Mse [] [] [] 0 0 0 0
  end.

Definition weights221q : list Q :=
  [1; 2; 3; -1; 1 # 2; 2; 1 # 2; 1; -2]%Q.

Definition heap221q_set : heap Q := run_action net221q (ASetWeights weights221q) heap221q.

(* ===================================================================== *)
(** * The arrays of a network, one by one *)
(* ===================================================================== *)

Section Arrays.
Context {R : Type} `{Scalar R}.

(** The outputs arrays of the layers [ls] are arrays of their own, that of
    the [i]-th layer on the buffer [bs !! i]. *)
Definition outputs_on (h : heap R) (ls : list (MLPLayer.t R)) (bs : list nat) : Prop :=
  Forall2 (fun l b => objs h !! MLPLayer.outputs l
                      = Some (NdArray None b 0 [MLPLayer.n_nodes l + 1])) ls bs.

(** No two layers share the buffer of their outputs, and the network's
    [outputs] is the view [layers[n_layers - 1].outputs[1:]]. *)
Definition net_arrays (h : heap R) (net : MLPNetwork.t R) : Prop :=
  exists bs,
    NoDup bs /\ outputs_on h (MLPNetwork.layers net) bs /\
    exists lN bN,
      MLPNetwork.layers net !! (length (MLPNetwork.layers net) - 1) = Some lN /\
      bs !! (length (MLPNetwork.layers net) - 1) = Some bN /\
      objs h !! MLPNetwork.outputs net
      = Some (NdArray (Some (MLPLayer.outputs lN)) bN 1 [MLPLayer.n_nodes lN]).

(** [initialize_weights(epsilon, method)]: any [method] but ['random'] is
    refused. *)
Definition initialize_weights_method (self : MLPNetwork.t R) (epsilon : R)
    (method : string) (rand : nat -> R) : M R unit :=
  if String.eqb method "random"
  then MLPNetwork.initialize_weights self epsilon rand
  else raise ValueError.
End Arrays.

Section ForwardRow.
Context {R : Type} `{Scalar R}.

(** The outputs of a layer from the outputs [out] of the layer before it,
    as [calculate_outputs] forms them:
    [act_func(np.dot(weights, input_layer.outputs))], where the outputs
    array of the layer before is [1.0] followed by [out]. *)
Definition layer_out (W : matrix R) (g : R -> R) (out : list R) : list R :=
  map g (map (fun w => inner w (f1 :: out)) (mrows W)).

(** The outputs of the last layer for the inputs [x], layer after layer. *)
Definition forward_row (ws : list (matrix R * (R -> R))) (x : list R) : list R :=
  fold_left (fun out wg => layer_out (fst wg) (snd wg) out) ws x.
End ForwardRow.

(* ===================================================================== *)
(** * Fixed weights for testing *)
(* ===================================================================== *)

Section FixedWeights.
Context {R : Type} `{Scalar R}.

(** [a.reshape(r, c, order='F')] for a one-dimensional [a]: the entries
    fill the result column after column, which is the transpose of the
    [c] rows of [r] entries that they fill row after row. *)
Definition reshape2_F (r c : nat) (flat : list R) : matrix R :=
  transpose (reshape2 c r flat).

(** The module's function [initialize_weights(fan_out, fan_in)]; [sin] is
    [np.sin]. *)
Definition initialize_weights (sin : R -> R) (fan_out fan_in : nat) : matrix R :=
  let n := fan_out * (1 + fan_in) in
  divide (reshape2_F fan_out (1 + fan_in)
                     (map (fun k => sin (of_int (Z.of_nat k + 1))) (seq 0 n)))
         (of_int 10).
End FixedWeights.

(* ===================================================================== *)
(** * What [predict] is given *)
(* ===================================================================== *)

Section PredictInputs.
Context {R : Type} `{Scalar R}.

(** The part of the invariant of a network that [get_theta] relies on:
    the weights array still lies at the start of its buffer with
    [n_weights] entries, whatever its shape, and the layers' weights are
    the views of it that the constructor made. *)
Definition weights_ok_at (wb : nat) (h : heap R) (net : MLPNetwork.t R) : Prop :=
  exists l0 ls,
    MLPNetwork.layers net = l0 :: ls /\
    map MLPLayer.n_nodes (MLPNetwork.layers net) = MLPNetwork.dimensions net /\
    MLPNetwork.n_layers net = length (MLPNetwork.dimensions net) /\
    MLPNetwork.n_inputs net = MLPLayer.n_nodes l0 /\
    last (MLPNetwork.dimensions net) = Some (MLPNetwork.n_outputs net) /\
    MLPNetwork.n_weights net = weight_count (MLPNetwork.dimensions net) /\
    (exists o, objs h !! MLPNetwork.weights net = Some o /\
               nd_buf o = wb /\ nd_off o = 0 /\
               size_of (nd_shape o) = MLPNetwork.n_weights net) /\
    (exists W, bufs h !! wb = Some W /\ length W = MLPNetwork.n_weights net) /\
    Forall (fun l => MLPLayer.n_outputs l = MLPLayer.n_nodes l + 1) (MLPNetwork.layers net) /\
    MLPLayer.weights l0 = None /\
    views_chain h (MLPNetwork.weights net) wb 0 (MLPLayer.n_nodes l0) ls /\
    links_ok 0 ls.

(** The rows of what [predict] is given as [inputs], in the heap [h] and
    with the [weights] argument [warg]: a list, as [input_rows] has it; a
    numpy array of one dimension, which is one example (one row), and
    which must not be the very array given as [weights], since [predict]
    gives it two dimensions in place before [get_theta] looks at the
    weights; or a numpy array of two dimensions, a batch.  The entries of
    an array lie in its buffer from its offset on. *)
Inductive predict_input (h : heap R) (warg : option ref) : py_input R -> matrix R -> Prop :=
  | input_lists inp X :
      input_rows inp X -> predict_input h warg inp X
  | input_vector r o buf n :
      objs h !! r = Some o -> nd_shape o = [n] ->
      bufs h !! nd_buf o = Some buf -> nd_off o + n <= length buf ->
      warg <> Some r ->
      predict_input h warg (NdArr r) (Mat n [take n (drop (nd_off o) buf)])
  | input_matrix r o buf m c :
      objs h !! r = Some o -> nd_shape o = [m; c] ->
      bufs h !! nd_buf o = Some buf -> nd_off o + m * c <= length buf ->
      predict_input h warg (NdArr r) (reshape2 m c (take (m * c) (drop (nd_off o) buf))).
End PredictInputs.
(* ===================================================================== *)
(** * Properties *)
(* ===================================================================== *)

(** ** The float instance computes as Python does *)

Lemma res_bind_ok {A B} (a : A) (f : A -> res B) : (Ok a ≫= f) = f a.
Proof. reflexivity. Qed.

Lemma res_bind_raise {A B} (e : pyexc) (f : A -> res B) : (Raise e ≫= f) = Raise e.
Proof. reflexivity. Qed.

Example float_of_int_8 : float_of_int 8 = 8%float.
Proof. reflexivity. Qed.

Example float_to_int_6 : to_int (of_int 8 * 0.75%float)%F = Ok 6%Z.
Proof. vm_compute. reflexivity. Qed.

Example float_to_int_neg : float_to_int (-4.5)%float = Ok (-4)%Z.
Proof. vm_compute. reflexivity. Qed.


(* ===================================================================== *)
(** ** The numerical estimate of the gradient *)
(* ===================================================================== *)

Section NumericalGradientFacts.
Context {R : Type} `{Scalar R}.
Implicit Types (J : list R -> res (cost_result R)) (theta : list R).

Lemma numgrad_step_eq J theta p ng d :
  central_difference J theta p = Ok d ->
  numgrad_step J theta p (ng, replicate (length theta) f0)
  = Ok (<[p := d]> ng, replicate (length theta) f0).
Proof.
  unfold central_difference, numgrad_step, unit_perturb. intros Hd.
  destruct (J (zip_with fsub _ _)) as [l1|] eqn:E1; simpl in *; [|discriminate].
  destruct (J (zip_with fadd _ _)) as [l2|] eqn:E2; simpl in *; [|discriminate].
  inversion Hd; subst. rewrite list_insert_insert_eq, insert_replicate. reflexivity.
Qed.

Lemma numgrad_loop J theta (g : nat -> R) k : forall p ng,
  (forall i, p <= i < p + k -> central_difference J theta i = Ok (g i)) ->
  for_each (numgrad_step J theta) (seq p k) (ng, replicate (length theta) f0)
  = Ok (fold_left (fun acc i => <[i := g i]> acc) (seq p k) ng,
        replicate (length theta) f0).
Proof.
  induction k as [|k IH]; intros p ng Hg; cbn [for_each seq fold_left]; [reflexivity|].
  rewrite (numgrad_step_eq J theta p ng (g p)) by (apply Hg; lia). cbn.
  apply IH. intros i Hi. apply Hg. lia.
Qed.

Lemma fold_insert_seq_lookup (g : nat -> R) k : forall p (l : list R) i,
  p + k <= length l ->
  fold_left (fun acc i => <[i := g i]> acc) (seq p k) l !! i
  = if (p <=? i) && (i <? p + k) then Some (g i) else l !! i.
Proof.
  induction k as [|k IH]; intros p l i Hlen; simpl.
  - destruct (p <=? i) eqn:E1, (i <? p + 0) eqn:E2; simpl; try reflexivity.
    apply Nat.leb_le in E1. apply Nat.ltb_lt in E2. lia.
  - rewrite IH by (rewrite length_insert; lia).
    destruct (decide (i = p)) as [->|Hne].
    + rewrite list_lookup_insert_eq by lia.
      assert ((S p <=? p) = false) as -> by (apply Nat.leb_gt; lia).
      assert ((p <=? p) = true) as -> by (apply Nat.leb_le; lia).
      assert ((p <? p + S k) = true) as -> by (apply Nat.ltb_lt; lia).
      reflexivity.
    + rewrite list_lookup_insert_ne by congruence.
      destruct (S p <=? i) eqn:E1, (p <=? i) eqn:E2,
               (i <? S p + k) eqn:E3, (i <? p + S k) eqn:E4; simpl; try reflexivity;
        repeat match goal with
               | E : (_ <=? _) = true |- _ => apply Nat.leb_le in E
               | E : (_ <=? _) = false |- _ => apply Nat.leb_gt in E
               | E : (_ <? _) = true |- _ => apply Nat.ltb_lt in E
               | E : (_ <? _) = false |- _ => apply Nat.ltb_ge in E
               end; lia.
Qed.

Lemma fold_insert_seq_length (g : nat -> R) k : forall p (l : list R),
  length (fold_left (fun acc i => <[i := g i]> acc) (seq p k) l) = length l.
Proof.
  induction k as [|k IH]; intros p l; simpl; [reflexivity|].
  rewrite IH, length_insert. reflexivity.
Qed.

(** Without any law of arithmetic: entry [i] of the estimate is the
    difference quotient of the costs at [theta + perturb] and
    [theta - perturb], where [perturb] is [1e-4] at [i] and [0.0]
    elsewhere. *)
Lemma compute_derivative_numerically_entries raw_input J theta (g : nat -> R) :
  (1000 < length theta -> raw_input = Ok tt) ->
  (forall i, i < length theta -> central_difference J theta i = Ok (g i)) ->
  exists numgrad,
    compute_derivative_numerically raw_input J theta = Ok numgrad /\
    length numgrad = length theta /\
    forall i, i < length theta -> numgrad !! i = Some (g i).
Proof.
  intros Hkey Hg. unfold compute_derivative_numerically.
  assert ((if 1000 <? length theta then raw_input else Ok tt) = Ok tt) as ->.
  { destruct (1000 <? length theta) eqn:E; [|reflexivity].
    apply Hkey. apply Nat.ltb_lt. exact E. }
  rewrite res_bind_ok.
  rewrite (numgrad_loop J theta g) by (intros i Hi; apply Hg; lia). simpl.
  eexists. split; [reflexivity|]. split.
  - rewrite fold_insert_seq_length, length_replicate. reflexivity.
  - intros i Hi. rewrite fold_insert_seq_lookup by (rewrite length_replicate; lia).
    assert ((i <? 0 + length theta) = true) as -> by (apply Nat.ltb_lt; lia).
    reflexivity.
Qed.

(** The entries of [theta + perturb] and of [theta - perturb] at turn [i]:
    entry [i] is moved by [1e-4], and [0.0] is added to, or subtracted
    from, every other entry. *)
Lemma perturbed_entries (op : R -> R -> R) theta i k t :
  i < length theta -> theta !! k = Some t ->
  zip_with op theta (unit_perturb (length theta) i) !! k
  = Some (op t (if decide (k = i) then lit_eps else f0)).
Proof.
  intros Hi Hk. unfold unit_perturb. rewrite lookup_zip_with, Hk.
  destruct (decide (k = i)) as [->|Hne].
  - rewrite list_lookup_insert_eq by (rewrite length_replicate; lia). reflexivity.
  - rewrite list_lookup_insert_ne by congruence.
    rewrite lookup_replicate_2 by (eapply lookup_lt_Some; eauto). reflexivity.
Qed.

(** C6, as the code has it.  For a cost function [J] that returns on every
    vector of the length of [theta], with at most 1000 weights or once the
    enter key has been pressed: [compute_derivative_numerically] returns a
    vector of the length of [theta] whose entry [i] is
    [(J(theta + perturb) - J(theta - perturb)) / (2.0 * 1e-4)], where
    [perturb] is [1e-4] at [i] and [0.0] elsewhere and the sum and the
    difference are formed entry by entry: entry [i] of [theta] is moved by
    [1e-4] and every other entry has [0.0] added to it, or subtracted from
    it.  Of a [(cost, gradient)] pair only the cost is used.  No law of
    arithmetic is assumed, so this holds for the floats the code runs
    on. *)
Theorem numerical_gradient_central_difference raw_input J theta :
  (1000 < length theta -> raw_input = Ok tt) ->
  (forall v, length v = length theta -> exists c, J v = Ok c) ->
  exists numgrad,
    compute_derivative_numerically raw_input J theta = Ok numgrad /\
    length numgrad = length theta /\
    forall i, i < length theta ->
      exists vp vm cp cm,
        (forall k t, theta !! k = Some t ->
           vp !! k = Some (t + (if decide (k = i) then lit_eps else f0))%F /\
           vm !! k = Some (t - (if decide (k = i) then lit_eps else f0))%F) /\
        length vp = length theta /\ length vm = length theta /\
        J vp = Ok cp /\ J vm = Ok cm /\
        numgrad !! i = Some ((cost_of cp - cost_of cm) / (f2 * lit_eps))%F.
Proof.
  intros Hkey Htot.
  assert (Hlen : forall (op : R -> R -> R) i,
            length (zip_with op theta (unit_perturb (length theta) i)) = length theta).
  { intros op i. rewrite length_zip_with. unfold unit_perturb.
    rewrite length_insert, length_replicate. lia. }
  set (g := fun i => match central_difference J theta i with
                     | Ok d => d | Raise _ => f0 end).
  assert (Hcd : forall i,
            exists cp cm,
              J (zip_with fadd theta (unit_perturb (length theta) i)) = Ok cp /\
              J (zip_with fsub theta (unit_perturb (length theta) i)) = Ok cm /\
              central_difference J theta i
              = Ok ((cost_of cp - cost_of cm) / (f2 * lit_eps))%F).
  { intros i.
    destruct (Htot _ (Hlen fadd i)) as [cp Hcp]. destruct (Htot _ (Hlen fsub i)) as [cm Hcm].
    exists cp, cm. split; [exact Hcp|]. split; [exact Hcm|].
    unfold central_difference. rewrite Hcm, Hcp. reflexivity. }
  destruct (compute_derivative_numerically_entries raw_input J theta g Hkey)
    as (ng & Hng & Hleng & Hent).
  { intros i _. destruct (Hcd i) as (cp & cm & _ & _ & Hc). unfold g. rewrite Hc. reflexivity. }
  exists ng. split; [exact Hng|]. split; [exact Hleng|].
  intros i Hi. destruct (Hcd i) as (cp & cm & Hcp & Hcm & Hc).
  exists (zip_with fadd theta (unit_perturb (length theta) i)),
         (zip_with fsub theta (unit_perturb (length theta) i)), cp, cm.
  split; [|split; [apply Hlen|split; [apply Hlen|split; [exact Hcp|split; [exact Hcm|]]]]].
  - intros k t Hk. split; apply perturbed_entries; assumption.
  - rewrite (Hent i Hi). unfold g. rewrite Hc. reflexivity.
Qed.

(** Above 1000 weights the call waits for the enter key before anything
    is computed: when [raw_input] raises, so does the call, and [J] is not
    asked. *)
Lemma numerical_gradient_waits_for_enter J theta e :
  1000 < length theta ->
  compute_derivative_numerically (Raise e) J theta = Raise e.
Proof.
  intros Hn. unfold compute_derivative_numerically.
  replace (1000 <? length theta) with true by (symmetry; apply Nat.ltb_lt; exact Hn).
  reflexivity.
Qed.
End NumericalGradientFacts.

(** The cost [J(v) = (sum of v, v)] at [theta = [1, 2]], in floating
    point. *)
Lemma numerical_gradient_central_difference_witness :
  exists numgrad : list float,
    compute_derivative_numerically (Ok tt) (fun v => Ok (CostGrad (np_sum v) v))
                                   [1; 2]%float
    = Ok numgrad /\
    length numgrad = length [1; 2]%float /\
    forall i, i < length [1; 2]%float ->
      exists vp vm cp cm,
        (forall k t, [1; 2]%float !! k = Some t ->
           vp !! k = Some (t + (if decide (k = i) then lit_eps else f0))%F /\
           vm !! k = Some (t - (if decide (k = i) then lit_eps else f0))%F) /\
        length vp = length [1; 2]%float /\ length vm = length [1; 2]%float /\
        (fun v => Ok (CostGrad (np_sum v) v)) vp = Ok cp /\
        (fun v => Ok (CostGrad (np_sum v) v)) vm = Ok cm /\
        numgrad !! i = Some ((cost_of cp - cost_of cm) / (f2 * lit_eps))%F.
Proof.
  apply (numerical_gradient_central_difference (Ok tt)
           (fun v => Ok (CostGrad (np_sum v) v)) [1; 2]%float).
  - intros _. reflexivity.
  - intros v _. eexists. reflexivity.
Defined.

(** C6 as stated fails in floating point, where [-0.0 + 0.0] is [+0.0]:
    the other entries of [theta] are not left as they are.  For
    [J(v) = 1/v[0]] and [theta = [-0.0, 1.0]], at index 1 the code asks [J]
    at [[+0.0, 1.0001]] and at [[-0.0, 0.9999]] and forms
    [(inf - (-inf))/0.0002 = inf], whereas [J] at [theta] with entry 1
    alone moved is [-inf] both times and the quotient of the claim is
    [nan]. *)
Lemma numerical_gradient_adds_zero_to_other_entries :
  let J := fun v : list float =>
             match v with
             | x :: _ => Ok (Cost (1 / x)%float)
             | [] => Raise IndexError
             end in
  let theta := [neg_zero; 1%float] in
  compute_derivative_numerically (Ok tt) J theta = Ok [100000000%float; infinity] /\
  exists cp cm,
    J (<[1 := (1%float + lit_eps)%F]> theta) = Ok cp /\
    J (<[1 := (1%float - lit_eps)%F]> theta) = Ok cm /\
    PrimFloat.is_nan ((cost_of cp - cost_of cm) / (f2 * lit_eps))%F = true.
Proof.
  cbn zeta. split; [vm_compute; reflexivity|].
  eexists _, _. split; [reflexivity|]. split; [reflexivity|]. vm_compute. reflexivity.
Qed.

(* ===================================================================== *)
(** ** Splitting training data *)
(* ===================================================================== *)

Section SplitFacts.
Context {R : Type} `{Scalar R}.
Import MLPTrainingData.

Lemma sum_Z_acc (l : list Z) (a : Z) :
  fold_left Z.add l a = (a + MLPTrainingData.sum_Z l)%Z.
Proof.
  unfold sum_Z. revert a. induction l as [|x l IH]; intros a; simpl; [lia|].
  rewrite (IH (a + x)%Z), (IH (0 + x)%Z). lia.
Qed.

Lemma sum_Z_cons (x : Z) (l : list Z) : sum_Z (x :: l) = (x + sum_Z l)%Z.
Proof. unfold sum_Z at 1. simpl. rewrite sum_Z_acc. reflexivity. Qed.

Lemma sum_Z_app (l1 l2 : list Z) : sum_Z (l1 ++ l2) = (sum_Z l1 + sum_Z l2)%Z.
Proof.
  induction l1 as [|x l1 IH]; simpl; [reflexivity|].
  rewrite !sum_Z_cons, IH. lia.
Qed.

Lemma has_nan_false (c : nat) (rows : list (list R)) :
  has_nan (Mat c rows) = false <-> nan_free rows.
Proof.
  unfold has_nan, ravel, nan_free. simpl.
  induction rows as [|r rows IH]; simpl.
  - split; [constructor | reflexivity].
  - rewrite existsb_app, orb_false_iff, IH. split.
    + intros [Hr Hrows]. constructor; [|exact Hrows].
      apply Forall_forall. intros x Hx.
      destruct (fisnan x) eqn:E; [|reflexivity].
      assert (existsb fisnan r = true) as Ht
        by (apply existsb_exists; exists x; split; [apply list_elem_of_In; exact Hx | exact E]).
      congruence.
    + intros Hall. inversion Hall as [|? ? Hr Hrows]; subst. split; [|exact Hrows].
      destruct (existsb fisnan r) eqn:E; [|reflexivity].
      apply existsb_exists in E. destruct E as (x & Hx & Hnan).
      rewrite Forall_forall in Hr. rewrite (Hr x) in Hnan; [discriminate|].
      apply list_elem_of_In. exact Hx.
Qed.

Lemma nan_free_slice (rows : list (list R)) (a b : Z) :
  nan_free rows -> nan_free (py_slice rows a b).
Proof. intros Hn. unfold py_slice. apply Forall_take, Forall_drop, Hn. Qed.

(** A slice with bounds inside the list. *)
Lemma py_slice_inside {X} (l : list X) (start r : Z) :
  (0 <= start)%Z -> (0 <= r)%Z -> (start + r <= Z.of_nat (length l))%Z ->
  py_slice l start (start + r) = take (Z.to_nat r) (drop (Z.to_nat start) l).
Proof.
  intros Hs Hr Hle. unfold py_slice, slice_index.
  destruct (Z.ltb_spec start 0); [lia|].
  destruct (Z.ltb_spec (start + r) 0); [lia|].
  f_equal; [lia | f_equal; lia].
Qed.

Lemma counts_loop (n : nat) (ratios : list R) : forall (acc cs : list Z),
  for_each (fun r num => k ← to_int (of_int (Z.of_nat n) * r)%F; Ok (num ++ [k]))
           ratios acc = Ok cs ->
  length cs = length acc + length ratios.
Proof.
  induction ratios as [|r ratios IH]; intros acc cs Hc; cbn [for_each] in Hc.
  - inversion Hc; subst. simpl. lia.
  - destruct (to_int _) as [k|] eqn:Ek; cbn in Hc; [|discriminate].
    apply IH in Hc. rewrite length_app in Hc. simpl in *. lia.
Qed.

Lemma counts_length (n : nat) (ratios : list R) (cs : list Z) :
  counts n ratios = Ok cs -> length cs = length ratios.
Proof. intros Hc. apply counts_loop in Hc. simpl in Hc. exact Hc. Qed.

Lemma split_step_eq (I O : matrix R) (names : list string) (i : nat) (c : Z)
    (subs : list (t R)) (start : Z) (nm : string) :
  nan_free (mrows I) -> nan_free (mrows O) -> names !! i = Some nm ->
  split_step I O names (i, c) (subs, start)
  = Ok (subs ++ [Make (Some nm) (ncols I) (ncols O)
                   (Mat (ncols I) (py_slice (mrows I) start (start + c)))
                   (Mat (ncols O) (py_slice (mrows O) start (start + c)))],
        (start + c)%Z).
Proof.
  intros HnI HnO Hnm. unfold split_step, py_index. rewrite Hnm. cbn. unfold init.
  rewrite (proj2 (has_nan_false _ _) (nan_free_slice _ _ _ HnI)).
  rewrite (proj2 (has_nan_false _ _) (nan_free_slice _ _ _ HnO)).
  reflexivity.
Qed.

(** The loop that cuts the subsets, when every count is non-negative and
    the counts stay within the rows. *)
Lemma split_loop (I O : matrix R) (names : list string) :
  nrows I = nrows O -> nan_free (mrows I) -> nan_free (mrows O) ->
  forall (num : list Z) (i0 : nat) (subs : list (t R)) (start : Z),
    (0 <= start)%Z ->
    Forall (fun c => 0 <= c)%Z num ->
    (start + sum_Z num <= Z.of_nat (nrows I))%Z ->
    i0 + length num <= length names ->
    exists subs',
      for_each (split_step I O names) (zip (seq i0 (length num)) num) (subs, start)
      = Ok (subs ++ subs', (start + sum_Z num)%Z) /\
      map (fun s => Z.of_nat (nrows (inputs s))) subs' = num /\
      Forall (fun s => nrows (inputs s) = nrows (outputs s)) subs' /\
      concat (map paired_rows subs')
      = take (Z.to_nat (sum_Z num)) (drop (Z.to_nat start) (zip (mrows I) (mrows O))).
Proof.
  intros Hrows HnI HnO.
  induction num as [|c num IH]; intros i0 subs start Hs Hpos Hle Hnames.
  - exists []. cbn. rewrite app_nil_r, Z.add_0_r. repeat split; constructor.
  - rewrite sum_Z_cons in *. inversion Hpos as [|? ? Hc Hpos']; subst.
    assert (0 <= sum_Z num)%Z as Hsum.
    { clear -Hpos'. induction Hpos'; [reflexivity | rewrite sum_Z_cons; lia]. }
    simpl in Hnames.
    destruct (lookup_lt_is_Some_2 names i0 ltac:(lia)) as [nm Hnm].
    unfold nrows in *.
    destruct (IH (S i0)
                (subs ++ [Make (Some nm) (ncols I) (ncols O)
                            (Mat (ncols I) (py_slice (mrows I) start (start + c)))
                            (Mat (ncols O) (py_slice (mrows O) start (start + c)))])
                (start + c)%Z) as (subs' & Hrun & Hmap & Hall & Hcat);
      [lia | exact Hpos' | lia | lia |].
    eexists (_ :: subs'). split; [|split; [|split]].
    + cbn [length seq zip zip_with for_each].
      rewrite (split_step_eq I O names i0 c subs start nm HnI HnO Hnm).
      cbn. rewrite Hrun. rewrite <- app_assoc. cbn.
      do 2 f_equal. lia.
    + cbn. rewrite Hmap. f_equal. unfold nrows. cbn.
      rewrite py_slice_inside by lia.
      rewrite length_take, length_drop. lia.
    + constructor; [|exact Hall]. unfold nrows. cbn.
      rewrite !py_slice_inside by lia.
      rewrite !length_take, !length_drop. lia.
    + cbn [map concat]. rewrite Hcat. unfold paired_rows at 1. cbn.
      rewrite !py_slice_inside by lia.
      set (Z0 := zip (mrows I) (mrows O)).
      assert (zip (take (Z.to_nat c) (drop (Z.to_nat start) (mrows I)))
                  (take (Z.to_nat c) (drop (Z.to_nat start) (mrows O)))
              = take (Z.to_nat c) (drop (Z.to_nat start) Z0)) as ->.
      { unfold Z0. rewrite zip_with_drop, zip_with_take. reflexivity. }
      replace (Z.to_nat (start + c)) with (Z.to_nat start + Z.to_nat c) by lia.
      replace (Z.to_nat (c + sum_Z num)) with (Z.to_nat c + Z.to_nat (sum_Z num)) by lia.
      rewrite <- drop_drop. apply take_take_drop.
Qed.

Lemma zip_map_same {X Y Z'} (f : X -> Y) (g : X -> Z') (l : list X) :
  zip (map f l) (map g l) = map (fun x => (f x, g x)) l.
Proof. induction l as [|x l IH]; simpl; [reflexivity | rewrite IH; reflexivity]. Qed.

Lemma unstack_rows (n_o : nat) (orows irows : list (list R)) :
  Forall (fun r => length r = n_o) orows ->
  length irows = length orows ->
  map (fun r => (drop n_o r, take n_o r)) (zip_with app orows irows)
  = zip irows orows.
Proof.
  intros Ho. revert irows. induction Ho as [|o orows Hlen Ho IH]; intros irows Hl.
  - destruct irows; [reflexivity | discriminate].
  - destruct irows as [|i irows]; [discriminate|]. simpl in *.
    rewrite IH by lia. subst n_o.
    rewrite drop_app_length, take_app_length. reflexivity.
Qed.

Lemma nan_free_stack (orows irows : list (list R)) :
  nan_free orows -> nan_free irows -> nan_free (zip_with app orows irows).
Proof.
  intros Ho. revert irows. induction Ho as [|o orows Hh Ho IH]; intros irows Hi.
  - constructor.
  - destruct Hi as [|i irows Hi1 Hi]; simpl; constructor.
    + apply Forall_app. split; assumption.
    + apply IH. exact Hi.
Qed.

Lemma removelast_len {X} (l : list X) : length (removelast l) = length l - 1.
Proof.
  induction l as [|x [|y l] IH]; [reflexivity | reflexivity |].
  change (removelast (x :: y :: l)) with (x :: removelast (y :: l)).
  simpl length in *. rewrite IH. lia.
Qed.

Lemma sum_Z_nonneg (l : list Z) : Forall (fun c => 0 <= c)%Z l -> (0 <= sum_Z l)%Z.
Proof. induction 1; [reflexivity | rewrite sum_Z_cons; lia]. Qed.

(** C7, as the code has it.  Whatever the data set, the ratios and the
    names, when the Python sum of the ratios is not [1.0], [split] raises
    ValueError: that test comes first.  When it is [1.0]: take a data set
    of [m] paired rows without NaN, one name for every ratio, and suppose
    the counts [int(m*r)] of all ratios but the last are non-negative and
    add up to at most [m] (as they do for non-negative ratios in exact
    arithmetic).  Then [split] returns one subset per ratio; the subsets
    have [int(m*r)] rows each, but the last, which has the remaining rows;
    inputs and outputs of a subset have the same number of rows; and the
    (input row, output row) pairs of the subsets, taken together, are a
    permutation of the pairs of the data set: every row is in exactly one
    subset, with its own output. *)
Theorem split_partitions_rows
    (self : t R) (shuffle : bool) (shuffled : list (list R) -> list (list R)) :
  (forall (ratios : list R) (names : list string),
     feqb (py_sum ratios) f1 = false ->
     split self ratios names shuffle shuffled = Raise ValueError) /\
  (forall (ratios : list R) (names : list string) (m n_i n_o : nat) (cs : list Z),
     has_shape (inputs self) m n_i ->
     has_shape (outputs self) m n_o ->
     nan_free (mrows (inputs self)) ->
     nan_free (mrows (outputs self)) ->
     (forall l, Permutation (shuffled l) l) ->
     ratios <> [] ->
     length ratios <= length names ->
     counts m ratios = Ok cs ->
     Forall (fun c => 0 <= c)%Z (removelast cs) ->
     (sum_Z (removelast cs) <= Z.of_nat m)%Z ->
     feqb (py_sum ratios) f1 = true ->
     exists self' subsets,
       split self ratios names shuffle shuffled = Ok (self', subsets) /\
       length subsets = length ratios /\
       map (fun s => Z.of_nat (nrows (inputs s))) subsets
       = removelast cs ++ [(Z.of_nat m - sum_Z (removelast cs))%Z] /\
       Forall (fun s => nrows (inputs s) = nrows (outputs s)) subsets /\
       Permutation (concat (map paired_rows subsets)) (paired_rows self)).
Proof.
  split.
  { intros ratios names Hchk. unfold split. rewrite Hchk. reflexivity. }
  intros ratios names m n_i n_o cs
         (HmI & HcI & HwI) (HmO & HcO & HwO) HnI HnO Hperm Hne Hnames Hcs Hpos Hsum Hchk.
  unfold split. rewrite Hchk. cbn [negb].
  rewrite HmI, Hcs, res_bind_ok.
  assert (length cs = length ratios) as Hlen by (apply counts_length in Hcs; exact Hcs).
  assert (fix_last m cs
          = Ok (removelast cs ++ [(Z.of_nat m - sum_Z (removelast cs))%Z])) as ->.
  { destruct cs; [destruct ratios; [congruence | discriminate] | reflexivity]. }
  rewrite res_bind_ok.
  set (num := removelast cs ++ [(Z.of_nat m - sum_Z (removelast cs))%Z]).
  unfold hstack. rewrite HmO, HmI, Nat.eqb_refl, res_bind_ok. cbn [ncols mrows].
  set (D0 := zip_with app (mrows (outputs self)) (mrows (inputs self))).
  set (D := if shuffle then shuffled D0 else D0).
  assert (Permutation D D0) as HD by (unfold D; destruct shuffle; [apply Hperm | reflexivity]).
  assert (length D0 = m) as HlenD0.
  { unfold D0. rewrite length_zip_with. unfold nrows in *. lia. }
  assert (length D = m) as HlenD by (rewrite (Permutation_length HD); exact HlenD0).
  assert (nan_free D) as HnD.
  { eapply Permutation_Forall; [symmetry; exact HD|].
    apply nan_free_stack; assumption. }
  assert ((if shuffle
           then Mat (ncols (outputs self) + ncols (inputs self)) (shuffled D0)
           else Mat (ncols (outputs self) + ncols (inputs self)) D0)
          = Mat (ncols (outputs self) + ncols (inputs self)) D) as ->
    by (unfold D; destruct shuffle; reflexivity).
  cbn [ncols mrows].
  set (O' := Mat (Nat.min (ncols (outputs self))
                    (ncols (outputs self) + ncols (inputs self)))
                 (map (take (ncols (outputs self))) D)).
  set (I' := Mat (ncols (outputs self) + ncols (inputs self) - ncols (outputs self))
                 (map (drop (ncols (outputs self))) D)).
  assert (length num = length ratios) as Hlnum.
  { unfold num. rewrite length_app, removelast_len. simpl length.
    rewrite <- Hlen. destruct cs; [destruct ratios; [congruence | discriminate]|].
    simpl. lia. }
  destruct (split_loop I' O' names) with (num := num) (i0 := 0) (subs := @nil (t R))
    (start := 0%Z) as (subs' & Hrun & Hmap & Hall & Hcat).
  - unfold nrows, I', O'. cbn. rewrite !length_map. reflexivity.
  - unfold I'. cbn. unfold nan_free. rewrite Forall_map.
    eapply Forall_impl; [exact HnD|]. intros r Hr. apply Forall_drop, Hr.
  - unfold O'. cbn. unfold nan_free. rewrite Forall_map.
    eapply Forall_impl; [exact HnD|]. intros r Hr. apply Forall_take, Hr.
  - lia.
  - unfold num. apply Forall_app. split; [exact Hpos|].
    constructor; [lia | constructor].
  - unfold num. rewrite sum_Z_app. unfold nrows, I'. cbn.
    rewrite length_map, HlenD. lia.
  - lia.
  - unfold enumerate. rewrite Hrun, res_bind_ok. cbn [fst app].
    eexists _, subs'. split; [reflexivity|].
    split; [|split; [exact Hmap | split; [exact Hall|]]].
    + rewrite <- Hlnum, <- Hmap, length_map. reflexivity.
    + rewrite Hcat. unfold num. rewrite sum_Z_app.
      assert (sum_Z [(Z.of_nat m - sum_Z (removelast cs))%Z]
              = (Z.of_nat m - sum_Z (removelast cs))%Z) as ->
        by (unfold sum_Z; simpl; lia).
      replace (Z.to_nat (sum_Z (removelast cs) + (Z.of_nat m - sum_Z (removelast cs))))
        with m by lia.
      unfold I', O'. cbn [mrows].
      change (Z.to_nat 0) with 0. rewrite drop_0.
      rewrite take_ge by (rewrite length_zip_with, !length_map; lia).
      rewrite zip_map_same.
      unfold paired_rows.
      rewrite <- (unstack_rows (ncols (outputs self)) (mrows (outputs self))
                    (mrows (inputs self))).
      * apply Permutation_map. exact HD.
      * unfold mat_wf in HwO. exact HwO.
      * unfold nrows in *. lia.
Qed.
End SplitFacts.

(** [split((0.75, 0.25))] on eight rows, shuffled by reversal: subsets of 6
    and 2 rows; and [split((0.75, 0.75, 0.5))], whose ratios add up to 2,
    is refused. *)
Lemma split_partitions_rows_witness :
  MLPTrainingData.split data8 [0.75; 0.75; 0.5]%float names3 true (@rev _)
  = Raise ValueError /\
  exists self' subsets,
    MLPTrainingData.split data8 [0.75; 0.25]%float names3 true (@rev _)
    = Ok (self', subsets) /\
    length subsets = length [0.75; 0.25]%float /\
    map (fun s => Z.of_nat (nrows (MLPTrainingData.inputs s))) subsets
    = removelast [6; 2]%Z ++ [(Z.of_nat 8 - MLPTrainingData.sum_Z (removelast [6; 2]%Z))%Z] /\
    Forall (fun s => nrows (MLPTrainingData.inputs s) = nrows (MLPTrainingData.outputs s))
           subsets /\
    Permutation (concat (map paired_rows subsets)) (paired_rows data8).
Proof.
  split.
  - apply (proj1 (split_partitions_rows data8 true (@rev _))). vm_compute. reflexivity.
  - apply (proj2 (split_partitions_rows data8 true (@rev _))
             [0.75; 0.25]%float names3 8 2 1 [6; 2]%Z).
    + repeat split. repeat constructor.
    + repeat split. repeat constructor.
    + repeat constructor.
    + repeat constructor.
    + intros l. symmetry. apply Permutation_rev.
    + discriminate.
    + simpl. lia.
    + vm_compute. reflexivity.
    + repeat constructor. lia.
    + vm_compute. discriminate.
    + vm_compute. reflexivity.
Defined.

(** C7 as stated fails for a ratio list with a negative entry: the Python sum
    of [(0.5, -0.5, 1.0)] is [1.0], and on eight rows [split] returns subsets
    of 4, 0 and 8 rows; the first four rows are in two subsets, so the twelve
    rows of the subsets are no rearrangement of the eight rows of the data
    set, and the second subset does not have [int(8 * -0.5) = -4] rows. *)
Lemma split_negative_ratio_overlaps :
  feqb (MLPTrainingData.py_sum [0.5; -0.5; 1]%float) f1 = true /\
  exists self' subsets,
    MLPTrainingData.split data8 [0.5; -0.5; 1]%float names3 false (fun l => l)
    = Ok (self', subsets) /\
    map (fun s => nrows (MLPTrainingData.inputs s)) subsets = [4; 0; 8] /\
    MLPTrainingData.counts 8 [0.5; -0.5; 1]%float = Ok [4; -4; 8]%Z /\
    ~ Permutation (concat (map paired_rows subsets)) (paired_rows data8).
Proof.
  split; [vm_compute; reflexivity|].
  eexists _, _. split; [vm_compute; reflexivity|].
  split; [vm_compute; reflexivity|].
  split; [vm_compute; reflexivity|].
  intros Hp. apply Permutation_length in Hp. vm_compute in Hp. discriminate.
Qed.

(* ===================================================================== *)
(** ** Running computations on the heap *)
(* ===================================================================== *)

Section Running.
Context {R : Type} `{Scalar R}.
Local Abbreviation frames n x m Q := (@frames R n x _ m Q) (only parsing).

Lemma run_bind_ok {A B} (m : M R A) (f : A -> M R B) h h' a :
  m h = (h', Ok a) -> (m ≫= f) h = f a h'.
Proof. intros Hm. unfold mbind, M_bind. rewrite Hm. reflexivity. Qed.

Lemma run_bind_raise {A B} (m : M R A) (f : A -> M R B) h h' e :
  m h = (h', Raise e) -> (m ≫= f) h = (h', Raise e).
Proof. intros Hm. unfold mbind, M_bind. rewrite Hm. reflexivity. Qed.

Lemma run_ret {A} (a : A) (h : heap R) : (mret a : M R A) h = (h, Ok a).
Proof. reflexivity. Qed.

Lemma run_get_obj (h : heap R) r o : objs h !! r = Some o -> get_obj r h = (h, Ok o).
Proof. intros Ho. unfold get_obj. rewrite Ho. reflexivity. Qed.

Lemma run_get_shape (h : heap R) r o :
  objs h !! r = Some o -> get_shape r h = (h, Ok (nd_shape o)).
Proof. intros Ho. unfold get_shape. rewrite (run_bind_ok _ _ _ _ _ (run_get_obj h r o Ho)). reflexivity. Qed.

Lemma unchanged_refl n x (h : heap R) : unchanged_below n x h h.
Proof. split; [exists []; rewrite app_nil_r; reflexivity|]. split; [lia | reflexivity]. Qed.

Lemma unchanged_trans n x (h1 h2 h3 : heap R) :
  unchanged_below n x h1 h2 -> unchanged_below n x h2 h3 -> unchanged_below n x h1 h3.
Proof.
  intros ([b1 H1] & L1 & O1) ([b2 H2] & L2 & O2). split; [|split].
  - exists (b1 ++ b2). rewrite H2, H1, app_assoc. reflexivity.
  - lia.
  - intros r Hr Hx. rewrite O2, O1 by assumption. reflexivity.
Qed.

Lemma frames_weaken n x {A} (m : M R A) (Q Q' : A -> Prop) :
  frames n x m Q -> (forall a, Q a -> Q' a) -> frames n x m Q'.
Proof. intros Hm HQ h Hn. destruct (Hm h Hn) as [Hu Hq]. split; [exact Hu | auto]. Qed.

Lemma frames_ret n x {A} (a : A) (Q : A -> Prop) :
  Q a -> frames n x (mret a : M R A) Q.
Proof.
  intros Hq h _. split; [apply unchanged_refl|]. intros a' Ha. inversion Ha; subst. exact Hq.
Qed.

Lemma frames_raise n x {A} (e : pyexc) (Q : A -> Prop) :
  frames n x (raise e : M R A) Q.
Proof. intros h _. split; [apply unchanged_refl | discriminate]. Qed.

Lemma frames_lift n x {A} (r : res A) : frames n x (lift r : M R A) (fun _ => True).
Proof. intros h _. split; [apply unchanged_refl | trivial]. Qed.

Lemma frames_bind n x {A B} (m : M R A) (f : A -> M R B) (Q : A -> Prop) (Q' : B -> Prop) :
  frames n x m Q -> (forall a, Q a -> frames n x (f a) Q') -> frames n x (m ≫= f) Q'.
Proof.
  intros Hm Hf h Hn. destruct (Hm h Hn) as [Hu Hq].
  unfold mbind, M_bind. destruct (m h) as [h1 [a|e]] eqn:E; simpl in *.
  - destruct (Hf a (Hq a eq_refl) h1) as [Hu' Hq'].
    { destruct Hu as (_ & L & _). lia. }
    split; [eapply unchanged_trans; eauto | exact Hq'].
  - split; [exact Hu | discriminate].
Qed.

Lemma frames_try n x {A} (m : M R A) (e : pyexc) (Q : A -> Prop) :
  frames n x m Q -> frames n x (try_except m e) Q.
Proof.
  intros Hm h Hn. destruct (Hm h Hn) as [Hu Hq]. unfold try_except.
  destruct (m h) as [h1 [a|[]]]; simpl in *; split; auto; discriminate.
Qed.

Lemma frames_for_each n x {X S} (body : X -> S -> M R S) (items : list X) :
  (forall it s, frames n x (body it s) (fun _ => True)) ->
  forall s, frames n x (for_eachM body items s) (fun _ => True).
Proof.
  intros Hb. induction items as [|it items IH]; intros s; cbn [for_eachM].
  - apply frames_ret. exact I.
  - eapply frames_bind; [apply Hb|]. intros s' _. apply IH.
Qed.

Lemma frames_get_obj n x r : frames n x (get_obj r) (fun _ => True).
Proof. intros h _. split; [apply unchanged_refl | trivial]. Qed.

Lemma frames_get_shape n x r : frames n x (get_shape r) (fun _ => True).
Proof.
  unfold get_shape. eapply frames_bind; [apply frames_get_obj|].
  intros o _. apply frames_ret. exact I.
Qed.

Lemma frames_new_view n x o : frames n x (new_view o) (fun v => n <= v).
Proof.
  intros h Hn. unfold new_view, unchanged_below. simpl. split.
  - split; [exists []; rewrite app_nil_r; reflexivity|]. split.
    + rewrite length_app. lia.
    + intros r Hr _. apply lookup_app_l. lia.
  - intros a Ha. inversion Ha; subst. exact Hn.
Qed.

Lemma frames_new_array n x shape data : frames n x (new_array shape data) (fun v => n <= v).
Proof.
  intros h Hn. unfold new_array, unchanged_below. simpl. split.
  - split; [eexists; reflexivity|]. split.
    + rewrite length_app. lia.
    + intros r Hr _. apply lookup_app_l. lia.
  - intros a Ha. inversion Ha; subst. exact Hn.
Qed.

Lemma frames_slice n x r first last : frames n x (slice r first last) (fun v => n <= v).
Proof.
  unfold slice. eapply frames_bind; [apply frames_get_obj|]. intros o _.
  destruct (nd_shape o); [apply frames_raise | apply frames_new_view].
Qed.

Lemma frames_put_obj n x r o : r = x \/ n <= r -> frames n x (put_obj r o) (fun _ => True).
Proof.
  intros Hr h Hn. unfold put_obj, unchanged_below. simpl. split; [|trivial].
  split; [exists []; rewrite app_nil_r; reflexivity|]. split.
  - rewrite length_insert. lia.
  - intros r' Hr' Hx. apply list_lookup_insert_ne. destruct Hr; [congruence | lia].
Qed.

Lemma frames_set_shape n x r shape :
  r = x \/ n <= r -> frames n x (set_shape r shape) (fun _ => True).
Proof.
  intros Hr. unfold set_shape. eapply frames_bind; [apply frames_get_obj|]. intros o _.
  destruct (_ =? _); [apply frames_put_obj; exact Hr | apply frames_raise].
Qed.

Lemma frames_read_buf n x o : frames n x (read_buf o) (fun _ => True).
Proof. intros h _. split; [apply unchanged_refl | trivial]. Qed.

Lemma frames_read_flat n x r : frames n x (read_flat r) (fun _ => True).
Proof.
  unfold read_flat. eapply frames_bind; [apply frames_get_obj|].
  intros o _. apply frames_read_buf.
Qed.

Lemma frames_read2 n x r : frames n x (read2 r) (fun _ => True).
Proof.
  unfold read2. eapply frames_bind; [apply frames_get_obj|]. intros o _.
  destruct (nd_shape o) as [|? [|? [|? ?]]]; try apply frames_raise.
  eapply frames_bind; [apply frames_read_flat|]. intros f _. apply frames_ret. exact I.
Qed.
End Running.

(* ===================================================================== *)
(** ** What [get_theta] and [predict] leave unchanged *)
(* ===================================================================== *)

Section PredictFrame.
Context {R : Type} `{Scalar R}.
Local Abbreviation frames n x m Q := (@frames R n x _ m Q) (only parsing).
Import MLPNetwork.

Lemma frames_get_theta_step n x (self : t R) w it st :
  frames n x (get_theta_step self w it st) (fun _ => True).
Proof.
  destruct it as [j layer], st as [theta first]. unfold get_theta_step.
  eapply frames_bind; [apply frames_lift|]. intros lw _.
  eapply frames_bind; [apply frames_get_shape|]. intros lshape _.
  destruct (_ <? _); [apply frames_raise|].
  eapply frames_bind; [apply frames_slice|]. intros v Hv.
  eapply frames_bind; [apply frames_try, frames_set_shape; right; exact Hv|].
  intros _ _. apply frames_ret. exact I.
Qed.

Lemma frames_get_theta n x (self : t R) (w : option ref) :
  frames n x (get_theta self w) (fun _ => True).
Proof.
  unfold get_theta. destruct w as [w|]; [|apply frames_ret; exact I].
  eapply frames_bind; [apply frames_get_shape|]. intros shape _.
  destruct (negb _); [apply frames_raise|].
  eapply frames_bind; [apply frames_for_each; intros; apply frames_get_theta_step|].
  intros st _. apply frames_ret. exact I.
Qed.

Lemma frames_read_theta n x (theta : list (option ref)) :
  frames n x (read_theta (R := R) theta) (fun _ => True).
Proof.
  induction theta as [|[r|] theta IH]; cbn [read_theta].
  - apply frames_ret. exact I.
  - eapply frames_bind; [apply frames_read2|]. intros v _.
    eapply frames_bind; [apply IH|]. intros vs _. apply frames_ret. exact I.
  - eapply frames_bind; [apply IH|]. intros vs _. apply frames_ret. exact I.
Qed.

Lemma predict_unfold (self : t R) inp w :
  predict self inp w = (i ← np_asarray inp; predict_on self i w).
Proof. reflexivity. Qed.

Lemma frames_predict_tail n x (self : t R) i w :
  frames n x (predict_tail self i w) (fun _ => True).
Proof.
  unfold predict_tail.
  eapply frames_bind; [apply frames_get_shape|]. intros shape' _.
  eapply frames_bind; [apply frames_lift|]. intros m _.
  eapply frames_bind; [apply frames_get_theta|]. intros theta _.
  eapply frames_bind; [apply frames_read_theta|]. intros thetav _.
  eapply frames_bind; [apply frames_read2|]. intros out _.
  apply frames_lift.
Qed.

Lemma frames_predict_on n x (self : t R) i w :
  i = x \/ n <= i -> frames n x (predict_on self i w) (fun _ => True).
Proof.
  intros Hi. unfold predict_on.
  eapply frames_bind; [apply frames_get_shape|]. intros shape _.
  eapply frames_bind with (Q := fun _ => True).
  { destruct shape as [|? [|? ?]]; try (apply frames_ret; exact I).
    apply frames_set_shape. exact Hi. }
  intros _ _. apply frames_predict_tail.
Qed.

Lemma frames_np_asarray n x (inp : py_input R) :
  frames n x (np_asarray inp)
         (fun i => match inp with NdArr r => i = r | _ => n <= i end).
Proof.
  destruct inp as [l|[|r0 rest]|r]; cbn [np_asarray].
  - apply frames_new_array.
  - apply frames_new_array.
  - destruct (forallb _ _); [apply frames_new_array | apply frames_raise].
  - apply frames_ret. reflexivity.
Qed.

(** C4, as the code has it.  [predict], with or without a [weights]
    argument, writes no entry of any array (the buffers of the heap are the
    same after the call, with new ones added at most), and it changes no
    array object that existed before the call, except the one passed as
    [inputs].  So the network's weights and every layer's outputs are
    unchanged, values and shape, unless one of these arrays is itself passed
    as [inputs]. *)
Theorem predict_leaves_state_unchanged (self : t R) (inp : py_input R)
    (w : option ref) (h : heap R) :
  let h' := (predict self inp w h).1 in
  (exists bs, bufs h' = bufs h ++ bs) /\
  forall r, r < length (objs h) -> inp <> NdArr r -> objs h' !! r = objs h !! r.
Proof.
  set (x := match inp with NdArr r => r | _ => length (objs h) end).
  assert (frames (length (objs h)) x (predict self inp w) (fun _ => True)) as Hf.
  { rewrite predict_unfold. eapply frames_bind; [apply frames_np_asarray|].
    intros i Hi. apply frames_predict_on.
    destruct inp; [right; exact Hi | right; exact Hi | left; subst x; exact Hi]. }
  destruct (Hf h (Nat.le_refl _)) as [(Hb & _ & Ho) _].
  cbn zeta. split; [exact Hb|]. intros r Hr Hne. apply Ho; [exact Hr|].
  subst x. destruct inp; try lia. congruence.
Qed.

Lemma size_of_row (n : nat) : (size_of [1; n] =? size_of [n]) = true.
Proof. apply Nat.eqb_eq. simpl. lia. Qed.

(** C10.  When [inputs] is a numpy array of one dimension with [n] entries,
    [np.asarray] returns that very array and [predict] sets its shape to
    [(1, n)] in place: after the call, whether it returns or raises, the
    caller's array object has the shape [(1, n)] (and the base, buffer and
    offset it had). *)
Theorem predict_reshapes_input_in_place (self : t R) (r : ref) (w : option ref)
    (h : heap R) (o : ndarray) (n : nat) :
  objs h !! r = Some o ->
  nd_shape o = [n] ->
  objs (predict self (NdArr r) w h).1 !! r
  = Some (NdArray (nd_base o) (nd_buf o) (nd_off o) [1; n]).
Proof.
  intros Ho Hshape. rewrite predict_unfold.
  rewrite (run_bind_ok _ _ h h r) by reflexivity.
  unfold predict_on.
  rewrite (run_bind_ok _ _ _ _ _ (run_get_shape h r o Ho)), Hshape.
  set (h1 := Heap (bufs h) (<[r := NdArray (nd_base o) (nd_buf o) (nd_off o) [1; n]]> (objs h))).
  assert (set_shape r [1; n] h = (h1, Ok tt)) as Hset.
  { unfold set_shape. rewrite (run_bind_ok _ _ _ _ _ (run_get_obj h r o Ho)).
    rewrite Hshape, size_of_row. reflexivity. }
  rewrite (run_bind_ok _ _ _ _ _ Hset).
  assert (r < length (objs h)) as Hlt by (eapply lookup_lt_Some; eauto).
  destruct (frames_predict_tail (length (objs h1)) (length (objs h1)) self r w h1
              (Nat.le_refl _)) as [(_ & _ & Hkeep) _].
  rewrite Hkeep.
  - unfold h1. cbn [objs]. apply list_lookup_insert_eq. exact Hlt.
  - unfold h1. cbn [objs]. rewrite length_insert. exact Hlt.
  - unfold h1. cbn [objs]. rewrite length_insert. lia.
Qed.

(** C8, as the code has it.  [get_theta] with a [weights] array whose shape
    is not [(n_weights,)] raises, and returns no list of views; but what it
    raises is TypeError: the source builds the message of its ValueError as
    a string plus the tuple [(self.n_weights, )]. *)
Theorem get_theta_wrong_shape_raises_TypeError (self : t R) (w : ref)
    (h : heap R) (o : ndarray) :
  objs h !! w = Some o ->
  nd_shape o <> [n_weights self] ->
  get_theta self (Some w) h = (h, Raise TypeError).
Proof.
  intros Ho Hne. unfold get_theta.
  rewrite (run_bind_ok _ _ _ _ _ (run_get_shape h w o Ho)).
  rewrite bool_decide_eq_false_2 by exact Hne. reflexivity.
Qed.
End PredictFrame.

(* ===================================================================== *)
(** ** A small network, run *)
(* ===================================================================== *)

Example built21_ok : built21 = (heap21, Ok net21).
Proof. vm_compute. reflexivity. Qed.

Example net21_layout :
  MLPNetwork.n_weights net21 = 3 /\
  MLPNetwork.weights net21 = 2 /\
  map MLPLayer.outputs (MLPNetwork.layers net21) = [0; 1] /\
  map MLPLayer.weights (MLPNetwork.layers net21) = [None; Some 3] /\
  objs heap21_args !! 6 = Some (NdArray None 3 0 [3]) /\
  objs heap21_args !! 7 = Some (NdArray None 4 0 [2]).
Proof. vm_compute. repeat split. Qed.

(** With the weights [1, 2, 3] the network maps [(0.5, 2)] to
    [1 + 2*0.5 + 3*2 = 8]. *)
Example predict21 :
  (MLPNetwork.predict net21 (PyList [0.5; 2]%float) (Some 6) heap21_args).2
  = Ok (Mtx (Mat 1 [[8%float]])).
Proof. vm_compute. reflexivity. Qed.

(** The caller's array [np.array([0.5, 2.])] has the shape [(1, 2)] after
    [predict]. *)
Lemma predict_reshapes_input_in_place_witness :
  objs (MLPNetwork.predict net21 (NdArr 7) (Some 6) heap21_args).1 !! 7
  = Some (NdArray (nd_base (NdArray None 4 0 [2])) (nd_buf (NdArray None 4 0 [2]))
                  (nd_off (NdArray None 4 0 [2])) [1; 2]).
Proof.
  apply (predict_reshapes_input_in_place net21 7 (Some 6) heap21_args
           (NdArray None 4 0 [2]) 2).
  - vm_compute. reflexivity.
  - reflexivity.
Defined.

(** The array of two entries is not a weight vector of the network, which
    has three weights. *)
Lemma get_theta_wrong_shape_raises_TypeError_witness :
  MLPNetwork.get_theta net21 (Some 7) heap21_args = (heap21_args, Raise TypeError).
Proof.
  apply (get_theta_wrong_shape_raises_TypeError net21 7 heap21_args (NdArray None 4 0 [2])).
  - vm_compute. reflexivity.
  - vm_compute. discriminate.
Defined.

(** C4 as stated fails when the array passed as [inputs] is one of the
    network's own: the outputs array of layer 1 of this network has two
    entries, as many as the network has inputs; [predict], called on it with
    explicit weights, returns, and leaves that layer's outputs array with
    the shape [(1, 2)] instead of [(2,)]. *)
Lemma predict_on_own_outputs_reshapes_them :
  exists l1 h' out,
    MLPNetwork.layers net21 !! 1 = Some l1 /\
    MLPNetwork.predict net21 (NdArr (MLPLayer.outputs l1)) (Some 6) heap21_args
    = (h', Ok out) /\
    get_shape (MLPLayer.outputs l1) heap21_args = (heap21_args, Ok [2]) /\
    get_shape (MLPLayer.outputs l1) h' = (h', Ok [1; 2]).
Proof.
  eexists _, _, _. split; [vm_compute; reflexivity|].
  split; [vm_compute; reflexivity|].
  split; vm_compute; reflexivity.
Qed.

(* ===================================================================== *)
(** ** Heaps that go on from one another *)
(* ===================================================================== *)

Section Evolution.
Context {R : Type} `{Scalar R}.
Local Abbreviation frames n x m Q := (@frames R n x _ m Q) (only parsing).
Local Abbreviation reads m := (@reads R _ m) (only parsing).
Local Abbreviation evolves wb h h' := (@evolves R wb h h') (only parsing).

Lemma reads_ret {A} (a : A) : reads (mret a : M R A).
Proof. intros h. reflexivity. Qed.

Lemma reads_raise {A} (e : pyexc) : reads (raise e : M R A).
Proof. intros h. reflexivity. Qed.

Lemma reads_lift {A} (r : res A) : reads (lift r : M R A).
Proof. intros h. reflexivity. Qed.

Lemma reads_bind {A B} (m : M R A) (f : A -> M R B) :
  reads m -> (forall a, reads (f a)) -> reads (m ≫= f).
Proof.
  intros Hm Hf h. unfold mbind, M_bind. specialize (Hm h).
  destruct (m h) as [h1 [a|e]]; simpl in *; subst; [apply Hf | reflexivity].
Qed.

Lemma reads_get_obj r : reads (get_obj r).
Proof. intros h. reflexivity. Qed.

Lemma reads_get_shape r : reads (get_shape r).
Proof. apply reads_bind; [apply reads_get_obj | intros; apply reads_ret]. Qed.

Lemma reads_read_buf o : reads (read_buf o).
Proof. intros h. reflexivity. Qed.

Lemma reads_read_flat r : reads (read_flat r).
Proof. apply reads_bind; [apply reads_get_obj | intros; apply reads_read_buf]. Qed.

Lemma reads_read1 r : reads (read1 r).
Proof.
  apply reads_bind; [apply reads_get_obj|]. intros o.
  destruct (nd_shape o) as [|? [|? ?]]; try apply reads_raise. apply reads_read_flat.
Qed.

Lemma reads_read2 r : reads (read2 r).
Proof.
  apply reads_bind; [apply reads_get_obj|]. intros o.
  destruct (nd_shape o) as [|? [|? [|? ?]]]; try apply reads_raise.
  apply reads_bind; [apply reads_read_flat | intros; apply reads_ret].
Qed.

Lemma reads_read_theta (theta : list (option ref)) : reads (MLPNetwork.read_theta theta).
Proof.
  induction theta as [|[r|] theta IH]; cbn [MLPNetwork.read_theta].
  - apply reads_ret.
  - apply reads_bind; [apply reads_read2|]. intros v.
    apply reads_bind; [apply IH | intros; apply reads_ret].
  - apply reads_bind; [apply IH | intros; apply reads_ret].
Qed.

Lemma evolves_refl wb (h : heap R) : evolves wb h h.
Proof. split; [auto|]. intros b buf Hb. exists buf. auto. Qed.

Lemma evolves_trans wb (h1 h2 h3 : heap R) :
  evolves wb h1 h2 -> evolves wb h2 h3 -> evolves wb h1 h3.
Proof.
  intros [O1 B1] [O2 B2]. split; [auto|]. intros b buf Hb.
  destruct (B1 b buf Hb) as (buf' & Hb' & L1 & Z1).
  destruct (B2 b buf' Hb') as (buf'' & Hb'' & L2 & Z2).
  exists buf''. split; [exact Hb''|]. split; [lia|].
  intros Hne. rewrite Z2, Z1 by exact Hne. reflexivity.
Qed.

Lemma evolves_reads wb {A} (m : M R A) (h : heap R) : reads m -> evolves wb h (m h).1.
Proof. intros Hm. rewrite Hm. apply evolves_refl. Qed.

Lemma evolves_bind_reads wb {A B} (m : M R A) (f : A -> M R B) (h : heap R) :
  reads m -> (forall a, evolves wb h (f a h).1) -> evolves wb h ((m ≫= f) h).1.
Proof.
  intros Hm Hf. unfold mbind, M_bind. specialize (Hm h).
  destruct (m h) as [h1 [a|e]]; simpl in *; subst; [apply Hf | apply evolves_refl].
Qed.

(** A computation that only adds objects and buffers. *)
Lemma unchanged_evolves wb (h h' : heap R) x :
  length (objs h) <= x ->
  unchanged_below (length (objs h)) x h h' -> evolves wb h h'.
Proof.
  intros Hx ([bs Hb] & _ & Ho). split.
  - intros r o Hr. rewrite Ho; [exact Hr | eapply lookup_lt_Some; eauto |].
    apply lookup_lt_Some in Hr. lia.
  - intros b buf Hbuf. exists buf. rewrite Hb.
    split; [apply lookup_app_l_Some; exact Hbuf | auto].
Qed.

Lemma write_evolves wb (h : heap R) o pos vals buf :
  bufs h !! nd_buf o = Some buf ->
  nd_off o + pos + length vals <= length buf ->
  nd_buf o = wb \/ 1 <= nd_off o + pos ->
  evolves wb h (write o pos vals h).1.
Proof.
  intros Hb Hlen Hpos. unfold write. rewrite Hb. cbn [fst]. split; [auto|].
  intros b buf0 Hb0. cbn [bufs].
  destruct (decide (b = nd_buf o)) as [->|Hne].
  - rewrite Hb0 in Hb. inversion Hb; subst buf0.
    eexists. split; [apply list_lookup_insert_eq; eapply lookup_lt_Some; eauto|].
    split.
    + rewrite !length_app, length_take, length_drop. lia.
    + intros Hwb. destruct Hpos as [?|Hpos]; [congruence|].
      rewrite lookup_app_l by (rewrite length_take; lia).
      apply lookup_take_lt. lia.
  - exists buf0. rewrite list_lookup_insert_ne by congruence. auto.
Qed.

Lemma assign_from_evolves wb (h : heap R) r first vals base b off n buf :
  objs h !! r = Some (NdArray base b off [n]) ->
  bufs h !! b = Some buf ->
  off + n <= length buf ->
  b = wb \/ 1 <= off + Nat.min first n ->
  evolves wb h (assign_from r first vals h).1.
Proof.
  intros Ho Hb Hlen Hpos. unfold assign_from.
  rewrite (run_bind_ok _ _ _ _ _ (run_get_obj h r _ Ho)). cbn [nd_shape].
  destruct (length vals =? n - Nat.min first n) eqn:E.
  - apply Nat.eqb_eq in E. eapply write_evolves; cbn [nd_buf nd_off]; eauto; lia.
  - destruct vals as [|v [|? ?]]; try apply evolves_refl.
    eapply write_evolves; cbn [nd_buf nd_off]; eauto.
    rewrite length_replicate. lia.
Qed.
End Evolution.

(* ===================================================================== *)
(** ** The invariant is kept by every call *)
(* ===================================================================== *)

Section Preservation.
Context {R : Type} `{Scalar R}.
Local Abbreviation frames n x m Q := (@frames R n x _ m Q) (only parsing).
Local Abbreviation reads m := (@reads R _ m) (only parsing).
Local Abbreviation evolves wb h h' := (@evolves R wb h h') (only parsing).
Import MLPNetwork.

Lemma outputs_ok_evolves wb (h h' : heap R) l :
  evolves wb h h' -> outputs_ok h wb l -> outputs_ok h' wb l.
Proof.
  intros [Ho Hb] (Hn & b & buf & Hobj & Hne & Hbuf & Hlen & H0).
  destruct (Hb b buf Hbuf) as (buf' & Hbuf' & Hlen' & H0').
  split; [exact Hn|]. exists b, buf'. split; [apply Ho; exact Hobj|].
  split; [exact Hne|]. split; [exact Hbuf'|]. split; [lia|].
  rewrite H0' by exact Hne. exact H0.
Qed.

Lemma views_chain_evolves wb (h h' : heap R) wref ls : forall first prev,
  evolves wb h h' ->
  views_chain h wref wb first prev ls -> views_chain h' wref wb first prev ls.
Proof.
  induction ls as [|l ls IH]; intros first prev Hev; cbn [views_chain]; [auto|].
  intros [(v & Hw & Hv) Hrest]. split; [|apply IH; assumption].
  exists v. split; [exact Hw|]. apply Hev. exact Hv.
Qed.

Lemma net_ok_at_evolves wb (h h' : heap R) net :
  evolves wb h h' -> net_ok_at wb h net -> net_ok_at wb h' net.
Proof.
  intros Hev (l0 & ls & Hl & Hdims & Hnl & Hni & Hno & Hnw & Hw & (W & HW & HlW)
              & Hout & Hw0 & Hi0 & Hviews & Hlinks & (b0 & Hb0 & Hin)).
  exists l0, ls. repeat match goal with |- _ /\ _ => split end; try assumption.
  - apply Hev. exact Hw.
  - destruct (proj2 Hev wb W HW) as (W' & HW' & HlW' & _). exists W'. split; [exact HW' | lia].
  - eapply Forall_impl; [exact Hout|]. intros l. apply outputs_ok_evolves. exact Hev.
  - eapply views_chain_evolves; eauto.
  - exists b0. split; apply Hev; assumption.
Qed.

Lemma set_weights_evolves wb (h : heap R) net vals :
  net_ok_at wb h net -> evolves wb h (assign_from (weights net) 0 vals h).1.
Proof.
  intros (l0 & ls & _ & _ & _ & _ & _ & _ & Hw & (W & HW & HlW) & _).
  eapply assign_from_evolves; eauto. lia.
Qed.

Lemma set_inputs_evolves wb (h : heap R) net vals :
  net_ok_at wb h net -> evolves wb h (set_inputs net vals h).1.
Proof.
  intros (l0 & ls & Hl & _ & _ & _ & _ & _ & _ & _ & Hout & _ & _ & _ & _ & (b0 & Hb0 & Hin)).
  rewrite Hl in Hout. inversion Hout as [|? ? (_ & b & buf & Hobj & Hne & Hbuf & Hlen & _) _]; subst.
  rewrite Hobj in Hb0. inversion Hb0; subst b0.
  unfold set_inputs. eapply assign_from_evolves; eauto; lia.
Qed.

Lemma calculate_outputs_evolves wb (h : heap R) ls l :
  outputs_ok h wb l -> evolves wb h (MLPLayer.calculate_outputs ls l h).1.
Proof.
  intros (_ & b & buf & Hobj & Hne & Hbuf & Hlen & _). unfold MLPLayer.calculate_outputs.
  destruct (MLPLayer.input_layer l); [|apply evolves_refl].
  apply evolves_bind_reads; [apply reads_lift|]. intros inp.
  apply evolves_bind_reads.
  { destruct (MLPLayer.weights l); [apply reads_read2 | apply reads_raise]. }
  intros W'. apply evolves_bind_reads; [apply reads_read1|]. intros x.
  apply evolves_bind_reads; [apply reads_lift|]. intros z.
  apply evolves_bind_reads; [apply reads_lift|]. intros a.
  eapply assign_from_evolves; eauto; lia.
Qed.

Lemma feed_forward_loop_evolves wb net (ls : list (MLPLayer.t R)) : forall (h : heap R),
  Forall (outputs_ok h wb) ls ->
  evolves wb h
    (for_eachM (fun layer (_ : unit) => MLPLayer.calculate_outputs (layers net) layer)
               ls tt h).1.
Proof.
  induction ls as [|l ls IH]; intros h Hall; cbn [for_eachM]; [apply evolves_refl|].
  inversion Hall as [|? ? Hl Hls]; subst.
  pose proof (calculate_outputs_evolves wb h (layers net) l Hl) as Hstep.
  unfold mbind, M_bind.
  destruct (MLPLayer.calculate_outputs (layers net) l h) as [h1 [[]|e]]; cbn [fst] in *;
    [|exact Hstep].
  eapply evolves_trans; [exact Hstep|]. apply IH.
  eapply Forall_impl; [exact Hls|]. intros l'. apply outputs_ok_evolves. exact Hstep.
Qed.

Lemma feed_forward_evolves wb (h : heap R) net :
  net_ok_at wb h net -> evolves wb h (feed_forward net h).1.
Proof.
  intros (l0 & ls & Hl & _ & _ & _ & _ & _ & _ & _ & Hout & _).
  unfold feed_forward.
  apply evolves_bind_reads; [apply reads_get_obj|]. intros inp.
  apply evolves_bind_reads; [apply reads_lift|]. intros l0'.
  destruct (negb _); [apply evolves_refl|].
  apply feed_forward_loop_evolves. rewrite Hl in *. cbn [drop].
  inversion Hout; subst. assumption.
Qed.

Lemma frames_evolves wb {A} (m : M R A) (h : heap R) :
  frames (length (objs h)) (length (objs h)) m (fun _ => True) -> evolves wb h (m h).1.
Proof.
  intros Hf. destruct (Hf h (Nat.le_refl _)) as [Hu _].
  eapply unchanged_evolves; [|exact Hu]. lia.
Qed.

Lemma frames_cost_mse n x net X y w lam jac :
  frames n x (cost_function_mse net X y w lam jac) (fun _ => True).
Proof.
  unfold cost_function_mse.
  eapply frames_bind; [apply frames_get_theta|]. intros theta _.
  eapply frames_bind; [apply frames_read_theta|]. intros thetav _. apply frames_lift.
Qed.

Lemma frames_cost_log n x ln net X y w lam jac :
  frames n x (cost_function_log ln net X y w lam jac) (fun _ => True).
Proof.
  unfold cost_function_log.
  eapply frames_bind; [apply frames_get_theta|]. intros theta _.
  eapply frames_bind; [apply frames_read_theta|]. intros thetav _. apply frames_lift.
Qed.

Lemma frames_predict_seq n (net : t R) inp w :
  (forall r, inp <> NdArr r) ->
  frames n n (predict net inp w) (fun _ => True).
Proof.
  intros Hseq. rewrite predict_unfold. eapply frames_bind; [apply frames_np_asarray|].
  intros i Hi. apply frames_predict_on. right.
  destruct inp; try exact Hi. exfalso. eapply Hseq. reflexivity.
Qed.

(** Every call of a client keeps the invariant. *)
Lemma run_action_ok (net : t R) (a : action R) (h : heap R) :
  net_ok h net -> net_ok (run_action net a h) net.
Proof.
  intros [wb Hok]. exists wb. eapply net_ok_at_evolves; [|exact Hok].
  destruct a; cbn [run_action].
  - unfold set_weights. apply set_weights_evolves. exact Hok.
  - apply set_inputs_evolves. exact Hok.
  - unfold initialize_weights. apply set_weights_evolves. exact Hok.
  - apply feed_forward_evolves. exact Hok.
  - destruct (layers net !! j) as [l|] eqn:El; [|apply evolves_refl].
    apply calculate_outputs_evolves.
    destruct Hok as (l0 & ls & _ & _ & _ & _ & _ & _ & _ & _ & Hout & _).
    rewrite Forall_forall in Hout. apply Hout. eapply list_elem_of_lookup_2. exact El.
  - apply frames_evolves. eapply frames_weaken; [apply frames_new_array | trivial].
  - apply frames_evolves. apply frames_get_theta.
  - apply frames_evolves. apply frames_predict_seq. discriminate.
  - apply frames_evolves. apply frames_predict_seq. discriminate.
  - apply frames_evolves. apply frames_cost_mse.
  - apply frames_evolves. apply frames_cost_log.
Qed.
End Preservation.

(* ===================================================================== *)
(** ** Construction establishes the invariant *)
(* ===================================================================== *)

Section Construction.
Context {R : Type} `{Scalar R}.
Local Abbreviation evolves wb h h' := (@evolves R wb h h') (only parsing).
Import MLPNetwork.

Lemma insert_at_end {X} (l : list X) (x y : X) : <[length l := y]> (l ++ [x]) = l ++ [y].
Proof.
  rewrite insert_app_r_alt by lia. rewrite Nat.sub_diag. reflexivity.
Qed.

Lemma lookup_at_end {X} (l : list X) (x : X) : (l ++ [x]) !! length l = Some x.
Proof. rewrite lookup_app_r by lia. rewrite Nat.sub_diag. reflexivity. Qed.

(** [MLPLayer.__init__] adds one array, [1.0] followed by zeros. *)
Lemma layer_init_run (h : heap R) d prev act grad :
  MLPLayer.init d prev act grad h
  = (Heap (bufs h ++ [f1 :: replicate d f0])
          (objs h ++ [NdArray None (length (bufs h)) 0 [d + 1]]),
     Ok (MLPLayer.Make d (d + 1) (length (objs h)) prev act grad None)).
Proof.
  unfold MLPLayer.init.
  set (h1 := Heap (bufs h ++ [replicate (size_of [d + 1]) f0])
                  (objs h ++ [NdArray None (length (bufs h)) 0 [d + 1]])).
  assert (np_zeros [d + 1] h = (h1, Ok (length (objs h)))) as Hz by reflexivity.
  rewrite (run_bind_ok _ _ _ _ _ Hz).
  assert (setitem (length (objs h)) 0 f1 h1
          = (Heap (bufs h ++ [f1 :: replicate d f0])
                  (objs h ++ [NdArray None (length (bufs h)) 0 [d + 1]]), Ok tt)) as Hs.
  { unfold setitem.
    rewrite (run_bind_ok _ _ _ _ _ (run_get_obj h1 _ _ (lookup_at_end _ _))).
    cbn [nd_shape]. replace (0 <? d + 1) with true by (symmetry; apply Nat.ltb_lt; lia).
    unfold write, h1. cbn [bufs objs nd_buf nd_off]. rewrite lookup_at_end.
    rewrite insert_at_end. do 3 f_equal.
    replace (size_of [d + 1]) with (S d) by (simpl; lia). reflexivity. }
  rewrite (run_bind_ok _ _ _ _ _ Hs). reflexivity.
Qed.

Lemma init_layers_step_run (h : heap R) front lp nw d a g :
  MLPLayer.n_outputs lp = MLPLayer.n_nodes lp + 1 ->
  init_layers_step (d, (a, g)) (front ++ [lp], nw, Some (length front)) h
  = (Heap (bufs h ++ [f1 :: replicate d f0])
          (objs h ++ [NdArray None (length (bufs h)) 0 [d + 1]]),
     Ok ((front ++ [lp]) ++ [MLPLayer.Make d (d + 1) (length (objs h))
                               (Some (length front)) a g None],
         nw + d * (MLPLayer.n_nodes lp + 1), Some (length (front ++ [lp])))).
Proof.
  intros Hlp. unfold init_layers_step.
  rewrite (run_bind_ok _ _ _ _ _ (layer_init_run h d (Some (length front)) a g)).
  unfold py_index. rewrite lookup_app_l by (rewrite !length_app; simpl; lia).
  rewrite lookup_at_end. rewrite res_bind_ok. unfold lift at 1.
  unfold mbind at 1, M_bind. cbn [MLPLayer.n_outputs]. rewrite Hlp.
  unfold mret, M_ret. rewrite !length_app. cbn [length].
  repeat f_equal; lia.
Qed.

Lemma init_layers_loop items : forall (h : heap R) front lp nw,
  MLPLayer.n_outputs lp = MLPLayer.n_nodes lp + 1 ->
  for_eachM init_layers_step items (front ++ [lp], nw, Some (length front)) h
  = (Heap (bufs h ++ made_buffers items)
          (objs h ++ made_outputs (length (bufs h)) items),
     Ok ((front ++ [lp]) ++ made_layers (length front) (length (objs h)) items,
         nw + sum_list (block_sizes (MLPLayer.n_nodes lp) (map fst items)),
         Some (length front + length items))).
Proof.
  induction items as [|[d [a g]] items IH]; intros h front lp nw Hlp.
  - cbn. rewrite !app_nil_r, !Nat.add_0_r. destruct h. reflexivity.
  - cbn [for_eachM].
    rewrite (run_bind_ok _ _ _ _ _ (init_layers_step_run h front lp nw d a g Hlp)).
    rewrite (IH _ (front ++ [lp])
               (MLPLayer.Make d (d + 1) (length (objs h)) (Some (length front)) a g None)
               _ eq_refl).
    cbn [bufs objs made_buffers made_layers made_outputs map fst block_sizes sum_list
         MLPLayer.n_nodes length].
    rewrite !length_app. cbn [length].
    rewrite <- !app_assoc. cbn [app].
    replace (length (bufs h) + 1) with (S (length (bufs h))) by lia.
    replace (length (objs h) + 1) with (S (length (objs h))) by lia.
    replace (length front + 1) with (S (length front)) by lia.
    replace (length front + S (length items)) with (S (length front) + length items) by lia.
    replace (nw + (id (d * (MLPLayer.n_nodes lp + 1))
                   + sum_list (block_sizes d (map fst items))))
      with (nw + d * (MLPLayer.n_nodes lp + 1) + sum_list (block_sizes d (map fst items)))
      by (unfold id; lia).
    reflexivity.
Qed.

Lemma sum_list_cons (x : nat) (l : list nat) : sum_list (x :: l) = x + sum_list l.
Proof. reflexivity. Qed.

Lemma insert_middle {X} (front : list X) (x y : X) (rest : list X) :
  <[length front := y]> (front ++ x :: rest) = (front ++ [y]) ++ rest.
Proof.
  rewrite insert_app_r_alt by lia. rewrite Nat.sub_diag, <- app_assoc. reflexivity.
Qed.

Lemma init_weights_step_run (h : heap R) wref wb nw front l rest first prevl :
  objs h !! wref = Some (NdArray None wb 0 [nw]) ->
  MLPLayer.n_outputs prevl = MLPLayer.n_nodes prevl + 1 ->
  MLPLayer.n_outputs l = MLPLayer.n_nodes l + 1 ->
  first + MLPLayer.n_nodes l * (MLPLayer.n_nodes prevl + 1) <= nw ->
  init_weights_step wref nw (length front, l) (front ++ l :: rest, first, prevl) h
  = (Heap (bufs h)
          (objs h ++ [NdArray (Some wref) wb first
                        [MLPLayer.n_nodes l; MLPLayer.n_nodes prevl + 1]]),
     Ok ((front ++ [MLPLayer.with_weights l (length (objs h))]) ++ rest,
         first + MLPLayer.n_nodes l * (MLPLayer.n_nodes prevl + 1),
         MLPLayer.with_weights l (length (objs h)))).
Proof.
  intros Hw Hprev Hl Hle. unfold init_weights_step.
  cbn [MLPLayer.with_weights MLPLayer.n_outputs].
  rewrite Hprev, Hl.
  replace (MLPLayer.n_nodes l + 1 - 1) with (MLPLayer.n_nodes l) by lia.
  replace ((MLPLayer.n_nodes prevl + 1) * MLPLayer.n_nodes l)
    with (MLPLayer.n_nodes l * (MLPLayer.n_nodes prevl + 1)) by apply Nat.mul_comm.
  set (size := MLPLayer.n_nodes l * (MLPLayer.n_nodes prevl + 1)) in *.
  replace (nw <? first + size) with false by (symmetry; apply Nat.ltb_ge; lia).
  set (v := NdArray (Some wref) wb first [size]).
  assert (slice wref first (Some (first + size)) h
          = (Heap (bufs h) (objs h ++ [v]), Ok (length (objs h)))) as Hs.
  { unfold slice. rewrite (run_bind_ok _ _ _ _ _ (run_get_obj h _ _ Hw)).
    cbn [nd_shape nd_buf nd_off default base_of nd_base size_of fold_right].
    unfold new_view, v, id.
    replace (Nat.min first nw) with first by lia.
    replace (Nat.min (first + size) nw) with (first + size) by lia.
    replace (0 + first * 1) with first by lia.
    replace (first + size - first) with size by lia. reflexivity. }
  rewrite (run_bind_ok _ _ _ _ _ Hs).
  set (h1 := Heap (bufs h) (objs h ++ [v])).
  assert (try_except
            (set_shape (length (objs h))
               [MLPLayer.n_nodes l; MLPLayer.n_nodes prevl + 1]) MLPError h1
          = (Heap (bufs h)
               (objs h ++ [NdArray (Some wref) wb first
                             [MLPLayer.n_nodes l; MLPLayer.n_nodes prevl + 1]]),
             Ok tt)) as Ht.
  { unfold try_except, set_shape.
    rewrite (run_bind_ok _ _ _ _ _ (run_get_obj h1 _ _ (lookup_at_end _ _))).
    unfold v. cbn [nd_shape nd_base nd_buf nd_off].
    replace (size_of [MLPLayer.n_nodes l; MLPLayer.n_nodes prevl + 1] =? size_of [size])
      with true by (symmetry; apply Nat.eqb_eq; unfold size; simpl; lia).
    unfold put_obj, h1. cbn [bufs objs]. rewrite insert_at_end. reflexivity. }
  rewrite (run_bind_ok _ _ _ _ _ Ht).
  rewrite insert_middle. reflexivity.
Qed.

Lemma init_weights_loop wref wb nw (ls : list (MLPLayer.t R)) :
  forall (h : heap R) front first prevl,
    objs h !! wref = Some (NdArray None wb 0 [nw]) ->
    MLPLayer.n_outputs prevl = MLPLayer.n_nodes prevl + 1 ->
    Forall (fun l => MLPLayer.n_outputs l = MLPLayer.n_nodes l + 1) ls ->
    first + sum_list (block_sizes (MLPLayer.n_nodes prevl) (map MLPLayer.n_nodes ls)) <= nw ->
    exists lastl,
      for_eachM (init_weights_step wref nw) (zip (seq (length front) (length ls)) ls)
                (front ++ ls, first, prevl) h
      = (Heap (bufs h)
              (objs h ++ made_views wref wb first (MLPLayer.n_nodes prevl) ls),
         Ok (front ++ with_views (length (objs h)) ls,
             first + sum_list (block_sizes (MLPLayer.n_nodes prevl)
                                 (map MLPLayer.n_nodes ls)),
             lastl)).
Proof.
  induction ls as [|l ls IH]; intros h front first prevl Hw Hprev Hall Hle.
  - exists prevl. cbn. rewrite !app_nil_r, Nat.add_0_r. destruct h. reflexivity.
  - inversion Hall as [|? ? Hl Hls]; subst.
    cbn [map block_sizes] in Hle. rewrite sum_list_cons in Hle.
    cbn [length seq zip zip_with for_eachM].
    rewrite (run_bind_ok _ _ _ _ _
               (init_weights_step_run h wref wb nw front l ls first prevl Hw Hprev Hl
                  ltac:(lia))).
    destruct (IH (Heap (bufs h)
                    (objs h ++ [NdArray (Some wref) wb first
                                  [MLPLayer.n_nodes l; MLPLayer.n_nodes prevl + 1]]))
                 (front ++ [MLPLayer.with_weights l (length (objs h))])
                 (first + MLPLayer.n_nodes l * (MLPLayer.n_nodes prevl + 1))
                 (MLPLayer.with_weights l (length (objs h)))) as [lastl Hrun].
    + cbn [objs]. apply lookup_app_l_Some. exact Hw.
    + exact Hl.
    + exact Hls.
    + cbn [MLPLayer.with_weights MLPLayer.n_nodes]. lia.
    + exists lastl. rewrite length_app in Hrun. cbn [length] in Hrun.
      replace (length front + 1) with (S (length front)) in Hrun by lia.
      rewrite Hrun. cbn [bufs objs made_views with_views map block_sizes
                         MLPLayer.with_weights MLPLayer.n_nodes].
      rewrite sum_list_cons.
      rewrite length_app. cbn [length].
      replace (length (objs h) + 1) with (S (length (objs h))) by lia.
      rewrite <- !app_assoc. cbn [app].
      rewrite Nat.add_assoc. reflexivity.
Qed.

Lemma extends_evolves wb (h : heap R) bs os :
  evolves wb h (Heap (bufs h ++ bs) (objs h ++ os)).
Proof.
  split; cbn [bufs objs].
  - intros r o Hr. apply lookup_app_l_Some. exact Hr.
  - intros b buf Hb. exists buf. split; [apply lookup_app_l_Some; exact Hb | auto].
Qed.

Lemma made_layers_outputs items : forall p (O : list ndarray) (B : list (list R)) Os Bs,
  Forall (outputs_made (Heap (B ++ made_buffers items ++ Bs)
                             (O ++ made_outputs (length B) items ++ Os))
                       (length B + length items))
         (made_layers p (length O) items).
Proof.
  induction items as [|[d [a g]] items IH]; intros p O B Os Bs; cbn [made_layers]; [constructor|].
  constructor.
  - split; [reflexivity|]. cbn [MLPLayer.outputs MLPLayer.n_nodes made_outputs made_buffers map fst].
    exists (length B), (f1 :: replicate d f0). cbn [objs bufs].
    split; [|split; [cbn [length]; lia | split; [|split]]].
    + apply list_lookup_middle. reflexivity.
    + apply list_lookup_middle. reflexivity.
    + cbn [length]. rewrite length_replicate. lia.
    + reflexivity.
  - specialize (IH (S p) (O ++ [NdArray None (length B) 0 [d + 1]])
                   (B ++ [f1 :: replicate d f0]) Os Bs).
    rewrite !length_app in IH. cbn [length] in IH.
    replace (length O + 1) with (S (length O)) in IH by lia.
    replace (length B + 1) with (S (length B)) in IH by lia.
    rewrite <- !app_assoc in IH. cbn [app] in IH.
    cbn [made_outputs made_buffers map fst length app].
    replace (length B + S (length items)) with (S (length B) + length items) by lia.
    exact IH.
Qed.

Lemma made_layers_n_nodes (items : list (nat * (option (R -> R) * option (R -> R)))) :
  forall p no,
  map MLPLayer.n_nodes (made_layers p no items) = map fst items.
Proof.
  induction items as [|[d [a g]] items IH]; intros p no; cbn; [reflexivity|].
  rewrite IH. reflexivity.
Qed.

Lemma made_layers_n_outputs (items : list (nat * (option (R -> R) * option (R -> R)))) :
  forall p no,
    Forall (fun l => MLPLayer.n_outputs l = MLPLayer.n_nodes l + 1) (made_layers p no items).
Proof.
  induction items as [|[d [a g]] items IH]; intros p no; cbn [made_layers]; constructor.
  - reflexivity.
  - apply IH.
Qed.

Lemma made_layers_links (items : list (nat * (option (R -> R) * option (R -> R)))) :
  forall p no,
  Forall (fun it => is_Some (fst (snd it))) items ->
  links_ok p (made_layers p no items).
Proof.
  induction items as [|[d [a g]] items IH]; intros p no Hall; cbn [made_layers links_ok]; [exact I|].
  inversion Hall; subst. cbn in *. repeat split; auto.
Qed.

Lemma with_views_n_nodes (ls : list (MLPLayer.t R)) : forall v,
  map MLPLayer.n_nodes (with_views v ls) = map MLPLayer.n_nodes ls.
Proof. induction ls as [|l ls IH]; intros v; cbn; [reflexivity | rewrite IH; reflexivity]. Qed.

Lemma with_views_links (ls : list (MLPLayer.t R)) : forall p v,
  links_ok p ls -> links_ok p (with_views v ls).
Proof.
  induction ls as [|l ls IH]; intros p v; cbn [links_ok with_views]; [auto|].
  intros (Hi & Ha & Hrest). repeat split; auto.
Qed.

Lemma with_views_outputs (h : heap R) wb (ls : list (MLPLayer.t R)) : forall v,
  Forall (outputs_ok h wb) ls -> Forall (outputs_ok h wb) (with_views v ls).
Proof.
  induction ls as [|l ls IH]; intros v Hall; cbn [with_views]; [constructor|].
  inversion Hall; subst. constructor; [assumption | apply IH; assumption].
Qed.

Lemma made_views_chain wref wb (ls : list (MLPLayer.t R)) :
  forall first prev (O Os : list ndarray) (B : list (list R)),
    views_chain (Heap B (O ++ made_views wref wb first prev ls ++ Os))
                wref wb first prev (with_views (length O) ls).
Proof.
  induction ls as [|l ls IH]; intros first prev O Os B; cbn [with_views views_chain made_views];
    [exact I|].
  split.
  - exists (length O). split; [reflexivity|]. cbn [objs MLPLayer.n_nodes MLPLayer.with_weights].
    apply list_lookup_middle. reflexivity.
  - specialize (IH (first + MLPLayer.n_nodes l * (prev + 1)) (MLPLayer.n_nodes l)
                   (O ++ [NdArray (Some wref) wb first [MLPLayer.n_nodes l; prev + 1]]) Os B).
    rewrite length_app in IH. cbn [length] in IH.
    replace (length O + 1) with (S (length O)) in IH by lia.
    rewrite <- !app_assoc in IH. cbn [app] in IH.
    cbn [app MLPLayer.n_nodes MLPLayer.with_weights]. exact IH.
Qed.

Lemma outputs_made_ok (h : heap R) nb wb (l : MLPLayer.t R) :
  nb <= wb -> outputs_made h nb l -> outputs_ok h wb l.
Proof.
  intros Hle (Hn & b & buf & Ho & Hb & Hbuf & Hlen & H0). split; [exact Hn|].
  exists b, buf. repeat split; auto. lia.
Qed.

Lemma func_lists_shape n (af gf : funcs R) al gl :
  func_lists n af gf = Ok (al, gl) -> 1 <= n ->
  exists as_ g0 gs,
    al = None :: as_ /\ gl = g0 :: gs /\
    length as_ = n - 1 /\ length gs = n - 1 /\ Forall is_Some as_.
Proof.
  unfold func_lists. intros Hf Hn. destruct af as [f|fs].
  - inversion Hf; subst. eexists _, _, _. repeat split; rewrite ?length_replicate; auto.
    apply Forall_replicate. eexists; reflexivity.
  - destruct (negb (length (None :: map Some fs) =? n)) eqn:E1; [discriminate|].
    destruct gf as [g|gs]; [discriminate|].
    destruct (negb (length (None :: map Some gs) =? n)) eqn:E2; [discriminate|].
    inversion Hf; subst. apply negb_false_iff, Nat.eqb_eq in E1, E2.
    cbn [length] in E1, E2. rewrite length_map in E1, E2.
    eexists _, _, _. repeat split; rewrite ?length_map; try lia.
    apply Forall_map. apply Forall_forall. intros x _. eexists; reflexivity.
Qed.

Lemma slice_run (h : heap R) r o n rest first last :
  objs h !! r = Some o -> nd_shape o = n :: rest ->
  slice r first last h
  = (Heap (bufs h)
          (objs h ++ [NdArray (Some (base_of r o)) (nd_buf o)
                        (nd_off o + Nat.min first n * size_of rest)
                        ((Nat.min (default n last) n - Nat.min first n) :: rest)]),
     Ok (length (objs h))).
Proof.
  intros Ho Hs. unfold slice. rewrite (run_bind_ok _ _ _ _ _ (run_get_obj h r o Ho)).
  rewrite Hs. reflexivity.
Qed.

Lemma lift_run {A} (r : res A) (h : heap R) : (lift r : M R A) h = (h, r).
Proof. reflexivity. Qed.

Lemma run_bind_lift_ok {A B} (r : res A) (f : A -> M R B) (h : heap R) a :
  r = Ok a -> (lift r ≫= f) h = f a h.
Proof. intros ->. reflexivity. Qed.

Lemma run_bind_lift_raise {A B} (r : res A) (f : A -> M R B) (h : heap R) e :
  r = Raise e -> (lift r ≫= f) h = (h, Raise e).
Proof. intros ->. reflexivity. Qed.

(** [MLPNetwork.__init__], when it returns, returns a network that
    satisfies the invariant. *)
Lemma init_net_ok ndim af gf cf (h0 h : heap R) net :
  init ndim af gf cf h0 = (h, Ok net) -> net_ok h net.
Proof.
  unfold init. intros Hinit.
  destruct ndim as [|d0 ds]; [discriminate|].
  rewrite (run_bind_lift_ok _ _ _ d0 eq_refl) in Hinit.
  destruct (py_last (d0 :: ds)) as [n_out|] eqn:Elast; [|discriminate].
  rewrite (run_bind_lift_ok _ _ _ n_out eq_refl) in Hinit.
  assert (last (d0 :: ds) = Some n_out) as Hlast.
  { unfold py_last in Elast. destruct (last (d0 :: ds)); [congruence | discriminate]. }
  match type of Hinit with
  | context [lift ?rk ≫= _] =>
      destruct rk as [kind|] eqn:Ek in Hinit; [|discriminate]
  end.
  rewrite (run_bind_lift_ok _ _ _ kind eq_refl) in Hinit.
  all: destruct (func_lists (length (d0 :: ds)) af gf) as [[al gl]|] eqn:Efl; [|discriminate].
  all: rewrite (run_bind_lift_ok _ _ _ _ eq_refl) in Hinit.
  all: destruct (func_lists_shape _ _ _ _ _ Efl ltac:(cbn [length]; lia))
         as (as_ & g0 & gs & -> & -> & Las & Lgs & Has).
  all: cbn [fst snd zip zip_with for_eachM] in Hinit.
  all: assert (length as_ = length ds) as Las' by (cbn [length] in Las; lia).
  all: assert (length gs = length ds) as Lgs' by (cbn [length] in Lgs; lia).
  all: clear Las Lgs.
  all: set (items := zip ds (zip as_ gs)) in *.
  all: set (l0 := MLPLayer.Make d0 (d0 + 1) (length (objs h0)) None None g0 None).
  all: set (h1 := Heap (bufs h0 ++ [f1 :: replicate d0 f0])
                       (objs h0 ++ [NdArray None (length (bufs h0)) 0 [d0 + 1]])).
  all: assert (init_layers_step (d0, (None, g0)) ([], 0, None) h0
               = (h1, Ok ([] ++ [l0], 0, Some (length (@nil (MLPLayer.t R))))))
         as Hstep0
         by (unfold init_layers_step;
             rewrite (run_bind_ok _ _ _ _ _ (layer_init_run h0 d0 None None g0));
             reflexivity).
  all: set (ml := made_layers 0 (length (objs h1)) items) in *.
  all: set (nw := 0 + sum_list (block_sizes (MLPLayer.n_nodes l0) (map fst items))) in *.
  all: set (h2 := Heap (bufs h1 ++ made_buffers items)
                       (objs h1 ++ made_outputs (length (bufs h1)) items)) in *.
  all: assert ((init_layers_step (d0, (None, g0)) ([], 0, None)
                ≫= fun s' => for_eachM init_layers_step items s') h0
               = (h2, Ok (([] ++ [l0]) ++ ml, nw, Some (0 + length items)))) as Hloop1
         by (rewrite (run_bind_ok _ _ _ _ _ Hstep0);
             apply (init_layers_loop items h1 [] l0 0 eq_refl)).
  all: rewrite (run_bind_ok _ _ _ _ _ Hloop1) in Hinit.
  all: cbn [fst snd app] in Hinit.
  all: set (wobj := NdArray None (length (bufs h2)) 0 [nw]) in *.
  all: set (h3 := Heap (bufs h2 ++ [replicate (size_of [nw]) f0]) (objs h2 ++ [wobj])) in *.
  all: assert (np_zeros [nw] h2 = (h3, Ok (length (objs h2)))) as Hz by reflexivity.
  all: rewrite (run_bind_ok _ _ _ _ _ Hz) in Hinit.
  all: rewrite (run_bind_lift_ok _ _ _ l0 eq_refl) in Hinit.
  all: set (wref := length (objs h2)) in *.
  all: set (wb := length (bufs h2)) in *.
  all: assert (map MLPLayer.n_nodes ml = ds) as Hml
         by (unfold ml; rewrite made_layers_n_nodes; unfold items;
             apply fst_zip; rewrite length_zip_with; lia).
  all: assert (map fst items = ds) as Hitems
         by (unfold items; apply fst_zip; rewrite length_zip_with; lia).
  all: destruct (init_weights_loop wref wb nw ml h3 [l0] 0 l0) as [lastl Hloop2];
         [ apply lookup_at_end
         | reflexivity
         | apply made_layers_n_outputs
         | rewrite Hml; unfold nw; rewrite Hitems; cbn [MLPLayer.n_nodes l0]; lia
         | ].
  all: set (mv := made_views wref wb 0 (MLPLayer.n_nodes l0) ml) in *.
  all: set (h4 := Heap (bufs h3) (objs h3 ++ mv)) in *.
  all: unfold enumerate in Hinit; cbn [drop] in Hinit.
  all: cbn [length] in Hloop2.
  all: rewrite (run_bind_ok _ _ _ _ _ Hloop2) in Hinit.
  all: cbn [fst snd app] in Hinit.
  all: rewrite (run_bind_lift_ok _ _ _ l0 eq_refl) in Hinit.
  all: set (o0 := NdArray None (length (bufs h0)) 0 [d0 + 1]) in *.
  all: assert (objs h4 !! MLPLayer.outputs l0 = Some o0) as Ho0
         by (unfold h4, h3, h2, h1; cbn [objs MLPLayer.outputs l0];
             do 3 apply lookup_app_l_Some; apply lookup_at_end).
  all: rewrite (run_bind_ok _ _ _ _ _
                  (slice_run h4 _ o0 (d0 + 1) [] 1 None Ho0 eq_refl)) in Hinit.
  all: cbn [base_of nd_base nd_buf nd_off o0 default size_of fold_right] in Hinit.
  all: replace (0 + Nat.min 1 (d0 + 1) * 1) with 1 in Hinit by lia.
  all: replace (Nat.min (d0 + 1) (d0 + 1) - Nat.min 1 (d0 + 1)) with d0 in Hinit by lia.
  all: set (inview := NdArray (Some (MLPLayer.outputs l0)) (length (bufs h0)) 1 [d0]) in *.
  all: set (h5 := Heap (bufs h4) (objs h4 ++ [inview])) in *.
  all: set (layers2 := l0 :: with_views (length (objs h3)) ml) in *.
  all: destruct (py_index layers2 (length (d0 :: ds) - 1)) as [lN|] eqn:ElN;
         [rewrite (run_bind_lift_ok _ _ _ lN eq_refl) in Hinit | discriminate].
  all: pose proof (frames_slice (R := R) (length (objs h5)) (length (objs h5))
                     (MLPLayer.outputs lN) 1 None h5 (Nat.le_refl _)) as [Hfr _].
  all: apply (unchanged_evolves wb) in Hfr; [|lia].
  all: unfold mbind, M_bind in Hinit.
  all: destruct (slice (MLPLayer.outputs lN) 1 None h5) as [h6 [ov|e]]; [|discriminate].
  all: cbn [fst] in Hfr; inversion Hinit; subst h net; clear Hinit.
  all: exists wb; eapply net_ok_at_evolves; [exact Hfr|].
  all: assert (h5 = Heap (bufs h1 ++ made_buffers items ++ [replicate (size_of [nw]) f0])
                         (objs h1 ++ made_outputs (length (bufs h1)) items
                                  ++ ([wobj] ++ mv ++ [inview]))) as Hh5
         by (unfold h5, h4, h3, h2; cbn [bufs objs]; rewrite <- !app_assoc; reflexivity).
  all: assert (h5 = Heap (bufs h5) (objs h3 ++ mv ++ [inview])) as Hh5'
         by (unfold h5, h4; cbn [bufs objs]; rewrite <- !app_assoc; reflexivity).
  all: assert (wb = length (bufs h1) + length items) as Hwb
         by (unfold wb, h2; cbn [bufs]; rewrite length_app; unfold made_buffers;
             rewrite length_map; reflexivity).
  all: exists l0, (with_views (length (objs h3)) ml).
  all: cbn [layers dimensions n_layers n_inputs n_outputs n_weights weights inputs].
  all: repeat match goal with |- _ /\ _ => split end.
  all: try reflexivity.
  all: try exact Hlast.
  - unfold layers2. cbn [map]. rewrite with_views_n_nodes, Hml. reflexivity.
  - unfold nw. rewrite Hitems. reflexivity.
  - unfold h5, h4. cbn [objs]. do 2 apply lookup_app_l_Some. apply lookup_at_end.
  - exists (replicate (size_of [nw]) f0). split.
    + unfold h5, h4, h3. cbn [bufs]. apply lookup_at_end.
    + rewrite length_replicate. simpl. lia.
  - unfold layers2. constructor.
    + split; [reflexivity|]. exists (length (bufs h0)), (f1 :: replicate d0 f0).
      split; [|split; [|split; [|split]]].
      * unfold h5. cbn [objs]. apply lookup_app_l_Some. exact Ho0.
      * rewrite Hwb. unfold h1. cbn [bufs]. rewrite length_app. cbn [length]. lia.
      * rewrite Hh5. unfold h1. cbn [bufs]. rewrite <- app_assoc.
        apply list_lookup_middle. reflexivity.
      * cbn [length MLPLayer.n_nodes l0]. rewrite length_replicate. lia.
      * reflexivity.
    + apply with_views_outputs. rewrite Hh5.
      eapply Forall_impl; [apply made_layers_outputs|].
      intros l. apply outputs_made_ok. lia.
  - rewrite Hh5'. apply made_views_chain.
  - apply with_views_links. apply made_layers_links.
    unfold items. clear -Has Las' Lgs'.
    revert as_ gs Has Las' Lgs'. induction ds as [|d ds IH]; intros [|a as_] [|g gs] Has La Lg;
      try discriminate; cbn; constructor.
    + inversion Has; subst. assumption.
    + inversion Has; subst. apply IH; auto.
  - exists (length (bufs h0)). split.
    + unfold h5. cbn [objs]. apply lookup_app_l_Some. exact Ho0.
    + unfold h5. cbn [objs]. apply lookup_at_end.
Qed.
End Construction.

(* ===================================================================== *)
(** ** Reachable states satisfy the invariant *)
(* ===================================================================== *)

Section ReachableFacts.
Context {R : Type} `{Scalar R}.
Local Abbreviation reads m := (@reads R _ m) (only parsing).
Import MLPNetwork.

Lemma reachable_net_ok (net : t R) (h : heap R) : reachable net h -> net_ok h net.
Proof.
  induction 1 as [ndim af gf cf h0 h Hinit | a h Hreach IH].
  - eapply init_net_ok. exact Hinit.
  - apply run_action_ok. exact IH.
Qed.

Lemma bind_reads_ind {A B} (P : heap R -> Prop) (m : M R A) (f : A -> M R B) (h : heap R) :
  reads m -> P h -> (forall a, P (f a h).1) -> P ((m ≫= f) h).1.
Proof.
  intros Hm Hh Hf. unfold mbind, M_bind. specialize (Hm h).
  destruct (m h) as [h1 [a|e]]; simpl in *; subst; [apply Hf | exact Hh].
Qed.

(** ** The bias slot *)

Lemma getitem_run (h : heap R) r o n buf x :
  objs h !! r = Some o -> nd_shape o = [n] -> bufs h !! nd_buf o = Some buf ->
  0 < n -> buf !! nd_off o = Some x ->
  getitem r 0 h = (h, Ok x).
Proof.
  intros Ho Hs Hb Hn Hx. unfold getitem.
  rewrite (run_bind_ok _ _ _ _ _ (run_get_obj h r o Ho)), Hs.
  replace (0 <? n) with true by (symmetry; apply Nat.ltb_lt; exact Hn).
  assert (read_buf o h = (h, Ok (take (size_of (nd_shape o)) (drop (nd_off o) buf)))) as Hr
    by (unfold read_buf; rewrite Hb; reflexivity).
  rewrite (run_bind_ok _ _ _ _ _ Hr), Hs.
  rewrite lookup_take_lt by (simpl; lia). rewrite lookup_drop, Nat.add_0_r, Hx.
  reflexivity.
Qed.

Lemma getitem_inv (h h' : heap R) r x :
  getitem r 0 h = (h', Ok x) ->
  exists o n buf,
    objs h !! r = Some o /\ nd_shape o = [n] /\ bufs h !! nd_buf o = Some buf /\
    0 < n /\ buf !! nd_off o = Some x.
Proof.
  unfold getitem, get_obj, read_buf, mbind, M_bind, lift. intros Hg.
  destruct (objs h !! r) as [o|] eqn:Ho; [|discriminate].
  destruct (nd_shape o) as [|n [|? ?]] eqn:Hs; try discriminate.
  destruct (0 <? n) eqn:Hn; [|discriminate]. apply Nat.ltb_lt in Hn.
  destruct (bufs h !! nd_buf o) as [buf|] eqn:Hb; [|discriminate].
  destruct (take _ _ !! 0) as [y|] eqn:Hy; [|discriminate].
  inversion Hg; subst. rewrite lookup_take_lt in Hy by (simpl; lia).
  rewrite lookup_drop, Nat.add_0_r in Hy.
  exists o, n, buf. auto.
Qed.

(** Writing [outputs[1:]] leaves [outputs[0]] as it is. *)
Lemma assign_from_1_keeps_first (h : heap R) r vals x :
  getitem r 0 h = (h, Ok x) ->
  getitem r 0 (assign_from r 1 vals h).1 = ((assign_from r 1 vals h).1, Ok x).
Proof.
  intros Hg. destruct (getitem_inv _ _ _ _ Hg) as (o & n & buf & Ho & Hs & Hb & Hn & Hx).
  assert (nd_off o < length buf) as Hoff by (eapply lookup_lt_Some; eauto).
  assert (forall vs, getitem r 0 (write o (Nat.min 1 n) vs h).1
                     = ((write o (Nat.min 1 n) vs h).1, Ok x)) as Hw.
  { intros vs. unfold write. rewrite Hb. cbn [fst].
    apply (getitem_run _ r o n
             (take (nd_off o + Nat.min 1 n) buf ++ vs
              ++ drop (nd_off o + Nat.min 1 n + length vs) buf));
      cbn [objs bufs]; auto.
    - apply list_lookup_insert_eq. eapply lookup_lt_Some; eauto.
    - rewrite lookup_app_l by (rewrite length_take; lia).
      rewrite lookup_take_lt by lia. exact Hx. }
  unfold assign_from. rewrite (run_bind_ok _ _ _ _ _ (run_get_obj h r o Ho)), Hs.
  destruct (length vals =? n - Nat.min 1 n); [apply Hw|].
  destruct vals as [|v [|? ?]]; try exact Hg. apply Hw.
Qed.

Lemma calculate_outputs_keeps_first (h : heap R) ls l x :
  getitem (MLPLayer.outputs l) 0 h = (h, Ok x) ->
  getitem (MLPLayer.outputs l) 0 (MLPLayer.calculate_outputs ls l h).1
  = ((MLPLayer.calculate_outputs ls l h).1, Ok x).
Proof.
  intros Hg. unfold MLPLayer.calculate_outputs.
  destruct (MLPLayer.input_layer l); [|exact Hg].
  apply (bind_reads_ind (fun h' => getitem _ 0 h' = (h', Ok x)));
    [apply reads_lift | exact Hg |]. intros inp.
  apply (bind_reads_ind (fun h' => getitem _ 0 h' = (h', Ok x))); [|exact Hg|].
  { destruct (MLPLayer.weights l); [apply reads_read2 | apply reads_raise]. }
  intros W'.
  apply (bind_reads_ind (fun h' => getitem _ 0 h' = (h', Ok x)));
    [apply reads_read1 | exact Hg |]. intros v.
  apply (bind_reads_ind (fun h' => getitem _ 0 h' = (h', Ok x)));
    [apply reads_lift | exact Hg |]. intros z.
  apply (bind_reads_ind (fun h' => getitem _ 0 h' = (h', Ok x)));
    [apply reads_lift | exact Hg |]. intros a.
  apply assign_from_1_keeps_first. exact Hg.
Qed.

Lemma layer_init_first (h : heap R) d prev act grad :
  exists l h',
    MLPLayer.init d prev act grad h = (h', Ok l) /\
    getitem (MLPLayer.outputs l) 0 h' = (h', Ok f1).
Proof.
  eexists _, _. split; [apply layer_init_run|].
  eapply getitem_run; cbn [objs bufs MLPLayer.outputs].
  - apply lookup_at_end.
  - reflexivity.
  - cbn [nd_buf]. apply lookup_at_end.
  - lia.
  - reflexivity.
Qed.

Lemma outputs_ok_first (h : heap R) wb l :
  outputs_ok h wb l -> getitem (MLPLayer.outputs l) 0 h = (h, Ok f1).
Proof.
  intros (_ & b & buf & Ho & _ & Hb & Hlen & H0).
  eapply getitem_run; eauto; cbn [nd_shape nd_buf nd_off]; eauto. lia.
Qed.

(** C5.  The first entry of a layer's outputs array is [1.0] when
    [MLPLayer.__init__] returns; a call of [calculate_outputs], whether it
    returns or raises, leaves the first entry of the layer's outputs as it
    found it (it assigns to [outputs[1:]] only); and in every state a
    network can be in, after construction and after any sequence of calls of
    its methods and of its layers' [calculate_outputs], [outputs[0]] is
    [1.0] for every layer. *)
Theorem bias_output_is_one :
  (forall (h : heap R) d prev act grad,
     exists l h',
       MLPLayer.init d prev act grad h = (h', Ok l) /\
       getitem (MLPLayer.outputs l) 0 h' = (h', Ok f1)) /\
  (forall (h : heap R) ls l x,
     getitem (MLPLayer.outputs l) 0 h = (h, Ok x) ->
     getitem (MLPLayer.outputs l) 0 (MLPLayer.calculate_outputs ls l h).1
     = ((MLPLayer.calculate_outputs ls l h).1, Ok x)) /\
  (forall (net : t R) (h : heap R),
     reachable net h ->
     forall l, l ∈ layers net -> getitem (MLPLayer.outputs l) 0 h = (h, Ok f1)).
Proof.
  split; [exact layer_init_first|]. split; [exact calculate_outputs_keeps_first|].
  intros net h Hreach l Hl.
  destruct (reachable_net_ok net h Hreach) as (wb & l0 & ls & _ & _ & _ & _ & _ & _ & _ & _ & Hout & _).
  rewrite Forall_forall in Hout. eapply outputs_ok_first. apply Hout. exact Hl.
Qed.
End ReachableFacts.

Example heap21_run_outputs :
  read_flat (MLPNetwork.outputs net21) heap21_run = (heap21_run, Ok [8%float]).
Proof. vm_compute. reflexivity. Qed.

Lemma reachable_heap21_run : reachable net21 heap21_run.
Proof.
  unfold heap21_run. do 3 apply reach_step.
  exact (reach_init net21 [2; 1] (Callable linear) (Callable linear_gradient) NameMse
           (Heap [] []) heap21 built21_ok).
Qed.

(** Layer 1 of the small network after a forward pass: [outputs[0]] is
    [1.0]. *)
Lemma bias_output_is_one_witness :
  getitem 1 0 heap21_run = (heap21_run, Ok f1).
Proof.
  apply (proj2 (proj2 bias_output_is_one) net21 heap21_run reachable_heap21_run
           (MLPLayer.Make 1 2 1 (Some 0) (Some linear) (Some linear_gradient) (Some 3))).
  apply list_elem_of_lookup_2 with 1. reflexivity.
Defined.

(* ===================================================================== *)
(** ** The weight views and the flat weight vector *)
(* ===================================================================== *)

Section WeightViews.
Context {R : Type} `{Scalar R}.
Import MLPNetwork.

Lemma views_chain_refs (h : heap R) wref wb (ls : list (MLPLayer.t R)) : forall first prev,
  views_chain h wref wb first prev ls ->
  exists refs,
    map MLPLayer.weights ls = map Some refs /\
    chain_views h (Some wref) wb first prev (map MLPLayer.n_nodes ls) refs.
Proof.
  induction ls as [|l ls IH]; intros first prev; cbn [views_chain].
  - intros _. exists []. split; [reflexivity | exact I].
  - intros [(v & Hw & Hv) Hrest]. destruct (IH _ _ Hrest) as (refs & Hmap & Hchain).
    exists (v :: refs). cbn [map chain_views]. rewrite Hw, Hmap. auto.
Qed.

Lemma read_flat_run (h : heap R) r o buf :
  objs h !! r = Some o -> bufs h !! nd_buf o = Some buf ->
  read_flat r h = (h, Ok (take (size_of (nd_shape o)) (drop (nd_off o) buf))).
Proof.
  intros Ho Hb. unfold read_flat. rewrite (run_bind_ok _ _ _ _ _ (run_get_obj h r o Ho)).
  unfold read_buf. rewrite Hb. reflexivity.
Qed.

Lemma read2_run (h : heap R) r o n c buf :
  objs h !! r = Some o -> nd_shape o = [n; c] -> bufs h !! nd_buf o = Some buf ->
  read2 r h = (h, Ok (reshape2 n c (take (n * c) (drop (nd_off o) buf)))).
Proof.
  intros Ho Hs Hb. unfold read2. rewrite (run_bind_ok _ _ _ _ _ (run_get_obj h r o Ho)), Hs.
  rewrite (run_bind_ok _ _ _ _ _ (read_flat_run h r o buf Ho Hb)), Hs.
  replace (size_of [n; c]) with (n * c) by (simpl; lia). reflexivity.
Qed.

Lemma size_of_2 (n c : nat) : size_of [n; c] = n * c.
Proof. simpl. lia. Qed.

(** The flattened views of a chain are the part of the buffer they cover. *)
Lemma ravel_chain (h : heap R) base b buf (dims : list nat) :
  bufs h !! b = Some buf ->
  forall first prev refs,
    chain_views h base b first prev dims refs ->
    ravel_views (map Some refs) h
    = (h, Ok (take (sum_list (block_sizes prev dims)) (drop first buf))).
Proof.
  intros Hb. induction dims as [|d dims IH]; intros first prev [|v refs] Hc;
    cbn [chain_views] in Hc; try contradiction.
  - reflexivity.
  - destruct Hc as [Hv Hrest]. cbn [map ravel_views block_sizes].
    rewrite (run_bind_ok _ _ _ _ _ (read_flat_run h v _ buf Hv Hb)).
    cbn [nd_shape nd_off]. rewrite (run_bind_ok _ _ _ _ _ (IH _ _ _ Hrest)).
    rewrite size_of_2, sum_list_cons. unfold mret, M_ret. do 2 f_equal.
    rewrite <- drop_drop. apply take_take_drop.
Qed.

(** The blocks read from a chain are the blocks carved from the buffer. *)
Lemma read_chain (h : heap R) base b buf (dims : list nat) :
  bufs h !! b = Some buf ->
  forall first prev refs,
    chain_views h base b first prev dims refs ->
    read_theta (map Some refs) h = (h, Ok (map Some (carve prev dims (drop first buf)))).
Proof.
  intros Hb. induction dims as [|d dims IH]; intros first prev [|v refs] Hc;
    cbn [chain_views] in Hc; try contradiction.
  - reflexivity.
  - destruct Hc as [Hv Hrest]. cbn [map read_theta carve].
    rewrite (run_bind_ok _ _ _ _ _ (read2_run h v _ d (prev + 1) buf Hv eq_refl Hb)).
    cbn [nd_off]. rewrite drop_drop.
    rewrite (run_bind_ok _ _ _ _ _ (IH _ _ _ Hrest)). reflexivity.
Qed.

Lemma chain_views_length (h : heap R) base b (dims : list nat) : forall first prev refs,
  chain_views h base b first prev dims refs -> length refs = length dims.
Proof.
  induction dims as [|d dims IH]; intros first prev [|v refs] Hc;
    cbn [chain_views] in Hc; try contradiction; [reflexivity|].
  destruct Hc as [_ Hrest]. cbn [length]. rewrite (IH _ _ _ Hrest). reflexivity.
Qed.

(** The view of layer [i + 1] has the shape [(dims[i+1], dims[i] + 1)]. *)
Lemma chain_views_lookup (h : heap R) base b (dims : list nat) :
  forall first prev refs i d,
    chain_views h base b first prev dims refs ->
    dims !! i = Some d ->
    exists v p first',
      refs !! i = Some v /\ (prev :: dims) !! i = Some p /\
      objs h !! v = Some (NdArray base b first' [d; p + 1]).
Proof.
  induction dims as [|d0 dims IH]; intros first prev [|v refs] i d Hc Hi;
    cbn [chain_views] in Hc; try contradiction; [discriminate|].
  destruct Hc as [Hv Hrest]. destruct i as [|i].
  - inversion Hi; subst. exists v, prev, first. auto.
  - cbn in Hi. destruct (IH _ _ _ _ _ Hrest Hi) as (v' & p & f' & Hr & Hp & Ho).
    exists v', p, f'. auto.
Qed.

(** C3.  In every state a constructed network can be in, [get_theta()]
    returns one entry per layer: [None] for the input layer and, for layer
    [j >= 1], a view of shape [(dimensions[j], dimensions[j-1] + 1)]; and
    these views, each flattened, one after the other in layer order, are
    exactly the flat weights vector, which has [n_weights] entries. *)
Theorem weight_views_reconstruct_weights (net : t R) (h : heap R) :
  reachable net h ->
  exists views W,
    get_theta net None h = (h, Ok views) /\
    length views = n_layers net /\
    views !! 0 = Some None /\
    (forall j d, 1 <= j -> dimensions net !! j = Some d ->
       exists v o p,
         views !! j = Some (Some v) /\ objs h !! v = Some o /\
         dimensions net !! (j - 1) = Some p /\ nd_shape o = [d; p + 1]) /\
    read_flat (weights net) h = (h, Ok W) /\
    length W = n_weights net /\
    ravel_views views h = (h, Ok W).
Proof.
  intros Hreach.
  destruct (reachable_net_ok net h Hreach)
    as (wb & l0 & ls & Hl & Hdims & Hnl & Hni & Hno & Hnw & Hw & (W & HW & HlW)
        & Hout & Hw0 & Hi0 & Hviews & Hlinks & _).
  destruct (views_chain_refs _ _ _ _ _ _ Hviews) as (refs & Hmap & Hchain).
  exists (None :: map Some refs), W.
  assert (dimensions net = MLPLayer.n_nodes l0 :: map MLPLayer.n_nodes ls) as Hd
    by (rewrite <- Hdims, Hl; reflexivity).
  split; [unfold get_theta; rewrite Hl; cbn [map]; rewrite Hw0, Hmap; reflexivity|].
  split.
  { cbn [length]. rewrite length_map, (chain_views_length _ _ _ _ _ _ _ Hchain).
    rewrite Hnl, Hd. reflexivity. }
  split; [reflexivity|]. split.
  { intros [|i] d Hj Hdj; [lia|]. rewrite Hd in Hdj |- *. cbn in Hdj.
    destruct (chain_views_lookup _ _ _ _ _ _ _ _ _ Hchain Hdj) as (v & p & f' & Hr & Hp & Ho).
    eexists v, _, p. split; [|split; [exact Ho | split; [|reflexivity]]].
    - change ((None :: map Some refs) !! S i) with (map Some refs !! i).
      rewrite list_lookup_fmap, Hr. reflexivity.
    - replace (S i - 1) with i by lia. exact Hp. }
  assert (take (n_weights net) W = W) as Htake by (apply take_ge; lia).
  split; [|split; [exact HlW|]].
  - rewrite (read_flat_run h _ _ W Hw HW). cbn [nd_shape nd_off]. rewrite drop_0.
    replace (size_of [n_weights net]) with (n_weights net) by (simpl; lia).
    rewrite Htake. reflexivity.
  - cbn [ravel_views]. rewrite (ravel_chain h _ _ W _ HW _ _ _ Hchain).
    rewrite drop_0. rewrite Hnw, Hd in Htake. cbn [weight_count] in Htake.
    rewrite Htake. reflexivity.
Qed.
End WeightViews.

(** The small network with the weights [1, 2, 3]: one view of shape
    [(1, 3)], which flattened is [1, 2, 3]. *)
Lemma weight_views_reconstruct_weights_witness :
  exists views W,
    MLPNetwork.get_theta net21 None heap21_run = (heap21_run, Ok views) /\
    length views = MLPNetwork.n_layers net21 /\
    views !! 0 = Some None /\
    (forall j d, 1 <= j -> MLPNetwork.dimensions net21 !! j = Some d ->
       exists v o p,
         views !! j = Some (Some v) /\ objs heap21_run !! v = Some o /\
         MLPNetwork.dimensions net21 !! (j - 1) = Some p /\ nd_shape o = [d; p + 1]) /\
    read_flat (MLPNetwork.weights net21) heap21_run = (heap21_run, Ok W) /\
    length W = MLPNetwork.n_weights net21 /\
    ravel_views views heap21_run = (heap21_run, Ok W).
Proof.
  apply (weight_views_reconstruct_weights net21 heap21_run). exact reachable_heap21_run.
Defined.

(* ===================================================================== *)
(** * Matrices whose shapes fit *)
(* ===================================================================== *)

Section MatrixFacts.
Context {R : Type} `{Scalar R}.

Lemma zip_with_app_replicate (x : R) (rows : list (list R)) :
  zip_with app (replicate (length rows) [x]) rows = map (cons x) rows.
Proof. induction rows as [|r rows IH]; [reflexivity|]. cbn. rewrite IH. reflexivity. Qed.

Lemma hstack_ones (X : matrix R) m :
  nrows X = m -> hstack (np_ones m 1) X = Ok (bias_augment X).
Proof.
  intros <-. unfold hstack, np_ones, bias_augment, nrows. cbn [mrows ncols].
  rewrite length_replicate, Nat.eqb_refl. cbn [replicate].
  rewrite zip_with_app_replicate. reflexivity.
Qed.

Lemma hstack_zeros (W : matrix R) :
  hstack (np_zeros2 (nrows W) 1) (drop_col0 W) = Ok (zero_bias_column W).
Proof.
  unfold hstack, np_zeros2, zero_bias_column, drop_col0, nrows. cbn [mrows ncols].
  rewrite length_replicate, length_map, Nat.eqb_refl. cbn [replicate].
  rewrite <- (length_map (drop 1) (mrows W)) at 1.
  rewrite zip_with_app_replicate, map_map. reflexivity.
Qed.

Lemma np_dot_ok (A B : matrix R) : ncols A = nrows B -> np_dot A B = Ok (mdot A B).
Proof. intros E. unfold np_dot. rewrite E, Nat.eqb_refl. reflexivity. Qed.

Lemma stretch_same {X} (l : list X) : stretch (length l) l = l.
Proof. unfold stretch. rewrite Nat.eqb_refl. reflexivity. Qed.

Lemma broadcast_same (M : matrix R) r c : has_shape M r c -> broadcast_to r c M = mrows M.
Proof.
  intros (Hr & Hc & Hwf). unfold broadcast_to. rewrite <- Hr. unfold nrows.
  rewrite stretch_same. unfold mat_wf in Hwf. rewrite Hc in Hwf.
  induction Hwf as [|x l Hx _ IH]; [reflexivity|]. cbn [map]. rewrite IH, <- Hx, stretch_same.
  reflexivity.
Qed.

Lemma np_binop_ok f (A B : matrix R) r c :
  has_shape A r c -> has_shape B r c -> np_binop f A B = Ok (mzip f A B).
Proof.
  intros HA HB. unfold np_binop, mzip, bdim.
  destruct HA as (Hr & Hc & Hwf), HB as (Hr' & Hc' & Hwf').
  rewrite Hr, Hr', Hc, Hc', !Nat.eqb_refl.
  rewrite (broadcast_same A r c), (broadcast_same B r c) by (repeat split; assumption).
  reflexivity.
Qed.

Lemma shape_bias (A : matrix R) r c : has_shape A r c -> has_shape (bias_augment A) r (c + 1).
Proof.
  intros (Hr & Hc & Hwf). unfold has_shape, bias_augment, nrows, mat_wf in *. cbn [mrows ncols].
  rewrite length_map. split; [exact Hr|]. split; [lia|].
  apply Forall_map. eapply Forall_impl; [exact Hwf|]. intros x Hx. cbn in *. lia.
Qed.

Lemma shape_transpose (M : matrix R) : has_shape (transpose M) (ncols M) (nrows M).
Proof.
  unfold has_shape, transpose, nrows, mat_wf. cbn [mrows ncols].
  rewrite length_map, length_seq. split; [reflexivity|]. split; [reflexivity|].
  apply Forall_map, Forall_forall. intros j _. cbn. apply length_map.
Qed.

Lemma shape_mdot (A B : matrix R) : has_shape (mdot A B) (nrows A) (ncols B).
Proof.
  unfold has_shape, mdot, nrows, mat_wf. cbn [mrows ncols].
  rewrite length_map. split; [reflexivity|]. split; [reflexivity|].
  apply Forall_map, Forall_forall. intros a _. cbn.
  rewrite length_map. unfold transpose. cbn [mrows]. rewrite length_map, length_seq. reflexivity.
Qed.

Lemma shape_mmap f (M : matrix R) r c : has_shape M r c -> has_shape (mmap f M) r c.
Proof.
  intros (Hr & Hc & Hwf). unfold has_shape, mmap, nrows, mat_wf in *. cbn [mrows ncols].
  rewrite length_map. split; [exact Hr|]. split; [exact Hc|].
  apply Forall_map. eapply Forall_impl; [exact Hwf|]. intros x Hx. cbn in *. rewrite length_map. exact Hx.
Qed.

Lemma shape_mzip f (A B : matrix R) r c :
  has_shape A r c -> has_shape B r c -> has_shape (mzip f A B) r c.
Proof.
  intros (Hr & Hc & Hwf) (Hr' & Hc' & Hwf'). unfold has_shape, mzip, nrows, mat_wf in *.
  cbn [mrows ncols]. rewrite length_zip_with. split; [lia|]. split; [exact Hc|].
  rewrite Hc in *. rewrite Hc' in *. clear Hr Hr' Hc Hc'.
  revert Hwf'. generalize (mrows B). induction Hwf as [|x l Hx _ IH]; intros l' Hl'.
  - constructor.
  - destruct Hl' as [|y l' Hy Hl']; [constructor|]. cbn. constructor; [|apply IH; exact Hl'].
    rewrite length_zip_with. lia.
Qed.

Lemma shape_drop_col0 (M : matrix R) r c : has_shape M r (c + 1) -> has_shape (drop_col0 M) r c.
Proof.
  intros (Hr & Hc & Hwf). unfold has_shape, drop_col0, nrows, mat_wf in *. cbn [mrows ncols].
  rewrite length_map. split; [exact Hr|]. split; [lia|].
  apply Forall_map. eapply Forall_impl; [exact Hwf|]. intros x Hx. cbn in *. rewrite length_drop. lia.
Qed.

Lemma shape_zero_bias (W : matrix R) r c :
  has_shape W r (c + 1) -> has_shape (zero_bias_column W) r (c + 1).
Proof.
  intros (Hr & Hc & Hwf). unfold has_shape, zero_bias_column, nrows, mat_wf in *.
  cbn [mrows ncols]. rewrite length_map. split; [exact Hr|]. split; [lia|].
  apply Forall_map. eapply Forall_impl; [exact Hwf|]. intros x Hx. cbn in *. rewrite length_drop. lia.
Qed.

Lemma shape_reshape2 r c (flat : list R) :
  r * c <= length flat -> has_shape (reshape2 r c flat) r c.
Proof.
  intros Hlen. unfold has_shape, reshape2, nrows, mat_wf. cbn [mrows ncols].
  rewrite length_map, length_seq. split; [reflexivity|]. split; [reflexivity|].
  apply Forall_map, Forall_forall. intros i Hi. apply elem_of_seq in Hi. cbn.
  rewrite length_take, length_drop. nia.
Qed.

Lemma ravel_length (M : matrix R) r c : has_shape M r c -> length (ravel M) = r * c.
Proof.
  intros (Hr & Hc & Hwf). unfold ravel, nrows, mat_wf in *. rewrite Hc in Hwf. subst r.
  induction Hwf as [|x l Hx _ IH]; [reflexivity|]. cbn. rewrite length_app, IH, Hx. reflexivity.
Qed.
End MatrixFacts.

(* ===================================================================== *)
(** * The weight blocks a cost function or [predict] works with *)
(* ===================================================================== *)

Section ThetaValues.
Context {R : Type} `{Scalar R}.
Import MLPNetwork.

Lemma carve_length (dims : list nat) : forall prev (flat : list R),
  length (carve prev dims flat) = length dims.
Proof. induction dims as [|d dims IH]; intros; cbn; [|rewrite IH]; reflexivity. Qed.

Lemma carve_take (dims : list nat) : forall prev n (flat : list R),
  sum_list (block_sizes prev dims) <= n ->
  carve prev dims (take n flat) = carve prev dims flat.
Proof.
  induction dims as [|d dims IH]; intros prev n flat Hn; [reflexivity|].
  cbn [block_sizes] in Hn. rewrite sum_list_cons in Hn. cbn [carve].
  rewrite take_take. replace (Nat.min (d * (prev + 1)) n) with (d * (prev + 1)) by lia.
  f_equal. replace (take n flat) with (take (d * (prev + 1) + (n - d * (prev + 1))) flat)
    by (f_equal; lia).
  rewrite <- take_drop_commute. apply IH. lia.
Qed.

(** The blocks carved from a flat vector that is long enough, with the
    functions of the layers, are what the formulas take. *)
Lemma carve_match (ls : list (MLPLayer.t R)) : forall prev i (flat : list R),
  sum_list (block_sizes prev (map MLPLayer.n_nodes ls)) <= length flat ->
  links_ok i ls ->
  Forall (fun l => MLPLayer.n_outputs l = MLPLayer.n_nodes l + 1) ls ->
  layers_match prev ls
    (zip_with (fun Wj l => (Wj, fn_of (MLPLayer.act_func l), fn_of (MLPLayer.grad_func l)))
              (carve prev (map MLPLayer.n_nodes ls) flat) ls).
Proof.
  induction ls as [|l ls IH]; intros prev i flat Hlen Hlinks Hout; [exact I|].
  cbn [map block_sizes] in Hlen. rewrite sum_list_cons in Hlen.
  cbn [links_ok] in Hlinks. destruct Hlinks as (_ & [g Hg] & Hlinks).
  inversion Hout as [|? ? Hl Hout']; subst.
  cbn [map carve zip_with layers_match]. split; [|split; [exact Hl|split; [|split]]].
  - apply shape_reshape2. rewrite length_take. lia.
  - rewrite Hg. reflexivity.
  - reflexivity.
  - apply (IH _ (S i)); [rewrite length_drop; lia | exact Hlinks | exact Hout'].
Qed.

Lemma layers_match_length prev (ls : list (MLPLayer.t R)) : forall lsp,
  layers_match prev ls lsp -> length lsp = length ls.
Proof.
  revert prev. induction ls as [|l ls IH]; intros prev [|[[W g] g'] lsp] Hm;
    cbn [layers_match] in Hm; try contradiction; [reflexivity|].
  cbn [length]. f_equal. eapply IH. apply Hm.
Qed.

Lemma zip_with_blocks (Ws : list (matrix R)) : forall (ls : list (MLPLayer.t R)),
  length Ws = length ls ->
  map (fun l => Some l.1.1)
      (zip_with (fun Wj l => (Wj, fn_of (MLPLayer.act_func l), fn_of (MLPLayer.grad_func l)))
                Ws ls)
  = map Some Ws.
Proof.
  induction Ws as [|W Ws IH]; intros [|l ls] Hlen; try discriminate; [reflexivity|].
  cbn. f_equal. apply IH. cbn in Hlen. lia.
Qed.

Lemma chain_views_extends (h h' : heap R) base b dims : forall first prev refs,
  (forall r o, objs h !! r = Some o -> objs h' !! r = Some o) ->
  chain_views h base b first prev dims refs -> chain_views h' base b first prev dims refs.
Proof.
  induction dims as [|d dims IH]; intros first prev [|v refs] Hext Hc;
    cbn [chain_views] in *; try contradiction; [exact I|].
  destruct Hc as [Hv Hc]. split; [apply Hext; exact Hv | apply IH; assumption].
Qed.

Lemma chain_views_cons (h : heap R) base b first prev d dims v refs :
  objs h !! v = Some (NdArray base b first [d; prev + 1]) ->
  chain_views h base b (first + d * (prev + 1)) d dims refs ->
  chain_views h base b first prev (d :: dims) (v :: refs).
Proof. intros; split; assumption. Qed.

Lemma set_shape_run (h : heap R) r o shape :
  objs h !! r = Some o -> size_of shape = size_of (nd_shape o) ->
  set_shape r shape h
  = (Heap (bufs h) (<[r := NdArray (nd_base o) (nd_buf o) (nd_off o) shape]> (objs h)), Ok tt).
Proof.
  intros Ho Hs. unfold set_shape. rewrite (run_bind_ok _ _ _ _ _ (run_get_obj h r o Ho)).
  rewrite Hs, Nat.eqb_refl. reflexivity.
Qed.

Lemma try_except_ok {A} (m : M R A) e (h h' : heap R) a :
  m h = (h', Ok a) -> try_except m e h = (h', Ok a).
Proof. intros Hm. unfold try_except. rewrite Hm. reflexivity. Qed.

(** One turn of the loop of [get_theta(weights)]: a new view of the
    supplied array, with the shape of the layer's own weight block. *)
Lemma get_theta_step_run (self : t R) (h : heap R) w o j l v d p theta first :
  objs h !! w = Some o -> nd_shape o = [n_weights self] ->
  MLPLayer.weights l = Some v ->
  (exists ov, objs h !! v = Some ov /\ nd_shape ov = [d; p + 1]) ->
  first + d * (p + 1) <= n_weights self ->
  get_theta_step self w (j, l) (theta, first) h
  = (Heap (bufs h)
          (objs h ++ [NdArray (Some (base_of w o)) (nd_buf o) (nd_off o + first) [d; p + 1]]),
     Ok (theta ++ [Some (length (objs h))], first + d * (p + 1))).
Proof.
  intros Ho Hs Hw (ov & Hov & Hsv) Hle. unfold get_theta_step. rewrite Hw.
  rewrite (run_bind_lift_ok _ _ _ v eq_refl).
  rewrite (run_bind_ok _ _ _ _ _ (run_get_shape h v ov Hov)), Hsv, size_of_2.
  replace (n_weights self <? first + d * (p + 1)) with false
    by (symmetry; apply Nat.ltb_ge; lia).
  rewrite (run_bind_ok _ _ _ _ _ (slice_run h w o _ _ first _ Ho Hs)).
  cbn [default]. unfold id.
  replace (Nat.min (first + d * (p + 1)) (n_weights self) - Nat.min first (n_weights self))
    with (d * (p + 1)) by lia.
  replace (nd_off o + Nat.min first (n_weights self) * size_of []) with (nd_off o + first)
    by (cbn [size_of]; rewrite Nat.min_l by lia; simpl; lia).
  set (h1 := Heap _ _).
  assert (objs h1 !! length (objs h)
          = Some (NdArray (Some (base_of w o)) (nd_buf o) (nd_off o + first) [d * (p + 1)]))
    as Hnew by (apply lookup_at_end).
  rewrite (run_bind_ok _ _ _ _ _
             (try_except_ok _ MLPError h1 _ tt
                (set_shape_run h1 _ _ [d; p + 1] Hnew
                   ltac:(cbn [nd_shape]; simpl; lia)))).
  unfold h1. cbn [bufs objs nd_base nd_buf nd_off]. rewrite insert_at_end. reflexivity.
Qed.

Lemma get_theta_loop (self : t R) w o wref wb (ls : list (MLPLayer.t R)) :
  forall (h : heap R) j theta first first0 prev,
    objs h !! w = Some o -> nd_shape o = [n_weights self] ->
    views_chain h wref wb first0 prev ls ->
    first + sum_list (block_sizes prev (map MLPLayer.n_nodes ls)) <= n_weights self ->
    exists os refs,
      for_eachM (get_theta_step self w) (enumerate j ls) (theta, first) h
      = (Heap (bufs h) (objs h ++ os),
         Ok (theta ++ map Some refs,
             first + sum_list (block_sizes prev (map MLPLayer.n_nodes ls)))) /\
      chain_views (Heap (bufs h) (objs h ++ os)) (Some (base_of w o)) (nd_buf o)
                  (nd_off o + first) prev (map MLPLayer.n_nodes ls) refs.
Proof.
  induction ls as [|l ls IH]; intros h j theta first first0 prev Ho Hs Hviews Hle.
  - exists [], []. cbn. rewrite !app_nil_r, Nat.add_0_r. destruct h. split; [reflexivity|exact I].
  - cbn [views_chain] in Hviews. destruct Hviews as [(v & Hw & Hv) Hviews].
    cbn [map block_sizes] in Hle. rewrite sum_list_cons in Hle.
    unfold enumerate. cbn [length seq zip zip_with for_eachM].
    rewrite (run_bind_ok _ _ _ _ _
               (get_theta_step_run self h w o j l v (MLPLayer.n_nodes l) prev theta first
                  Ho Hs Hw ltac:(eexists; split; [exact Hv | reflexivity]) ltac:(lia))).
    set (h1 := Heap _ _).
    assert (forall r x, objs h !! r = Some x -> objs h1 !! r = Some x) as Hext
      by (intros r x Hr; apply lookup_app_l_Some; exact Hr).
    destruct (IH h1 (S j) (theta ++ [Some (length (objs h))])
                 (first + MLPLayer.n_nodes l * (prev + 1))
                 (first0 + MLPLayer.n_nodes l * (prev + 1)) (MLPLayer.n_nodes l))
      as (os & refs & Hrun & Hchain).
    + apply Hext. exact Ho.
    + exact Hs.
    + eapply views_chain_evolves; [|exact Hviews].
      split; [exact Hext | intros b buf Hb; exists buf; auto].
    + lia.
    + exists (NdArray (Some (base_of w o)) (nd_buf o) (nd_off o + first)
                      [MLPLayer.n_nodes l; prev + 1] :: os), (length (objs h) :: refs).
      fold (enumerate (S j) ls). rewrite Hrun. unfold h1 in *. cbn [bufs objs] in *.
      rewrite <- !app_assoc in *. cbn [app map block_sizes] in *.
      rewrite sum_list_cons, Nat.add_assoc. split; [reflexivity|].
      apply chain_views_cons.
      * cbn [objs]. apply list_lookup_middle. reflexivity.
      * rewrite <- Nat.add_assoc. exact Hchain.
Qed.

(** [get_theta] followed by reading the views: the blocks carved from the
    flat vector that the [weights] argument stands for.  Nothing is written;
    with a [weights] argument, views of it are added to the heap. *)
Lemma theta_values (net : t R) (h : heap R) warg W l0 ls :
  net_ok h net -> weights_arg h net warg W -> layers net = l0 :: ls ->
  exists os theta,
    get_theta net warg h = (Heap (bufs h) (objs h ++ os), Ok theta) /\
    read_theta theta (Heap (bufs h) (objs h ++ os))
    = (Heap (bufs h) (objs h ++ os),
       Ok (None :: map (fun l => Some l.1.1) (layers_of net W))) /\
    layers_match (MLPLayer.n_nodes l0) ls (layers_of net W).
Proof.
  intros [wb Hok] Harg Hl.
  destruct Hok as (l0' & ls' & Hl' & Hdims & Hnl & Hni & Hno & Hnw & Hw & (W0 & HW0 & HlW0)
                   & Hout & Hw0 & Hi0 & Hviews & Hlinks & _).
  rewrite Hl in Hl'. inversion Hl'; subst l0' ls'. clear Hl'.
  assert (dimensions net = MLPLayer.n_nodes l0 :: map MLPLayer.n_nodes ls) as Hd
    by (rewrite <- Hdims, Hl; reflexivity).
  assert (Forall (fun l => MLPLayer.n_outputs l = MLPLayer.n_nodes l + 1) ls) as Hno'.
  { rewrite Hl in Hout. inversion Hout; subst. eapply Forall_impl; [eassumption|].
    intros l Hlo. apply Hlo. }
  assert (n_weights net = sum_list (block_sizes (MLPLayer.n_nodes l0) (map MLPLayer.n_nodes ls)))
    as Hsum by (rewrite Hnw, Hd; reflexivity).
  unfold layers_of. rewrite Hl, Hd. cbn [drop blocks].
  inversion Harg as [W' Hread | w o buf Ho Hs Hb Hlen]; subst.
  - exists [], (None :: map MLPLayer.weights ls).
    rewrite app_nil_r. replace (Heap (bufs h) (objs h)) with h by (destruct h; reflexivity).
    rewrite (read_flat_run h _ _ W0 Hw HW0) in Hread. cbn [nd_shape nd_off] in Hread.
    rewrite drop_0 in Hread. inversion Hread as [HW]. clear Hread.
    replace (size_of [n_weights net]) with (n_weights net) by (simpl; lia).
    rewrite take_ge by lia.
    destruct (views_chain_refs _ _ _ _ _ _ Hviews) as (refs & Hmap & Hchain).
    split; [unfold get_theta; rewrite Hl; cbn [map]; rewrite Hw0; reflexivity|].
    split.
    + rewrite Hmap. cbn [read_theta].
      rewrite (run_bind_ok _ _ _ _ _ (read_chain h _ _ W0 _ HW0 _ _ _ Hchain)).
      rewrite drop_0, zip_with_blocks by (rewrite carve_length, length_map; reflexivity).
      reflexivity.
    + apply (carve_match ls _ 0); [lia | exact Hlinks | exact Hno'].
  - destruct (get_theta_loop net w o _ _ ls h 1 [None] 0 0 (MLPLayer.n_nodes l0) Ho Hs Hviews
                ltac:(lia)) as (os & refs & Hrun & Hchain).
    exists os, (None :: map Some refs).
    assert (length (take (n_weights net) (drop (nd_off o) buf)) = n_weights net) as HlW
      by (rewrite length_take, length_drop; lia).
    split; [|split].
    + unfold get_theta. rewrite (run_bind_ok _ _ _ _ _ (run_get_shape h w o Ho)), Hs.
      rewrite bool_decide_eq_true_2 by reflexivity. cbn [negb].
      rewrite Hl. cbn [drop]. rewrite (run_bind_ok _ _ _ _ _ Hrun). reflexivity.
    + cbn [read_theta].
      assert (bufs (Heap (bufs h) (objs h ++ os)) !! nd_buf o = Some buf) as Hb' by exact Hb.
      rewrite (run_bind_ok _ _ _ _ _ (read_chain _ _ _ buf _ Hb' _ _ _ Hchain)).
      rewrite Nat.add_0_r, carve_take by lia.
      rewrite zip_with_blocks by (rewrite carve_length, length_map; reflexivity).
      reflexivity.
    + apply (carve_match ls _ 0); [lia | exact Hlinks | exact Hno'].
Qed.
End ThetaValues.

(* ===================================================================== *)
(** * What [predict] returns *)
(* ===================================================================== *)

Section PredictValue.
Context {R : Type} `{Scalar R}.
Import MLPNetwork.

Lemma last_default_cons (prev d : nat) (ds : list nat) :
  default prev (last (d :: ds)) = default d (last ds).
Proof. rewrite last_cons. destruct (last ds); reflexivity. Qed.

Lemma item_after {X} e (pre : list (option X)) (x : X) rest :
  item e (pre ++ Some x :: rest) (length pre) = Ok x.
Proof. unfold item. rewrite list_lookup_middle by reflexivity. reflexivity. Qed.

Lemma enumerate_cons {X} (j : nat) (x : X) (l : list X) :
  enumerate j (x :: l) = (j, x) :: enumerate (S j) l.
Proof. reflexivity. Qed.

Lemma theta_shift {X} (pre : list (option X)) x rest :
  pre ++ Some x :: rest = (pre ++ [Some x]) ++ rest.
Proof. rewrite <- app_assoc. reflexivity. Qed.

Lemma length_snoc {X} (l : list X) (x : X) : length (l ++ [x]) = S (length l).
Proof. rewrite length_app. cbn. lia. Qed.

Lemma predict_step_run m pre rest (l : MLPLayer.t R) W g out prev :
  has_shape W (MLPLayer.n_nodes l) (prev + 1) -> MLPLayer.act_func l = Some g ->
  has_shape out m prev ->
  predict_step m (pre ++ Some W :: rest) (length pre, l) out
  = Ok (mmap g (mdot (bias_augment out) (transpose W))) /\
  has_shape (mmap g (mdot (bias_augment out) (transpose W))) m (MLPLayer.n_nodes l).
Proof.
  intros HW Hact Hout. unfold predict_step.
  rewrite (hstack_ones out m) by apply Hout. rewrite res_bind_ok.
  rewrite item_after, res_bind_ok.
  assert (has_shape (bias_augment out) m (prev + 1)) as Hb by (apply shape_bias; exact Hout).
  rewrite np_dot_ok
    by (destruct Hb as (_ & -> & _), HW as (_ & HcW & _), (shape_transpose W) as (-> & _);
        symmetry; exact HcW).
  rewrite res_bind_ok. unfold call. rewrite Hact. split; [reflexivity|].
  apply shape_mmap. destruct (shape_mdot (bias_augment out) (transpose W)) as (Hr & Hc & Hwf).
  split; [|split]; [rewrite Hr; apply Hb | | exact Hwf].
  rewrite Hc. destruct (shape_transpose W) as (_ & -> & _). apply HW.
Qed.

(** The loop of [predict] computes [predicted], and every intermediate
    product is defined. *)
Lemma predict_loop m (ls : list (MLPLayer.t R)) : forall lsp pre prev out,
  layers_match prev ls lsp -> has_shape out m prev ->
  for_each (predict_step m (pre ++ map (fun l => Some l.1.1) lsp))
           (enumerate (length pre) ls) out
  = Ok (predicted out (map fst lsp)) /\
  has_shape (predicted out (map fst lsp)) m (default prev (last (map MLPLayer.n_nodes ls))).
Proof.
  induction ls as [|l ls IH]; intros [|[[W g] g'] lsp] pre prev out Hm Hout;
    cbn [layers_match] in Hm; try contradiction.
  - split; [reflexivity | exact Hout].
  - destruct Hm as (HW & Hno & Hact & Hgrad & Hm).
    rewrite enumerate_cons. cbn [for_each map fst snd].
    destruct (predict_step_run m pre (map (fun l => Some l.1.1) lsp) l W g out prev HW Hact Hout)
      as [-> Hshape].
    rewrite res_bind_ok, last_default_cons. unfold predicted. cbn [fold_left fst snd].
    rewrite theta_shift, <- (length_snoc pre (Some W)). apply IH; assumption.
Qed.

Lemma reshape2_rows c (rows : list (list R)) :
  Forall (fun r => length r = c) rows ->
  reshape2 (length rows) c (concat rows) = Mat c rows.
Proof.
  intros Hrows. unfold reshape2. f_equal.
  induction Hrows as [|r rows Hr _ IH]; [reflexivity|].
  cbn [length seq map concat]. rewrite Nat.mul_0_l, drop_0, take_app_length' by (symmetry; exact Hr).
  f_equal. rewrite <- fmap_S_seq, map_map. rewrite <- IH at 2.
  apply map_ext. intros i. cbn [Nat.mul]. rewrite drop_app_add' by (symmetry; exact Hr).
  reflexivity.
Qed.

Lemma concat_length c (rows : list (list R)) :
  Forall (fun r => length r = c) rows -> length (concat rows) = length rows * c.
Proof.
  intros Hrows. induction Hrows as [|r rows Hr _ IH]; [reflexivity|].
  cbn. rewrite length_app, IH, Hr. reflexivity.
Qed.

Lemma read_flat_inv (h h' : heap R) r W :
  read_flat r h = (h', Ok W) ->
  exists o buf, objs h !! r = Some o /\ bufs h !! nd_buf o = Some buf /\
                W = take (size_of (nd_shape o)) (drop (nd_off o) buf).
Proof.
  unfold read_flat, get_obj, read_buf, mbind, M_bind.
  destruct (objs h !! r) as [o|] eqn:Eo; [|discriminate].
  destruct (bufs h !! nd_buf o) as [buf|] eqn:Eb; [|discriminate].
  intros E. exists o, buf. split; [reflexivity|]. split; [exact Eb|]. congruence.
Qed.

Lemma weights_arg_extends (h : heap R) bs os net warg W :
  weights_arg h net warg W ->
  weights_arg (Heap (bufs h ++ bs) (objs h ++ os)) net warg W.
Proof.
  intros [W' Hread | w o buf Ho Hs Hb Hlen].
  - destruct (read_flat_inv _ _ _ _ Hread) as (o & buf & Ho & Hb & ->).
    apply weights_own. apply read_flat_run; cbn [bufs objs]; apply lookup_app_l_Some; assumption.
  - eapply weights_given; cbn [bufs objs]; try apply lookup_app_l_Some; eassumption.
Qed.

(** [predict] once [inputs] is the two-dimensional array [i]. *)
Lemma predict_tail_run (net : t R) (h : heap R) warg W i o buf m c X :
  net_ok h net -> weights_arg h net warg W ->
  objs h !! i = Some o -> nd_shape o = [m; c] -> bufs h !! nd_buf o = Some buf ->
  reshape2 m c (take (m * c) (drop (nd_off o) buf)) = X ->
  has_shape X m (n_inputs net) ->
  exists os,
    predict_tail net i warg h
    = (Heap (bufs h) (objs h ++ os), Ok (Mtx (predicted X (map fst (layers_of net W))))) /\
    has_shape (predicted X (map fst (layers_of net W))) m (n_outputs net).
Proof.
  intros Hok Harg Ho Hs Hb HX0 HX.
  assert (Hok' := Hok). destruct Hok' as [wb Hat].
  destruct Hat as (l0 & ls & Hl & Hdims & Hnl & Hni & Hno & _).
  destruct (theta_values net h warg W l0 ls Hok Harg Hl) as (os & theta & Hget & Hread & Hm).
  exists os. unfold predict_tail.
  rewrite (run_bind_ok _ _ _ _ _ (run_get_shape h i o Ho)), Hs.
  rewrite (run_bind_lift_ok _ _ _ m eq_refl).
  rewrite (run_bind_ok _ _ _ _ _ Hget), (run_bind_ok _ _ _ _ _ Hread).
  set (h' := Heap _ _).
  assert (objs h' !! i = Some o) as Ho' by (apply lookup_app_l_Some; exact Ho).
  rewrite (run_bind_ok _ _ _ _ _ (read2_run h' i o m c buf Ho' Hs Hb)).
  rewrite HX0, Hl. cbn [drop]. rewrite Hni in HX.
  destruct (predict_loop m ls (layers_of net W) [None] (MLPLayer.n_nodes l0) X Hm HX)
    as [Hrun Hshape].
  cbn [length app] in Hrun. change (drop 0 ls) with ls. rewrite lift_run, Hrun.
  split; [reflexivity|].
  rewrite <- Hdims, Hl in Hno. cbn [map] in Hno.
  rewrite last_cons in Hno. destruct (last (map MLPLayer.n_nodes ls)) as [d|];
    inversion Hno; subst; exact Hshape.
Qed.

(** ** Arrays given as [inputs] *)

Lemma net_ok_weights_ok wb (h : heap R) (net : t R) :
  net_ok_at wb h net -> weights_ok_at wb h net.
Proof.
  intros (l0 & ls & Hl & Hdims & Hnl & Hni & Hno & Hnw & Hw & HW & Hout & Hw0 & _ & Hch & Hlk & _).
  exists l0, ls. repeat (split; [assumption|]).
  split; [exists (NdArray None wb 0 [n_weights net]); repeat split; [exact Hw | simpl; lia]|].
  split; [exact HW|].
  split; [eapply Forall_impl; [exact Hout|]; intros l Hlo; apply Hlo|].
  auto.
Qed.

(** An array that is not two-dimensional is not one of the weight views,
    so giving it another shape leaves the views as they are. *)
Lemma views_chain_reshape (h : heap R) wref wb r o o' (ls : list (MLPLayer.t R)) :
  objs h !! r = Some o -> length (nd_shape o) <> 2 ->
  forall first prev,
    views_chain h wref wb first prev ls ->
    views_chain (Heap (bufs h) (<[r := o']> (objs h))) wref wb first prev ls.
Proof.
  intros Ho Hrank. induction ls as [|l ls IH]; intros first prev; cbn [views_chain]; [auto|].
  intros [(v & Hw & Hv) Hrest]. split; [|apply IH; exact Hrest].
  exists v. split; [exact Hw|]. cbn [objs]. rewrite list_lookup_insert_ne; [exact Hv|].
  intros E. subst v. assert (Some o = Some (NdArray (Some wref) wb first
                                         [MLPLayer.n_nodes l; prev + 1])) as E2
    by (rewrite <- Ho; exact Hv).
  inversion E2 as [E3]. rewrite E3 in Hrank. cbn in Hrank. lia.
Qed.

Lemma weights_ok_reshape wb (h : heap R) (net : t R) r o shape :
  weights_ok_at wb h net ->
  objs h !! r = Some o -> length (nd_shape o) <> 2 ->
  size_of shape = size_of (nd_shape o) ->
  weights_ok_at wb
    (Heap (bufs h) (<[r := NdArray (nd_base o) (nd_buf o) (nd_off o) shape]> (objs h))) net.
Proof.
  intros (l0 & ls & Hl & Hdims & Hnl & Hni & Hno & Hnw & (ow & How & Hbw & Hoffw & Hsw) & HW
          & Hout & Hw0 & Hch & Hlk) Ho Hrank Hsize.
  exists l0, ls. repeat (split; [assumption|]).
  split; [|split; [exact HW|split; [exact Hout|split; [exact Hw0|split; [|exact Hlk]]]]].
  - cbn [objs]. destruct (decide (weights net = r)) as [E|E].
    + rewrite E in How |- *. pose proof (eq_trans (eq_sym How) Ho) as Eo.
      inversion Eo; subst ow.
      eexists. split; [apply list_lookup_insert_eq; eapply lookup_lt_Some; exact Ho|].
      cbn [nd_buf nd_off nd_shape]. repeat split; [assumption | assumption | congruence].
    + exists ow. rewrite list_lookup_insert_ne by congruence. auto.
  - apply (views_chain_reshape h _ _ r o); assumption.
Qed.

Lemma weights_arg_reshape (h : heap R) (net : t R) warg W r o shape :
  weights_arg h net warg W -> warg <> Some r ->
  objs h !! r = Some o -> size_of shape = size_of (nd_shape o) ->
  weights_arg
    (Heap (bufs h) (<[r := NdArray (nd_base o) (nd_buf o) (nd_off o) shape]> (objs h)))
    net warg W.
Proof.
  intros [W' Hread | w o' buf Ho' Hs Hb Hlen] Hne Ho Hsize.
  - destruct (read_flat_inv _ _ _ _ Hread) as (ow & buf & How & Hb & ->).
    apply weights_own. destruct (decide (weights net = r)) as [E|E].
    + rewrite E in How |- *. pose proof (eq_trans (eq_sym How) Ho) as Eo.
      inversion Eo; subst ow.
      rewrite <- Hsize.
      apply (read_flat_run _ r (NdArray (nd_base o) (nd_buf o) (nd_off o) shape) buf);
        [cbn [objs]; apply list_lookup_insert_eq; eapply lookup_lt_Some; exact Ho | exact Hb].
    + apply read_flat_run; [|exact Hb]. cbn [objs].
      rewrite list_lookup_insert_ne by congruence. exact How.
  - apply (weights_given _ net w o' buf); [|assumption..]. cbn [objs].
    rewrite list_lookup_insert_ne; [exact Ho'|]. intros <-. apply Hne. reflexivity.
Qed.

(** [get_theta] and the values of what it returns, from the part of the
    invariant that it relies on. *)
Lemma theta_values_weak (net : t R) (h : heap R) wb warg W l0 ls :
  weights_ok_at wb h net -> weights_arg h net warg W -> layers net = l0 :: ls ->
  exists os theta,
    get_theta net warg h = (Heap (bufs h) (objs h ++ os), Ok theta) /\
    read_theta theta (Heap (bufs h) (objs h ++ os))
    = (Heap (bufs h) (objs h ++ os),
       Ok (None :: map (fun l => Some l.1.1) (layers_of net W))) /\
    layers_match (MLPLayer.n_nodes l0) ls (layers_of net W).
Proof.
  intros Hok Harg Hl.
  destruct Hok as (l0' & ls' & Hl' & Hdims & Hnl & Hni & Hno & Hnw
                   & (ow & How & Hbw & Hoffw & Hsw) & (W0 & HW0 & HlW0)
                   & Hout & Hw0 & Hviews & Hlinks).
  rewrite Hl in Hl'. inversion Hl'; subst l0' ls'. clear Hl'.
  assert (dimensions net = MLPLayer.n_nodes l0 :: map MLPLayer.n_nodes ls) as Hd
    by (rewrite <- Hdims, Hl; reflexivity).
  assert (Forall (fun l => MLPLayer.n_outputs l = MLPLayer.n_nodes l + 1) ls) as Hno'
    by (rewrite Hl in Hout; inversion Hout; assumption).
  assert (n_weights net = sum_list (block_sizes (MLPLayer.n_nodes l0) (map MLPLayer.n_nodes ls)))
    as Hsum by (rewrite Hnw, Hd; reflexivity).
  unfold layers_of. rewrite Hl, Hd. cbn [drop blocks].
  inversion Harg as [W' Hread | w o buf Ho Hs Hb Hlen]; subst.
  - exists [], (None :: map MLPLayer.weights ls).
    rewrite app_nil_r. replace (Heap (bufs h) (objs h)) with h by (destruct h; reflexivity).
    rewrite (read_flat_run h _ _ W0 How HW0), Hoffw, Hsw in Hread.
    rewrite drop_0 in Hread. inversion Hread as [HW]. clear Hread.
    rewrite take_ge by lia.
    destruct (views_chain_refs _ _ _ _ _ _ Hviews) as (refs & Hmap & Hchain).
    split; [unfold get_theta; rewrite Hl; cbn [map]; rewrite Hw0; reflexivity|].
    split.
    + rewrite Hmap. cbn [read_theta].
      rewrite (run_bind_ok _ _ _ _ _ (read_chain h _ _ W0 _ HW0 _ _ _ Hchain)).
      rewrite drop_0, zip_with_blocks by (rewrite carve_length, length_map; reflexivity).
      reflexivity.
    + apply (carve_match ls _ 0); [lia | exact Hlinks | exact Hno'].
  - destruct (get_theta_loop net w o _ _ ls h 1 [None] 0 0 (MLPLayer.n_nodes l0) Ho Hs Hviews
                ltac:(lia)) as (os & refs & Hrun & Hchain).
    exists os, (None :: map Some refs).
    assert (length (take (n_weights net) (drop (nd_off o) buf)) = n_weights net) as HlW
      by (rewrite length_take, length_drop; lia).
    split; [|split].
    + unfold get_theta. rewrite (run_bind_ok _ _ _ _ _ (run_get_shape h w o Ho)), Hs.
      rewrite bool_decide_eq_true_2 by reflexivity. cbn [negb].
      rewrite Hl. cbn [drop]. rewrite (run_bind_ok _ _ _ _ _ Hrun). reflexivity.
    + cbn [read_theta].
      assert (bufs (Heap (bufs h) (objs h ++ os)) !! nd_buf o = Some buf) as Hb' by exact Hb.
      rewrite (run_bind_ok _ _ _ _ _ (read_chain _ _ _ buf _ Hb' _ _ _ Hchain)).
      rewrite Nat.add_0_r, carve_take by lia.
      rewrite zip_with_blocks by (rewrite carve_length, length_map; reflexivity).
      reflexivity.
    + apply (carve_match ls _ 0); [lia | exact Hlinks | exact Hno'].
Qed.

(** [predict] once [inputs] is the two-dimensional array [i], whatever has
    become of the shapes of the other arrays. *)
Lemma predict_tail_run_weak (net : t R) (h : heap R) wb warg W i o buf m c X :
  weights_ok_at wb h net -> weights_arg h net warg W ->
  objs h !! i = Some o -> nd_shape o = [m; c] -> bufs h !! nd_buf o = Some buf ->
  reshape2 m c (take (m * c) (drop (nd_off o) buf)) = X ->
  has_shape X m (n_inputs net) ->
  exists os,
    predict_tail net i warg h
    = (Heap (bufs h) (objs h ++ os), Ok (Mtx (predicted X (map fst (layers_of net W))))) /\
    has_shape (predicted X (map fst (layers_of net W))) m (n_outputs net).
Proof.
  intros Hok Harg Ho Hs Hb HX0 HX.
  assert (Hok' := Hok).
  destruct Hok' as (l0 & ls & Hl & Hdims & Hnl & Hni & Hno & _).
  destruct (theta_values_weak net h wb warg W l0 ls Hok Harg Hl)
    as (os & theta & Hget & Hread & Hm).
  exists os. unfold predict_tail.
  rewrite (run_bind_ok _ _ _ _ _ (run_get_shape h i o Ho)), Hs.
  rewrite (run_bind_lift_ok _ _ _ m eq_refl).
  rewrite (run_bind_ok _ _ _ _ _ Hget), (run_bind_ok _ _ _ _ _ Hread).
  set (h' := Heap _ _).
  assert (objs h' !! i = Some o) as Ho' by (apply lookup_app_l_Some; exact Ho).
  rewrite (run_bind_ok _ _ _ _ _ (read2_run h' i o m c buf Ho' Hs Hb)).
  rewrite HX0, Hl. cbn [drop]. rewrite Hni in HX.
  destruct (predict_loop m ls (layers_of net W) [None] (MLPLayer.n_nodes l0) X Hm HX)
    as [Hrun Hshape].
  cbn [length app] in Hrun. change (drop 0 ls) with ls. rewrite lift_run, Hrun.
  split; [reflexivity|].
  rewrite <- Hdims, Hl in Hno. cbn [map] in Hno.
  rewrite last_cons in Hno. destruct (last (map MLPLayer.n_nodes ls)) as [d|];
    inversion Hno; subst; exact Hshape.
Qed.

(** C9, as the code has it.  Whatever the rank of the input, [predict]
    returns a two-dimensional array: for one example, given as a flat list
    of [n_inputs] numbers or as a numpy array of one dimension, a matrix
    of one row and [n_outputs] columns, never a one-dimensional vector;
    for a batch of [m] rows, given as a list of rows or as a numpy array of
    two dimensions, an [m x n_outputs] matrix.  Its entries are those of
    [predicted]: the layers applied one after the other to the rows of the
    input.  The array given may be any array of the heap, the network's
    own arrays among them; a one-dimensional one must only not be the
    array given as [weights]. *)
Theorem predict_returns_a_matrix (net : t R) (h : heap R) inp warg W (X : matrix R) :
  reachable net h -> weights_arg h net warg W ->
  predict_input h warg inp X -> ncols X = n_inputs net ->
  exists h',
    predict net inp warg h = (h', Ok (Mtx (predicted X (map fst (layers_of net W))))) /\
    has_shape (predicted X (map fst (layers_of net W))) (nrows X) (n_outputs net).
Proof.
  intros Hreach Harg Hinp Hc. apply reachable_net_ok in Hreach. destruct Hreach as [wb Hok].
  destruct Hinp as [inp X Hin | r o buf n Ho Hs Hb Hlen Hne | r o buf m c Ho Hs Hb Hlen].
  {
    rewrite predict_unfold.
    destruct Hin as [x | r0 rest Hrect]; cbn [ncols] in Hc; cbn [np_asarray].
    - set (i := length (objs h)).
      set (h2 := Heap (bufs h ++ [x]) (objs h ++ [NdArray None (length (bufs h)) 0 [1; length x]])).
      assert (net_ok h2 net) as Hok2
        by (exists wb; eapply net_ok_at_evolves; [apply extends_evolves | exact Hok]).
      assert (objs h2 !! i = Some (NdArray None (length (bufs h)) 0 [1; length x])) as Hi
        by apply lookup_at_end.
      assert (bufs h2 !! length (bufs h) = Some x) as Hb by apply lookup_at_end.
      assert (Forall (fun r => length r = length x) [x]) as Hrows
        by (constructor; [reflexivity | constructor]).
      destruct (predict_tail_run net h2 warg W i _ x 1 (length x) (Mat (length x) [x]) Hok2
                  (weights_arg_extends h _ _ net warg W Harg) Hi eq_refl Hb) as (os & Hrun & Hshape).
      { cbn [nd_off]. rewrite drop_0, Nat.mul_1_l, firstn_all.
        rewrite <- (reshape2_rows _ _ Hrows). cbn [concat length]. rewrite app_nil_r. reflexivity. }
      { split; [reflexivity|]. split; [exact Hc | exact Hrows]. }
      eexists. split; [|exact Hshape].
      unfold new_array at 1. unfold mbind at 1, M_bind at 1. fold i.
      unfold predict_on.
      set (h1 := Heap (bufs h ++ [x]) (objs h ++ [NdArray None (length (bufs h)) 0 [length x]])).
      assert (objs h1 !! i = Some (NdArray None (length (bufs h)) 0 [length x])) as Hi1
        by apply lookup_at_end.
      rewrite (run_bind_ok _ _ _ _ _ (run_get_shape h1 i _ Hi1)). cbn [nd_shape].
      rewrite (run_bind_ok _ _ _ _ _
                 (set_shape_run h1 i _ [1; length x] Hi1 ltac:(simpl; lia))).
      unfold h1. cbn [bufs objs nd_base nd_buf nd_off]. unfold i. rewrite insert_at_end.
      exact Hrun.
    - assert (Forall (fun r => length r = length r0) (r0 :: rest)) as Hrows.
      { constructor; [reflexivity|]. apply Forall_forall. intros r Hr.
        rewrite forallb_forall in Hrect. apply Nat.eqb_eq, Hrect.
        apply list_elem_of_In. exact Hr. }
      rewrite Hrect.
      set (i := length (objs h)).
      set (h2 := Heap (bufs h ++ [concat (r0 :: rest)])
                      (objs h ++ [NdArray None (length (bufs h)) 0 [S (length rest); length r0]])).
      assert (net_ok h2 net) as Hok2
        by (exists wb; eapply net_ok_at_evolves; [apply extends_evolves | exact Hok]).
      assert (objs h2 !! i
              = Some (NdArray None (length (bufs h)) 0 [S (length rest); length r0])) as Hi
        by apply lookup_at_end.
      assert (bufs h2 !! length (bufs h) = Some (concat (r0 :: rest))) as Hb
        by apply lookup_at_end.
      pose proof (concat_length _ _ Hrows) as Hlen. cbn [length] in Hlen.
      destruct (predict_tail_run net h2 warg W i _ _ (S (length rest)) (length r0)
                  (Mat (length r0) (r0 :: rest)) Hok2
                  (weights_arg_extends h _ _ net warg W Harg) Hi eq_refl Hb) as (os & Hrun & Hshape).
      { cbn [nd_off]. rewrite drop_0, take_ge by lia.
        apply (reshape2_rows _ _ Hrows). }
      { split; [reflexivity|]. split; [exact Hc | exact Hrows]. }
      eexists. split; [|exact Hshape].
      unfold new_array at 1. unfold mbind at 1, M_bind at 1. fold i.
      unfold predict_on. fold h2.
      rewrite (run_bind_ok _ _ _ _ _ (run_get_shape h2 i _ Hi)). cbn [nd_shape].
      rewrite (run_bind_ok _ _ _ _ _ (run_ret tt h2)). exact Hrun.
  }
  - (* a one-dimensional array: it is given the shape (1, n) in place *)
    rewrite predict_unfold. cbn [np_asarray]. rewrite (run_bind_ok _ _ _ _ _ (run_ret r h)).
    unfold predict_on.
    rewrite (run_bind_ok _ _ _ _ _ (run_get_shape h r o Ho)), Hs.
    assert (size_of [1; n] = size_of (nd_shape o)) as Hsize by (rewrite Hs; simpl; lia).
    rewrite (run_bind_ok _ _ _ _ _ (set_shape_run h r o [1; n] Ho Hsize)).
    set (o2 := NdArray (nd_base o) (nd_buf o) (nd_off o) [1; n]).
    set (h2 := Heap (bufs h) (<[r := o2]> (objs h))).
    assert (length (nd_shape o) <> 2) as Hrank by (rewrite Hs; cbn; lia).
    pose proof (weights_ok_reshape wb h net r o [1; n] (net_ok_weights_ok wb h net Hok)
                  Ho Hrank Hsize) as Hok2.
    pose proof (weights_arg_reshape h net warg W r o [1; n] Harg Hne Ho Hsize) as Harg2.
    fold o2 in Hok2, Harg2. fold h2 in Hok2, Harg2.
    assert (objs h2 !! r = Some o2) as Ho2
      by (apply list_lookup_insert_eq; eapply lookup_lt_Some; exact Ho).
    cbn [ncols] in Hc.
    assert (Forall (fun row => length row = n) [take n (drop (nd_off o) buf)]) as Hrows.
    { constructor; [|constructor]. rewrite length_take, length_drop. lia. }
    destruct (predict_tail_run_weak net h2 wb warg W r o2 buf 1 n
                (Mat n [take n (drop (nd_off o) buf)]) Hok2 Harg2 Ho2 eq_refl Hb)
      as (os & Hrun & Hshape).
    { cbn [o2 nd_off]. rewrite Nat.mul_1_l.
      rewrite <- (reshape2_rows _ _ Hrows). cbn [concat length]. rewrite app_nil_r.
      reflexivity. }
    { split; [reflexivity|]. split; [exact Hc | exact Hrows]. }
    eexists. split; [exact Hrun | exact Hshape].
  - (* a two-dimensional array is used as it is *)
    rewrite predict_unfold. cbn [np_asarray]. rewrite (run_bind_ok _ _ _ _ _ (run_ret r h)).
    unfold predict_on.
    rewrite (run_bind_ok _ _ _ _ _ (run_get_shape h r o Ho)), Hs.
    rewrite (run_bind_ok _ _ _ _ _ (run_ret tt h)).
    assert (has_shape (reshape2 m c (take (m * c) (drop (nd_off o) buf))) m c) as HX
      by (apply shape_reshape2; rewrite length_take, length_drop; lia).
    cbn [ncols reshape2] in Hc.
    destruct (predict_tail_run net h warg W r o buf m c _
                (ex_intro _ wb Hok) Harg Ho Hs Hb eq_refl) as (os & Hrun & Hshape).
    { rewrite <- Hc. exact HX. }
    destruct HX as (-> & _). eexists. split; [exact Hrun | exact Hshape].
Qed.
End PredictValue.

Lemma reachable_heap21_args : reachable net21 heap21_args.
Proof.
  unfold heap21_args.
  apply (reach_step net21 (ANewArray [2] [0.5; 2]%float)).
  apply (reach_step net21 (ANewArray [3] [1; 2; 3]%float)).
  exact (reach_init net21 [2; 1] (Callable linear) (Callable linear_gradient) NameMse
           (Heap [] []) heap21 built21_ok).
Qed.

(** The example [(0.5, 2)] given as the numpy array [np.array([0.5, 2.])]
    of one dimension, with the weights [np.array([1., 2., 3.])]: the
    result has the shape [(1, 1)]. *)
Lemma predict_returns_a_matrix_witness :
  exists h',
    MLPNetwork.predict net21 (NdArr 7) (Some 6) heap21_args
    = (h', Ok (Mtx (predicted
                      (Mat 2 [take 2 (drop (nd_off (NdArray None 4 0 [2])) [0.5; 2]%float)])
                      (map fst (layers_of net21
                                  (take (MLPNetwork.n_weights net21)
                                        (drop (nd_off (NdArray None 3 0 [3]))
                                              [1; 2; 3]%float))))))) /\
    has_shape (predicted
                 (Mat 2 [take 2 (drop (nd_off (NdArray None 4 0 [2])) [0.5; 2]%float)])
                 (map fst (layers_of net21
                             (take (MLPNetwork.n_weights net21)
                                   (drop (nd_off (NdArray None 3 0 [3]))
                                         [1; 2; 3]%float)))))
              (nrows (Mat 2 [take 2 (drop (nd_off (NdArray None 4 0 [2])) [0.5; 2]%float)]))
              (MLPNetwork.n_outputs net21).
Proof.
  apply (predict_returns_a_matrix net21 heap21_args (NdArr 7) (Some 6)).
  - exact reachable_heap21_args.
  - apply (weights_given heap21_args net21 6 (NdArray None 3 0 [3]) [1; 2; 3]%float);
      vm_compute; first [reflexivity | lia].
  - apply (input_vector heap21_args (Some 6) 7 (NdArray None 4 0 [2]) [0.5; 2]%float 2);
      [vm_compute; reflexivity | reflexivity | vm_compute; reflexivity | vm_compute; lia
      | discriminate].
  - reflexivity.
Defined.

(** One example, [predict([0.5, 2.0], weights)], on the network with two
    inputs and one output: the result is the two-dimensional array
    [[[8.0]]] of shape [(1, 1)], not a one-dimensional vector; and so it
    is when the example is the numpy array [np.array([0.5, 2.])]. *)
Lemma predict_one_example_is_two_dimensional :
  ((MLPNetwork.predict net21 (PyList [0.5; 2]%float) (Some 6) heap21_args).2
   = Ok (Mtx (Mat 1 [[8%float]])) /\
   forall v, (MLPNetwork.predict net21 (PyList [0.5; 2]%float) (Some 6) heap21_args).2
             <> Ok (Vec v)) /\
  ((MLPNetwork.predict net21 (NdArr 7) (Some 6) heap21_args).2
   = Ok (Mtx (Mat 1 [[8%float]])) /\
   forall v, (MLPNetwork.predict net21 (NdArr 7) (Some 6) heap21_args).2 <> Ok (Vec v)).
Proof.
  assert ((MLPNetwork.predict net21 (PyList [0.5; 2]%float) (Some 6) heap21_args).2
          = Ok (Mtx (Mat 1 [[8%float]]))) as E by (vm_compute; reflexivity).
  assert ((MLPNetwork.predict net21 (NdArr 7) (Some 6) heap21_args).2
          = Ok (Mtx (Mat 1 [[8%float]]))) as E' by (vm_compute; reflexivity).
  split; (split; [assumption|]); intros v; [rewrite E | rewrite E']; discriminate.
Qed.

(* ===================================================================== *)
(** * The forward pass and the cost *)
(* ===================================================================== *)

Section ForwardPass.
Context {R : Type} `{Scalar R}.
Import MLPNetwork.

Lemma for_each_app {X S} (f : X -> S -> res S) (l1 l2 : list X) : forall s,
  for_each f (l1 ++ l2) s = for_each f l1 s ≫= for_each f l2.
Proof.
  induction l1 as [|x l1 IH]; intros s; [reflexivity|].
  cbn [app for_each]. destruct (f x s) as [s'|e]; [|reflexivity].
  rewrite !res_bind_ok. apply IH.
Qed.

Lemma py_setitem_middle {X} (front : list X) (x y : X) (rest : list X) :
  py_setitem (front ++ x :: rest) (length front) y = Ok (front ++ y :: rest).
Proof.
  unfold py_setitem. rewrite length_app. cbn [length].
  replace (length front <? length front + S (length rest)) with true
    by (symmetry; apply Nat.ltb_lt; lia).
  rewrite insert_middle, <- app_assoc. reflexivity.
Qed.

(** One turn of the forward loop. *)
Lemma forward_step_run (self : t R) m pre W rest (l : MLPLayer.t R) g prev a_prev
    frontA tailA frontZ tailZ :
  has_shape W (MLPLayer.n_nodes l) (prev + 1) -> MLPLayer.act_func l = Some g ->
  has_shape a_prev m (prev + 1) ->
  S (length frontA) = length pre -> length frontZ = length pre ->
  forward_step self m (pre ++ Some W :: rest) (length pre, l)
               (frontA ++ Some a_prev :: None :: tailA, frontZ ++ None :: tailZ)
  = Ok (frontA ++ Some a_prev
          :: Some (if length pre =? n_layers self - 1
                   then mmap g (mdot a_prev (transpose W))
                   else bias_augment (mmap g (mdot a_prev (transpose W))))
          :: tailA,
        frontZ ++ Some (mdot a_prev (transpose W)) :: tailZ) /\
  has_shape (mdot a_prev (transpose W)) m (MLPLayer.n_nodes l).
Proof.
  intros HW Hact Ha HlA HlZ.
  assert (has_shape (mdot a_prev (transpose W)) m (MLPLayer.n_nodes l)) as HZ.
  { destruct (shape_mdot a_prev (transpose W)) as (Hr & Hc & Hwf).
    split; [|split]; [rewrite Hr; apply Ha | | exact Hwf].
    rewrite Hc. destruct (shape_transpose W) as (_ & -> & _). apply HW. }
  split; [|exact HZ]. unfold forward_step.
  replace (length pre - 1) with (length frontA) by lia.
  rewrite !item_after, !res_bind_ok.
  rewrite np_dot_ok
    by (destruct Ha as (_ & -> & _), HW as (_ & HcW & _), (shape_transpose W) as (-> & _);
        symmetry; exact HcW).
  rewrite res_bind_ok, <- HlZ. rewrite py_setitem_middle, res_bind_ok.
  unfold call. rewrite Hact, res_bind_ok.
  assert (length (frontA ++ [Some a_prev]) = length frontZ) as HlA'
    by (rewrite length_snoc; lia).
  replace (frontA ++ Some a_prev :: None :: tailA)
    with ((frontA ++ [Some a_prev]) ++ None :: tailA) by (rewrite <- app_assoc; reflexivity).
  rewrite <- HlA'.
  destruct (_ =? _).
  - rewrite py_setitem_middle, res_bind_ok, <- app_assoc. reflexivity.
  - rewrite (hstack_ones _ m) by (apply shape_mmap with (c := MLPLayer.n_nodes l), HZ).
    rewrite res_bind_ok, py_setitem_middle, res_bind_ok, <- app_assoc. reflexivity.
Qed.

(** The forward loop computes [forward_layers]: [Z[j]] and [A[j]] for
    every layer after the input layer. *)
Lemma forward_loop (self : t R) m (ls : list (MLPLayer.t R)) :
  forall lsp pre prev a_prev frontA frontZ,
    layers_match prev ls lsp -> has_shape a_prev m (prev + 1) ->
    S (length frontA) = length pre -> length frontZ = length pre ->
    n_layers self = length pre + length ls ->
    for_each (forward_step self m (pre ++ map (fun l => Some l.1.1) lsp))
             (enumerate (length pre) ls)
             (frontA ++ Some a_prev :: replicate (length ls) None,
              frontZ ++ replicate (length ls) None)
    = Ok (frontA ++ Some a_prev
            :: map (fun za => Some za.2) (forward_layers a_prev (map fst lsp)),
          frontZ ++ map (fun za => Some za.1) (forward_layers a_prev (map fst lsp))).
Proof.
  induction ls as [|l ls IH]; intros [|[[W g] g'] lsp] pre prev a_prev frontA frontZ
                                     Hm Ha HlA HlZ Hn;
    cbn [layers_match] in Hm; try contradiction; [reflexivity|].
  destruct Hm as (HW & Hno & Hact & Hgrad & Hm).
  rewrite enumerate_cons. cbn [for_each map fst snd length replicate forward_layers].
  destruct (forward_step_run self m pre W (map (fun l => Some l.1.1) lsp) l g prev a_prev
              frontA (replicate (length ls) None) frontZ (replicate (length ls) None)
              HW Hact Ha HlA HlZ) as [-> HZ].
  rewrite res_bind_ok. cbn [length] in Hn.
  destruct ls as [|l' ls]; destruct lsp as [|[[W' h'] h''] lsp];
    cbn [layers_match] in Hm; try contradiction.
  - replace (length pre =? n_layers self - 1) with true
      by (symmetry; apply Nat.eqb_eq; cbn [length] in Hn; lia).
    reflexivity.
  - replace (length pre =? n_layers self - 1) with false
      by (symmetry; apply Nat.eqb_neq; cbn [length] in Hn; lia).
    set (Zj := mdot a_prev (transpose W)) in *. set (Aj := bias_augment (mmap g Zj)).
    set (ls2 := l' :: ls) in *. set (lsp2 := (W', h', h'') :: lsp) in *.
    change (map fst lsp2) with ((W', h') :: map fst lsp).
    cbv iota.
    change ((W', h') :: map fst lsp) with (map fst lsp2).
    specialize (IH lsp2 (pre ++ [Some W]) (MLPLayer.n_nodes l) Aj
                   (frontA ++ [Some a_prev]) (frontZ ++ [Some Zj]) Hm).
    rewrite !length_snoc, <- !app_assoc in IH. cbn [app] in IH.
    rewrite IH; [reflexivity | | lia | lia | lia].
    apply shape_bias, shape_mmap. exact HZ.
Qed.
End ForwardPass.

Section CostValue.
Context {R : Type} `{Scalar R}.
Import MLPNetwork.

Lemma default_last_cons {X} (a x : X) (l : list X) :
  default a (last (x :: l)) = default x (last l).
Proof. rewrite last_cons. destruct (last l); reflexivity. Qed.

Lemma last_item_some {X Y} e (f : Y -> X) (l : list Y) (a : X) :
  last_item e (Some a :: map (fun y => Some (f y)) l) = Ok (default a (last (map f l))).
Proof.
  unfold last_item. rewrite last_cons.
  replace (map (fun y => Some (f y)) l) with (Some <$> map f l)
    by (rewrite <- list_fmap_compose; reflexivity).
  rewrite fmap_last. destruct (last (map f l)); reflexivity.
Qed.

(** The shapes of what the forward pass computes. *)
Lemma forward_layers_shapes m (ls : list (MLPLayer.t R)) : forall lsp prev a_prev,
  layers_match prev ls lsp -> has_shape a_prev m (prev + 1) ->
  Forall2 (fun Z l => has_shape Z m (MLPLayer.n_nodes l))
          (map fst (forward_layers a_prev (map fst lsp))) ls /\
  fed m prev ls (a_prev :: map snd (forward_layers a_prev (map fst lsp))) /\
  (ls <> [] ->
   has_shape (default a_prev (last (map snd (forward_layers a_prev (map fst lsp)))))
             m (default prev (last (map MLPLayer.n_nodes ls)))).
Proof.
  induction ls as [|l ls IH]; intros [|[[W g] g'] lsp] prev a_prev Hm Ha;
    cbn [layers_match] in Hm; try contradiction.
  - split; [constructor|]. split; [exact I|]. intros Hne. contradiction.
  - destruct Hm as (HW & Hno & Hact & Hgrad & Hm).
    cbn [map fst snd forward_layers].
    assert (has_shape (mdot a_prev (transpose W)) m (MLPLayer.n_nodes l)) as HZ.
    { destruct (shape_mdot a_prev (transpose W)) as (Hr & Hc & Hwf).
      split; [|split]; [rewrite Hr; apply Ha | | exact Hwf].
      rewrite Hc. destruct (shape_transpose W) as (_ & -> & _). apply HW. }
    set (Zj := mdot a_prev (transpose W)) in *.
    rewrite default_last_cons, (default_last_cons prev).
    destruct ls as [|l' ls]; destruct lsp as [|[[W' h'] h''] lsp];
      cbn [layers_match] in Hm; try contradiction.
    + cbn. split; [constructor; [exact HZ | constructor]|].
      split; [split; [exact Ha | exact I]|].
      intros _. apply shape_mmap. exact HZ.
    + set (ls2 := l' :: ls) in *. set (lsp2 := (W', h', h'') :: lsp) in *.
      change (map fst lsp2) with ((W', h') :: map fst lsp). cbv iota.
      change ((W', h') :: map fst lsp) with (map fst lsp2).
      assert (has_shape (bias_augment (mmap g Zj)) m (MLPLayer.n_nodes l + 1)) as HA
        by (apply shape_bias, shape_mmap; exact HZ).
      destruct (IH lsp2 (MLPLayer.n_nodes l) _ Hm HA) as (IHZ & IHfed & IHlast).
      split; [constructor; [exact HZ | exact IHZ]|].
      split; [split; [exact Ha | exact IHfed]|].
      intros _. apply IHlast. discriminate.
Qed.

Lemma regularize_loop m lam (ls : list (MLPLayer.t R)) : forall lsp pre prev J,
  layers_match prev ls lsp ->
  for_each (regularize_step m (pre ++ map (fun l => Some l.1.1) lsp) lam)
           (enumerate (length pre) ls) J
  = Ok (regularized m lam (map fst (map fst lsp)) J).
Proof.
  induction ls as [|l ls IH]; intros [|[[W g] g'] lsp] pre prev J Hm;
    cbn [layers_match] in Hm; try contradiction; [reflexivity|].
  destruct Hm as (_ & _ & _ & _ & Hm).
  rewrite enumerate_cons. cbn [for_each map fst snd].
  assert (regularize_step m (pre ++ Some W :: map (fun l => Some l.1.1) lsp) lam
                          (length pre, l) J
          = Ok (J + lam * msum (msquare (drop_col0 W)) / (f2 * of_int (Z.of_nat m)))%F) as ->
    by (unfold regularize_step; rewrite item_after; reflexivity).
  rewrite res_bind_ok. unfold regularized. cbn [fold_left].
  rewrite theta_shift, <- (length_snoc pre (Some W)). apply (IH _ _ _ _ Hm).
Qed.

(** ** One call of a cost function, from [theta] on *)

Variables (self : t R) (l0 : MLPLayer.t R) (ls : list (MLPLayer.t R)).
Variables (lsp : list (matrix R * (R -> R) * (R -> R))) (X y : matrix R).
Hypothesis Hlayers : layers self = l0 :: ls.
Hypothesis Hcount : n_layers self = S (length ls).
Hypothesis Hmatch : layers_match (MLPLayer.n_nodes l0) ls lsp.
Hypothesis HX : has_shape X (nrows X) (MLPLayer.n_nodes l0).
Hypothesis Hy :
  has_shape y (nrows X)
            (match ls with
             | [] => MLPLayer.n_nodes l0 + 1
             | _ => default (MLPLayer.n_nodes l0) (last (map MLPLayer.n_nodes ls))
             end).

Lemma forward_run :
  forward self X (None :: map (fun l => Some l.1.1) lsp)
  = Ok (Some (bias_augment X)
          :: map (fun za => Some za.2) (forward_layers (bias_augment X) (map fst lsp)),
        None :: map (fun za => Some za.1) (forward_layers (bias_augment X) (map fst lsp))).
Proof.
  unfold forward. rewrite (hstack_ones X (nrows X)) by reflexivity. rewrite res_bind_ok.
  rewrite Hcount. cbn [replicate]. unfold py_setitem at 1. cbn [length Nat.ltb Nat.leb].
  rewrite res_bind_ok, Hlayers. cbn [drop]. change (drop 0 ls) with ls.
  apply (forward_loop self (nrows X) ls lsp [None] (MLPLayer.n_nodes l0) (bias_augment X)
           [] [None] Hmatch).
  - apply shape_bias. exact HX.
  - reflexivity.
  - reflexivity.
  - rewrite Hcount. reflexivity.
Qed.

Lemma final_activation_shape :
  has_shape (final_activation X (map fst lsp)) (nrows X)
            (match ls with
             | [] => MLPLayer.n_nodes l0 + 1
             | _ => default (MLPLayer.n_nodes l0) (last (map MLPLayer.n_nodes ls))
             end).
Proof.
  unfold final_activation.
  destruct (forward_layers_shapes (nrows X) ls lsp (MLPLayer.n_nodes l0) (bias_augment X)
              Hmatch (shape_bias X _ _ HX)) as (_ & _ & Hlast).
  destruct ls as [|l ls'].
  - destruct lsp; [|destruct Hmatch]. cbn. apply shape_bias. exact HX.
  - apply Hlast. discriminate.
Qed.

Lemma regularize_run lam J :
  regularize self (nrows X) (None :: map (fun l => Some l.1.1) lsp) lam J
  = Ok (if negb (feqb lam f0) then regularized (nrows X) lam (map fst (map fst lsp)) J else J).
Proof.
  unfold regularize. destruct (negb (feqb lam f0)); [|reflexivity].
  rewrite Hlayers. change (drop 1 (l0 :: ls)) with ls.
  apply (regularize_loop (nrows X) lam ls lsp [None] _ J Hmatch).
Qed.

(** Without the gradient, [cost_function_mse] returns [mse_cost]. *)
Lemma cost_mse_body_cost lam :
  cost_mse_body self X y (None :: map (fun l => Some l.1.1) lsp) lam false
  = Ok (Cost (mse_cost X y (map fst lsp) lam)).
Proof.
  unfold cost_mse_body. rewrite forward_run, res_bind_ok. cbn [fst snd].
  rewrite last_item_some, res_bind_ok. fold (final_activation X (map fst lsp)).
  unfold np_sub. rewrite (np_binop_ok _ _ _ _ _ final_activation_shape Hy), res_bind_ok.
  rewrite regularize_run, res_bind_ok. reflexivity.
Qed.
End CostValue.

(* ===================================================================== *)
(** * The reverse pass *)
(* ===================================================================== *)

Section ReversePass.
Context {R : Type} `{Scalar R}.
Import MLPNetwork.

(** One turn of the loop that carves [grad]. *)
Lemma grad_views_step_run (self : t R) front rest first (l prevl : MLPLayer.t R) prev :
  MLPLayer.n_outputs prevl = prev + 1 ->
  MLPLayer.n_outputs l = MLPLayer.n_nodes l + 1 ->
  first + MLPLayer.n_nodes l * (prev + 1) <= n_weights self ->
  grad_views_step self (length front, l) (front ++ None :: rest, first, prevl)
  = Ok (front ++ Some (Block first (MLPLayer.n_nodes l) (prev + 1)) :: rest,
        first + MLPLayer.n_nodes l * (prev + 1), l).
Proof.
  intros Hp Hl Hle. unfold grad_views_step. rewrite Hp, Hl.
  replace (MLPLayer.n_nodes l + 1 - 1) with (MLPLayer.n_nodes l) by lia.
  replace (first + (prev + 1) * MLPLayer.n_nodes l)
    with (first + MLPLayer.n_nodes l * (prev + 1)) by lia.
  replace (n_weights self <? first + MLPLayer.n_nodes l * (prev + 1)) with false
    by (symmetry; apply Nat.ltb_ge; lia).
  replace (MLPLayer.n_nodes l * (prev + 1)
           =? Nat.min (first + MLPLayer.n_nodes l * (prev + 1)) (n_weights self)
              - Nat.min first (n_weights self)) with true
    by (symmetry; apply Nat.eqb_eq; lia).
  cbn [negb]. rewrite py_setitem_middle. reflexivity.
Qed.

Lemma grad_views_loop (self : t R) (ls : list (MLPLayer.t R)) :
  forall lsp front first prevl prev,
    layers_match prev ls lsp ->
    MLPLayer.n_outputs prevl = prev + 1 ->
    first + sum_list (block_sizes prev (map MLPLayer.n_nodes ls)) <= n_weights self ->
    exists lastl,
      for_each (grad_views_step self) (enumerate (length front) ls)
               (front ++ replicate (length ls) None, first, prevl)
      = Ok (front ++ map Some (grad_blocks first prev (map MLPLayer.n_nodes ls)),
            first + sum_list (block_sizes prev (map MLPLayer.n_nodes ls)), lastl).
Proof.
  induction ls as [|l ls IH]; intros [|[[W g] g'] lsp] front first prevl prev Hm Hp Hle;
    cbn [layers_match] in Hm; try contradiction.
  - exists prevl. cbn. rewrite Nat.add_0_r. reflexivity.
  - destruct Hm as (_ & Hno & _ & _ & Hm).
    cbn [map block_sizes] in Hle. rewrite sum_list_cons in Hle.
    rewrite enumerate_cons. cbn [for_each length replicate map block_sizes grad_blocks].
    rewrite (grad_views_step_run self front _ first l prevl prev Hp Hno) by lia.
    rewrite res_bind_ok, sum_list_cons.
    destruct (IH lsp (front ++ [Some (Block first (MLPLayer.n_nodes l) (prev + 1))])
                 (first + MLPLayer.n_nodes l * (prev + 1)) l (MLPLayer.n_nodes l) Hm Hno)
      as [lastl Hrun]; [lia|].
    exists lastl. rewrite length_snoc, <- !app_assoc in Hrun. cbn [app] in Hrun.
    rewrite Hrun, Nat.add_assoc. reflexivity.
Qed.

(** Writing a block of the gradient through its view. *)
Lemma assign_block_run (done : list R) k first d c (value : matrix R) :
  length done = first -> has_shape value d c -> d * c <= k ->
  assign_block (done ++ replicate k f0) (Block first d c) value
  = Ok ((done ++ ravel value) ++ replicate (k - d * c) f0).
Proof.
  intros Hd Hv Hk. unfold assign_block. cbn [b_first b_rows b_cols].
  destruct Hv as (Hr & Hc & Hwf).
  rewrite (bool_decide_eq_true_2 _ Hr), (bool_decide_eq_true_2 _ Hc). cbn [orb andb].
  rewrite (broadcast_same value d c) by (repeat split; assumption).
  rewrite take_app_length' by (symmetry; exact Hd).
  rewrite drop_app_add' by (symmetry; exact Hd).
  rewrite drop_replicate, <- app_assoc. reflexivity.
Qed.

Lemma store_gradient_run m pre W rest preG restG lam first d p (delta_j : matrix R) done k :
  length preG = length pre -> length done = first ->
  has_shape W d (p + 1) -> has_shape delta_j d (p + 1) -> d * (p + 1) <= k ->
  store_gradient m (pre ++ Some W :: rest) (preG ++ Some (Block first d (p + 1)) :: restG)
                 lam (length pre) delta_j (done ++ replicate k f0)
  = Ok ((done ++ ravel (divide (mzip fadd delta_j (scale lam (zero_bias_column W)))
                               (of_int (Z.of_nat m))))
        ++ replicate (k - d * (p + 1)) f0).
Proof.
  intros HlG Hd HW Hdelta Hk. unfold store_gradient.
  rewrite item_after, res_bind_ok, hstack_zeros, res_bind_ok.
  unfold np_add.
  rewrite (np_binop_ok _ delta_j _ d (p + 1) Hdelta)
    by (apply shape_mmap, shape_zero_bias; exact HW).
  rewrite res_bind_ok, <- HlG, item_after, res_bind_ok.
  apply assign_block_run; [exact Hd | | exact Hk].
  apply shape_mmap, shape_mzip; [exact Hdelta|]. apply shape_mmap, shape_zero_bias. exact HW.
Qed.

Lemma delta_shape (s A_prev : matrix R) m d p :
  has_shape s m d -> has_shape A_prev m (p + 1) ->
  np_dot (transpose s) A_prev = Ok (mdot (transpose s) A_prev) /\
  has_shape (mdot (transpose s) A_prev) d (p + 1).
Proof.
  intros Hs Ha. destruct (shape_transpose s) as (Hr & Hc & _). split.
  - apply np_dot_ok. rewrite Hc. destruct Hs as (-> & _), Ha as (-> & _). reflexivity.
  - destruct (shape_mdot (transpose s) A_prev) as (Hr' & Hc' & Hwf).
    split; [|split]; [|  | exact Hwf].
    + rewrite Hr', Hr. apply Hs.
    + rewrite Hc'. apply Ha.
Qed.

(** One turn of the last loop, for either cost function. *)
Lemma delta_step_run (kind : cost_kind) m lam pre preS preZ preA preG W s Z A_prev
    rest restS restZ restA restG (l : MLPLayer.t R) g' prev first done k delta :
  length preS = length pre -> length preZ = length pre -> S (length preA) = length pre ->
  length preG = length pre -> length pre < length delta -> length done = first ->
  has_shape W (MLPLayer.n_nodes l) (prev + 1) ->
  has_shape s m (MLPLayer.n_nodes l) -> has_shape Z m (MLPLayer.n_nodes l) ->
  has_shape A_prev m (prev + 1) ->
  MLPLayer.grad_func l = Some g' ->
  MLPLayer.n_nodes l * (prev + 1) <= k ->
  exists delta',
    match kind with
    | Log => delta_step_log m (pre ++ Some W :: rest) (preA ++ Some A_prev :: restA)
               (preS ++ Some s :: restS)
               (preG ++ Some (Block first (MLPLayer.n_nodes l) (prev + 1)) :: restG) lam
    | Mse => delta_step_mse m (pre ++ Some W :: rest) (preA ++ Some A_prev :: restA)
               (preZ ++ Some Z :: restZ) (preS ++ Some s :: restS)
               (preG ++ Some (Block first (MLPLayer.n_nodes l) (prev + 1)) :: restG) lam
    end (length pre, l) (delta, done ++ replicate k f0)
    = Ok (delta',
          (done ++ ravel (gradient_block kind lam m s Z A_prev W g'))
          ++ replicate (k - MLPLayer.n_nodes l * (prev + 1)) f0) /\
    length delta' = length delta /\
    has_shape (gradient_block kind lam m s Z A_prev W g') (MLPLayer.n_nodes l) (prev + 1).
Proof.
  intros HlS HlZ HlA HlG Hlt Hd HW Hs HZ HA Hg Hk.
  assert (forall x, py_setitem delta (length pre) x = Ok (<[length pre := x]> delta)) as Hset.
  { intros x. unfold py_setitem.
    replace (length pre <? length delta) with true by (symmetry; apply Nat.ltb_lt; lia).
    reflexivity. }
  assert (forall D, has_shape D (MLPLayer.n_nodes l) (prev + 1) ->
            has_shape (divide (mzip fadd D (scale lam (zero_bias_column W)))
                              (of_int (Z.of_nat m))) (MLPLayer.n_nodes l) (prev + 1)) as Hblock.
  { intros D HD. apply shape_mmap, shape_mzip; [exact HD|].
    apply shape_mmap, shape_zero_bias. exact HW. }
  destruct kind.
  - assert (has_shape (mzip fmul s (mmap g' Z)) m (MLPLayer.n_nodes l)) as Hp
      by (apply shape_mzip; [exact Hs | apply shape_mmap; exact HZ]).
    destruct (delta_shape _ A_prev m _ prev Hp HA) as [Hdot Hshape].
    eexists. split; [|split; [apply length_insert | apply Hblock; exact Hshape]].
    unfold delta_step_mse. rewrite <- HlS at 1. rewrite item_after, res_bind_ok.
    rewrite <- HlZ at 1. rewrite item_after, res_bind_ok.
    unfold call. rewrite Hg, res_bind_ok. unfold np_mul.
    rewrite (np_binop_ok _ s _ m _ Hs) by (apply shape_mmap; exact HZ).
    rewrite res_bind_ok.
    replace (length pre - 1) with (length preA) by lia.
    rewrite item_after, res_bind_ok, Hdot, res_bind_ok, Hset, res_bind_ok.
    rewrite (store_gradient_run m pre W rest preG restG lam first _ prev _ done k
               HlG Hd HW Hshape Hk).
    reflexivity.
  - destruct (delta_shape s A_prev m _ prev Hs HA) as [Hdot Hshape].
    eexists. split; [|split; [apply length_insert | apply Hblock; exact Hshape]].
    unfold delta_step_log. rewrite <- HlS at 1. rewrite item_after, res_bind_ok.
    replace (length pre - 1) with (length preA) by lia.
    rewrite item_after, res_bind_ok, Hdot, res_bind_ok, Hset, res_bind_ok.
    rewrite (store_gradient_run m pre W rest preG restG lam first _ prev _ done k
               HlG Hd HW Hshape Hk).
    reflexivity.
Qed.

(** The last loop writes the gradient blocks one after the other. *)
Lemma delta_loop (kind : cost_kind) m lam (ls : list (MLPLayer.t R)) :
  forall lsp pre preS preZ preA preG sigmas Zs As done k delta prev,
    layers_match prev ls lsp ->
    Forall (fun l => is_Some (MLPLayer.grad_func l)) ls ->
    Forall2 (fun s l => has_shape s m (MLPLayer.n_nodes l)) sigmas ls ->
    Forall2 (fun Z l => has_shape Z m (MLPLayer.n_nodes l)) Zs ls ->
    fed m prev ls As ->
    length preS = length pre -> length preZ = length pre -> S (length preA) = length pre ->
    length preG = length pre -> length pre + length ls <= length delta ->
    sum_list (block_sizes prev (map MLPLayer.n_nodes ls)) <= k ->
    exists delta',
      for_each
        match kind with
        | Log => delta_step_log m (pre ++ map (fun l => Some l.1.1) lsp)
                   (preA ++ map Some As) (preS ++ map Some sigmas)
                   (preG ++ map Some (grad_blocks (length done) prev
                                        (map MLPLayer.n_nodes ls))) lam
        | Mse => delta_step_mse m (pre ++ map (fun l => Some l.1.1) lsp)
                   (preA ++ map Some As) (preZ ++ map Some Zs) (preS ++ map Some sigmas)
                   (preG ++ map Some (grad_blocks (length done) prev
                                        (map MLPLayer.n_nodes ls))) lam
        end
        (enumerate (length pre) ls) (delta, done ++ replicate k f0)
      = Ok (delta',
            (done ++ concat (map ravel
                               (gradient_blocks kind lam m sigmas Zs As
                                  (map (fun l => (l.1.1, l.2)) lsp))))
            ++ replicate (k - sum_list (block_sizes prev (map MLPLayer.n_nodes ls))) f0).
Proof.
  induction ls as [|l ls IH];
    intros [|[[W g] g'] lsp] pre preS preZ preA preG sigmas Zs As done k delta prev
           Hm Hgrad Hsig HZs Hfed HlS HlZ HlA HlG Hlen Hk;
    cbn [layers_match] in Hm; try contradiction.
  - exists delta. inversion Hsig; subst. cbn. rewrite app_nil_r, Nat.sub_0_r.
    destruct kind; reflexivity.
  - destruct Hm as (HW & Hno & Hact & Hg' & Hm).
    inversion Hgrad as [|? ? [gg Hgg] Hgrad']; subst.
    inversion Hsig as [|s ? sigmas' ? Hs Hsig']; subst.
    inversion HZs as [|Z ? Zs' ? HZ HZs']; subst.
    destruct As as [|A As]; [destruct Hfed|]. destruct Hfed as [HA Hfed].
    cbn [map block_sizes] in Hk. rewrite sum_list_cons in Hk. cbn [length] in Hlen.
    rewrite Hgg. cbn [fn_of default].
    rewrite enumerate_cons. cbn [map grad_blocks block_sizes gradient_blocks fst snd concat].
    destruct (delta_step_run kind m lam pre preS preZ preA preG W s Z A
                (map (fun l => Some l.1.1) lsp) (map Some sigmas') (map Some Zs') (map Some As)
                (map Some (grad_blocks (length done + MLPLayer.n_nodes l * (prev + 1))
                             (MLPLayer.n_nodes l) (map MLPLayer.n_nodes ls)))
                l gg prev (length done) done k delta HlS HlZ HlA HlG ltac:(lia) eq_refl
                HW Hs HZ HA Hgg ltac:(lia)) as (delta1 & Hstep & Hl1 & Hshape).
    set (B := gradient_block kind lam m s Z A W gg) in *.
    specialize (IH lsp (pre ++ [Some W]) (preS ++ [Some s]) (preZ ++ [Some Z])
                   (preA ++ [Some A]) (preG ++ [Some (Block (length done) (MLPLayer.n_nodes l)
                                                        (prev + 1))])
                   sigmas' Zs' As (done ++ ravel B) (k - MLPLayer.n_nodes l * (prev + 1))
                   delta1 (MLPLayer.n_nodes l) Hm Hgrad' Hsig' HZs' Hfed).
    rewrite !length_snoc, length_app, (ravel_length B _ _ Hshape), <- !app_assoc in IH.
    cbn [app] in IH.
    destruct IH as [delta' Hrun]; try lia.
    exists delta'. rewrite sum_list_cons.
    replace (k - (MLPLayer.n_nodes l * (prev + 1)
                  + sum_list (block_sizes (MLPLayer.n_nodes l) (map MLPLayer.n_nodes ls))))
      with (k - MLPLayer.n_nodes l * (prev + 1)
            - sum_list (block_sizes (MLPLayer.n_nodes l) (map MLPLayer.n_nodes ls))) by lia.
    change (id gg) with gg. fold B. rewrite <- !app_assoc.
    cbn [for_each]. rewrite Hstep, res_bind_ok, <- app_assoc. exact Hrun.
Qed.

Lemma item_lookup {X} e (l : list (option X)) i x :
  l !! i = Some (Some x) -> item e l i = Ok x.
Proof. intros E. unfold item. rewrite E. reflexivity. Qed.

Lemma py_setitem_replicate {X} n (x : option X) rest :
  py_setitem (replicate (S n) None ++ rest) n x = Ok (replicate n None ++ x :: rest).
Proof.
  rewrite replicate_S_end, <- app_assoc. cbn [app].
  pose proof (py_setitem_middle (replicate n None) None x rest) as E.
  rewrite length_replicate in E. exact E.
Qed.

(** One turn of the loop over the hidden layers. *)
Lemma sigma_step_run (self : t R) m theta Zl c s' restS W' (l' : MLPLayer.t R) gg Z d :
  theta !! (S c + 1) = Some (Some W') ->
  layers self !! (S c + 1) = Some l' ->
  Zl !! S c = Some (Some Z) ->
  MLPLayer.grad_func l' = Some gg ->
  has_shape s' m (MLPLayer.n_nodes l') -> has_shape W' (MLPLayer.n_nodes l') (d + 1) ->
  has_shape Z m d ->
  sigma_step self m theta Zl (S c) (replicate (S (S c)) None ++ Some s' :: restS)
  = Ok (replicate (S c) None ++ Some (sigma_back s' W' gg Z) :: Some s' :: restS) /\
  has_shape (sigma_back s' W' gg Z) m d.
Proof.
  intros Hth Hl HZl Hg Hs HW HZ.
  assert (has_shape (mdot s' W') m (d + 1)) as Hd.
  { destruct (shape_mdot s' W') as (Hr & Hc & Hwf).
    split; [|split]; [rewrite Hr; apply Hs | rewrite Hc; apply HW | exact Hwf]. }
  assert (has_shape (mmap gg (bias_augment Z)) m (d + 1)) as Hgz
    by (apply shape_mmap, shape_bias; exact HZ).
  split; [|apply shape_drop_col0, shape_mzip; assumption].
  unfold sigma_step.
  rewrite (item_lookup _ (replicate (S (S c)) None ++ Some s' :: restS) (S c + 1) s')
    by (rewrite lookup_app_r by (rewrite length_replicate; lia);
        rewrite length_replicate; replace (S c + 1 - S (S c)) with 0 by lia; reflexivity).
  rewrite res_bind_ok, (item_lookup _ _ _ _ Hth), res_bind_ok.
  rewrite np_dot_ok by (destruct Hs as (_ & -> & _), HW as (-> & _); reflexivity).
  rewrite res_bind_ok. unfold py_index. rewrite Hl, res_bind_ok.
  rewrite (item_lookup _ _ _ _ HZl), res_bind_ok.
  rewrite (hstack_ones Z m) by apply HZ. rewrite res_bind_ok.
  unfold call. rewrite Hg, res_bind_ok. unfold np_mul.
  rewrite (np_binop_ok _ _ _ _ _ Hd Hgz), res_bind_ok.
  apply py_setitem_replicate.
Qed.

(** The loop over the hidden layers, from the last one down, computes
    [sigmas_of]. *)
Lemma sigma_loop (self : t R) m theta Zl s_last (ls1 : list (MLPLayer.t R)) :
  forall lsp1 c lcur Zs,
    layers_match (MLPLayer.n_nodes lcur) ls1 lsp1 ->
    Forall (fun l => is_Some (MLPLayer.grad_func l)) ls1 ->
    Forall2 (fun Z l => has_shape Z m (MLPLayer.n_nodes l)) Zs (lcur :: ls1) ->
    has_shape s_last m (default (MLPLayer.n_nodes lcur) (last (map MLPLayer.n_nodes ls1))) ->
    (forall k Z, Zs !! k = Some Z -> Zl !! (S c + k) = Some (Some Z)) ->
    (forall k w, lsp1 !! k = Some w -> theta !! (S (S c) + k) = Some (Some w.1.1)) ->
    (forall k l, ls1 !! k = Some l -> layers self !! (S (S c) + k) = Some l) ->
    for_each (sigma_step self m theta Zl) (rev (seq (S c) (length ls1)))
             (replicate (S (c + length ls1)) None ++ [Some s_last])
    = Ok (replicate (S c) None
          ++ map Some (sigmas_of s_last (zip Zs (map (fun l => (l.1.1, l.2)) lsp1)))) /\
    Forall2 (fun s l => has_shape s m (MLPLayer.n_nodes l))
            (sigmas_of s_last (zip Zs (map (fun l => (l.1.1, l.2)) lsp1))) (lcur :: ls1).
Proof.
  induction ls1 as [|l' ls1 IH]; intros [|[[W' g] g'] lsp1] c lcur Zs Hm Hgrad HZs Hs
                                        HZl Hth Hls;
    cbn [layers_match] in Hm; try contradiction;
    inversion HZs as [|Z ? Zs' ? HZ HZs']; subst.
  - inversion HZs'; subst. cbn. rewrite Nat.add_0_r. split; [reflexivity|].
    constructor; [exact Hs | constructor].
  - destruct Hm as (HW & Hno & Hact & Hg' & Hm).
    inversion Hgrad as [|? ? [gg Hgg] Hgrad']; subst.
    rewrite Hgg in *. cbn [fn_of default] in *. change (id gg) with gg in *.
    cbn [map] in Hs. rewrite default_last_cons in Hs.
    destruct (IH lsp1 (S c) l' Zs' Hm Hgrad' HZs' Hs) as [Hrun Hshapes].
    { intros k Z0 Hk. replace (S (S c) + k) with (S c + S k) by lia. apply HZl. exact Hk. }
    { intros k w Hk. replace (S (S (S c)) + k) with (S (S c) + S k) by lia.
      apply Hth. exact Hk. }
    { intros k l Hk. replace (S (S (S c)) + k) with (S (S c) + S k) by lia.
      apply Hls. exact Hk. }
    cbn [map zip zip_with fst snd]. unfold sigmas_of. cbn [fold_right fst snd].
    fold (sigmas_of s_last (zip Zs' (map (fun l => (l.1.1, l.2)) lsp1))).
    set (sig := sigmas_of s_last (zip Zs' (map (fun l => (l.1.1, l.2)) lsp1))) in *.
    inversion Hshapes as [|s' ? sig' ? Hs' Hsig' Esig]; subst.
    cbn [hd]. cbn [length seq rev]. rewrite for_each_app.
    replace (S (c + S (length ls1))) with (S (S c + length ls1)) by lia.
    rewrite Hrun, res_bind_ok. rewrite <- Esig. cbn [map for_each].
    destruct (sigma_step_run self m theta Zl c s' (map Some sig') W' l' gg Z
                (MLPLayer.n_nodes lcur)) as [Hstep Hshape]; try assumption.
    + replace (S c + 1) with (S (S c) + 0) by lia. apply (Hth 0 (W', g, gg)). reflexivity.
    + replace (S c + 1) with (S (S c) + 0) by lia. apply (Hls 0 l'). reflexivity.
    + replace (S c) with (S c + 0) by lia. apply (HZl 0 Z). reflexivity.
    + rewrite Hstep, res_bind_ok. split; [reflexivity|].
      constructor; [exact Hshape|]. constructor; assumption.
Qed.

Lemma gradient_block_shape (kind : cost_kind) lam m (s Z A_prev W : matrix R) g' d p :
  has_shape W d (p + 1) -> has_shape s m d -> has_shape Z m d -> has_shape A_prev m (p + 1) ->
  has_shape (gradient_block kind lam m s Z A_prev W g') d (p + 1).
Proof.
  intros HW Hs HZ HA. unfold gradient_block.
  apply shape_mmap, shape_mzip; [|apply shape_mmap, shape_zero_bias; exact HW].
  destruct kind; cbn [delta_of].
  - apply (delta_shape _ A_prev m d p); [|exact HA].
    apply shape_mzip; [exact Hs | apply shape_mmap; exact HZ].
  - apply (delta_shape s A_prev m d p); assumption.
Qed.

Lemma reshape2_ravel (B : matrix R) d c : has_shape B d c -> reshape2 d c (ravel B) = B.
Proof.
  intros (Hr & Hc & Hwf). destruct B as [cB rows]. unfold ravel, nrows, mat_wf in *.
  cbn [mrows ncols] in *. subst cB d. apply reshape2_rows. exact Hwf.
Qed.

(** The flat gradient carved the way the weights are carved gives the
    gradient blocks back: the two have one layout. *)
Lemma gradient_blocks_carve (kind : cost_kind) lam m (ls : list (MLPLayer.t R)) :
  forall lsp sigmas Zs As prev,
    layers_match prev ls lsp ->
    Forall2 (fun s l => has_shape s m (MLPLayer.n_nodes l)) sigmas ls ->
    Forall2 (fun Z l => has_shape Z m (MLPLayer.n_nodes l)) Zs ls ->
    fed m prev ls As ->
    let Bs := gradient_blocks kind lam m sigmas Zs As (map (fun l => (l.1.1, l.2)) lsp) in
    carve prev (map MLPLayer.n_nodes ls) (concat (map ravel Bs)) = Bs /\
    length (concat (map ravel Bs)) = sum_list (block_sizes prev (map MLPLayer.n_nodes ls)).
Proof.
  induction ls as [|l ls IH]; intros [|[[W g] g'] lsp] sigmas Zs As prev Hm Hsig HZs Hfed;
    cbn [layers_match] in Hm; try contradiction.
  - inversion Hsig; subst. split; reflexivity.
  - destruct Hm as (HW & Hno & Hact & Hg' & Hm).
    inversion Hsig as [|s ? sigmas' ? Hs Hsig']; subst.
    inversion HZs as [|Z ? Zs' ? HZ HZs']; subst.
    destruct As as [|A As]; [destruct Hfed|]. destruct Hfed as [HA Hfed].
    cbn [map gradient_blocks fst snd concat carve block_sizes].
    pose proof (gradient_block_shape kind lam m s Z A W (fn_of (MLPLayer.grad_func l)) _ prev
                  HW Hs HZ HA) as HB.
    set (B := gradient_block kind lam m s Z A W (fn_of (MLPLayer.grad_func l))) in *.
    destruct (IH lsp sigmas' Zs' As (MLPLayer.n_nodes l) Hm Hsig' HZs' Hfed) as [IHc IHl].
    pose proof (ravel_length B _ _ HB) as HlB.
    rewrite take_app_length', drop_app_length' by (symmetry; exact HlB).
    rewrite (reshape2_ravel B _ _ HB), IHc, length_app, HlB, IHl, sum_list_cons.
    split; reflexivity.
Qed.
End ReversePass.

Section CostGradient.
Context {R : Type} `{Scalar R}.
Import MLPNetwork.

Variables (self : t R) (l0 : MLPLayer.t R) (ls : list (MLPLayer.t R)).
Variables (lsp : list (matrix R * (R -> R) * (R -> R))) (X y : matrix R).
Hypothesis Hlayers : layers self = l0 :: ls.
Hypothesis Hcount : n_layers self = S (length ls).
Hypothesis Hmatch : layers_match (MLPLayer.n_nodes l0) ls lsp.
Hypothesis HX : has_shape X (nrows X) (MLPLayer.n_nodes l0).
Hypothesis Hy :
  has_shape y (nrows X)
            (match ls with
             | [] => MLPLayer.n_nodes l0 + 1
             | _ => default (MLPLayer.n_nodes l0) (last (map MLPLayer.n_nodes ls))
             end).
Hypothesis Hweights :
  n_weights self = sum_list (block_sizes (MLPLayer.n_nodes l0) (map MLPLayer.n_nodes ls)).
Hypothesis Hout0 : MLPLayer.n_outputs l0 = MLPLayer.n_nodes l0 + 1.
Hypothesis Hgrads : Forall (fun l => is_Some (MLPLayer.grad_func l)) ls.

Lemma grad_views_run :
  grad_views self
  = Ok (None :: map Some (grad_blocks 0 (MLPLayer.n_nodes l0) (map MLPLayer.n_nodes ls))).
Proof.
  unfold grad_views. rewrite Hlayers, Hcount. unfold py_index. cbn [lookup list_lookup].
  rewrite res_bind_ok. change (drop 1 (l0 :: ls)) with ls. cbn [replicate].
  destruct (grad_views_loop self ls lsp [None] 0 l0 (MLPLayer.n_nodes l0) Hmatch Hout0
              ltac:(lia)) as [lastl Hrun].
  cbn [length app] in Hrun. rewrite Hrun. reflexivity.
Qed.

Lemma output_error_shape :
  has_shape (mzip fsub (final_activation X (map fst lsp)) y) (nrows X)
            (match ls with
             | [] => MLPLayer.n_nodes l0 + 1
             | _ => default (MLPLayer.n_nodes l0) (last (map MLPLayer.n_nodes ls))
             end).
Proof.
  apply shape_mzip; [|exact Hy].
  exact (final_activation_shape self l0 ls lsp X y Hlayers Hcount Hmatch HX Hy).
Qed.

(** [sigma] and the gradient, for either cost function. *)
Lemma reverse_run (kind : cost_kind) lam :
  let theta := None :: map (fun l => Some l.1.1) lsp in
  let fl := forward_layers (bias_augment X) (map fst lsp) in
  let A := Some (bias_augment X) :: map (fun za => Some za.2) fl in
  let Z := None :: map (fun za => Some za.1) fl in
  exists sigma st,
    sigmas self (nrows X) y theta A Z = Ok sigma /\
    for_each
      match kind with
      | Log => delta_step_log (nrows X) theta A sigma
                 (None :: map Some (grad_blocks 0 (MLPLayer.n_nodes l0)
                                      (map MLPLayer.n_nodes ls))) lam
      | Mse => delta_step_mse (nrows X) theta A Z sigma
                 (None :: map Some (grad_blocks 0 (MLPLayer.n_nodes l0)
                                      (map MLPLayer.n_nodes ls))) lam
      end
      (enumerate 1 (drop 1 (layers self)))
      (replicate (n_layers self) None, replicate (n_weights self) f0)
    = Ok st /\
    st.2 = gradient kind X y lsp lam /\
    carve (MLPLayer.n_nodes l0) (map MLPLayer.n_nodes ls) (gradient kind X y lsp lam)
    = gradient_parts kind X y lsp lam /\
    length (gradient kind X y lsp lam) = n_weights self.
Proof.
  intros theta fl A Z.
  pose proof output_error_shape as Hs.
  set (s_last := mzip fsub (final_activation X (map fst lsp)) y) in *.
  assert (sigmas self (nrows X) y theta A Z
          = (sigma ← py_setitem (replicate (n_layers self) None) (n_layers self - 1)
                                (Some s_last);
             for_each (sigma_step self (nrows X) theta Z) (hidden_down (n_layers self)) sigma))
    as Hsig.
  { unfold sigmas, A, fl. rewrite last_item_some, res_bind_ok.
    fold (final_activation X (map fst lsp)). unfold np_sub.
    rewrite (np_binop_ok _ _ _ _ _
               (final_activation_shape self l0 ls lsp X y Hlayers Hcount Hmatch HX Hy) Hy).
    rewrite res_bind_ok. reflexivity. }
  rewrite Hsig, Hlayers, Hcount. change (drop 1 (l0 :: ls)) with ls.
  destruct (forward_layers_shapes (nrows X) ls lsp (MLPLayer.n_nodes l0) (bias_augment X)
              Hmatch (shape_bias X _ _ HX)) as (HZs & Hfed & _).
  fold fl in HZs, Hfed.
  destruct ls as [|l1 ls1] eqn:Els.
  - destruct lsp as [|? ?]; [|destruct Hmatch].
    eexists _, _. split; [reflexivity|]. split; [reflexivity|].
    cbn [snd]. cbn [map block_sizes] in Hweights. rewrite Hweights.
    repeat split; reflexivity.
  - destruct lsp as [|[[W1 g1] g1'] lsp1] eqn:Elsp; [destruct Hmatch|].
    assert (Hm := Hmatch). cbn [layers_match] in Hm. destruct Hm as (HW1 & Hno1 & Hact1 & Hg1 & Hm1).
    inversion Hgrads as [|? ? Hgrad1 Hgrads1]; subst.
    cbn [map] in Hs. rewrite default_last_cons in Hs.
    destruct (sigma_loop self (nrows X) theta Z s_last ls1 lsp1 0 l1 (map fst fl)
                Hm1 Hgrads1 HZs Hs) as [Hloop Hshapes].
    { intros k Z0 Hk.
      change (((fun za : matrix R * matrix R => Some za.1) <$> fl) !! k = Some (Some Z0)).
      change ((fst <$> fl) !! k = Some Z0) in Hk.
      rewrite list_lookup_fmap. rewrite list_lookup_fmap in Hk.
      destruct (fl !! k); inversion Hk; reflexivity. }
    { intros k w Hk.
      change (((fun l : matrix R * (R -> R) * (R -> R) => Some l.1.1) <$> lsp1) !! k
              = Some (Some w.1.1)).
      rewrite list_lookup_fmap, Hk. reflexivity. }
    { intros k l Hk. rewrite Hlayers. exact Hk. }
    set (sig := sigmas_of s_last (zip (map fst fl) (map (fun l => (l.1.1, l.2)) lsp1))) in *.
    assert ((sigma ← py_setitem (replicate (S (length (l1 :: ls1))) None)
                                (S (length (l1 :: ls1)) - 1) (Some s_last);
             for_each (sigma_step self (nrows X) theta Z)
                      (hidden_down (S (length (l1 :: ls1)))) sigma)
            = Ok (None :: map Some sig)) as ->.
    { cbn [length]. replace (S (S (length ls1)) - 1) with (S (length ls1)) by lia.
      pose proof (py_setitem_replicate (S (length ls1)) (Some s_last) []) as E.
      rewrite app_nil_r in E. rewrite E, res_bind_ok. unfold hidden_down.
      replace (S (S (length ls1)) - 2) with (length ls1) by lia.
      exact Hloop. }
    destruct (delta_loop kind (nrows X) lam (l1 :: ls1) _
                [None] [None] [None] [] [None]
                sig (map fst fl) (bias_augment X :: map snd fl) [] (n_weights self)
                (replicate (S (length (l1 :: ls1))) None) (MLPLayer.n_nodes l0) Hmatch)
      as [delta' Hrun]; try reflexivity; try assumption.
    { rewrite length_replicate. cbn [length]. lia. }
    { rewrite Hweights. lia. }
    exists (None :: map Some sig). eexists (delta', _).
    split; [reflexivity|].
    cbn [app length] in Hrun.
    unfold theta, A, Z. rewrite <- (map_map snd Some fl), <- (map_map fst Some fl).
    rewrite Hweights, Nat.sub_diag, app_nil_r in Hrun. rewrite Hweights.
    split; [exact Hrun|]. split; [reflexivity|].
    exact (gradient_blocks_carve kind lam (nrows X) (l1 :: ls1) _ sig (map fst fl)
             (bias_augment X :: map snd fl) (MLPLayer.n_nodes l0) Hmatch Hshapes HZs Hfed).
Qed.

Lemma log_cost_ok ln m (a : matrix R) r c :
  has_shape a r c -> has_shape y r c -> exists J, log_cost ln m a y = Ok J.
Proof.
  intros Ha Hy'. unfold log_cost, np_mul, np_sub.
  rewrite (np_binop_ok _ (mmap fneg y) (mmap ln a) r c) by (apply shape_mmap; assumption).
  rewrite res_bind_ok.
  rewrite (np_binop_ok _ (mmap (fun x => f1 - x)%F y) (mmap (fun x => ln (f1 - x)%F) a) r c)
    by (apply shape_mmap; assumption).
  rewrite res_bind_ok.
  rewrite (np_binop_ok _ _ _ r c)
    by (apply shape_mzip; apply shape_mmap; assumption).
  rewrite res_bind_ok. eexists. reflexivity.
Qed.

(** [cost_function_mse] from [theta] on, with the gradient. *)
Lemma cost_mse_body_grad lam :
  cost_mse_body self X y (None :: map (fun l => Some l.1.1) lsp) lam true
  = Ok (CostGrad (mse_cost X y (map fst lsp) lam) (gradient Mse X y lsp lam)).
Proof.
  unfold cost_mse_body.
  rewrite (forward_run self l0 ls lsp X Hlayers Hcount Hmatch HX), res_bind_ok. cbn [fst snd].
  rewrite last_item_some, res_bind_ok. fold (final_activation X (map fst lsp)).
  unfold np_sub.
  rewrite (np_binop_ok _ _ _ _ _
             (final_activation_shape self l0 ls lsp X y Hlayers Hcount Hmatch HX Hy) Hy).
  rewrite res_bind_ok, (regularize_run self l0 ls lsp X Hlayers Hmatch), res_bind_ok.
  cbn [negb]. rewrite grad_views_run, res_bind_ok.
  destruct (reverse_run Mse lam) as (sigma & st & Hsig & Hrun & Hgrad & _).
  rewrite Hsig, res_bind_ok, Hrun, res_bind_ok, Hgrad. reflexivity.
Qed.

(** [cost_function_log] from [theta] on. *)
Lemma cost_log_body_run ln lam jac :
  exists J,
    cost_log_body ln self X y (None :: map (fun l => Some l.1.1) lsp) lam jac
    = Ok (if jac then CostGrad J (gradient Log X y lsp lam) else Cost J).
Proof.
  unfold cost_log_body.
  rewrite (forward_run self l0 ls lsp X Hlayers Hcount Hmatch HX), res_bind_ok. cbn [fst snd].
  rewrite last_item_some, res_bind_ok. fold (final_activation X (map fst lsp)).
  destruct (log_cost_ok ln (nrows X) _ _ _
              (final_activation_shape self l0 ls lsp X y Hlayers Hcount Hmatch HX Hy) Hy)
    as [J0 ->].
  rewrite res_bind_ok, (regularize_run self l0 ls lsp X Hlayers Hmatch), res_bind_ok.
  eexists. destruct jac; cbn [negb]; [|reflexivity].
  rewrite grad_views_run, res_bind_ok.
  destruct (reverse_run Log lam) as (sigma & st & Hsig & Hrun & Hgrad & _).
  rewrite Hsig, res_bind_ok, Hrun, res_bind_ok, Hgrad. reflexivity.
Qed.

Lemma gradient_layout (kind : cost_kind) lam :
  carve (MLPLayer.n_nodes l0) (map MLPLayer.n_nodes ls) (gradient kind X y lsp lam)
  = gradient_parts kind X y lsp lam /\
  length (gradient kind X y lsp lam) = n_weights self.
Proof. destruct (reverse_run kind lam) as (_ & _ & _ & _ & _ & Hlay). exact Hlay. Qed.
End CostGradient.

(* ===================================================================== *)
(** * The cost functions on a constructed network *)
(* ===================================================================== *)

Section CostTheorems.
Context {R : Type} `{Scalar R}.
Import MLPNetwork.

(** What the invariant gives a cost function to work with. *)
Lemma net_ready (net : t R) (h : heap R) (X y : matrix R) :
  net_ok h net ->
  has_shape X (nrows X) (n_inputs net) -> has_shape y (nrows X) (final_width net) ->
  exists l0 ls,
    layers net = l0 :: ls /\
    n_layers net = S (length ls) /\
    has_shape X (nrows X) (MLPLayer.n_nodes l0) /\
    has_shape y (nrows X)
              (match ls with
               | [] => MLPLayer.n_nodes l0 + 1
               | _ => default (MLPLayer.n_nodes l0) (last (map MLPLayer.n_nodes ls))
               end) /\
    n_weights net
    = sum_list (block_sizes (MLPLayer.n_nodes l0) (map MLPLayer.n_nodes ls)) /\
    MLPLayer.n_outputs l0 = MLPLayer.n_nodes l0 + 1 /\
    dimensions net = MLPLayer.n_nodes l0 :: map MLPLayer.n_nodes ls.
Proof.
  intros [wb Hok] HX Hy.
  destruct Hok as (l0 & ls & Hl & Hdims & Hnl & Hni & Hno & Hnw & Hw & _ & Hout & _).
  assert (dimensions net = MLPLayer.n_nodes l0 :: map MLPLayer.n_nodes ls) as Hd
    by (rewrite <- Hdims, Hl; reflexivity).
  exists l0, ls. split; [exact Hl|]. split; [rewrite Hnl, Hd; cbn; rewrite length_map; reflexivity|].
  split; [rewrite <- Hni; exact HX|]. split; [|split; [|split]].
  - unfold final_width in Hy. rewrite Hd in Hy, Hno.
    destruct ls as [|l1 ls1]; [exact Hy|]. cbn [map] in Hy, Hno |- *.
    rewrite last_cons in Hno.
    destruct (last (MLPLayer.n_nodes l1 :: map MLPLayer.n_nodes ls1)) as [d|] eqn:E;
      [|rewrite last_cons in E; destruct (last (map MLPLayer.n_nodes ls1)); discriminate].
    inversion Hno; subst. exact Hy.
  - rewrite Hnw, Hd. reflexivity.
  - rewrite Hl in Hout. inversion Hout as [|? ? Ho _]; subst. apply Ho.
  - exact Hd.
Qed.

(** C1.  On every constructed network, for every batch [X] of [m] rows of
    [n_inputs] numbers with wanted outputs [y] of the shape of [A[L-1]],
    [cost_function_mse] returns (alone, or with the gradient when the
    layers have gradient functions) the cost
    [0.5 * sum((A[L-1] - y)^2) / m], to which, when [lambda_param] is not
    [0.0], [lambda_param * sum(W[:, 1:]^2) / (2 m)] is added for the weight
    block [W] of every layer after the input layer: column 0 of a block,
    the bias column, does not enter the sum. *)
Theorem mse_cost_is_returned (net : t R) (h : heap R) (X y : matrix R) warg W lam jac :
  reachable net h -> weights_arg h net warg W ->
  has_shape X (nrows X) (n_inputs net) -> has_shape y (nrows X) (final_width net) ->
  (jac = true -> Forall (fun l => is_Some (MLPLayer.grad_func l)) (drop 1 (layers net))) ->
  exists h' r,
    cost_function_mse net X y warg lam jac h = (h', Ok r) /\
    cost_of r = mse_cost X y (map fst (layers_of net W)) lam.
Proof.
  intros Hreach Harg HX Hy Hgrads. apply reachable_net_ok in Hreach.
  destruct (net_ready net h X y Hreach HX Hy)
    as (l0 & ls & Hl & Hn & HX' & Hy' & Hnw & Ho0 & Hd).
  destruct (theta_values net h warg W l0 ls Hreach Harg Hl) as (os & theta & Hget & Hread & Hm).
  unfold cost_function_mse.
  rewrite (run_bind_ok _ _ _ _ _ Hget), (run_bind_ok _ _ _ _ _ Hread), lift_run.
  destruct jac.
  - rewrite Hl in Hgrads. specialize (Hgrads eq_refl). change (drop 1 (l0 :: ls)) with ls in Hgrads.
    rewrite (cost_mse_body_grad net l0 ls _ X y Hl Hn Hm HX' Hy' Hnw Ho0 Hgrads).
    eexists _, _. split; reflexivity.
  - rewrite (cost_mse_body_cost net l0 ls _ X y Hl Hn Hm HX' Hy').
    eexists _, _. split; reflexivity.
Qed.

(** C2.  On every constructed network whose layers have gradient
    functions, both cost functions, asked for the gradient, return the flat
    vector [gradient kind]: with [sigma[L-1] = A[L-1] - y] and the [sigma]
    of the hidden layers propagated back from it, the block of layer [j] is
    [(delta[j] + lambda_param * zero_bias_column(W[j])) / m], where
    [delta[j] = sigma[j]^T . A[j-1]] for the logistic cost and
    [delta[j] = (sigma[j] * gradient_j(Z[j]))^T . A[j-1]] for the
    mean-squared-error cost — [delta_of] is the one place where the kind
    of cost enters.  The blocks lie in the vector as the weight blocks lie
    in the weights: carving it as the weights are carved gives the blocks
    back, and it has [n_weights] entries. *)
Theorem gradient_is_backpropagated (net : t R) (h : heap R) (X y : matrix R) warg W lam ln :
  reachable net h -> weights_arg h net warg W ->
  has_shape X (nrows X) (n_inputs net) -> has_shape y (nrows X) (final_width net) ->
  Forall (fun l => is_Some (MLPLayer.grad_func l)) (drop 1 (layers net)) ->
  (exists h' J,
     cost_function_mse net X y warg lam true h
     = (h', Ok (CostGrad J (gradient Mse X y (layers_of net W) lam)))) /\
  (exists h' J,
     cost_function_log ln net X y warg lam true h
     = (h', Ok (CostGrad J (gradient Log X y (layers_of net W) lam)))) /\
  (forall kind,
     blocks (dimensions net) (gradient kind X y (layers_of net W) lam)
     = gradient_parts kind X y (layers_of net W) lam /\
     length (gradient kind X y (layers_of net W) lam) = n_weights net).
Proof.
  intros Hreach Harg HX Hy Hgrads. apply reachable_net_ok in Hreach.
  destruct (net_ready net h X y Hreach HX Hy)
    as (l0 & ls & Hl & Hn & HX' & Hy' & Hnw & Ho0 & Hd).
  destruct (theta_values net h warg W l0 ls Hreach Harg Hl) as (os & theta & Hget & Hread & Hm).
  rewrite Hl in Hgrads. change (drop 1 (l0 :: ls)) with ls in Hgrads.
  split; [|split].
  - unfold cost_function_mse.
    rewrite (run_bind_ok _ _ _ _ _ Hget), (run_bind_ok _ _ _ _ _ Hread), lift_run.
    rewrite (cost_mse_body_grad net l0 ls _ X y Hl Hn Hm HX' Hy' Hnw Ho0 Hgrads).
    eexists _, _. reflexivity.
  - unfold cost_function_log.
    rewrite (run_bind_ok _ _ _ _ _ Hget), (run_bind_ok _ _ _ _ _ Hread), lift_run.
    destruct (cost_log_body_run net l0 ls _ X y Hl Hn Hm HX' Hy' Hnw Ho0 Hgrads ln lam true)
      as [J ->].
    eexists _, _. reflexivity.
  - intros kind. rewrite Hd. cbn [blocks].
    exact (gradient_layout net l0 ls _ X y Hl Hn Hm HX' Hy' Hnw Ho0 Hgrads kind lam).
Qed.
End CostTheorems.

Example built221_ok : built221 = (heap221, Ok net221).
Proof. vm_compute. reflexivity. Qed.

Lemma reachable_heap221_set : reachable net221 heap221_set.
Proof.
  unfold heap221_set. apply reach_step.
  exact (reach_init net221 [2; 2; 1] (Callable linear) (Callable linear_gradient) NameMse
           (Heap [] []) heap221 built221_ok).
Qed.

(** The network with a hidden layer, a batch of two examples and
    [lambda_param = 0.5]. *)
Lemma mse_cost_is_returned_witness :
  exists h' r,
    MLPNetwork.cost_function_mse net221 X221 y221 None 0.5%float true heap221_set
    = (h', Ok r) /\
    cost_of r = mse_cost X221 y221 (map fst (layers_of net221 weights221)) 0.5%float.
Proof.
  apply (mse_cost_is_returned net221 heap221_set X221 y221 None weights221 0.5%float true).
  - exact reachable_heap221_set.
  - apply weights_own. vm_compute. reflexivity.
  - split; [reflexivity|]. split; [reflexivity | repeat constructor].
  - split; [reflexivity|]. split; [reflexivity | repeat constructor].
  - intros _. vm_compute. repeat (constructor; [eexists; reflexivity|]). constructor.
Defined.

Lemma gradient_is_backpropagated_witness :
  (exists h' J,
     MLPNetwork.cost_function_mse net221 X221 y221 None 0.5%float true heap221_set
     = (h', Ok (CostGrad J (gradient Mse X221 y221 (layers_of net221 weights221) 0.5%float)))) /\
  (exists h' J,
     MLPNetwork.cost_function_log (fun x => x) net221 X221 y221 None 0.5%float true heap221_set
     = (h', Ok (CostGrad J (gradient Log X221 y221 (layers_of net221 weights221) 0.5%float)))) /\
  (forall kind,
     blocks (MLPNetwork.dimensions net221)
            (gradient kind X221 y221 (layers_of net221 weights221) 0.5%float)
     = gradient_parts kind X221 y221 (layers_of net221 weights221) 0.5%float /\
     length (gradient kind X221 y221 (layers_of net221 weights221) 0.5%float)
     = MLPNetwork.n_weights net221).
Proof.
  apply (gradient_is_backpropagated net221 heap221_set X221 y221 None weights221 0.5%float
           (fun x => x)).
  - exact reachable_heap221_set.
  - apply weights_own. vm_compute. reflexivity.
  - split; [reflexivity|]. split; [reflexivity | repeat constructor].
  - split; [reflexivity|]. split; [reflexivity | repeat constructor].
  - vm_compute. repeat (constructor; [eexists; reflexivity|]). constructor.
Defined.

(** The cost and the gradient that [cost_function_mse] returns for the
    network with a hidden layer, as computed by the embedding. *)
Example cost221 :
  (MLPNetwork.cost_function_mse net221 X221 y221 None 0.5%float true heap221_set).2
  = Ok (CostGrad 10.59375%float
          [3.25; 3.5; -1; -6.5; -5.875; 4; 3.25; 4.25; -5.75]%float).
Proof. vm_compute. reflexivity. Qed.

Example cost221_unregularized :
  (MLPNetwork.cost_function_mse net221 X221 y221 None 0%float false heap221_set).2
  = Ok (Cost 7.8125%float).
Proof. vm_compute. reflexivity. Qed.

(** In exact arithmetic the regularization terms, added one layer after
    the other, are [lambda * (sum over the layers of sum(W[:, 1:]^2)) / (2 m)]. *)
Lemma regularized_exact (m : nat) (lam : Q) (Ws : list (matrix Q)) (J : Q) :
  (regularized m lam Ws J
   == J + lam * fold_right Qplus 0 (map (fun W => msum (msquare (drop_col0 W))) Ws)
          / (2 * inject_Z (Z.of_nat m)))%Q.
Proof.
  revert J. induction Ws as [|W Ws IH]; intros J; unfold regularized in *;
    cbn [fold_left map fold_right].
  - unfold Qdiv. ring.
  - rewrite IH. cbn [fadd fmul fdiv f2 of_int Q_scalar]. unfold Qdiv.
    change (inject_Z 2) with 2%Q. ring.
Qed.

(* ===================================================================== *)
(** * Writing to the network's arrays *)
(* ===================================================================== *)

Section Writes.
Context {R : Type} `{Scalar R}.
Import MLPNetwork.

(** [a[first:] = vals] with as many values as the slice has entries. *)
Lemma assign_from_run (h : heap R) r base b off n buf first vals :
  objs h !! r = Some (NdArray base b off [n]) -> bufs h !! b = Some buf ->
  length vals = n - Nat.min first n ->
  assign_from r first vals h
  = (Heap (<[b := take (off + Nat.min first n) buf ++ vals
                  ++ drop (off + Nat.min first n + length vals) buf]> (bufs h))
          (objs h), Ok tt).
Proof.
  intros Ho Hb Hlen. unfold assign_from.
  rewrite (run_bind_ok _ _ _ _ _ (run_get_obj h r _ Ho)). cbn [nd_shape].
  rewrite Hlen, Nat.eqb_refl. unfold write. cbn [nd_buf nd_off]. rewrite Hb, Hlen. reflexivity.
Qed.

(** One value is broadcast to the whole slice. *)
Lemma assign_from_one (h : heap R) r base b off n buf first v :
  objs h !! r = Some (NdArray base b off [n]) -> bufs h !! b = Some buf ->
  assign_from r first [v] h
  = (Heap (<[b := take (off + Nat.min first n) buf ++ replicate (n - Nat.min first n) v
                  ++ drop (off + Nat.min first n + (n - Nat.min first n)) buf]> (bufs h))
          (objs h), Ok tt).
Proof.
  intros Ho Hb. unfold assign_from.
  rewrite (run_bind_ok _ _ _ _ _ (run_get_obj h r _ Ho)). cbn [nd_shape].
  destruct (length [v] =? n - Nat.min first n) eqn:E.
  - apply Nat.eqb_eq in E. cbn [length] in E. rewrite <- E. cbn [replicate].
    unfold write. cbn [nd_buf nd_off length]. rewrite Hb. reflexivity.
  - unfold write. cbn [nd_buf nd_off]. rewrite Hb, length_replicate. reflexivity.
Qed.

(** Any other number of values is refused, and nothing is written. *)
Lemma assign_from_mismatch (h : heap R) r o n first vals :
  objs h !! r = Some o -> nd_shape o = [n] ->
  length vals <> n - Nat.min first n -> length vals <> 1 ->
  assign_from r first vals h = (h, Raise ValueError).
Proof.
  intros Ho Hs Hlen H1. unfold assign_from.
  rewrite (run_bind_ok _ _ _ _ _ (run_get_obj h r _ Ho)), Hs.
  replace (length vals =? n - Nat.min first n) with false
    by (symmetry; apply Nat.eqb_neq; exact Hlen).
  destruct vals as [|v [|? ?]]; try reflexivity. cbn in H1. lia.
Qed.

Lemma read_flat_whole (h : heap R) r base b n buf :
  objs h !! r = Some (NdArray base b 0 [n]) -> bufs h !! b = Some buf -> length buf = n ->
  read_flat r h = (h, Ok buf).
Proof.
  intros Ho Hb Hlen. rewrite (read_flat_run h r _ buf Ho Hb). cbn [nd_shape nd_off].
  rewrite drop_0, take_ge by (simpl; lia). reflexivity.
Qed.

(** What [set_weights] does to the heap. *)
Lemma set_weights_run (net : t R) (h : heap R) wb w W :
  net_ok_at wb h net -> bufs h !! wb = Some W -> length w = n_weights net ->
  set_weights net w h = (Heap (<[wb := w]> (bufs h)) (objs h), Ok tt).
Proof.
  intros (l0 & ls & _ & _ & _ & _ & _ & _ & Hw & (W' & HW' & HlW) & _) HW Hlen.
  rewrite HW in HW'. inversion HW'; subst W'.
  unfold set_weights. rewrite (assign_from_run h _ _ _ _ _ W 0 w Hw HW) by lia.
  rewrite Nat.min_0_l, Nat.add_0_l, take_0, drop_ge by lia. rewrite app_nil_r. reflexivity.
Qed.

Lemma get_theta_own_run (net : t R) (h : heap R) :
  get_theta net None h = (h, Ok (map MLPLayer.weights (layers net))).
Proof. reflexivity. Qed.

(** The weight blocks that [get_theta()] shows, for the flat weights [W]. *)
Lemma theta_of_weights (net : t R) (h : heap R) W :
  net_ok h net -> read_flat (weights net) h = (h, Ok W) ->
  exists theta,
    get_theta net None h = (h, Ok theta) /\
    read_theta theta h = (h, Ok (None :: map Some (blocks (dimensions net) W))).
Proof.
  intros Hok Hread. assert (Hok' := Hok). destruct Hok' as [wb Hat].
  destruct Hat as (l0 & ls & Hl & Hdims & _).
  destruct (theta_values net h None W l0 ls Hok (weights_own h net W Hread) Hl)
    as (os & theta & Hget & Hrd & Hm).
  rewrite get_theta_own_run in Hget. injection Hget as Hh Hth.
  rewrite <- Hh in Hrd. exists theta. split; [rewrite get_theta_own_run, Hth; reflexivity|].
  rewrite Hrd. unfold layers_of. rewrite zip_with_blocks; [reflexivity|].
  rewrite <- Hdims, Hl. cbn [map blocks drop]. rewrite carve_length, length_map. reflexivity.
Qed.

Lemma net_ok_after (net : t R) (h : heap R) wb (m : M R unit) :
  net_ok_at wb h net -> evolves wb h (m h).1 -> net_ok (m h).1 net.
Proof. intros Hok Hev. exists wb. eapply net_ok_at_evolves; eassumption. Qed.

(** [set_weights(w)] with [n_weights] values copies them into the weights
    array, and the weight blocks of the layers, which are views of that
    array and not copies, show them: [get_theta()] then returns the blocks
    of [w].  No array object is changed. *)
Theorem set_weights_shows_in_views (net : t R) (h : heap R) (w : list R) :
  reachable net h -> length w = n_weights net ->
  exists h' theta,
    set_weights net w h = (h', Ok tt) /\
    objs h' = objs h /\
    read_flat (weights net) h' = (h', Ok w) /\
    get_theta net None h' = (h', Ok theta) /\
    read_theta theta h' = (h', Ok (None :: map Some (blocks (dimensions net) w))).
Proof.
  intros Hreach Hlen. apply reachable_net_ok in Hreach. destruct Hreach as [wb Hok].
  assert (Hok' := Hok).
  destruct Hok' as (l0 & ls & _ & _ & _ & _ & _ & _ & Hw & (W & HW & HlW) & _).
  pose proof (set_weights_run net h wb w W Hok HW Hlen) as Hrun.
  set (h' := Heap (<[wb := w]> (bufs h)) (objs h)) in *.
  assert (net_ok h' net) as Hok2.
  { replace h' with (set_weights net w h).1 by (rewrite Hrun; reflexivity).
    apply (net_ok_after net h wb _ Hok). apply set_weights_evolves. exact Hok. }
  assert (read_flat (weights net) h' = (h', Ok w)) as Hread.
  { apply (read_flat_whole h' _ None wb (n_weights net)); [exact Hw | | exact Hlen].
    apply list_lookup_insert_eq. eapply lookup_lt_Some. exact HW. }
  destruct (theta_of_weights net h' w Hok2 Hread) as (theta & Hget & Hrd).
  exists h', theta. repeat split; assumption.
Qed.

(** [set_weights] with a list of one value sets every weight to it (numpy
    broadcasts it); a list of any other length than [n_weights] is refused
    with ValueError and nothing is written. *)
Theorem set_weights_other_lengths (net : t R) (h : heap R) :
  reachable net h ->
  (forall v, exists h',
     set_weights net [v] h = (h', Ok tt) /\
     read_flat (weights net) h' = (h', Ok (replicate (n_weights net) v))) /\
  (forall w, length w <> n_weights net -> length w <> 1 ->
     set_weights net w h = (h, Raise ValueError)).
Proof.
  intros Hreach. apply reachable_net_ok in Hreach. destruct Hreach as [wb Hok].
  destruct Hok as (l0 & ls & _ & _ & _ & _ & _ & _ & Hw & (W & HW & HlW) & _).
  split.
  - intros v. unfold set_weights. rewrite (assign_from_one h _ _ _ _ _ W 0 v Hw HW).
    rewrite Nat.min_0_l, Nat.add_0_l, take_0, Nat.sub_0_r, drop_ge by lia.
    rewrite app_nil_r. cbn [app]. eexists. split; [reflexivity|].
    apply (read_flat_whole _ _ None wb (n_weights net)); cbn [objs bufs].
    + exact Hw.
    + apply list_lookup_insert_eq. eapply lookup_lt_Some. exact HW.
    + apply length_replicate.
  - intros w Hlen H1. unfold set_weights.
    apply (assign_from_mismatch h _ _ (n_weights net) 0 w Hw eq_refl); [|exact H1].
    rewrite Nat.min_0_l, Nat.sub_0_r. exact Hlen.
Qed.

(** [set_inputs(x)] with [n_inputs] values writes them through the view
    [inputs] into the outputs array of the input layer, after its fixed
    first entry: that array is then [1.0] followed by [x].  A list of any
    other length, one value apart, is refused with ValueError. *)
Theorem set_inputs_writes_through (net : t R) (h : heap R) (x : list R) :
  reachable net h ->
  exists l0,
    layers net !! 0 = Some l0 /\
    (length x = n_inputs net ->
     exists h',
       set_inputs net x h = (h', Ok tt) /\
       objs h' = objs h /\
       read_flat (inputs net) h' = (h', Ok x) /\
       read_flat (MLPLayer.outputs l0) h' = (h', Ok (f1 :: x))) /\
    (length x <> n_inputs net -> length x <> 1 ->
     set_inputs net x h = (h, Raise ValueError)).
Proof.
  intros Hreach. apply reachable_net_ok in Hreach. destruct Hreach as [wb Hok].
  destruct Hok as (l0 & ls & Hl & _ & _ & Hni & _ & _ & _ & _ & Hout & _ & _ & _ & _
                   & (b0 & Hb0 & Hin)).
  rewrite Hl in Hout.
  inversion Hout as [|? ? (_ & b & buf & Hobj & Hne & Hbuf & Hlen & Hfirst) _]; subst.
  rewrite Hobj in Hb0. inversion Hb0; subst b0. clear Hb0.
  exists l0. split; [rewrite Hl; reflexivity|]. split.
  - intros Hx. unfold set_inputs.
    rewrite (assign_from_run h _ _ _ _ _ buf 0 x Hin Hbuf) by lia.
    rewrite Nat.min_0_l, Nat.add_0_r, drop_ge by lia. rewrite app_nil_r.
    assert (take 1 buf = [f1]) as -> by (destruct buf as [|y buf]; inversion Hfirst; reflexivity).
    cbn [app]. set (h' := Heap (<[b := f1 :: x]> (bufs h)) (objs h)).
    exists h'. split; [reflexivity|]. split; [reflexivity|].
    assert (bufs h' !! b = Some (f1 :: x)) as Hnew
      by (apply list_lookup_insert_eq; eapply lookup_lt_Some; exact Hbuf).
    split.
    + rewrite (read_flat_run h' (inputs net) _ (f1 :: x) Hin Hnew). cbn [nd_shape nd_off drop].
      rewrite drop_0, take_ge by (simpl; lia). reflexivity.
    + apply (read_flat_whole h' _ None b (MLPLayer.n_nodes l0 + 1));
        [exact Hobj | exact Hnew |].
      cbn [length]. lia.
  - intros Hx H1. unfold set_inputs.
    apply (assign_from_mismatch h _ _ (MLPLayer.n_nodes l0) 0 x Hin eq_refl); [|exact H1].
    rewrite Nat.min_0_l, Nat.sub_0_r, <- Hni. exact Hx.
Qed.
End Writes.

Lemma reachable_heap21 : reachable net21 heap21.
Proof.
  exact (reach_init net21 [2; 1] (Callable linear) (Callable linear_gradient) NameMse
           (Heap [] []) heap21 built21_ok).
Qed.

Lemma set_weights_shows_in_views_witness :
  exists h' theta,
    MLPNetwork.set_weights net21 [1; 2; 3]%float heap21 = (h', Ok tt) /\
    objs h' = objs heap21 /\
    read_flat (MLPNetwork.weights net21) h' = (h', Ok [1; 2; 3]%float) /\
    MLPNetwork.get_theta net21 None h' = (h', Ok theta) /\
    MLPNetwork.read_theta theta h'
    = (h', Ok (None :: map Some (blocks (MLPNetwork.dimensions net21) [1; 2; 3]%float))).
Proof.
  apply (set_weights_shows_in_views net21 heap21 [1; 2; 3]%float).
  - exact reachable_heap21.
  - reflexivity.
Defined.

Lemma set_weights_other_lengths_witness :
  (forall v, exists h',
     MLPNetwork.set_weights net21 [v] heap21 = (h', Ok tt) /\
     read_flat (MLPNetwork.weights net21) h'
     = (h', Ok (replicate (MLPNetwork.n_weights net21) v))) /\
  (forall w, length w <> MLPNetwork.n_weights net21 -> length w <> 1 ->
     MLPNetwork.set_weights net21 w heap21 = (heap21, Raise ValueError)).
Proof. apply (set_weights_other_lengths net21 heap21). exact reachable_heap21. Defined.

Lemma set_inputs_writes_through_witness :
  exists l0,
    MLPNetwork.layers net21 !! 0 = Some l0 /\
    (length [0.5; 2]%float = MLPNetwork.n_inputs net21 ->
     exists h',
       MLPNetwork.set_inputs net21 [0.5; 2]%float heap21 = (h', Ok tt) /\
       objs h' = objs heap21 /\
       read_flat (MLPNetwork.inputs net21) h' = (h', Ok [0.5; 2]%float) /\
       read_flat (MLPLayer.outputs l0) h' = (h', Ok (f1 :: [0.5; 2]%float))) /\
    (length [0.5; 2]%float <> MLPNetwork.n_inputs net21 -> length [0.5; 2]%float <> 1 ->
     MLPNetwork.set_inputs net21 [0.5; 2]%float heap21 = (heap21, Raise ValueError)).
Proof. apply (set_inputs_writes_through net21 heap21 [0.5; 2]%float). exact reachable_heap21. Defined.

(* ===================================================================== *)
(** * What [MLPNetwork.__init__] builds *)
(* ===================================================================== *)

Section Constructor.
Context {R : Type} `{Scalar R}.
Import MLPNetwork.

(** The outputs arrays of the layers the first loop makes: one new buffer
    each, holding [1.0] and zeros. *)
Lemma made_layers_on items : forall p (O : list ndarray) (B : list (list R)) Os Bs,
  Forall2 (fun l b =>
             objs (Heap (B ++ made_buffers items ++ Bs)
                        (O ++ made_outputs (length B) items ++ Os))
               !! MLPLayer.outputs l
             = Some (NdArray None b 0 [MLPLayer.n_nodes l + 1]) /\
             bufs (Heap (B ++ made_buffers items ++ Bs)
                        (O ++ made_outputs (length B) items ++ Os)) !! b
             = Some (f1 :: replicate (MLPLayer.n_nodes l) f0))
          (made_layers p (length O) items) (seq (length B) (length items)).
Proof.
  induction items as [|[d [a g]] items IH]; intros p O B Os Bs;
    cbn [made_layers length seq]; [constructor|].
  constructor.
  - cbn [MLPLayer.outputs MLPLayer.n_nodes made_outputs made_buffers map fst objs bufs].
    split; apply list_lookup_middle; reflexivity.
  - specialize (IH (S p) (O ++ [NdArray None (length B) 0 [d + 1]])
                   (B ++ [f1 :: replicate d f0]) Os Bs).
    rewrite !length_app in IH. cbn [length] in IH.
    replace (length O + 1) with (S (length O)) in IH by lia.
    replace (length B + 1) with (S (length B)) in IH by lia.
    rewrite <- !app_assoc in IH. cbn [app] in IH.
    cbn [made_outputs made_buffers map fst app]. exact IH.
Qed.

Lemma with_views_on (P : MLPLayer.t R -> nat -> Prop) (ls : list (MLPLayer.t R)) :
  (forall l v b, P l b -> P (MLPLayer.with_weights l v) b) ->
  forall v bs, Forall2 P ls bs -> Forall2 P (with_views v ls) bs.
Proof.
  intros HP. induction ls as [|l ls IH]; intros v bs Hall; inversion Hall; subst;
    cbn [with_views]; constructor; auto.
Qed.

Lemma with_views_length (ls : list (MLPLayer.t R)) : forall v,
  length (with_views v ls) = length ls.
Proof. induction ls as [|l ls IH]; intros v; cbn; [|rewrite IH]; reflexivity. Qed.

Lemma made_layers_length (items : list (nat * (option (R -> R) * option (R -> R)))) :
  forall p no, length (made_layers p no items) = length items.
Proof. induction items as [|[d [a g]] items IH]; intros; cbn; [|rewrite IH]; reflexivity. Qed.

(** [MLPNetwork.__init__] run forward: for a non-empty [ndim], a known
    cost function and activation functions of the right number it returns,
    and this is what it has built. *)
Lemma init_run (d0 : nat) ds af gf cf al gl (h0 : heap R) :
  cf <> NameOther ->
  func_lists (length (d0 :: ds)) af gf = Ok (al, gl) ->
  exists h net,
    init (d0 :: ds) af gf cf h0 = (h, Ok net) /\
    net_arrays h net /\
    (exists bs os, bufs h = bufs h0 ++ bs /\ objs h = objs h0 ++ os) /\
    read_flat (weights net) h = (h, Ok (replicate (n_weights net) f0)) /\
    Forall (fun l => read_flat (MLPLayer.outputs l) h
                     = (h, Ok (f1 :: replicate (MLPLayer.n_nodes l) f0))) (layers net) /\
    dimensions net = d0 :: ds /\ act_funcs net = al /\ grad_funcs net = gl.
Proof.
  intros Hcf Efl. unfold init.
  rewrite (run_bind_lift_ok _ _ _ d0 eq_refl).
  assert (exists n_out, py_last (d0 :: ds) = Ok n_out) as [n_out Elast].
  { unfold py_last. rewrite last_cons. destruct (last ds); eexists; reflexivity. }
  rewrite (run_bind_lift_ok _ _ _ n_out Elast).
  assert (exists kind, match cf with
                       | NameMse => Ok Mse | NameLog => Ok Log
                       | NameOther => Raise MLPError
                       end = Ok kind) as [kind Ek]
    by (destruct cf; [eexists; reflexivity | eexists; reflexivity | contradiction]).
  rewrite (run_bind_lift_ok _ _ _ kind Ek).
  rewrite (run_bind_lift_ok _ _ _ _ Efl).
  destruct (func_lists_shape _ _ _ _ _ Efl ltac:(cbn [length]; lia))
    as (as_ & g0 & gs & -> & -> & Las & Lgs & Has).
  cbn [fst snd zip zip_with for_eachM].
  assert (length as_ = length ds) as Las' by (cbn [length] in Las; lia).
  assert (length gs = length ds) as Lgs' by (cbn [length] in Lgs; lia).
  clear Las Lgs.
  set (items := zip ds (zip as_ gs)) in *.
  set (l0 := MLPLayer.Make d0 (d0 + 1) (length (objs h0)) None None g0 None).
  set (h1 := Heap (bufs h0 ++ [f1 :: replicate d0 f0])
                  (objs h0 ++ [NdArray None (length (bufs h0)) 0 [d0 + 1]])).
  assert (init_layers_step (d0, (None, g0)) ([], 0, None) h0
          = (h1, Ok ([] ++ [l0], 0, Some (length (@nil (MLPLayer.t R)))))) as Hstep0
    by (unfold init_layers_step;
        rewrite (run_bind_ok _ _ _ _ _ (layer_init_run h0 d0 None None g0));
        reflexivity).
  set (ml := made_layers 0 (length (objs h1)) items) in *.
  set (nw := 0 + sum_list (block_sizes (MLPLayer.n_nodes l0) (map fst items))) in *.
  set (h2 := Heap (bufs h1 ++ made_buffers items)
                  (objs h1 ++ made_outputs (length (bufs h1)) items)) in *.
  assert ((init_layers_step (d0, (None, g0)) ([], 0, None)
           ≫= fun s' => for_eachM init_layers_step items s') h0
          = (h2, Ok (([] ++ [l0]) ++ ml, nw, Some (0 + length items)))) as Hloop1
    by (rewrite (run_bind_ok _ _ _ _ _ Hstep0);
        apply (init_layers_loop items h1 [] l0 0 eq_refl)).
  rewrite (run_bind_ok _ _ _ _ _ Hloop1).
  cbn [fst snd app].
  set (wobj := NdArray None (length (bufs h2)) 0 [nw]) in *.
  set (h3 := Heap (bufs h2 ++ [replicate (size_of [nw]) f0]) (objs h2 ++ [wobj])) in *.
  assert (np_zeros [nw] h2 = (h3, Ok (length (objs h2)))) as Hz by reflexivity.
  rewrite (run_bind_ok _ _ _ _ _ Hz).
  rewrite (run_bind_lift_ok _ _ _ l0 eq_refl).
  set (wref := length (objs h2)) in *.
  set (wb := length (bufs h2)) in *.
  assert (map fst items = ds) as Hitems
    by (unfold items; apply fst_zip; rewrite length_zip_with; lia).
  assert (length items = length ds) as Hlitems
    by (rewrite <- (length_map fst items), Hitems; reflexivity).
  assert (map MLPLayer.n_nodes ml = ds) as Hml
    by (unfold ml; rewrite made_layers_n_nodes; exact Hitems).
  destruct (init_weights_loop wref wb nw ml h3 [l0] 0 l0) as [lastl Hloop2];
    [ apply lookup_at_end
    | reflexivity
    | apply made_layers_n_outputs
    | rewrite Hml; unfold nw; rewrite Hitems; cbn [MLPLayer.n_nodes l0]; lia
    | ].
  set (mv := made_views wref wb 0 (MLPLayer.n_nodes l0) ml) in *.
  set (h4 := Heap (bufs h3) (objs h3 ++ mv)) in *.
  unfold enumerate. cbn [drop].
  cbn [length] in Hloop2.
  rewrite (run_bind_ok _ _ _ _ _ Hloop2).
  cbn [fst snd app].
  rewrite (run_bind_lift_ok _ _ _ l0 eq_refl).
  set (o0 := NdArray None (length (bufs h0)) 0 [d0 + 1]) in *.
  assert (objs h4 !! MLPLayer.outputs l0 = Some o0) as Ho0
    by (unfold h4, h3, h2, h1; cbn [objs MLPLayer.outputs l0];
        do 3 apply lookup_app_l_Some; apply lookup_at_end).
  rewrite (run_bind_ok _ _ _ _ _ (slice_run h4 _ o0 (d0 + 1) [] 1 None Ho0 eq_refl)).
  cbn [base_of nd_base nd_buf nd_off o0 default size_of fold_right].
  replace (0 + Nat.min 1 (d0 + 1) * 1) with 1 by lia.
  replace (Nat.min (d0 + 1) (d0 + 1) - Nat.min 1 (d0 + 1)) with d0 by lia.
  set (inview := NdArray (Some (MLPLayer.outputs l0)) (length (bufs h0)) 1 [d0]) in *.
  set (h5 := Heap (bufs h4) (objs h4 ++ [inview])) in *.
  set (layers2 := l0 :: with_views (length (objs h3)) ml) in *.
  assert (h5 = Heap (bufs h1 ++ made_buffers items ++ [replicate (size_of [nw]) f0])
                    (objs h1 ++ made_outputs (length (bufs h1)) items
                             ++ ([wobj] ++ mv ++ [inview]))) as Hh5
    by (unfold h5, h4, h3, h2; cbn [bufs objs]; rewrite <- !app_assoc; reflexivity).
  set (P := fun (h : heap R) (l : MLPLayer.t R) (b : nat) =>
              objs h !! MLPLayer.outputs l = Some (NdArray None b 0 [MLPLayer.n_nodes l + 1]) /\
              bufs h !! b = Some (f1 :: replicate (MLPLayer.n_nodes l) f0)).
  set (bs := length (bufs h0) :: seq (length (bufs h1)) (length items)).
  assert (Forall2 (P h5) layers2 bs) as Hon.
  { unfold layers2, bs. constructor.
    - split.
      + unfold h5. cbn [objs]. apply lookup_app_l_Some. exact Ho0.
      + rewrite Hh5. unfold h1. cbn [bufs MLPLayer.n_nodes l0]. rewrite <- app_assoc.
        apply list_lookup_middle. reflexivity.
    - apply with_views_on; [intros l v b Hl; exact Hl|].
      rewrite Hh5. apply made_layers_on. }
  assert (NoDup bs) as Hnd.
  { unfold bs. constructor; [|apply NoDup_seq].
    intros Hin. apply elem_of_seq in Hin. unfold h1 in Hin. cbn [bufs] in Hin.
    rewrite length_app in Hin. cbn [length] in Hin. lia. }
  assert (length layers2 = S (length ds)) as Hll
    by (unfold layers2, ml; cbn [length];
        rewrite with_views_length, made_layers_length, Hlitems; reflexivity).
  assert (exists lN, layers2 !! (length (d0 :: ds) - 1) = Some lN) as [lN HlN].
  { apply lookup_lt_is_Some_2. rewrite Hll. cbn [length]. lia. }
  destruct (Forall2_lookup_l _ _ _ _ _ Hon HlN) as (bN & HbN & HoN & HbufN).
  unfold py_index. rewrite HlN, (run_bind_lift_ok _ _ _ lN eq_refl).
  fold h5.
  rewrite (run_bind_ok _ _ _ _ _ (slice_run h5 _ _ (MLPLayer.n_nodes lN + 1) [] 1 None
                                    HoN eq_refl)).
  cbn [base_of nd_base nd_buf nd_off default size_of fold_right].
  replace (0 + Nat.min 1 (MLPLayer.n_nodes lN + 1) * 1) with 1 by lia.
  replace (Nat.min (MLPLayer.n_nodes lN + 1) (MLPLayer.n_nodes lN + 1)
           - Nat.min 1 (MLPLayer.n_nodes lN + 1)) with (MLPLayer.n_nodes lN) by lia.
  set (outview := NdArray (Some (MLPLayer.outputs lN)) bN 1 [MLPLayer.n_nodes lN]).
  set (h6 := Heap (bufs h5) (objs h5 ++ [outview])).
  eexists h6, _. split; [reflexivity|].
  cbn [layers dimensions n_weights weights outputs act_funcs grad_funcs].
  assert (Forall2 (P h6) layers2 bs) as Hon6.
  { eapply Forall2_impl; [exact Hon|]. intros l b [Ho Hb]. split; [|exact Hb].
    unfold h6. cbn [objs]. apply lookup_app_l_Some. exact Ho. }
  split; [|split; [|split; [|split; [|repeat split]]]].
  - exists bs. cbn [layers outputs]. split; [exact Hnd|]. split.
    + eapply Forall2_impl; [exact Hon6|]. intros l b [Ho _]. exact Ho.
    + exists lN, bN. rewrite Hll. cbn [length] in HlN, HbN.
      replace (S (length ds) - 1) with (length ds) in * by lia.
      split; [exact HlN|]. split; [exact HbN|]. unfold h6. cbn [objs]. apply lookup_at_end.
  - eexists _, _. unfold h6. rewrite Hh5. unfold h1. cbn [bufs objs].
    rewrite <- !app_assoc. split; reflexivity.
  - replace (replicate nw f0) with (replicate (size_of [nw]) f0)
      by (f_equal; simpl; lia).
    apply (read_flat_whole h6 _ None wb nw).
    + unfold h6, h5, h4. cbn [objs]. do 3 apply lookup_app_l_Some. apply lookup_at_end.
    + unfold h6, h5, h4, h3. cbn [bufs]. apply lookup_at_end.
    + rewrite !length_replicate. simpl. lia.
  - eapply Forall2_Forall_l; [exact Hon6|]. apply Forall_forall. intros b _ l [Ho Hb].
    apply (read_flat_whole h6 _ None b (MLPLayer.n_nodes l + 1)); [exact Ho | exact Hb |].
    cbn [length]. rewrite length_replicate. lia.
Qed.

Lemma run_action_evolves wb (net : t R) (a : action R) (h : heap R) :
  net_ok_at wb h net -> evolves wb h (run_action net a h).
Proof.
  intros Hok. destruct a; cbn [run_action].
  - unfold set_weights. apply set_weights_evolves. exact Hok.
  - apply set_inputs_evolves. exact Hok.
  - unfold initialize_weights. apply set_weights_evolves. exact Hok.
  - apply feed_forward_evolves. exact Hok.
  - destruct (layers net !! j) as [l|] eqn:El; [|apply evolves_refl].
    apply calculate_outputs_evolves.
    destruct Hok as (l0 & ls & _ & _ & _ & _ & _ & _ & _ & _ & Hout & _).
    rewrite Forall_forall in Hout. apply Hout. eapply list_elem_of_lookup_2. exact El.
  - apply frames_evolves. eapply frames_weaken; [apply frames_new_array | trivial].
  - apply frames_evolves. apply frames_get_theta.
  - apply frames_evolves. apply frames_predict_seq. discriminate.
  - apply frames_evolves. apply frames_predict_seq. discriminate.
  - apply frames_evolves. apply frames_cost_mse.
  - apply frames_evolves. apply frames_cost_log.
Qed.

Lemma net_arrays_evolves wb (h h' : heap R) net :
  evolves wb h h' -> net_arrays h net -> net_arrays h' net.
Proof.
  intros [Hobj _] (bs & Hnd & Hon & lN & bN & HlN & HbN & Hout).
  exists bs. split; [exact Hnd|]. split.
  - eapply Forall2_impl; [exact Hon|]. intros l b Hl. apply Hobj. exact Hl.
  - exists lN, bN. repeat split; try assumption. apply Hobj. exact Hout.
Qed.

(** A constructed network was built as [init_run] says. *)
Lemma init_inv ndim af gf cf (h0 h : heap R) net :
  init ndim af gf cf h0 = (h, Ok net) ->
  exists d0 ds al gl,
    ndim = d0 :: ds /\ cf <> NameOther /\ func_lists (length ndim) af gf = Ok (al, gl).
Proof.
  intros Hinit. unfold init in Hinit.
  destruct ndim as [|d0 ds]; [discriminate|].
  rewrite (run_bind_lift_ok _ _ _ d0 eq_refl) in Hinit.
  destruct (py_last (d0 :: ds)) as [n_out|] eqn:Elast; [|discriminate].
  rewrite (run_bind_lift_ok _ _ _ n_out eq_refl) in Hinit.
  destruct cf; [| |discriminate].
  all: rewrite (run_bind_lift_ok _ _ _ _ eq_refl) in Hinit.
  all: destruct (func_lists (length (d0 :: ds)) af gf) as [[al gl]|] eqn:Efl; [|discriminate].
  all: exists d0, ds, al, gl; repeat split; discriminate.
Qed.

Lemma reachable_arrays (net : t R) (h : heap R) : reachable net h -> net_arrays h net.
Proof.
  induction 1 as [ndim af gf cf h0 h Hinit | a h Hreach IH].
  - destruct (init_inv _ _ _ _ _ _ _ Hinit) as (d0 & ds & al & gl & -> & Hcf & Efl).
    destruct (init_run d0 ds af gf cf al gl h0 Hcf Efl) as (h' & net' & Hrun & Harr & _).
    rewrite Hinit in Hrun. injection Hrun as -> ->. exact Harr.
  - destruct (reachable_net_ok net h Hreach) as [wb Hok].
    eapply net_arrays_evolves; [apply run_action_evolves; exact Hok | exact IH].
Qed.

(** The constructor, given a non-empty list of dimensions, ['mse'] or
    ['log'] and activation functions that fit, returns a network of these
    dimensions with one layer per dimension and
    [sum of ndim[j] * (ndim[j-1] + 1)] weights, all [0.0]; the outputs array
    of every layer is [1.0] followed by zeros; and the arrays that existed
    before are as they were. *)
Theorem constructor_builds_network ndim af gf cf al gl (h0 : heap R) :
  ndim <> [] -> cf <> NameOther ->
  func_lists (length ndim) af gf = Ok (al, gl) ->
  exists h net,
    init ndim af gf cf h0 = (h, Ok net) /\
    dimensions net = ndim /\
    map MLPLayer.n_nodes (layers net) = ndim /\
    n_layers net = length ndim /\
    n_weights net = weight_count ndim /\
    read_flat (weights net) h = (h, Ok (replicate (weight_count ndim) f0)) /\
    Forall (fun l => read_flat (MLPLayer.outputs l) h
                     = (h, Ok (f1 :: replicate (MLPLayer.n_nodes l) f0))) (layers net) /\
    (exists bs os, bufs h = bufs h0 ++ bs /\ objs h = objs h0 ++ os).
Proof.
  intros Hne Hcf Efl. destruct ndim as [|d0 ds]; [contradiction|].
  destruct (init_run d0 ds af gf cf al gl h0 Hcf Efl)
    as (h & net & Hrun & _ & Hext & Hw & Hout & Hd & _).
  destruct (init_net_ok _ _ _ _ _ _ _ Hrun)
    as (wb & l0 & ls & _ & Hdims & Hnl & _ & _ & Hnw & _).
  exists h, net. rewrite Hd in *. rewrite <- Hnw.
  repeat split; assumption.
Qed.

(** The constructor's errors, each raised before anything is allocated:
    an empty list of dimensions is an IndexError; a cost function other
    than ['mse'] and ['log'] an MLPError; a sequence of activation functions
    whose length is not the number of layers after the input layer, or one
    that comes with gradient functions that are not a sequence of that
    length, a ValueError. *)
Theorem constructor_errors (h0 : heap R) :
  (forall af gf cf, init [] af gf cf h0 = (h0, Raise IndexError)) /\
  (forall ndim af gf, ndim <> [] -> init ndim af gf NameOther h0 = (h0, Raise MLPError)) /\
  (forall ndim fs gf cf, ndim <> [] -> cf <> NameOther ->
     length fs <> length ndim - 1 ->
     init ndim (Sequence fs) gf cf h0 = (h0, Raise ValueError)) /\
  (forall ndim fs g cf, ndim <> [] -> cf <> NameOther ->
     init ndim (Sequence fs) (Callable g) cf h0 = (h0, Raise ValueError)) /\
  (forall ndim fs gs cf, ndim <> [] -> cf <> NameOther ->
     length gs <> length ndim - 1 ->
     init ndim (Sequence fs) (Sequence gs) cf h0 = (h0, Raise ValueError)).
Proof.
  assert (forall d0 ds af gf cf, cf <> NameOther ->
            func_lists (length (d0 :: ds)) af gf = Raise ValueError ->
            init (d0 :: ds) af gf cf h0 = (h0, Raise ValueError)) as Hfl.
  { intros d0 ds af gf cf Hcf Efl. unfold init.
    rewrite (run_bind_lift_ok _ _ _ d0 eq_refl).
    assert (exists n_out, py_last (d0 :: ds) = Ok n_out) as [n_out Elast].
    { unfold py_last. rewrite last_cons. destruct (last ds); eexists; reflexivity. }
    rewrite (run_bind_lift_ok _ _ _ n_out Elast).
    destruct cf; [| |contradiction].
    all: rewrite (run_bind_lift_ok _ _ _ _ eq_refl).
    all: apply (run_bind_lift_raise _ _ _ _ Efl). }
  split; [reflexivity|]. split; [|split; [|split]].
  - intros [|d0 ds] af gf Hne; [contradiction|]. unfold init.
    rewrite (run_bind_lift_ok _ _ _ d0 eq_refl).
    assert (exists n_out, py_last (d0 :: ds) = Ok n_out) as [n_out Elast].
    { unfold py_last. rewrite last_cons. destruct (last ds); eexists; reflexivity. }
    rewrite (run_bind_lift_ok _ _ _ n_out Elast). reflexivity.
  - intros [|d0 ds] fs gf cf Hne Hcf Hlen; [contradiction|]. apply Hfl; [exact Hcf|].
    unfold func_lists. cbn [length] in *. rewrite length_map.
    replace (S (length fs) =? S (length ds)) with false
      by (symmetry; apply Nat.eqb_neq; lia).
    reflexivity.
  - intros [|d0 ds] fs g cf Hne Hcf; [contradiction|]. apply Hfl; [exact Hcf|].
    unfold func_lists. destruct (negb _); reflexivity.
  - intros [|d0 ds] fs gs cf Hne Hcf Hlen; [contradiction|]. apply Hfl; [exact Hcf|].
    unfold func_lists. cbn [length] in *. rewrite !length_map.
    destruct (negb (S (length fs) =? S (length ds))); [reflexivity|].
    replace (S (length gs) =? S (length ds)) with false
      by (symmetry; apply Nat.eqb_neq; lia).
    reflexivity.
Qed.
End Constructor.

Lemma constructor_builds_network_witness :
  exists h net,
    MLPNetwork.init [2; 2; 1] (Callable linear) (Callable linear_gradient) NameMse
                    (Heap [] []) = (h, Ok net) /\
    MLPNetwork.dimensions net = [2; 2; 1] /\
    map MLPLayer.n_nodes (MLPNetwork.layers net) = [2; 2; 1] /\
    MLPNetwork.n_layers net = length [2; 2; 1] /\
    MLPNetwork.n_weights net = weight_count [2; 2; 1] /\
    read_flat (MLPNetwork.weights net) h
    = (h, Ok (replicate (weight_count [2; 2; 1]) (f0 : float))) /\
    Forall (fun l => read_flat (MLPLayer.outputs l) h
                     = (h, Ok (f1 :: replicate (MLPLayer.n_nodes l) f0)))
           (MLPNetwork.layers net) /\
    (exists bs os, bufs h = bufs (Heap (R := float) [] []) ++ bs
                   /\ objs h = objs (Heap (R := float) [] []) ++ os).
Proof.
  apply (constructor_builds_network [2; 2; 1] (Callable linear) (Callable linear_gradient)
           NameMse [None; Some linear; Some linear]
           [None; Some linear_gradient; Some linear_gradient] (Heap [] []));
    [discriminate | discriminate | reflexivity].
Defined.

(* ===================================================================== *)
(** * [feed_forward] *)
(* ===================================================================== *)

Section FeedForward.
Context {R : Type} `{Scalar R}.
Import MLPNetwork.

(** One call of [calculate_outputs]: the outputs array of the layer is
    [1.0] followed by the activations. *)
Lemma calculate_outputs_run (lays : list (MLPLayer.t R)) (l lp : MLPLayer.t R) (h : heap R)
    p v base wb first d Wbuf bp out_prev g b old :
  MLPLayer.input_layer l = Some p -> lays !! p = Some lp ->
  MLPLayer.weights l = Some v ->
  objs h !! v = Some (NdArray base wb first [d; MLPLayer.n_nodes lp + 1]) ->
  bufs h !! wb = Some Wbuf ->
  objs h !! MLPLayer.outputs lp = Some (NdArray None bp 0 [MLPLayer.n_nodes lp + 1]) ->
  bufs h !! bp = Some (f1 :: out_prev) -> length out_prev = MLPLayer.n_nodes lp ->
  MLPLayer.act_func l = Some g ->
  objs h !! MLPLayer.outputs l = Some (NdArray None b 0 [d + 1]) ->
  bufs h !! b = Some old -> length old = d + 1 -> old !! 0 = Some f1 ->
  MLPLayer.calculate_outputs lays l h
  = (Heap (<[b := f1 :: layer_out
                         (reshape2 d (MLPLayer.n_nodes lp + 1)
                                   (take (d * (MLPLayer.n_nodes lp + 1)) (drop first Wbuf)))
                         g out_prev]> (bufs h))
          (objs h), Ok tt).
Proof.
  intros Hin Hlp Hw Hv HW Hop Hbp Hlen Hg Ho Hb Hlold Hfirst.
  unfold MLPLayer.calculate_outputs. rewrite Hin, Hlp, Hw.
  rewrite (run_bind_lift_ok _ _ _ lp eq_refl).
  rewrite (run_bind_ok _ _ _ _ _ (read2_run h v _ d _ Wbuf Hv eq_refl HW)). cbn [nd_off].
  assert (read1 (MLPLayer.outputs lp) h = (h, Ok (f1 :: out_prev))) as Hr1.
  { unfold read1. rewrite (run_bind_ok _ _ _ _ _ (run_get_obj h _ _ Hop)). cbn [nd_shape].
    apply (read_flat_whole h _ None bp (MLPLayer.n_nodes lp + 1) _ Hop Hbp).
    cbn [length]. lia. }
  rewrite (run_bind_ok _ _ _ _ _ Hr1).
  set (Wm := reshape2 d (MLPLayer.n_nodes lp + 1) _).
  assert (np_dot_mv Wm (f1 :: out_prev)
          = Ok (map (fun w => inner w (f1 :: out_prev)) (mrows Wm))) as Hdot.
  { unfold np_dot_mv. unfold Wm at 1. cbn [ncols reshape2 length].
    replace (MLPLayer.n_nodes lp + 1 =? S (length out_prev)) with true
      by (symmetry; apply Nat.eqb_eq; lia).
    reflexivity. }
  rewrite (run_bind_lift_ok _ _ _ _ Hdot), Hg.
  rewrite (run_bind_lift_ok _ _ _ _ eq_refl).
  fold (layer_out Wm g out_prev).
  assert (length (layer_out Wm g out_prev) = d) as Hla
    by (unfold layer_out, Wm, reshape2; cbn [mrows]; rewrite !length_map, length_seq;
        reflexivity).
  rewrite (assign_from_run h _ None b 0 (d + 1) old 1 _ Ho Hb) by (rewrite Hla; lia).
  rewrite Hla. replace (Nat.min 1 (d + 1)) with 1 by lia.
  rewrite drop_ge by lia. rewrite app_nil_r. cbn [Nat.add].
  assert (take 1 old = [f1]) as -> by (destruct old as [|y old]; inversion Hfirst; reflexivity).
  reflexivity.
Qed.

Lemma views_chain_same_objs (h h' : heap R) wref wb (ls : list (MLPLayer.t R)) :
  objs h' = objs h ->
  forall first prev, views_chain h wref wb first prev ls -> views_chain h' wref wb first prev ls.
Proof.
  intros Hobjs. induction ls as [|l ls IH]; intros first prev; cbn [views_chain]; [auto|].
  intros [(v & Hw & Hv) Hrest]. split; [|apply IH; exact Hrest].
  exists v. rewrite Hobjs. auto.
Qed.

(** The loop of [feed_forward] from the layer after [lp] on. *)
Lemma feed_forward_loop (net : t R) wref wb Wbuf :
  forall ls_rest bs_rest hc front lp bp out_prev first,
    layers net = front ++ lp :: ls_rest ->
    objs hc !! MLPLayer.outputs lp = Some (NdArray None bp 0 [MLPLayer.n_nodes lp + 1]) ->
    bufs hc !! bp = Some (f1 :: out_prev) -> length out_prev = MLPLayer.n_nodes lp ->
    bufs hc !! wb = Some Wbuf ->
    views_chain hc wref wb first (MLPLayer.n_nodes lp) ls_rest ->
    links_ok (length front) ls_rest ->
    Forall2 (fun l b =>
               objs hc !! MLPLayer.outputs l
               = Some (NdArray None b 0 [MLPLayer.n_nodes l + 1]) /\
               exists old, bufs hc !! b = Some old /\
                           length old = MLPLayer.n_nodes l + 1 /\ old !! 0 = Some f1)
            ls_rest bs_rest ->
    NoDup (bp :: bs_rest) -> ~ In wb (bp :: bs_rest) ->
    exists hf out,
      for_eachM (fun layer (_ : unit) => MLPLayer.calculate_outputs (layers net) layer)
                ls_rest tt hc = (hf, Ok tt) /\
      objs hf = objs hc /\
      bufs hf !! wb = Some Wbuf /\
      out = forward_row
              (map fst (zip_with (fun Wj l => (Wj, fn_of (MLPLayer.act_func l),
                                               fn_of (MLPLayer.grad_func l)))
                                 (carve (MLPLayer.n_nodes lp) (map MLPLayer.n_nodes ls_rest)
                                        (drop first Wbuf))
                                 ls_rest))
              out_prev /\
      bufs hf !! default bp (last bs_rest) = Some (f1 :: out) /\
      length out = default (MLPLayer.n_nodes lp) (last (map MLPLayer.n_nodes ls_rest)).
Proof.
  induction ls_rest as [|l ls IH];
    intros bs_rest hc front lp bp out_prev first Hl Hop Hbp Hlen HW Hch Hlk HF Hnd Hwb.
  - inversion HF; subst. exists hc, out_prev. cbn. repeat split; auto.
  - inversion HF as [|? b ? bs' (Ho & old & Hb & Hlold & Hfirst) HF']; subst.
    cbn [views_chain] in Hch. destruct Hch as [(v & Hw & Hv) Hch].
    cbn [links_ok] in Hlk. destruct Hlk as (Hin & [g Hg] & Hlk).
    assert (layers net !! length front = Some lp) as Hlp
      by (rewrite Hl; apply list_lookup_middle; reflexivity).
    pose proof (calculate_outputs_run (layers net) l lp hc (length front) v (Some wref) wb
                  first (MLPLayer.n_nodes l) Wbuf bp out_prev g b old
                  Hin Hlp Hw Hv HW Hop Hbp Hlen Hg Ho Hb Hlold Hfirst) as Hstep.
    set (Wm := reshape2 (MLPLayer.n_nodes l) (MLPLayer.n_nodes lp + 1) _) in Hstep.
    set (a := layer_out Wm g out_prev) in Hstep.
    set (hc' := Heap (<[b := f1 :: a]> (bufs hc)) (objs hc)) in Hstep.
    assert (length a = MLPLayer.n_nodes l) as Hla
      by (unfold a, layer_out, Wm, reshape2; cbn [mrows]; rewrite !length_map, length_seq;
          reflexivity).
    apply NoDup_cons in Hnd. destruct Hnd as [Hbp_in Hnd].
    assert (Hnd' := Hnd). apply NoDup_cons in Hnd'. destruct Hnd' as [Hb_in Hnd'].
    assert (b <> bp) as Hbbp by (intros ->; apply Hbp_in; left).
    assert (b <> wb) as Hbwb by (intros ->; apply Hwb; right; left; reflexivity).
    assert (forall b', b' <> b -> bufs hc' !! b' = bufs hc !! b') as Hother
      by (intros b' Hne; cbn [hc' bufs]; apply list_lookup_insert_ne; congruence).
    destruct (IH bs' hc' (front ++ [lp]) l b a (first + MLPLayer.n_nodes l * (MLPLayer.n_nodes lp + 1)))
      as (hf & out & Hrun & Hobjs & HWf & Hout & Hlast & Hlout).
    + rewrite <- app_assoc. exact Hl.
    + exact Ho.
    + cbn [hc' bufs]. apply list_lookup_insert_eq. eapply lookup_lt_Some. exact Hb.
    + exact Hla.
    + rewrite Hother by congruence. exact HW.
    + apply (views_chain_same_objs hc hc'); [reflexivity | exact Hch].
    + rewrite length_app. cbn [length]. rewrite Nat.add_1_r. exact Hlk.
    + clear -HF' Hother Hb_in. induction HF' as [|l' b' ls' bs'' (Ho' & old' & Hb' & Hr) _ IH'];
        constructor.
      * split; [exact Ho'|]. exists old'. rewrite Hother; [auto|].
        intros ->. apply Hb_in. apply list_elem_of_In. left. reflexivity.
      * apply IH'. intros Hin. apply Hb_in. apply list_elem_of_In. right.
        apply list_elem_of_In. exact Hin.
    + exact Hnd.
    + intros [->|Hin']; [congruence|]. apply Hwb. right. right. exact Hin'.
    + exists hf, out. cbn [for_eachM].
      rewrite (run_bind_ok _ _ _ _ _ Hstep). split; [exact Hrun|].
      split; [rewrite Hobjs; reflexivity|]. split; [exact HWf|].
      split; [|split].
      * rewrite Hout. cbn [map carve zip_with forward_row fold_left fst snd].
        rewrite Hg. cbn [fn_of default]. rewrite drop_drop. reflexivity.
      * rewrite default_last_cons. exact Hlast.
      * rewrite Hlout. cbn [map]. rewrite last_default_cons. reflexivity.
Qed.

Lemma lookup_last_cons {X} (x : X) (l : list X) :
  (x :: l) !! length l = Some (default x (last l)).
Proof.
  revert x. induction l as [|y l IH]; intros x; [reflexivity|].
  cbn [length]. change ((x :: y :: l) !! S (length l)) with ((y :: l) !! length l).
  rewrite IH, default_last_cons. reflexivity.
Qed.

(** The outputs arrays of the layers, with their buffers. *)
Lemma outputs_buffers (h h' : heap R) wb (ls : list (MLPLayer.t R)) (bs : list nat) :
  objs h' = objs h -> (forall b, In b bs -> bufs h' !! b = bufs h !! b) ->
  Forall (outputs_ok h wb) ls -> outputs_on h ls bs ->
  Forall2 (fun l b =>
             objs h' !! MLPLayer.outputs l
             = Some (NdArray None b 0 [MLPLayer.n_nodes l + 1]) /\
             exists old, bufs h' !! b = Some old /\
                         length old = MLPLayer.n_nodes l + 1 /\ old !! 0 = Some f1)
          ls bs /\
  ~ In wb bs.
Proof.
  intros Hobjs Hsame Hok Hon. unfold outputs_on in Hon.
  induction Hon as [|l b ls bs Ho Hon IH]; [split; [constructor | intros []]|].
  inversion Hok as [|? ? (_ & b' & buf & Ho' & Hne & Hb & Hlen & Hfirst) Hok']; subst.
  rewrite Ho in Ho'. inversion Ho'; subst b'.
  destruct IH as [IH1 IH2]; [intros b1 Hb1; apply Hsame; right; exact Hb1 | exact Hok' |].
  split.
  - constructor; [|exact IH1]. rewrite Hobjs. split; [exact Ho|].
    exists buf. rewrite Hsame by (left; reflexivity). auto.
  - intros [->|Hin]; [congruence | exact (IH2 Hin)].
Qed.

(** [set_inputs(x)] and then [feed_forward()] on a network in order. *)
Lemma feed_forward_run (net : t R) (h : heap R) wb (x W : list R) :
  net_ok_at wb h net -> net_arrays h net -> length x = n_inputs net ->
  read_flat (weights net) h = (h, Ok W) ->
  exists h1 h2,
    set_inputs net x h = (h1, Ok tt) /\
    feed_forward net h1 = (h2, Ok tt) /\
    read_flat (outputs net) h2 = (h2, Ok (forward_row (map fst (layers_of net W)) x)) /\
    read_flat (weights net) h2 = (h2, Ok W) /\
    objs h2 = objs h.
Proof.
  intros Hok Harr Hx HreadW.
  destruct Hok as (l0 & ls & Hl & Hdims & _ & Hni & _ & _ & Hw & (W' & HW & HlW) & Hout
                   & _ & _ & Hch & Hlk & (b0 & Hb0 & Hin)).
  rewrite (read_flat_whole h _ None wb _ W' Hw HW HlW) in HreadW.
  injection HreadW as ->.
  destruct Harr as (bs & Hnd & Hon & lN & bN & HlN & HbN & Hnout).
  rewrite Hl in Hon, Hout, HlN, HbN. cbn [length] in HlN, HbN.
  replace (S (length ls) - 1) with (length ls) in HlN, HbN by lia.
  unfold outputs_on in Hon.
  inversion Hon as [|? b0' ? bs_rest Ho0 Hon']; subst.
  rewrite Hb0 in Ho0. inversion Ho0; subst b0'. clear Ho0.
  inversion Hout as [|? ? (_ & b' & buf0 & Ho0 & Hne0 & Hbuf0 & Hlen0 & Hfirst0) Hout'];
    subst.
  rewrite Hb0 in Ho0. inversion Ho0; subst b'. clear Ho0.
  (* set_inputs *)
  assert (set_inputs net x h = (Heap (<[b0 := f1 :: x]> (bufs h)) (objs h), Ok tt)) as Hset.
  { unfold set_inputs. rewrite (assign_from_run h _ _ _ _ _ buf0 0 x Hin Hbuf0) by lia.
    rewrite Nat.min_0_l, Nat.add_0_r, drop_ge by lia. rewrite app_nil_r.
    assert (take 1 buf0 = [f1]) as ->
        by (destruct buf0 as [|y buf0]; inversion Hfirst0; reflexivity).
    reflexivity. }
  set (h1 := Heap (<[b0 := f1 :: x]> (bufs h)) (objs h)) in *.
  apply NoDup_cons in Hnd. destruct Hnd as [Hb0_in Hnd'].
  assert (forall b, In b bs_rest -> bufs h1 !! b = bufs h !! b) as Hsame.
  { intros b Hb. cbn [h1 bufs]. apply list_lookup_insert_ne. intros <-.
    apply Hb0_in. apply list_elem_of_In. exact Hb. }
  destruct (outputs_buffers h h1 wb ls bs_rest eq_refl Hsame Hout' Hon') as [HF Hwb].
  assert (length ls = length bs_rest) as Hlens by (eapply Forall2_length; exact Hon').
  destruct (feed_forward_loop net (weights net) wb W ls bs_rest h1 [] l0 b0 x 0)
    as (h2 & out & Hrun & Hobjs & HWf & Hout2 & Hlast & Hlout).
  - exact Hl.
  - exact Hb0.
  - cbn [h1 bufs]. apply list_lookup_insert_eq. eapply lookup_lt_Some. exact Hbuf0.
  - lia.
  - cbn [h1 bufs]. rewrite list_lookup_insert_ne by congruence. exact HW.
  - apply (views_chain_same_objs h h1); [reflexivity | exact Hch].
  - exact Hlk.
  - exact HF.
  - apply NoDup_cons. split; assumption.
  - intros [<-|Hin']; [congruence | exact (Hwb Hin')].
  - exists h1, h2. split; [exact Hset|]. split.
    + unfold feed_forward.
      rewrite (run_bind_ok _ _ _ _ _ (run_get_obj h1 _ _ Hin)). rewrite Hl at 1.
      cbn [py_index lookup list_lookup]. rewrite (run_bind_lift_ok _ _ _ l0 eq_refl).
      cbn [nd_base]. rewrite bool_decide_true by reflexivity. cbn [negb].
      replace (drop 1 (layers net)) with ls by (rewrite Hl; reflexivity). exact Hrun.
    + split; [|split; [|exact Hobjs]].
      * rewrite lookup_last_cons in HlN. injection HlN as HlN.
        rewrite Hlens, lookup_last_cons in HbN. injection HbN as HbN.
        assert (objs h2 !! outputs net
                = Some (NdArray (Some (MLPLayer.outputs lN)) bN 1 [MLPLayer.n_nodes lN]))
          as Ho2 by (rewrite Hobjs; exact Hnout).
        rewrite <- HbN in Ho2.
        rewrite (read_flat_run h2 _ _ (f1 :: out) Ho2 Hlast). cbn [nd_shape nd_off drop].
        rewrite drop_0, take_ge.
        -- rewrite Hout2. unfold layers_of. rewrite <- Hdims, Hl. reflexivity.
        -- rewrite Hlout, <- HlN. cbn [size_of fold_right].
           rewrite fmap_last. destruct (last ls); cbn; lia.
      * apply (read_flat_whole h2 _ None wb (n_weights net)); [|exact HWf | exact HlW].
        rewrite Hobjs. exact Hw.
Qed.

(** [set_inputs(x)] and then [feed_forward()]: the call returns, and the
    array [outputs] of the network holds the activations of the last
    layer, computed layer after layer from [x] with the weight blocks of
    the network: each layer's activations are
    [act_func(np.dot(weights, [1.0] + activations of the layer before))].
    The weights are as they were and no array object is changed. *)
Theorem feed_forward_fills_outputs (net : t R) (h : heap R) (x W : list R) :
  reachable net h -> length x = n_inputs net ->
  read_flat (weights net) h = (h, Ok W) ->
  exists h1 h2,
    set_inputs net x h = (h1, Ok tt) /\
    feed_forward net h1 = (h2, Ok tt) /\
    read_flat (outputs net) h2 = (h2, Ok (forward_row (map fst (layers_of net W)) x)) /\
    read_flat (weights net) h2 = (h2, Ok W) /\
    objs h2 = objs h.
Proof.
  intros Hreach Hx HreadW. pose proof (reachable_arrays net h Hreach) as Harr.
  apply reachable_net_ok in Hreach. destruct Hreach as [wb Hok].
  exact (feed_forward_run net h wb x W Hok Harr Hx HreadW).
Qed.

Lemma nth_nil_default {X} (j : nat) (d : X) : nth j [] d = d.
Proof. destruct j; reflexivity. Qed.

Lemma map_nth_seq_all {X} (l : list X) (d : X) :
  map (fun j => nth j l d) (seq 0 (length l)) = l.
Proof.
  induction l as [|x l IH]; [reflexivity|].
  cbn [length seq map nth]. f_equal. rewrite <- seq_shift, map_map. exact IH.
Qed.

(** Transposing twice gives the rows back. *)
Lemma transpose_involutive (W : matrix R) :
  mat_wf W -> mrows (transpose (transpose W)) = mrows W.
Proof.
  intros Hwf. destruct W as [c rows]. unfold mat_wf in Hwf. cbn [ncols mrows] in Hwf.
  unfold transpose, nrows. cbn [ncols mrows].
  transitivity (map (fun i => nth i rows []) (seq 0 (length rows)));
    [|apply map_nth_seq_all].
  apply map_ext_in. intros i Hi. apply in_seq in Hi. rewrite map_map.
  transitivity (map (fun j => nth j (nth i rows []) f0) (seq 0 c)).
  - apply map_ext. intros j.
    pose proof (map_nth (fun r => nth j r f0) rows [] i) as E. cbv beta in E.
    rewrite nth_nil_default in E. exact E.
  - assert (length (nth i rows []) = c) as Hlen.
    { rewrite Forall_forall in Hwf. apply Hwf. apply list_elem_of_In. apply nth_In. lia. }
    rewrite <- Hlen. apply map_nth_seq_all.
Qed.

Lemma inner_comm (u v : list R) :
  (forall a b : R, fmul a b = fmul b a) -> inner u v = inner v u.
Proof.
  intros Hc. unfold inner. f_equal. revert v.
  induction u as [|a u IH]; intros [|b v]; cbn; try reflexivity.
  rewrite Hc, IH. reflexivity.
Qed.

(** For one example, [predict] forms the numbers that [feed_forward]
    forms, when the product of two numbers does not depend on their
    order. *)
Lemma predicted_row :
  (forall a b : R, fmul a b = fmul b a) ->
  forall ls lsp prev c x,
    layers_match prev ls lsp ->
    mrows (predicted (Mat c [x]) (map fst lsp)) = [forward_row (map fst lsp) x].
Proof.
  intros Hc. induction ls as [|l ls IH]; intros [|[[W g] g'] lsp] prev c x Hm;
    cbn [layers_match] in Hm; try contradiction.
  - reflexivity.
  - destruct Hm as ((Hr & Hcn & Hwf) & _ & _ & _ & Hm). cbn [map fst].
    change (predicted (Mat c [x]) ((W, g) :: map fst lsp))
      with (predicted (mmap g (mdot (bias_augment (Mat c [x])) (transpose W))) (map fst lsp)).
    change (forward_row ((W, g) :: map fst lsp) x)
      with (forward_row (map fst lsp) (layer_out W g x)).
    assert (mmap g (mdot (bias_augment (Mat c [x])) (transpose W))
            = Mat (nrows W) [layer_out W g x]) as ->.
    { unfold mmap, mdot, bias_augment. cbn [mrows ncols map].
      rewrite (transpose_involutive W Hwf). unfold layer_out.
      f_equal. f_equal. f_equal. apply map_ext. intros w. apply inner_comm. exact Hc. }
    apply (IH lsp (MLPLayer.n_nodes l)). exact Hm.
Qed.

(** [predict] on one example given as a flat list. *)
Lemma predict_list_run (net : t R) (h : heap R) warg W (x : list R) :
  net_ok h net -> weights_arg h net warg W -> length x = n_inputs net ->
  exists h',
    predict net (PyList x) warg h
    = (h', Ok (Mtx (predicted (Mat (length x) [x]) (map fst (layers_of net W))))) /\
    has_shape (predicted (Mat (length x) [x]) (map fst (layers_of net W))) 1 (n_outputs net).
Proof.
  intros [wb Hok] Harg Hc. rewrite predict_unfold. cbn [np_asarray].
  set (i := length (objs h)).
  set (h2 := Heap (bufs h ++ [x]) (objs h ++ [NdArray None (length (bufs h)) 0 [1; length x]])).
  assert (net_ok h2 net) as Hok2
    by (exists wb; eapply net_ok_at_evolves; [apply extends_evolves | exact Hok]).
  assert (objs h2 !! i = Some (NdArray None (length (bufs h)) 0 [1; length x])) as Hi
    by apply lookup_at_end.
  assert (bufs h2 !! length (bufs h) = Some x) as Hb by apply lookup_at_end.
  assert (Forall (fun r => length r = length x) [x]) as Hrows
    by (constructor; [reflexivity | constructor]).
  destruct (predict_tail_run net h2 warg W i _ x 1 (length x) (Mat (length x) [x]) Hok2
              (weights_arg_extends h _ _ net warg W Harg) Hi eq_refl Hb) as (os & Hrun & Hshape).
  { cbn [nd_off]. rewrite drop_0, Nat.mul_1_l, firstn_all.
    rewrite <- (reshape2_rows _ _ Hrows). cbn [concat length]. rewrite app_nil_r. reflexivity. }
  { split; [reflexivity|]. split; [exact Hc | exact Hrows]. }
  eexists. split; [|exact Hshape].
  unfold new_array at 1. unfold mbind at 1, M_bind at 1. fold i.
  unfold predict_on.
  set (h1 := Heap (bufs h ++ [x]) (objs h ++ [NdArray None (length (bufs h)) 0 [length x]])).
  assert (objs h1 !! i = Some (NdArray None (length (bufs h)) 0 [length x])) as Hi1
    by apply lookup_at_end.
  rewrite (run_bind_ok _ _ _ _ _ (run_get_shape h1 i _ Hi1)). cbn [nd_shape].
  rewrite (run_bind_ok _ _ _ _ _
             (set_shape_run h1 i _ [1; length x] Hi1 ltac:(simpl; lia))).
  unfold h1. cbn [bufs objs nd_base nd_buf nd_off]. unfold i. rewrite insert_at_end.
  exact Hrun.
Qed.

(** [predict] agrees with [feed_forward]: after [set_inputs(x)] and
    [feed_forward()], [predict(x)] returns the one-row matrix whose row is
    what the array [outputs] of the network holds.  The two multiply
    weights and activations in opposite order ([np.dot(weights, outputs)]
    against [np.dot(a, theta.T)]), so the product of two numbers must not
    depend on their order. *)
Theorem feed_forward_agrees_with_predict (net : t R) (h : heap R) (x W : list R) :
  (forall a b : R, fmul a b = fmul b a) ->
  reachable net h -> length x = n_inputs net ->
  read_flat (weights net) h = (h, Ok W) ->
  exists h1 h2 h3 out,
    set_inputs net x h = (h1, Ok tt) /\
    feed_forward net h1 = (h2, Ok tt) /\
    read_flat (outputs net) h2 = (h2, Ok out) /\
    predict net (PyList x) None h2 = (h3, Ok (Mtx (Mat (n_outputs net) [out]))).
Proof.
  intros Hc Hreach Hx HreadW. pose proof (reachable_arrays net h Hreach) as Harr.
  apply reachable_net_ok in Hreach. destruct Hreach as [wb Hok].
  destruct (feed_forward_run net h wb x W Hok Harr Hx HreadW)
    as (h1 & h2 & Hset & Hff & Hout & HW2 & Hobjs).
  assert (net_ok_at wb h1 net) as Hok1.
  { replace h1 with (set_inputs net x h).1 by (rewrite Hset; reflexivity).
    eapply net_ok_at_evolves; [apply set_inputs_evolves; exact Hok | exact Hok]. }
  assert (net_ok_at wb h2 net) as Hok2.
  { replace h2 with (feed_forward net h1).1 by (rewrite Hff; reflexivity).
    eapply net_ok_at_evolves; [apply feed_forward_evolves; exact Hok1 | exact Hok1]. }
  assert (net_ok h2 net) as Hnet2 by (exists wb; exact Hok2).
  destruct (predict_list_run net h2 None W x Hnet2 (weights_own h2 net W HW2) Hx)
    as (h3 & Hpred & (_ & Hcols & _)).
  destruct Hok2 as (l0 & ls & Hl & _).
  destruct (theta_values net h2 None W l0 ls Hnet2 (weights_own h2 net W HW2) Hl)
    as (_ & _ & _ & _ & Hm).
  pose proof (predicted_row Hc ls (layers_of net W) (MLPLayer.n_nodes l0) (length x) x Hm)
    as Hrow.
  exists h1, h2, h3, (forward_row (map fst (layers_of net W)) x).
  split; [exact Hset|]. split; [exact Hff|]. split; [exact Hout|].
  rewrite Hpred. f_equal. f_equal.
  destruct (predicted (Mat (length x) [x]) (map fst (layers_of net W))) as [c rows].
  cbn [ncols mrows] in Hcols, Hrow. rewrite Hcols, Hrow. reflexivity.
Qed.
End FeedForward.

(** The network with a hidden layer, the weights of [weights221] and the
    example [(0.5, 2)]. *)
Lemma feed_forward_fills_outputs_witness :
  exists h1 h2,
    MLPNetwork.set_inputs net221 [0.5; 2]%float heap221_set = (h1, Ok tt) /\
    MLPNetwork.feed_forward net221 h1 = (h2, Ok tt) /\
    read_flat (MLPNetwork.outputs net221) h2
    = (h2, Ok (forward_row (map fst (layers_of net221 weights221)) [0.5; 2]%float)) /\
    read_flat (MLPNetwork.weights net221) h2 = (h2, Ok weights221) /\
    objs h2 = objs heap221_set.
Proof.
  apply (feed_forward_fills_outputs net221 heap221_set [0.5; 2]%float weights221).
  - exact reachable_heap221_set.
  - reflexivity.
  - reflexivity.
Defined.

Lemma Qmult_comm_eq (a b : Q) : Qmult a b = Qmult b a.
Proof.
  destruct a as [an ad], b as [bn bd]. unfold Qmult. cbn [Qnum Qden].
  rewrite Z.mul_comm, Pos.mul_comm. reflexivity.
Qed.

Lemma reachable_heap221q_set : reachable net221q heap221q_set.
Proof.
  unfold heap221q_set. apply reach_step.
  exact (reach_init net221q [2; 2; 1] (Callable linear) (Callable linear_gradient) NameMse
           (Heap [] []) heap221q eq_refl).
Qed.

(** The network with a hidden layer over the rationals and the example
    [(1/2, 2)]. *)
Lemma feed_forward_agrees_with_predict_witness :
  exists h1 h2 h3 out,
    MLPNetwork.set_inputs net221q [1 # 2; 2]%Q heap221q_set = (h1, Ok tt) /\
    MLPNetwork.feed_forward net221q h1 = (h2, Ok tt) /\
    read_flat (MLPNetwork.outputs net221q) h2 = (h2, Ok out) /\
    MLPNetwork.predict net221q (PyList [1 # 2; 2]%Q) None h2
    = (h3, Ok (Mtx (Mat (MLPNetwork.n_outputs net221q) [out]))).
Proof.
  apply (feed_forward_agrees_with_predict net221q heap221q_set [1 # 2; 2]%Q weights221q).
  - exact Qmult_comm_eq.
  - exact reachable_heap221q_set.
  - reflexivity.
  - reflexivity.
Defined.

(* ===================================================================== *)
(** * The logistic cost *)
(* ===================================================================== *)

Section LogCost.
Context {R : Type} `{Scalar R}.
Import MLPNetwork.

Lemma log_cost_run ln m (a y : matrix R) r c :
  has_shape a r c -> has_shape y r c -> log_cost ln m a y = Ok (log_loss ln m a y).
Proof.
  intros Ha Hy. unfold log_cost, np_mul, np_sub.
  rewrite (np_binop_ok _ (mmap fneg y) (mmap ln a) r c) by (apply shape_mmap; assumption).
  rewrite res_bind_ok.
  rewrite (np_binop_ok _ (mmap (fun x => f1 - x)%F y) (mmap (fun x => ln (f1 - x)%F) a) r c)
    by (apply shape_mmap; assumption).
  rewrite res_bind_ok.
  rewrite (np_binop_ok _ _ _ r c)
    by (apply shape_mzip; apply shape_mmap; assumption).
  rewrite res_bind_ok. reflexivity.
Qed.

(** [cost_function_log] from [theta] on. *)
Lemma cost_log_body_value (self : t R) l0 ls lsp (X y : matrix R) ln lam jac :
  layers self = l0 :: ls -> n_layers self = S (length ls) ->
  layers_match (MLPLayer.n_nodes l0) ls lsp ->
  has_shape X (nrows X) (MLPLayer.n_nodes l0) ->
  has_shape y (nrows X)
            (match ls with
             | [] => MLPLayer.n_nodes l0 + 1
             | _ => default (MLPLayer.n_nodes l0) (last (map MLPLayer.n_nodes ls))
             end) ->
  n_weights self = sum_list (block_sizes (MLPLayer.n_nodes l0) (map MLPLayer.n_nodes ls)) ->
  MLPLayer.n_outputs l0 = MLPLayer.n_nodes l0 + 1 ->
  (jac = true -> Forall (fun l => is_Some (MLPLayer.grad_func l)) ls) ->
  exists r,
    cost_log_body ln self X y (None :: map (fun l => Some l.1.1) lsp) lam jac = Ok r /\
    cost_of r = logistic_cost ln X y (map fst lsp) lam.
Proof.
  intros Hl Hn Hm HX Hy Hnw Ho0 Hgrads.
  destruct jac.
  - destruct (cost_log_body_run self l0 ls lsp X y Hl Hn Hm HX Hy Hnw Ho0 (Hgrads eq_refl)
                ln lam true) as [J HJ].
    pose proof HJ as HJ'. unfold cost_log_body in HJ'.
    rewrite (forward_run self l0 ls lsp X Hl Hn Hm HX), res_bind_ok in HJ'.
    cbn [fst snd] in HJ'. rewrite last_item_some, res_bind_ok in HJ'.
    fold (final_activation X (map fst lsp)) in HJ'.
    rewrite (log_cost_run ln (nrows X) _ _ _ _
               (final_activation_shape self l0 ls lsp X y Hl Hn Hm HX Hy) Hy) in HJ'.
    rewrite res_bind_ok, (regularize_run self l0 ls lsp X Hl Hm), res_bind_ok in HJ'.
    cbn [negb] in HJ'.
    destruct (grad_views self) as [tg|e]; [|discriminate HJ'].
    rewrite res_bind_ok in HJ'.
    destruct (sigmas self (nrows X) y _ _ _) as [sg|e]; [|discriminate HJ'].
    rewrite res_bind_ok in HJ'.
    destruct (for_each _ _ _) as [st|e]; [|discriminate HJ'].
    rewrite res_bind_ok in HJ'. injection HJ' as HJ1 _.
    exists (CostGrad J (gradient Log X y lsp lam)). split; [exact HJ|].
    cbn [cost_of]. rewrite <- HJ1. reflexivity.
  - unfold cost_log_body.
    rewrite (forward_run self l0 ls lsp X Hl Hn Hm HX), res_bind_ok. cbn [fst snd].
    rewrite last_item_some, res_bind_ok. fold (final_activation X (map fst lsp)).
    rewrite (log_cost_run ln (nrows X) _ _ _ _
               (final_activation_shape self l0 ls lsp X y Hl Hn Hm HX Hy) Hy).
    rewrite res_bind_ok, (regularize_run self l0 ls lsp X Hl Hm), res_bind_ok.
    cbn [negb]. eexists. split; reflexivity.
Qed.

(** On every constructed network, for every batch [X] of [m] rows of
    [n_inputs] numbers with wanted outputs [y] of the shape of [A[L-1]],
    [cost_function_log] returns (alone, or with the gradient when the
    layers have gradient functions) the cost
    [sum(-y*log(A[L-1]) - (1.0 - y)*log(1.0 - A[L-1])) / m], to which, when
    [lambda_param] is not [0.0], [lambda_param * sum(W[:, 1:]^2) / (2 m)]
    is added for the weight block [W] of every layer after the input
    layer. *)
Theorem log_cost_is_returned (net : t R) (h : heap R) (X y : matrix R) warg W lam jac ln :
  reachable net h -> weights_arg h net warg W ->
  has_shape X (nrows X) (n_inputs net) -> has_shape y (nrows X) (final_width net) ->
  (jac = true -> Forall (fun l => is_Some (MLPLayer.grad_func l)) (drop 1 (layers net))) ->
  exists h' r,
    cost_function_log ln net X y warg lam jac h = (h', Ok r) /\
    cost_of r = logistic_cost ln X y (map fst (layers_of net W)) lam.
Proof.
  intros Hreach Harg HX Hy Hgrads. apply reachable_net_ok in Hreach.
  destruct (net_ready net h X y Hreach HX Hy)
    as (l0 & ls & Hl & Hn & HX' & Hy' & Hnw & Ho0 & Hd).
  destruct (theta_values net h warg W l0 ls Hreach Harg Hl) as (os & theta & Hget & Hread & Hm).
  rewrite Hl in Hgrads. change (drop 1 (l0 :: ls)) with ls in Hgrads.
  destruct (cost_log_body_value net l0 ls _ X y ln lam jac Hl Hn Hm HX' Hy' Hnw Ho0 Hgrads)
    as (r & Hr & Hcost).
  unfold cost_function_log.
  rewrite (run_bind_ok _ _ _ _ _ Hget), (run_bind_ok _ _ _ _ _ Hread), lift_run, Hr.
  eexists _, r. split; [reflexivity | exact Hcost].
Qed.
End LogCost.

(** The network with a hidden layer, a batch of two examples and
    [lambda_param = 0.5]; the identity stands for the logarithm. *)
Lemma log_cost_is_returned_witness :
  exists h' r,
    MLPNetwork.cost_function_log (fun x => x) net221 X221 y221 None 0.5%float true heap221_set
    = (h', Ok r) /\
    cost_of r = logistic_cost (fun x => x) X221 y221 (map fst (layers_of net221 weights221))
                              0.5%float.
Proof.
  apply (log_cost_is_returned net221 heap221_set X221 y221 None weights221 0.5%float true
           (fun x => x)).
  - exact reachable_heap221_set.
  - apply weights_own. vm_compute. reflexivity.
  - split; [reflexivity|]. split; [reflexivity | repeat constructor].
  - split; [reflexivity|]. split; [reflexivity | repeat constructor].
  - intros _. vm_compute. repeat (constructor; [eexists; reflexivity|]). constructor.
Defined.

(* ===================================================================== *)
(** * What [predict] refuses *)
(* ===================================================================== *)

Section PredictErrors.
Context {R : Type} `{Scalar R}.
Import MLPNetwork.

(** What [predict] works on once [np.asarray] has made the array and a
    one-dimensional array has been given two dimensions. *)
Lemma predict_on_rows (net : t R) (h : heap R) inp warg (X : matrix R) :
  input_rows inp X ->
  exists bs os i o buf,
    predict net inp warg h
    = predict_tail net i warg (Heap (bufs h ++ bs) (objs h ++ os)) /\
    (objs h ++ os) !! i = Some o /\ nd_shape o = [nrows X; ncols X] /\
    (bufs h ++ bs) !! nd_buf o = Some buf /\
    reshape2 (nrows X) (ncols X) (take (nrows X * ncols X) (drop (nd_off o) buf)) = X /\
    mat_wf X.
Proof.
  intros Hin. rewrite predict_unfold.
  destruct Hin as [x | r0 rest Hrect]; cbn [np_asarray].
  - assert (Forall (fun r => length r = length x) [x]) as Hrows
      by (constructor; [reflexivity | constructor]).
    exists [x], [NdArray None (length (bufs h)) 0 [1; length x]], (length (objs h)),
           (NdArray None (length (bufs h)) 0 [1; length x]), x.
    split; [|split; [apply lookup_at_end|split; [reflexivity|split; [apply lookup_at_end|]]]].
    + unfold new_array at 1. unfold mbind at 1, M_bind at 1.
      unfold predict_on.
      set (h1 := Heap (bufs h ++ [x])
                      (objs h ++ [NdArray None (length (bufs h)) 0 [length x]])).
      assert (objs h1 !! length (objs h) = Some (NdArray None (length (bufs h)) 0 [length x]))
        as Hi1 by apply lookup_at_end.
      rewrite (run_bind_ok _ _ _ _ _ (run_get_shape h1 _ _ Hi1)). cbn [nd_shape].
      rewrite (run_bind_ok _ _ _ _ _
                 (set_shape_run h1 _ _ [1; length x] Hi1 ltac:(simpl; lia))).
      unfold h1. cbn [bufs objs nd_base nd_buf nd_off]. rewrite insert_at_end. reflexivity.
    + split; [|exact Hrows]. cbn [nd_off nrows ncols mrows length].
      rewrite drop_0, Nat.mul_1_l, firstn_all.
      rewrite <- (reshape2_rows _ _ Hrows). cbn [concat length]. rewrite app_nil_r. reflexivity.
  - assert (Forall (fun r => length r = length r0) (r0 :: rest)) as Hrows.
    { constructor; [reflexivity|]. apply Forall_forall. intros r Hr.
      rewrite forallb_forall in Hrect. apply Nat.eqb_eq, Hrect.
      apply list_elem_of_In. exact Hr. }
    rewrite Hrect.
    exists [concat (r0 :: rest)],
           [NdArray None (length (bufs h)) 0 [S (length rest); length r0]],
           (length (objs h)), (NdArray None (length (bufs h)) 0 [S (length rest); length r0]),
           (concat (r0 :: rest)).
    split; [|split; [apply lookup_at_end|split; [reflexivity|split; [apply lookup_at_end|]]]].
    + unfold new_array at 1. unfold mbind at 1, M_bind at 1. unfold predict_on.
      set (h2 := Heap _ _).
      assert (objs h2 !! length (objs h)
              = Some (NdArray None (length (bufs h)) 0 [S (length rest); length r0])) as Hi
        by apply lookup_at_end.
      rewrite (run_bind_ok _ _ _ _ _ (run_get_shape h2 _ _ Hi)). cbn [nd_shape].
      rewrite (run_bind_ok _ _ _ _ _ (run_ret tt h2)). reflexivity.
    + split; [|exact Hrows]. pose proof (concat_length _ _ Hrows) as Hlen.
      cbn [length] in Hlen. cbn [nd_off nrows ncols mrows length].
      rewrite drop_0, take_ge by lia. apply (reshape2_rows _ _ Hrows).
Qed.

(** On a network with at least two layers, [predict] refuses an input
    whose rows do not have [n_inputs] entries: the first product,
    [np.dot(a, theta[1].T)], raises ValueError. *)
Theorem predict_rejects_wrong_width (net : t R) (h : heap R) inp warg W (X : matrix R) :
  reachable net h -> weights_arg h net warg W ->
  input_rows inp X -> ncols X <> n_inputs net -> 2 <= n_layers net ->
  exists h', predict net inp warg h = (h', Raise ValueError).
Proof.
  intros Hreach Harg Hin Hc Hn2. apply reachable_net_ok in Hreach. destruct Hreach as [wb Hok].
  destruct (predict_on_rows net h inp warg X Hin)
    as (bs & os & i & o & buf & -> & Ho & Hs & Hb & HX & Hwf).
  set (h2 := Heap (bufs h ++ bs) (objs h ++ os)).
  assert (net_ok_at wb h2 net) as Hok2
    by (eapply net_ok_at_evolves; [apply extends_evolves | exact Hok]).
  assert (net_ok h2 net) as Hnet2 by (exists wb; exact Hok2).
  destruct Hok2 as (l0 & ls & Hl & Hdims & Hnl & Hni & _).
  destruct (theta_values net h2 warg W l0 ls Hnet2 (weights_arg_extends h _ _ net warg W Harg) Hl)
    as (os2 & theta & Hget & Hread & Hm).
  destruct ls as [|l1 ls].
  { rewrite Hnl, <- Hdims, Hl in Hn2. cbn in Hn2. lia. }
  destruct (layers_of net W) as [|[[W1 g1] g1'] lsp]; cbn [layers_match] in Hm;
    [contradiction|].
  destruct Hm as ((HrW & HcW & HwfW) & _ & Hact & _ & Hm).
  unfold predict_tail.
  rewrite (run_bind_ok _ _ _ _ _ (run_get_shape h2 i o Ho)), Hs.
  rewrite (run_bind_lift_ok _ _ _ (nrows X) eq_refl).
  rewrite (run_bind_ok _ _ _ _ _ Hget), (run_bind_ok _ _ _ _ _ Hread).
  set (h3 := Heap _ _).
  assert (objs h3 !! i = Some o) as Ho' by (apply lookup_app_l_Some; exact Ho).
  rewrite (run_bind_ok _ _ _ _ _ (read2_run h3 i o _ _ buf Ho' Hs Hb)).
  rewrite HX, Hl. change (drop 1 (l0 :: l1 :: ls)) with (l1 :: ls).
  assert (forall rest, predict_step (nrows X) (None :: Some W1 :: rest) (1, l1) X
                       = Raise ValueError) as Hstep.
  { intros rest. unfold predict_step.
    rewrite (hstack_ones X (nrows X) eq_refl), res_bind_ok.
    change (item AttributeError (None :: Some W1 :: rest) 1) with (Ok W1 : res (matrix R)).
    rewrite res_bind_ok.
    unfold np_dot. destruct (shape_transpose W1) as (-> & _).
    replace (ncols (bias_augment X) =? ncols W1) with false; [reflexivity|].
    symmetry. apply Nat.eqb_neq. unfold bias_augment. cbn [ncols]. lia. }
  rewrite enumerate_cons. cbn [for_each map fst]. rewrite Hstep.
  exists h3. reflexivity.
Qed.
End PredictErrors.

(** The network with two inputs and an example of three numbers. *)
Lemma predict_rejects_wrong_width_witness :
  exists h',
    MLPNetwork.predict net221 (PyList [1; 2; 3]%float) None heap221_set
    = (h', Raise ValueError).
Proof.
  apply (predict_rejects_wrong_width net221 heap221_set (PyList [1; 2; 3]%float) None
           weights221 (Mat 3 [[1; 2; 3]%float])).
  - exact reachable_heap221_set.
  - apply weights_own. vm_compute. reflexivity.
  - exact (one_example [1; 2; 3]%float).
  - vm_compute. discriminate.
  - vm_compute. lia.
Defined.

(* ===================================================================== *)
(** * Weights given by the caller *)
(* ===================================================================== *)

Section GivenWeights.
Context {R : Type} `{Scalar R}.
Import MLPNetwork.

(** [get_theta(weights=w)] with an array [w] of [n_weights] entries
    returns views of [w], not of the network's weights: a [None] for the
    input layer and then, layer after layer, the blocks of [w].  No buffer
    is written and the array objects there were stay as they are; the
    views are new objects. *)
Theorem get_theta_views_given_weights (net : t R) (h : heap R) (w : ref) (o : ndarray)
    (buf : list R) :
  reachable net h ->
  objs h !! w = Some o -> nd_shape o = [n_weights net] ->
  bufs h !! nd_buf o = Some buf -> nd_off o + n_weights net <= length buf ->
  exists os theta,
    get_theta net (Some w) h = (Heap (bufs h) (objs h ++ os), Ok theta) /\
    read_theta theta (Heap (bufs h) (objs h ++ os))
    = (Heap (bufs h) (objs h ++ os),
       Ok (None :: map Some (blocks (dimensions net)
                                    (take (n_weights net) (drop (nd_off o) buf))))).
Proof.
  intros Hreach Ho Hs Hb Hlen. apply reachable_net_ok in Hreach.
  assert (Hok := Hreach). destruct Hok as [wb (l0 & ls & Hl & Hdims & _)].
  destruct (theta_values net h (Some w) _ l0 ls Hreach
              (weights_given h net w o buf Ho Hs Hb Hlen) Hl) as (os & theta & Hget & Hrd & _).
  exists os, theta. split; [exact Hget|]. rewrite Hrd. unfold layers_of.
  rewrite zip_with_blocks; [reflexivity|].
  rewrite <- Hdims, Hl. cbn [map blocks drop]. rewrite carve_length, length_map. reflexivity.
Qed.

(** The cost functions write nothing: whatever their arguments, and
    whether they return or raise, every buffer is as it was (buffers are
    only added) and so is every array object there was before the call; in
    particular the weights of the network are not affected by a [weights]
    argument. *)
Theorem cost_functions_leave_state_unchanged (net : t R) (X y : matrix R) (w : option ref)
    (lam : R) (jac : bool) (ln : R -> R) (h : heap R) :
  ((exists bs, bufs (cost_function_mse net X y w lam jac h).1 = bufs h ++ bs) /\
   forall r, r < length (objs h) ->
             objs (cost_function_mse net X y w lam jac h).1 !! r = objs h !! r) /\
  ((exists bs, bufs (cost_function_log ln net X y w lam jac h).1 = bufs h ++ bs) /\
   forall r, r < length (objs h) ->
             objs (cost_function_log ln net X y w lam jac h).1 !! r = objs h !! r).
Proof.
  split.
  - destruct (frames_cost_mse (length (objs h)) (length (objs h)) net X y w lam jac h
                (Nat.le_refl _)) as [(Hb & _ & Ho) _].
    split; [exact Hb|]. intros r Hr. apply Ho; lia.
  - destruct (frames_cost_log (length (objs h)) (length (objs h)) ln net X y w lam jac h
                (Nat.le_refl _)) as [(Hb & _ & Ho) _].
    split; [exact Hb|]. intros r Hr. apply Ho; lia.
Qed.
End GivenWeights.

(** The network with one layer of weights and the caller's array
    [np.array([1., 2., 3.])]. *)
Lemma get_theta_views_given_weights_witness :
  exists os theta,
    MLPNetwork.get_theta net21 (Some 6) heap21_args
    = (Heap (bufs heap21_args) (objs heap21_args ++ os), Ok theta) /\
    MLPNetwork.read_theta theta (Heap (bufs heap21_args) (objs heap21_args ++ os))
    = (Heap (bufs heap21_args) (objs heap21_args ++ os),
       Ok (None :: map Some (blocks (MLPNetwork.dimensions net21)
                                    (take (MLPNetwork.n_weights net21)
                                          (drop (nd_off (NdArray None 3 0 [3]))
                                                [1; 2; 3]%float))))).
Proof.
  apply (get_theta_views_given_weights net21 heap21_args 6 (NdArray None 3 0 [3])
           [1; 2; 3]%float).
  - exact reachable_heap21_args.
  - vm_compute. reflexivity.
  - reflexivity.
  - vm_compute. reflexivity.
  - vm_compute. lia.
Defined.

(* ===================================================================== *)
(** * One layer at a time *)
(* ===================================================================== *)

Section OneLayer.
Context {R : Type} `{Scalar R}.
Import MLPNetwork.

(** The layer at position [k] after [lp]: its input layer, its activation
    function and its weights view. *)
Lemma layer_at (h : heap R) wref wb :
  forall (ls : list (MLPLayer.t R)) first lp i k l,
    views_chain h wref wb first (MLPLayer.n_nodes lp) ls -> links_ok i ls ->
    ls !! k = Some l ->
    exists lp' first' v,
      (lp :: ls) !! k = Some lp' /\
      MLPLayer.input_layer l = Some (i + k) /\ is_Some (MLPLayer.act_func l) /\
      MLPLayer.weights l = Some v /\
      objs h !! v
      = Some (NdArray (Some wref) wb first' [MLPLayer.n_nodes l; MLPLayer.n_nodes lp' + 1]).
Proof.
  induction ls as [|l1 ls IH]; intros first lp i k l Hch Hlk Hk; [discriminate|].
  cbn [views_chain] in Hch. destruct Hch as [(v & Hw & Hv) Hch].
  cbn [links_ok] in Hlk. destruct Hlk as (Hin & Hact & Hlk).
  destruct k as [|k].
  - injection Hk as <-. exists lp, first, v. rewrite Nat.add_0_r. auto.
  - change ((l1 :: ls) !! S k) with (ls !! k) in Hk.
    destruct (IH _ l1 (S i) k l Hch Hlk Hk) as (lp' & first' & v' & Hlp & Hin' & Hact' & Hw' & Hv').
    exists lp', first', v'. split; [exact Hlp|].
    replace (i + S k) with (S i + k) by lia. auto.
Qed.

(** [calculate_outputs] of one layer of a network.  The input layer has
    no inputs: the call raises MLPError and nothing is written.  For any
    other layer the call returns, and the layer's outputs array is then
    [1.0] followed by [act_func(np.dot(weights, input_layer.outputs))],
    with the layer's own weights view and the outputs array of the layer
    before it as they are at the call; no array object is changed. *)
Theorem calculate_outputs_of_layer (net : t R) (h : heap R) (j : nat) :
  reachable net h -> j < n_layers net ->
  exists l,
    layers net !! j = Some l /\
    (j = 0 -> MLPLayer.calculate_outputs (layers net) l h = (h, Raise MLPError)) /\
    (0 < j ->
     exists lp v Wj xs g h',
       layers net !! (j - 1) = Some lp /\
       MLPLayer.input_layer l = Some (j - 1) /\
       MLPLayer.weights l = Some v /\ read2 v h = (h, Ok Wj) /\
       read_flat (MLPLayer.outputs lp) h = (h, Ok (f1 :: xs)) /\
       MLPLayer.act_func l = Some g /\
       MLPLayer.calculate_outputs (layers net) l h = (h', Ok tt) /\
       objs h' = objs h /\
       read_flat (MLPLayer.outputs l) h' = (h', Ok (f1 :: layer_out Wj g xs))).
Proof.
  intros Hreach Hj. apply reachable_net_ok in Hreach. destruct Hreach as [wb Hok].
  destruct Hok as (l0 & ls & Hl & Hdims & Hnl & _ & _ & _ & Hw & (W & HW & HlW) & Hout
                   & _ & Hin0 & Hch & Hlk & _).
  assert (length (layers net) = n_layers net) as Hlen
    by (rewrite Hnl, <- Hdims, length_map; reflexivity).
  destruct (lookup_lt_is_Some_2 (layers net) j) as [l Hlj]; [lia|].
  exists l. split; [exact Hlj|]. split.
  - intros ->. rewrite Hl in Hlj. injection Hlj as <-.
    unfold MLPLayer.calculate_outputs. rewrite Hin0. reflexivity.
  - intros Hpos. destruct j as [|k]; [lia|]. clear Hpos.
    replace (S k - 1) with k by lia.
    assert (ls !! k = Some l) as Hk by (rewrite Hl in Hlj; exact Hlj).
    destruct (layer_at h (weights net) wb ls 0 l0 0 k l Hch Hlk Hk)
      as (lp & first & v & Hlp & Hin & [g Hg] & Hv & Hov).
    cbn [Nat.add] in Hin. rewrite <- Hl in Hlp.
    rewrite Forall_lookup in Hout.
    destruct (Hout _ _ Hlp) as (_ & bp & bufp & Hop & _ & Hbp & Hlbp & Hfp).
    destruct (Hout _ _ Hlj) as (_ & b & old & Ho & _ & Hb & Hlold & Hfo).
    destruct bufp as [|y xs]; [discriminate|]. injection Hfp as ->.
    cbn [length] in Hlbp.
    assert (length xs = MLPLayer.n_nodes lp) as Hlxs by lia.
    pose proof (calculate_outputs_run (layers net) l lp h k v (Some (weights net)) wb first
                  (MLPLayer.n_nodes l) W bp xs g b old
                  Hin Hlp Hv Hov HW Hop Hbp Hlxs Hg Ho Hb Hlold Hfo) as Hrun.
    set (Wj := reshape2 _ _ _) in Hrun. set (h' := Heap _ _) in Hrun.
    exists lp, v, Wj, xs, g, h'.
    split; [exact Hlp|]. split; [exact Hin|]. split; [exact Hv|].
    split; [exact (read2_run h v _ _ _ W Hov eq_refl HW)|].
    split; [apply (read_flat_whole h _ None bp (MLPLayer.n_nodes lp + 1)); auto; cbn; lia|].
    split; [exact Hg|]. split; [exact Hrun|]. split; [reflexivity|].
    apply (read_flat_whole h' _ None b (MLPLayer.n_nodes l + 1)); [exact Ho | |].
    + cbn [h' bufs]. apply list_lookup_insert_eq. eapply lookup_lt_Some. exact Hb.
    + cbn [length]. unfold layer_out, Wj, reshape2. cbn [mrows].
      rewrite !length_map, length_seq. lia.
Qed.
End OneLayer.

(** The hidden layer of the network with weights [weights221]. *)
Lemma calculate_outputs_of_layer_witness :
  exists l,
    MLPNetwork.layers net221 !! 1 = Some l /\
    (1 = 0 -> MLPLayer.calculate_outputs (MLPNetwork.layers net221) l heap221_set
              = (heap221_set, Raise MLPError)) /\
    (0 < 1 ->
     exists lp v Wj xs g h',
       MLPNetwork.layers net221 !! (1 - 1) = Some lp /\
       MLPLayer.input_layer l = Some (1 - 1) /\
       MLPLayer.weights l = Some v /\ read2 v heap221_set = (heap221_set, Ok Wj) /\
       read_flat (MLPLayer.outputs lp) heap221_set = (heap221_set, Ok (f1 :: xs)) /\
       MLPLayer.act_func l = Some g /\
       MLPLayer.calculate_outputs (MLPNetwork.layers net221) l heap221_set = (h', Ok tt) /\
       objs h' = objs heap221_set /\
       read_flat (MLPLayer.outputs l) h' = (h', Ok (f1 :: layer_out Wj g xs))).
Proof.
  apply (calculate_outputs_of_layer net221 heap221_set 1).
  - exact reachable_heap221_set.
  - vm_compute. lia.
Defined.

(* ===================================================================== *)
(** * Random weights *)
(* ===================================================================== *)

Section RandomWeights.
Context {R : Type} `{Scalar R}.
Import MLPNetwork.

(** [initialize_weights(epsilon, 'random')] on a network: the call
    returns, no array object is changed, weight [i] is
    [(r_i*2.0 - 1)*epsilon] for the [i]-th of the [n_weights] numbers
    [r_i] that [np.random.rand] draws, and the weight blocks of the layers
    show these values.  Any other [method] raises ValueError and nothing
    is written. *)
Theorem initialize_weights_sets_weights (net : t R) (h : heap R) (eps : R)
    (rand : nat -> R) :
  reachable net h ->
  (exists h' theta,
     initialize_weights_method net eps "random" rand h = (h', Ok tt) /\
     objs h' = objs h /\
     read_flat (weights net) h'
     = (h', Ok (map (fun i => ((rand i * f2 - f1) * eps)%F) (seq 0 (n_weights net)))) /\
     get_theta net None h' = (h', Ok theta) /\
     read_theta theta h'
     = (h', Ok (None :: map Some
                  (blocks (dimensions net)
                          (map (fun i => ((rand i * f2 - f1) * eps)%F)
                               (seq 0 (n_weights net))))))) /\
  (forall method, method <> "random"%string ->
     initialize_weights_method net eps method rand h = (h, Raise ValueError)).
Proof.
  intros Hreach. split.
  - apply reachable_net_ok in Hreach. destruct Hreach as [wb Hok].
    assert (Hok' := Hok).
    destruct Hok' as (l0 & ls & _ & _ & _ & _ & _ & _ & Hw & (W0 & HW & HlW) & _).
    set (W := map (fun i => ((rand i * f2 - f1) * eps)%F) (seq 0 (n_weights net))).
    assert (length W = n_weights net) as HlenW
      by (unfold W; rewrite length_map, length_seq; reflexivity).
    pose proof (set_weights_run net h wb W W0 Hok HW HlenW) as Hrun.
    set (h' := Heap (<[wb := W]> (bufs h)) (objs h)) in *.
    assert (net_ok h' net) as Hok2.
    { replace h' with (set_weights net W h).1 by (rewrite Hrun; reflexivity).
      apply (net_ok_after net h wb _ Hok). apply set_weights_evolves. exact Hok. }
    assert (read_flat (weights net) h' = (h', Ok W)) as Hread.
    { apply (read_flat_whole h' _ None wb (n_weights net)); [exact Hw | | exact HlenW].
      apply list_lookup_insert_eq. eapply lookup_lt_Some. exact HW. }
    destruct (theta_of_weights net h' W Hok2 Hread) as (theta & Hget & Hrd).
    exists h', theta. split; [|repeat split; assumption].
    unfold initialize_weights_method. cbn [String.eqb Ascii.eqb Bool.eqb]. exact Hrun.
  - intros method Hm. unfold initialize_weights_method.
    replace (String.eqb method "random") with false
      by (symmetry; apply String.eqb_neq; exact Hm).
    reflexivity.
Qed.
End RandomWeights.

(** The network with a hidden layer, [epsilon = 0.125] and numbers drawn
    that alternate between 0.25 and 0.75. *)
Lemma initialize_weights_sets_weights_witness :
  (exists h' theta,
     initialize_weights_method net221 0.125%float "random"
       (fun i => if Nat.even i then 0.25 else 0.75)%float heap221_set = (h', Ok tt) /\
     objs h' = objs heap221_set /\
     read_flat (MLPNetwork.weights net221) h'
     = (h', Ok (map (fun i => (((if Nat.even i then 0.25 else 0.75)%float * f2 - f1)
                               * 0.125%float)%F)
                    (seq 0 (MLPNetwork.n_weights net221)))) /\
     MLPNetwork.get_theta net221 None h' = (h', Ok theta) /\
     MLPNetwork.read_theta theta h'
     = (h', Ok (None :: map Some
                  (blocks (MLPNetwork.dimensions net221)
                          (map (fun i => (((if Nat.even i then 0.25 else 0.75)%float * f2 - f1)
                                          * 0.125%float)%F)
                               (seq 0 (MLPNetwork.n_weights net221))))))) /\
  (forall method, method <> "random"%string ->
     initialize_weights_method net221 0.125%float method
       (fun i => if Nat.even i then 0.25 else 0.75)%float heap221_set
     = (heap221_set, Raise ValueError)).
Proof.
  apply (initialize_weights_sets_weights net221 heap221_set 0.125%float
           (fun i => if Nat.even i then 0.25 else 0.75)%float).
  exact reachable_heap221_set.
Defined.

(* ===================================================================== *)
(** * The [weights] argument *)
(* ===================================================================== *)

Section WeightsArgument.
Context {R : Type} `{Scalar R}.
Import MLPNetwork.

(** What [predict] returns or raises, from the weights it is to use. *)
Lemma predict_tail_value (net : t R) (h : heap R) wb warg W i o buf m c :
  weights_ok_at wb h net -> weights_arg h net warg W ->
  objs h !! i = Some o -> nd_shape o = [m; c] -> bufs h !! nd_buf o = Some buf ->
  (predict_tail net i warg h).2
  = Mtx <$> for_each (predict_step m (None :: map (fun l => Some l.1.1) (layers_of net W)))
                     (enumerate 1 (drop 1 (layers net)))
                     (reshape2 m c (take (m * c) (drop (nd_off o) buf))).
Proof.
  intros Hok Harg Ho Hs Hb.
  assert (Hok' := Hok). destruct Hok' as (l0 & ls & Hl & _).
  destruct (theta_values_weak net h wb warg W l0 ls Hok Harg Hl)
    as (os & theta & Hget & Hread & _).
  unfold predict_tail.
  rewrite (run_bind_ok _ _ _ _ _ (run_get_shape h i o Ho)), Hs.
  rewrite (run_bind_lift_ok _ _ _ m eq_refl).
  rewrite (run_bind_ok _ _ _ _ _ Hget), (run_bind_ok _ _ _ _ _ Hread).
  set (h' := Heap _ _).
  assert (objs h' !! i = Some o) as Ho' by (apply lookup_app_l_Some; exact Ho).
  rewrite (run_bind_ok _ _ _ _ _ (read2_run h' i o m c buf Ho' Hs Hb)).
  rewrite lift_run. reflexivity.
Qed.

Lemma predict_value (net : t R) (h : heap R) wb inp warg W (X : matrix R) :
  net_ok_at wb h net -> weights_arg h net warg W -> predict_input h warg inp X ->
  (predict net inp warg h).2
  = Mtx <$> for_each (predict_step (nrows X)
                        (None :: map (fun l => Some l.1.1) (layers_of net W)))
                     (enumerate 1 (drop 1 (layers net))) X.
Proof.
  intros Hok Harg Hinp.
  destruct Hinp as [inp X Hin | r o buf n Ho Hs Hb Hlen Hne | r o buf m c Ho Hs Hb Hlen].
  - destruct (predict_on_rows net h inp warg X Hin)
      as (bs & os & i & o & buf & -> & Ho & Hs & Hb & HX & _).
    rewrite (predict_tail_value net _ wb warg W i o buf (nrows X) (ncols X));
      [rewrite HX; reflexivity | | | | |].
    + apply net_ok_weights_ok. eapply net_ok_at_evolves; [apply extends_evolves | exact Hok].
    + apply weights_arg_extends. exact Harg.
    + exact Ho.
    + exact Hs.
    + exact Hb.
  - rewrite predict_unfold. cbn [np_asarray]. rewrite (run_bind_ok _ _ _ _ _ (run_ret r h)).
    unfold predict_on.
    rewrite (run_bind_ok _ _ _ _ _ (run_get_shape h r o Ho)), Hs.
    assert (size_of [1; n] = size_of (nd_shape o)) as Hsize by (rewrite Hs; simpl; lia).
    rewrite (run_bind_ok _ _ _ _ _ (set_shape_run h r o [1; n] Ho Hsize)).
    set (o2 := NdArray (nd_base o) (nd_buf o) (nd_off o) [1; n]).
    set (h2 := Heap (bufs h) (<[r := o2]> (objs h))).
    assert (length (nd_shape o) <> 2) as Hrank by (rewrite Hs; cbn; lia).
    pose proof (weights_ok_reshape wb h net r o [1; n] (net_ok_weights_ok wb h net Hok)
                  Ho Hrank Hsize) as Hok2.
    pose proof (weights_arg_reshape h net warg W r o [1; n] Harg Hne Ho Hsize) as Harg2.
    fold o2 in Hok2, Harg2. fold h2 in Hok2, Harg2.
    assert (objs h2 !! r = Some o2) as Ho2
      by (apply list_lookup_insert_eq; eapply lookup_lt_Some; exact Ho).
    rewrite (predict_tail_value net h2 wb warg W r o2 buf 1 n Hok2 Harg2 Ho2 eq_refl Hb).
    assert (Forall (fun row => length row = n) [take n (drop (nd_off o) buf)]) as Hrows.
    { constructor; [|constructor]. rewrite length_take, length_drop. lia. }
    cbn [o2 nd_off]. rewrite Nat.mul_1_l.
    replace (reshape2 1 n (take n (drop (nd_off o) buf)))
      with (Mat n [take n (drop (nd_off o) buf)]); [reflexivity|].
    rewrite <- (reshape2_rows _ _ Hrows). cbn [concat length]. rewrite app_nil_r. reflexivity.
  - rewrite predict_unfold. cbn [np_asarray]. rewrite (run_bind_ok _ _ _ _ _ (run_ret r h)).
    unfold predict_on.
    rewrite (run_bind_ok _ _ _ _ _ (run_get_shape h r o Ho)), Hs.
    rewrite (run_bind_ok _ _ _ _ _ (run_ret tt h)).
    rewrite (predict_tail_value net h wb warg W r o buf m c
               (net_ok_weights_ok wb h net Hok) Harg Ho Hs Hb).
    replace (nrows (reshape2 m c (take (m * c) (drop (nd_off o) buf)))) with m;
      [reflexivity|].
    unfold nrows, reshape2. cbn [mrows]. rewrite length_map, length_seq. reflexivity.
Qed.

Lemma cost_mse_value (net : t R) (h : heap R) warg W X y lam jac :
  net_ok h net -> weights_arg h net warg W ->
  (cost_function_mse net X y warg lam jac h).2
  = cost_mse_body net X y (None :: map (fun l => Some l.1.1) (layers_of net W)) lam jac.
Proof.
  intros Hok Harg. assert (Hok' := Hok). destruct Hok' as [wb (l0 & ls & Hl & _)].
  destruct (theta_values net h warg W l0 ls Hok Harg Hl) as (os & theta & Hget & Hread & _).
  unfold cost_function_mse.
  rewrite (run_bind_ok _ _ _ _ _ Hget), (run_bind_ok _ _ _ _ _ Hread), lift_run. reflexivity.
Qed.

Lemma cost_log_value (net : t R) (h : heap R) warg W ln X y lam jac :
  net_ok h net -> weights_arg h net warg W ->
  (cost_function_log ln net X y warg lam jac h).2
  = cost_log_body ln net X y (None :: map (fun l => Some l.1.1) (layers_of net W)) lam jac.
Proof.
  intros Hok Harg. assert (Hok' := Hok). destruct Hok' as [wb (l0 & ls & Hl & _)].
  destruct (theta_values net h warg W l0 ls Hok Harg Hl) as (os & theta & Hget & Hread & _).
  unfold cost_function_log.
  rewrite (run_bind_ok _ _ _ _ _ Hget), (run_bind_ok _ _ _ _ _ Hread), lift_run. reflexivity.
Qed.

(** The [weights] argument stands for [set_weights]: for an array [w] of
    [n_weights] entries, [predict], [cost_function_mse] and
    [cost_function_log] called with [weights=w] return the value (or raise
    the exception) that they return (or raise) without the argument once
    [set_weights] has copied the entries of [w] into the network.  For
    [predict] the inputs are a list, or an array of one or two dimensions
    that does not lie in the buffer of the network's weights (which
    [set_weights] overwrites); a one-dimensional one is not [w] itself. *)
Theorem weights_argument_stands_for_set_weights (net : t R) (h : heap R) (w : ref)
    (o : ndarray) (buf : list R) :
  reachable net h ->
  objs h !! w = Some o -> nd_shape o = [n_weights net] ->
  bufs h !! nd_buf o = Some buf -> nd_off o + n_weights net <= length buf ->
  exists h2,
    set_weights net (take (n_weights net) (drop (nd_off o) buf)) h = (h2, Ok tt) /\
    (forall inp X,
       predict_input h (Some w) inp X ->
       (forall r o_r o_w, inp = NdArr r -> objs h !! r = Some o_r ->
                          objs h !! weights net = Some o_w -> nd_buf o_r <> nd_buf o_w) ->
       (predict net inp (Some w) h).2 = (predict net inp None h2).2) /\
    (forall X y lam jac,
       (cost_function_mse net X y (Some w) lam jac h).2
       = (cost_function_mse net X y None lam jac h2).2) /\
    (forall ln X y lam jac,
       (cost_function_log ln net X y (Some w) lam jac h).2
       = (cost_function_log ln net X y None lam jac h2).2).
Proof.
  intros Hreach Ho Hs Hb Hlen. apply reachable_net_ok in Hreach.
  assert (Hnet := Hreach). destruct Hreach as [wb Hok].
  set (W := take (n_weights net) (drop (nd_off o) buf)).
  assert (length W = n_weights net) as HlW
    by (unfold W; rewrite length_take, length_drop; lia).
  assert (Hok' := Hok).
  destruct Hok' as (l0 & ls & _ & _ & _ & _ & _ & _ & Hw & (W0 & HW0 & HlW0) & _).
  pose proof (set_weights_run net h wb W W0 Hok HW0 HlW) as Hrun.
  set (h2 := Heap (<[wb := W]> (bufs h)) (objs h)) in *.
  assert (net_ok_at wb h2 net) as Hok2.
  { replace h2 with (set_weights net W h).1 by (rewrite Hrun; reflexivity).
    eapply net_ok_at_evolves; [apply set_weights_evolves; exact Hok | exact Hok]. }
  assert (net_ok h2 net) as Hnet2 by (exists wb; exact Hok2).
  assert (weights_arg h2 net None W) as Harg2.
  { apply weights_own.
    apply (read_flat_whole h2 _ None wb (n_weights net)); [exact Hw | | exact HlW].
    apply list_lookup_insert_eq. eapply lookup_lt_Some. exact HW0. }
  pose proof (weights_given h net w o buf Ho Hs Hb Hlen) as Harg. fold W in Harg.
  exists h2. split; [exact Hrun|]. split; [|split].
  - intros inp X Hinp Hapart.
    rewrite (predict_value net h wb inp (Some w) W X Hok Harg Hinp).
    rewrite (predict_value net h2 wb inp None W X Hok2 Harg2); [reflexivity|].
    destruct Hinp as [inp X Hin | r o' buf' n Ho' Hs' Hb' Hlen' Hne
                     | r o' buf' m c Ho' Hs' Hb' Hlen'].
    + apply input_lists. exact Hin.
    + apply (input_vector h2 None r o' buf' n); [exact Ho' | exact Hs' | | exact Hlen'
                                                   | discriminate].
      cbn [h2 bufs]. rewrite list_lookup_insert_ne; [exact Hb'|].
      intros E. apply (Hapart r o' _ eq_refl Ho' Hw). cbn [nd_buf]. congruence.
    + apply (input_matrix h2 None r o' buf' m c); [exact Ho' | exact Hs' | | exact Hlen'].
      cbn [h2 bufs]. rewrite list_lookup_insert_ne; [exact Hb'|].
      intros E. apply (Hapart r o' _ eq_refl Ho' Hw). cbn [nd_buf]. congruence.
  - intros X y lam jac.
    rewrite (cost_mse_value net h (Some w) W X y lam jac Hnet Harg).
    rewrite (cost_mse_value net h2 None W X y lam jac Hnet2 Harg2). reflexivity.
  - intros ln X y lam jac.
    rewrite (cost_log_value net h (Some w) W ln X y lam jac Hnet Harg).
    rewrite (cost_log_value net h2 None W ln X y lam jac Hnet2 Harg2). reflexivity.
Qed.
End WeightsArgument.

(** The network with one layer of weights and the caller's array
    [np.array([1., 2., 3.])]. *)
Lemma weights_argument_stands_for_set_weights_witness :
  exists h2,
    MLPNetwork.set_weights net21
      (take (MLPNetwork.n_weights net21) (drop (nd_off (NdArray None 3 0 [3])) [1; 2; 3]%float))
      heap21_args = (h2, Ok tt) /\
    (forall inp X,
       predict_input heap21_args (Some 6) inp X ->
       (forall r o_r o_w, inp = NdArr r -> objs heap21_args !! r = Some o_r ->
                          objs heap21_args !! MLPNetwork.weights net21 = Some o_w ->
                          nd_buf o_r <> nd_buf o_w) ->
       (MLPNetwork.predict net21 inp (Some 6) heap21_args).2
       = (MLPNetwork.predict net21 inp None h2).2) /\
    (forall X y lam jac,
       (MLPNetwork.cost_function_mse net21 X y (Some 6) lam jac heap21_args).2
       = (MLPNetwork.cost_function_mse net21 X y None lam jac h2).2) /\
    (forall ln X y lam jac,
       (MLPNetwork.cost_function_log ln net21 X y (Some 6) lam jac heap21_args).2
       = (MLPNetwork.cost_function_log ln net21 X y None lam jac h2).2).
Proof.
  apply (weights_argument_stands_for_set_weights net21 heap21_args 6 (NdArray None 3 0 [3])
           [1; 2; 3]%float).
  - exact reachable_heap21_args.
  - vm_compute. reflexivity.
  - reflexivity.
  - vm_compute. reflexivity.
  - vm_compute. lia.
Defined.

(* ===================================================================== *)
(** * Training data given as one array *)
(* ===================================================================== *)

Section TrainingDataInit.
Context {R : Type} `{Scalar R}.

(** [MLPTrainingData(data=rows, ndim=ndim)] for rows of [n_in + n_out]
    numbers, none of them NaN, where [n_in = ndim[0]] and
    [n_out = ndim[-1]]: the constructor returns, [data] holds the rows,
    [inputs] is the first [n_in] columns and [outputs] the [n_out]
    columns after them, both with as many rows as the data, and every row
    of the data is its row of [inputs] followed by its row of
    [outputs]. *)
Theorem training_data_splits_columns (r0 : list R) (rest : list (list R)) (ndim : list nat)
    (n_in_ n_out_ : nat) (name_ : option string) :
  ndim !! 0 = Some n_in_ -> last ndim = Some n_out_ ->
  Forall (fun r => length r = n_in_ + n_out_) (r0 :: rest) ->
  MLPTrainingData.has_nan (Mat (length r0) (r0 :: rest)) = false ->
  exists s,
    MLPTrainingData.init_from_data (PyNested (r0 :: rest)) ndim name_
    = Ok (Mat (n_in_ + n_out_) (r0 :: rest), s) /\
    MLPTrainingData.name s = name_ /\
    MLPTrainingData.n_in s = n_in_ /\ MLPTrainingData.n_out s = n_out_ /\
    has_shape (MLPTrainingData.inputs s) (S (length rest)) n_in_ /\
    has_shape (MLPTrainingData.outputs s) (S (length rest)) n_out_ /\
    zip_with app (mrows (MLPTrainingData.inputs s)) (mrows (MLPTrainingData.outputs s))
    = r0 :: rest.
Proof.
  intros Hin Hout Hrows Hnan.
  assert (length r0 = n_in_ + n_out_) as Hr0 by (inversion Hrows; assumption).
  assert (forallb (fun r => length r =? length r0) rest = true) as Hrect.
  { apply forallb_forall. intros r Hr. apply Nat.eqb_eq. rewrite Hr0.
    inversion Hrows as [|? ? _ Hrest]; subst. rewrite Forall_forall in Hrest.
    apply Hrest. apply list_elem_of_In. exact Hr. }
  unfold MLPTrainingData.init_from_data, py_index, py_last. rewrite Hin, Hout.
  rewrite !res_bind_ok, Hrect. cbn [ncols mrows]. rewrite Hnan.
  rewrite Hr0, Nat.eqb_refl. cbn [negb].
  eexists. split; [reflexivity|].
  cbn [MLPTrainingData.name MLPTrainingData.n_in MLPTrainingData.n_out
       MLPTrainingData.inputs MLPTrainingData.outputs mrows].
  split; [reflexivity|]. split; [reflexivity|]. split; [reflexivity|].
  replace (n_in_ + n_out_ - n_in_) with n_out_ by lia.
  split; [|split].
  - split; [unfold nrows; cbn [mrows]; rewrite length_map; reflexivity|].
    split; [cbn [ncols]; lia|].
    unfold mat_wf. cbn [mrows ncols]. apply Forall_map.
    eapply Forall_impl; [exact Hrows|]. intros r Hr. cbn beta in *.
    rewrite length_take. lia.
  - split; [unfold nrows; cbn [mrows]; rewrite length_map; reflexivity|].
    split; [cbn [ncols]; lia|].
    unfold mat_wf. cbn [mrows ncols]. apply Forall_map.
    eapply Forall_impl; [exact Hrows|]. intros r Hr. cbn beta in *.
    rewrite length_take, length_drop. lia.
  - clear Hrect Hnan Hr0. induction Hrows as [|r rows Hr _ IH]; [reflexivity|].
    cbn [map zip_with]. rewrite IH. f_equal.
    rewrite (take_ge (drop n_in_ r)) by (rewrite length_drop; lia).
    apply take_drop.
Qed.

(** What the constructor refuses: an empty [ndim] raises IndexError
    (before the data is looked at); a flat list, being a one-dimensional
    array, and the empty list raise ValueError; so do rows whose length is
    not [ndim[0] + ndim[-1]], and rows of that length with a NaN among
    them. *)
Theorem training_data_errors (name_ : option string) :
  (forall data, MLPTrainingData.init_from_data (R := R) data [] name_ = Raise IndexError) /\
  (forall l d ds,
     MLPTrainingData.init_from_data (R := R) (PyList l) (d :: ds) name_ = Raise ValueError) /\
  (forall d ds,
     MLPTrainingData.init_from_data (R := R) (PyNested []) (d :: ds) name_
     = Raise ValueError) /\
  (forall (r0 : list R) rest d ds,
     forallb (fun r => length r =? length r0) rest = true ->
     length r0 <> d + default d (last ds) ->
     MLPTrainingData.init_from_data (PyNested (r0 :: rest)) (d :: ds) name_
     = Raise ValueError) /\
  (forall (r0 : list R) rest d ds,
     forallb (fun r => length r =? length r0) rest = true ->
     length r0 = d + default d (last ds) ->
     existsb fisnan (concat (r0 :: rest)) = true ->
     MLPTrainingData.init_from_data (PyNested (r0 :: rest)) (d :: ds) name_
     = Raise ValueError).
Proof.
  assert (forall (d : nat) ds, py_last (d :: ds) = Ok (default d (last ds))) as Hlast.
  { intros d ds. unfold py_last. rewrite last_cons. destruct (last ds); reflexivity. }
  split; [reflexivity|]. split; [|split; [|split]].
  - intros l d ds. unfold MLPTrainingData.init_from_data. rewrite Hlast. reflexivity.
  - intros d ds. unfold MLPTrainingData.init_from_data. rewrite Hlast. reflexivity.
  - intros r0 rest d ds Hrect Hw. unfold MLPTrainingData.init_from_data.
    rewrite Hlast. cbn [py_index lookup list_lookup]. rewrite !res_bind_ok, Hrect.
    cbn [ncols]. replace (length r0 =? d + default d (last ds)) with false
      by (symmetry; apply Nat.eqb_neq; exact Hw).
    reflexivity.
  - intros r0 rest d ds Hrect Hw Hnan. unfold MLPTrainingData.init_from_data.
    rewrite Hlast. cbn [py_index lookup list_lookup]. rewrite !res_bind_ok, Hrect.
    cbn [ncols]. rewrite Hw, Nat.eqb_refl. cbn [negb].
    unfold MLPTrainingData.has_nan, ravel. cbn [mrows]. rewrite Hnan. reflexivity.
Qed.
End TrainingDataInit.

(** Two rows of two inputs and one output, for a network [2, 2, 1]. *)
Lemma training_data_splits_columns_witness :
  exists s,
    MLPTrainingData.init_from_data (PyNested [[0.5; 2; 1]; [1; -1; 0]]%float) [2; 2; 1] None
    = Ok (Mat (2 + 1) [[0.5; 2; 1]; [1; -1; 0]]%float, s) /\
    MLPTrainingData.name s = None /\
    MLPTrainingData.n_in s = 2 /\ MLPTrainingData.n_out s = 1 /\
    has_shape (MLPTrainingData.inputs s) (S (length [[1; -1; 0]%float])) 2 /\
    has_shape (MLPTrainingData.outputs s) (S (length [[1; -1; 0]%float])) 1 /\
    zip_with app (mrows (MLPTrainingData.inputs s)) (mrows (MLPTrainingData.outputs s))
    = [[0.5; 2; 1]; [1; -1; 0]]%float.
Proof.
  apply (training_data_splits_columns [0.5; 2; 1]%float [[1; -1; 0]%float] [2; 2; 1] 2 1 None).
  - reflexivity.
  - reflexivity.
  - repeat constructor.
  - vm_compute. reflexivity.
Defined.

(* ===================================================================== *)
(** * Fixed weights for testing *)
(* ===================================================================== *)

Section FixedWeightsFacts.
Context {R : Type} `{Scalar R}.

(** The module's [initialize_weights(fan_out, fan_in)] returns a matrix
    of [fan_out] rows and [1 + fan_in] columns (the shape of the weight
    block of a layer of [fan_out] nodes fed by [fan_in] nodes, not the
    [(1 + fan_in, fan_out)] its docstring speaks of), whose entry in row
    [i] and column [j] is [sin(i + j*fan_out + 1)/10]: the sines of 1, 2,
    ... run down the columns.  Flattened, it has as many entries as a
    network [fan_in, fan_out] has weights. *)
Theorem fixed_weights_shape_and_entries (sin : R -> R) (fan_out fan_in : nat) :
  has_shape (initialize_weights sin fan_out fan_in) fan_out (1 + fan_in) /\
  (forall i j, i < fan_out -> j < 1 + fan_in ->
     exists row,
       mrows (initialize_weights sin fan_out fan_in) !! i = Some row /\
       row !! j = Some (sin (of_int (Z.of_nat (i + j * fan_out) + 1)) / of_int 10)%F) /\
  length (ravel (initialize_weights sin fan_out fan_in)) = weight_count [fan_in; fan_out].
Proof.
  unfold initialize_weights, reshape2_F, divide.
  set (flat := map _ (seq 0 (fan_out * (1 + fan_in)))).
  assert (has_shape (mmap (fun x => (x / of_int 10)%F)
                          (transpose (reshape2 (1 + fan_in) fan_out flat)))
                    fan_out (1 + fan_in)) as Hshape.
  { apply shape_mmap.
    destruct (shape_transpose (reshape2 (1 + fan_in) fan_out flat)) as (Hr & Hc & Hwf).
    split; [rewrite Hr; reflexivity|]. split; [|exact Hwf].
    rewrite Hc. unfold nrows, reshape2. cbn [mrows]. rewrite length_map, length_seq.
    reflexivity. }
  split; [exact Hshape|]. split.
  - intros i j Hi Hj. unfold mmap, transpose, reshape2. cbn [mrows ncols].
    rewrite !list_lookup_fmap, lookup_seq_lt by exact Hi. cbn [fmap option_fmap option_map].
    eexists. split; [reflexivity|].
    rewrite !list_lookup_fmap, lookup_seq_lt by exact Hj.
    cbn [fmap option_fmap option_map Nat.add]. f_equal. f_equal.
    rewrite nth_lookup, lookup_take by exact Hi. rewrite lookup_drop.
    unfold flat. rewrite list_lookup_fmap, lookup_seq_lt by nia.
    rewrite decide_True by exact Hi. cbn.
    replace (j * fan_out + i) with (i + j * fan_out) by lia. reflexivity.
  - rewrite (ravel_length _ _ _ Hshape). cbn. lia.
Qed.
End FixedWeightsFacts.
